(* ===== verification/_CoqProject ===== *)
-Q . S2P
Prelude.v
GoStrings.v
GoNetip.v
GoNet.v
Normalize.v
Target.v
GoErrors.v
HostKey.v
Identification.v
GoFloat.v
Probe.v
ProbeRun.v
ProbeFailure.v
Collector.v
Mss.v
Config.v
ProbeHttp.v
TargetForms.v
ProbeServe.v
Scrape.v
FdLimit.v
Flags.v
Main.v
Exporter.v
Pages.v
SshTest.v
