(* ===== verification/Prelude.v ===== *)
(** * A verification development for ssh_transport_exporter

    The exporter answers /probe requests: it opens an SSH connection to a target,
    runs the transport handshake up to the point where authentication would start,
    and reports what happened as Prometheus metrics.  It takes hosts from callers
    and bytes from servers, both untrusted, so the development is about who may be
    probed, what a probe may claim, and what holds when requests, reloads and
    signals interleave.

    ** How the program fits together

    [main] loads the configuration and serves.  A request passes the checks of
    probehttp against the live configuration, takes a slot, and a collector runs
    one probe.  The probe dials, watches the connection for the identification
    string, lets x/crypto/ssh exchange keys, verifies the host key against
    known_hosts and returns a [Result], from which the collector makes metrics.
    SIGHUP and POST /-/reload replace the live configuration.

    ** Files (sources under src/)

    - Prelude: strings of bytes, the error monad [res], lemmas and tactics shared
      by all files, the hint database of the development.
    - GoStrings, GoNetip, GoNet, GoErrors, GoFloat: what the sources use of Go's
      standard library (strings, strconv, utf8; netip; net/url and net; errors;
      float64 and ParseFloat), executable and close to the library's own code.
    - Normalize: internal/normalize/normalize.go, [Hostname].
    - Target: internal/config/target.go.  Each matcher is a record with an instance
      of the class [TargetMatcher]; [matcher] is the interface value.
    - HostKey: internal/probe/probe.go, [verifyHostKey] and
      [classifyHostKeyVerifyError].
    - Identification: internal/probe/probe.go, the [identificationWatcher] on the
      connection and [parseServerIdentification].
    - Probe: internal/probe/probe.go, [Run] and its parts.  [Run] of the source is
      one function; here [reportDial], [hostKeyCallback], [transportReady],
      [reportVersionExchange], [reportKeyExchange] and [reportHostKey] are its
      consecutive stretches, composed by [run_body].  ProbeRun: theorems about it.
    - ProbeFailure: which error a failed probe reports, as a function of where it
      stopped and why.
    - Collector: internal/collector/collector.go.  A scrape is the list of metrics
      [Collect] sends, in order.
    - Mss: internal/probe/mss_linux.go and mss_other.go, and the way of their
      answer into the metrics.
    - Config: internal/config/config.go and module.go, [loadRawConfig], [build] and
      [Load].
    - ProbeHttp: internal/probehttp/probehttp.go, [ensurePort], [targetAllowed],
      [effectiveTimeout], [statusRecorder], and [check]: what the handler decides
      before it starts a probe.  TargetForms: a grammar of the targets
      [ensurePort] accepts, independent of the URL parser.
    - ProbeServe: the handler of the same file, as the step relation [step] of
      concurrent requests, and as the function [Handler] of one request alone.
      Scrape: the same with the collector and promhttp in place.
    - FdLimit: internal/fdlimit.
    - Flags: main.go, [flags], [parseFlags] and [validate].
    - Main: main.go, [reload], the routes, [main] up to the opening of the
      listener, and [serve] with its signal goroutine as the step relation
      [serve_step], divided into what arrives ([arrival]: signals and [traffic],
      whose requests need not end) and what [serve] does itself ([own_event]).
    - Exporter: the state [main] shares between goroutines, requests and reloads
      together, as the step relation [exporter_step].
    - Pages: main.go, the landing page, health checks, the answer to a reload and
      the registered names; internal/buildinfo.
    - SshTest: internal/sshtest, the servers the tests probe.

    ** What the theorems show

    - Access control (C2, C3, C19-C21, C26, C28-C31, C36): a probe only runs for a
      module that exists, on one of its ports, for a host that one of the patterns
      in the configuration file matches, in every interleaving of requests and
      reloads; the dialer is given that host and port; which targets are accepted,
      and what each kind of pattern matches; when --allow-all-targets matters;
      which check refuses.
    - Host keys (C5-C7): verification implements a verdict on the known_hosts file
      that is stated independently of the code; no success without it.
    - Probes (C1, C4, C12-C15, C18): success, the order of phases, the documented
      error pairs and their causes, durations and identification, for every
      server; a probe never authenticates.
    - Identification (C16, C17): the parser accepts a grammar, the watcher finds
      the first SSH line however the stream is cut.
    - Metrics (C8, C22, C23): every admitted probe is answered, no scrape can be
      refused or panic; labels are safe; what is sent when.
    - Configuration (C24, C25, C27): loaded modules are usable; inheritance; Go's
      random map order cannot be observed in what is loaded.
    - Serving (C9, C10, C32-C35): the concurrency bound, no leaks, one
      count per request, timeouts, bounded labels, every request can end.
    - Life cycle (C2, C11, C37-C40): what a running exporter probes was let through
      by the file as last loaded when the request was checked; reloads refine a
      sequence of atomic ones and never go back; [serve] drains before it returns,
      and returns under every schedule once it is told to, also when requests do
      not end; what the command line means.

    Witnesses apply each theorem with hypotheses to a concrete input.  A few
    examples exhibit inputs where the code does something its documentation does
    not say: [zoned_literal_passes_wildcard], [host_patterns_match_addresses] and
    [empty_query_accepted] in ProbeHttp, [allow_all_beside_a_list] in Config, [Sufficient_overflows] in FdLimit,
    [host_key_failure_keeps_key_exchange_metrics] in Collector and
    [termination_signal_lost] in Main.

    ** Numbers, bounds and fuel

    An [int] or [time.Duration] is a Z; [Sub] saturates at 64 bits as Go's
    [Time.Sub] does, [Atoi] refuses what an int cannot hold, and [Sufficient]
    wraps at 2^64.  A float64 is an integer count of 2^-1074, so rounding is exact
    integer arithmetic; [effectiveTimeout_bounds] asks for durations below 2^53 ns,
    where such a duration is a float without rounding.  Recursion is structural
    throughout, except for the digits of [Itoa], whose fuel of 20 exceeds the 19
    digits of the largest int; [Itoa] and [Atoi] are shown to be inverse.

    ** Parameters and what is assumed of them

    Code outside the repository is a parameter.  x/crypto/ssh is a tree of reads
    and callbacks ([handshake]); [client_contract] says that it asks about host
    keys only after an identification line was read, calls the transport callback
    only after a host key was accepted, and then ends with an error that wraps the
    callback's; no other error it returns is the probe's.  The known_hosts callback
    follows [KnownHostsCallback].  The dialer and the clock answer as in
    [dial_contract], [dial_errors] and [clock_contract]: a dial succeeds only
    through a connection attempt, only the lookup of a name fails with a
    [DNSError] and only connecting with an errno, and the clock does not run
    backwards; algorithms are negotiated after the version exchange
    ([negotiation_contract]).  Prometheus joins the parts of a
    name by underscores ([PrometheusLaws]); ranging over a map yields its entries in
    some order ([MapRangeLaws]); the lower case of a non-ASCII code point is
    non-ASCII or a lower-case letter ([UnicodeLaws]), the upper case of ASCII text
    is ASCII's ([ToUpperLaws]).  promhttp serves what a registry gathers without
    error with status 200 ([PromhttpLaws]); whatever a probe meets, the client of
    x/crypto/ssh keeps its contract and negotiates algorithms it implements, whose
    names are printable ([NetworkLaws]); kingpin prefers the command line to the
    environment, where an empty variable is unset, and that to the default
    ([KingpinLaws]); [Control] of a raw
    connection runs its function on the descriptor or fails ([RawSocketsLaws]); a
    client of a peer that closed reads EOF or a reset ([TcpPeerLaws]).
    Each contract has an instance that the witnesses use.

    ** Not modelled

    Logging; kingpin, promhttp, exporter-toolkit, x/crypto/ssh and net/http beyond
    their contracts; YAML and known_hosts parsing; the cleaning of request paths
    and its redirects; the tests.  [Load] reads its file once; a file that changes
    during the read is not modelled.  Help texts of metrics and flags and the
    wording of error messages are left out.

    ** Next

    The probe handler's contexts, so that a probe's context error and its
    timeout are the same event; the handler and [serve] in one system, so that the
    requests [serve] drains are those of the handler; the reading of known_hosts
    paths. *)

From Stdlib Require Export Ascii ZArith Lia.
From stdpp Require Export base tactics decidable list fin_maps gmap strings numbers.

(** stdpp's [simplify_eq] clears hypotheses that an earlier step has cleared. *)
#[export] Set Warnings "-clear-no-such-hyp".
#[export] Set Warnings "-register-all".

(** ** Strings of bytes

    A Go [string] and a Go [[]byte] are sequences of bytes; both are lists of
    8-bit characters here, so that the lemmas on lists apply to them.  String
    literals are converted by the coercion below, and the empty string is []. *)

Abbreviation gostring := (list ascii).

#[warnings="-uniform-inheritance"]
Coercion String.list_ascii_of_string : string >-> list.

(** The value of a byte. *)
Definition byte_val (c : ascii) : Z := Z.of_N (N_of_ascii c).

(** The byte with a value, modulo 256 as a Go conversion to byte does. *)
Definition byte_of (n : Z) : ascii := ascii_of_N (Z.to_N (n mod 256)).

(** ** Fallible code

    A Go function that returns [(T, error)] is a function to [res E T]; the
    Go idiom [if err != nil { return ..., err }] is the monadic bind. *)

Inductive res (E A : Type) : Type :=
  | Ok (a : A)
  | Fail (e : E).
Arguments Ok {E A} _.
Arguments Fail {E A} _.

#[global] Instance res_ret E : MRet (res E) := λ A a, Ok a.
#[global] Instance res_bind E : MBind (res E) := λ A B f m,
  match m with Ok a => f a | Fail e => Fail e end.
#[global] Instance res_eq_dec `{EqDecision E, EqDecision A} : EqDecision (res E A).
Proof. solve_decision. Defined.

Definition is_ok {E A} (r : res E A) : bool :=
  match r with Ok _ => true | Fail _ => false end.

(** [fmt.Errorf("...: %w", err)]: the error is rewrapped, success is kept. *)
Definition map_err {E F A} (f : E → F) (r : res E A) : res F A :=
  match r with Ok a => Ok a | Fail e => Fail (f e) end.

(** A guard that returns an error when the condition of the code holds. *)
Definition fail_if {E} (b : bool) (e : E) : res E () :=
  if b then Fail e else Ok ().

Section res_lemmas.
Context {E A B : Type}.
Implicit Types (m : res E A) (f : A → res E B).

Lemma bind_Ok m f b : m ≫= f = Ok b ↔ ∃ a, m = Ok a ∧ f a = Ok b.
Proof. destruct m as [a|e]; simpl; naive_solver. Qed.

Lemma fail_if_Ok (b : bool) (e : E) u : fail_if b e = Ok u ↔ b = false.
Proof. destruct b, u; simpl; split; congruence. Qed.

Lemma map_err_Ok {F} (g : E → F) (r : res E A) a : map_err g r = Ok a ↔ r = Ok a.
Proof. destruct r; simpl; naive_solver. Qed.

Lemma is_ok_true (r : res E A) : is_ok r = true ↔ ∃ a, r = Ok a.
Proof. destruct r; simpl; naive_solver. Qed.
End res_lemmas.

(** Inversion of a computation that succeeded, step by step. *)
Ltac inv_ok :=
  repeat match goal with
  | H : Ok _ = Ok _ |- _ => injection H as H; subst
  | H : Some _ = Some _ |- _ => injection H as H; subst
  | H : Fail _ = Ok _ |- _ => discriminate H
  | H : None = Some _ |- _ => discriminate H
  | H : mret _ = Ok _ |- _ => injection H as H; subst
  | H : (_ ≫= _) = Ok _ |- _ => apply bind_Ok in H; destruct H as (? & ? & H); simpl in H
  | H : (_ ≫= _) = Some _ |- _ => apply bind_Some in H; destruct H as (? & ? & H); simpl in H
  | H : fail_if _ _ = Ok _ |- _ => apply fail_if_Ok in H
  | H : map_err _ _ = Ok _ |- _ => apply map_err_Ok in H
  end.

(** Case analysis on every test of the goal or of a hypothesis. *)
Ltac cases_match := repeat (case_match; simplify_eq/=; try done).

(** Boolean conditions of the code as propositions. *)
Ltac bool_simpl :=
  repeat match goal with
  | H : _ && _ = true |- _ => apply andb_true_iff in H; destruct H
  | H : _ || _ = false |- _ => apply orb_false_iff in H; destruct H
  | H : negb _ = true |- _ => apply negb_true_iff in H
  | H : negb _ = false |- _ => apply negb_false_iff in H
  | H : bool_decide _ = true |- _ => apply bool_decide_eq_true in H
  | H : bool_decide _ = false |- _ => apply bool_decide_eq_false in H
  | H : (_ =? _)%Z = true |- _ => apply Z.eqb_eq in H
  | H : (_ =? _)%Z = false |- _ => apply Z.eqb_neq in H
  | H : (_ <? _)%Z = true |- _ => apply Z.ltb_lt in H
  | H : (_ <? _)%Z = false |- _ => apply Z.ltb_ge in H
  | H : (_ <=? _)%Z = true |- _ => apply Z.leb_le in H
  | H : (_ <=? _)%Z = false |- _ => apply Z.leb_gt in H
  end.

(** ** Machine integers

    Go's [int] and [time.Duration] are 64 bits wide on every released
    platform; [uint64] arithmetic wraps. *)

Definition min_int64 : Z := - 2 ^ 63.
Definition max_int64 : Z := 2 ^ 63 - 1.
Definition wrap_u64 (n : Z) : Z := n mod 2 ^ 64.
Definition wrap_i64 (n : Z) : Z := (n + 2 ^ 63) mod 2 ^ 64 - 2 ^ 63.
Definition in_int64 (n : Z) : Prop := (min_int64 ≤ n ≤ max_int64)%Z.

Lemma wrap_i64_id n : in_int64 n → wrap_i64 n = n.
Proof.
  unfold in_int64, wrap_i64, min_int64, max_int64. intros H.
  rewrite Z.mod_small by lia. lia.
Qed.

Lemma wrap_u64_id n : (0 ≤ n < 2 ^ 64)%Z → wrap_u64 n = n.
Proof. intros H. unfold wrap_u64. by rewrite Z.mod_small. Qed.

Lemma wrap_i64_range n : in_int64 (wrap_i64 n).
Proof.
  unfold in_int64, wrap_i64, min_int64, max_int64.
  pose proof (Z.mod_pos_bound (n + 2 ^ 63) (2 ^ 64)). lia.
Qed.

(** ** Lists *)

Lemma byte_val_range c : (0 ≤ byte_val c < 256)%Z.
Proof.
  unfold byte_val. pose proof (N_ascii_bounded c). lia.
Qed.

Lemma byte_of_val c : byte_of (byte_val c) = c.
Proof.
  unfold byte_of. rewrite Z.mod_small by apply byte_val_range.
  unfold byte_val. rewrite N2Z.id. apply ascii_N_embedding.
Qed.

Lemma byte_val_of n : (0 ≤ n < 256)%Z → byte_val (byte_of n) = n.
Proof.
  intros H. unfold byte_of, byte_val. rewrite Z.mod_small by done.
  rewrite N_ascii_embedding by lia. lia.
Qed.

#[global] Instance byte_val_inj : Inj (=) (=) byte_val.
Proof. intros c d H. by rewrite <- (byte_of_val c), H, byte_of_val. Qed.

Lemma sublist_map {A B} (f : A → B) l k : sublist l k → sublist (map f l) (map f k).
Proof. induction 1; cbn; by constructor. Qed.

Create HintDb exporter.
#[export] Hint Resolve byte_val_range wrap_i64_range : exporter.
#[export] Hint Rewrite byte_of_val wrap_i64_id : exporter.
