(* ===== verification/GoStrings.v ===== *)
(** * The parts of Go's [strings], [bytes], [strconv] and [unicode/utf8] used

    Byte-level searching, cutting and trimming, decimal conversions at the
    width of [int], and [strings.ToLower] with its UTF-8 decoding.  The case
    table of non-ASCII code points is the [UnicodeTables] class: it is data of
    the Go distribution, and nothing below depends on its rows. *)

From S2P Require Import Prelude.
Open Scope Z_scope.

(** ** Searching and trimming *)

Definition HasPrefix (s p : gostring) : bool := bool_decide (p `prefix_of` s).
Definition HasSuffix (s p : gostring) : bool := bool_decide (p `suffix_of` s).

Definition TrimPrefix (s p : gostring) : gostring :=
  if HasPrefix s p then drop (length p) s else s.
Definition TrimSuffix (s p : gostring) : gostring :=
  if HasSuffix s p then take (length s - length p) s else s.

(** [bytes.CutPrefix]: the rest, when the prefix is there. *)
Definition CutPrefix (s p : gostring) : option gostring :=
  if HasPrefix s p then Some (drop (length p) s) else None.

(** [strings.Contains] of a one-byte string, and [ContainsRune] of an ASCII rune. *)
Definition ContainsByte (s : gostring) (c : ascii) : bool := bool_decide (c ∈ s).

#[global] Arguments HasPrefix : simpl never.
#[global] Arguments HasSuffix : simpl never.
#[global] Arguments ContainsByte : simpl never.

(** Split at the first occurrence of a byte ([Cut], [IndexByte]). *)
Fixpoint CutByte (s : gostring) (c : ascii) : option (gostring * gostring) :=
  match s with
  | [] => None
  | x :: s' =>
      if bool_decide (x = c) then Some ([], s')
      else match CutByte s' c with
           | Some (b, a) => Some (x :: b, a)
           | None => None
           end
  end.

(** Split at the last occurrence of a byte ([LastIndexByte]). *)
Fixpoint LastCutByte (s : gostring) (c : ascii) : option (gostring * gostring) :=
  match s with
  | [] => None
  | x :: s' =>
      match LastCutByte s' c with
      | Some (b, a) => Some (x :: b, a)
      | None => if bool_decide (x = c) then Some ([], s') else None
      end
  end.

(** ** Character classes *)

Definition is_digit (c : ascii) : bool := (48 <=? byte_val c) && (byte_val c <=? 57).
Definition is_lower (c : ascii) : bool := (97 <=? byte_val c) && (byte_val c <=? 122).
Definition is_upper (c : ascii) : bool := (65 <=? byte_val c) && (byte_val c <=? 90).
Definition is_alnum (c : ascii) : bool := is_digit c || is_lower c || is_upper c.

(** The value of a hexadecimal digit. *)
Definition hex_val (c : ascii) : option Z :=
  let b := byte_val c in
  if is_digit c then Some (b - 48)
  else if (97 <=? b) && (b <=? 102) then Some (b - 87)
  else if (65 <=? b) && (b <=? 70) then Some (b - 55)
  else None.

(** ** Decimal integers *)

(** [strconv.Atoi] without the sign: every byte a digit, at least one. *)
Fixpoint atoi_loop (s : gostring) (acc : Z) : option Z :=
  match s with
  | [] => Some acc
  | c :: s' => if is_digit c then atoi_loop s' (acc * 10 + (byte_val c - 48)) else None
  end.

(** [strconv.Atoi]: an optional sign and decimal digits within [int]'s range. *)
Definition Atoi (s : gostring) : option Z :=
  let '(neg, digits) :=
    match s with
    | c :: s' =>
        if bool_decide (c = "-"%char) then (true, s')
        else if bool_decide (c = "+"%char) then (false, s') else (false, s)
    | [] => (false, s)
    end in
  match digits with
  | [] => None
  | _ =>
      n ← atoi_loop digits 0;
      let n := if neg : bool then - n else n in
      if (min_int64 <=? n) && (n <=? max_int64) then Some n else None
  end.

Definition digit_of (n : Z) : ascii := byte_of (48 + n).

(** Digits from the least significant one.  Twenty digits hold an [int]. *)
Fixpoint itoa_loop (fuel : nat) (n : Z) (acc : gostring) : gostring :=
  match fuel with
  | O => acc
  | S fuel =>
      let acc := digit_of (n mod 10) :: acc in
      if n <? 10 then acc else itoa_loop fuel (n / 10) acc
  end.

Definition Itoa (n : Z) : gostring :=
  if n <? 0 then "-"%char :: itoa_loop 20 (- n) [] else itoa_loop 20 n [].

(** ** UTF-8 and lower case *)

Definition RuneError : Z := 65533.

Definition in_range (lo hi n : Z) : bool := (lo <=? n) && (n <=? hi).

(** The second bytes [utf8.DecodeRune] accepts after a three- or four-byte lead. *)
Definition accept3 (b0 b1 : Z) : bool :=
  if b0 =? 224 then in_range 160 191 b1
  else if b0 =? 237 then in_range 128 159 b1
  else in_range 225 239 b0 && in_range 128 191 b1.
Definition accept4 (b0 b1 : Z) : bool :=
  if b0 =? 240 then in_range 144 191 b1
  else if b0 =? 244 then in_range 128 143 b1
  else in_range 241 243 b0 && in_range 128 191 b1.
Definition cont (b : Z) : bool := in_range 128 191 b.

(** The code points of a string; an invalid byte decodes as [RuneError]. *)
Fixpoint runes (s : gostring) : list Z :=
  match s with
  | [] => []
  | c0 :: s1 =>
    let b0 := byte_val c0 in
    if b0 <? 128 then b0 :: runes s1 else
    match s1 with
    | [] => RuneError :: runes s1
    | c1 :: s2 =>
      let b1 := byte_val c1 in
      if in_range 194 223 b0 && cont b1 then ((b0 - 192) * 64 + (b1 - 128)) :: runes s2 else
      match s2 with
      | [] => RuneError :: runes s1
      | c2 :: s3 =>
        let b2 := byte_val c2 in
        if accept3 b0 b1 && cont b2 then
          ((b0 - 224) * 4096 + (b1 - 128) * 64 + (b2 - 128)) :: runes s3 else
        match s3 with
        | [] => RuneError :: runes s1
        | c3 :: s4 =>
          let b3 := byte_val c3 in
          if accept4 b0 b1 && cont b2 && cont b3 then
            ((b0 - 240) * 262144 + (b1 - 128) * 4096 + (b2 - 128) * 64 + (b3 - 128)) :: runes s4
          else RuneError :: runes s1
        end
      end
    end
  end.

(** [utf8.AppendRune]: surrogates and values past U+10FFFF encode [RuneError]. *)
Definition valid_rune (r : Z) : Z :=
  if in_range 55296 57343 r || (1114111 <? r) then RuneError else r.

Definition encode_rune (r : Z) : gostring :=
  let r := valid_rune r in
  if r <? 128 then [byte_of r]
  else if r <? 2048 then [byte_of (192 + r / 64); byte_of (128 + r mod 64)]
  else if r <? 65536 then
    [byte_of (224 + r / 4096); byte_of (128 + (r / 64) mod 64); byte_of (128 + r mod 64)]
  else
    [byte_of (240 + r / 262144); byte_of (128 + (r / 4096) mod 64);
     byte_of (128 + (r / 64) mod 64); byte_of (128 + r mod 64)].

(** The lower-case column of Go's [unicode.CaseRanges], for code points past
    U+007F; the ASCII rows are written out in [ToLower_rune]. *)
Class UnicodeTables := { unicode_lower : Z → Z }.

Section ToLower.
Context {U : UnicodeTables}.

(** [unicode.ToLower] *)
Definition ToLower_rune (r : Z) : Z :=
  if r <=? 127 then (if in_range 65 90 r then r + 32 else r) else unicode_lower r.

Definition lower_byte (c : ascii) : ascii :=
  if is_upper c then byte_of (byte_val c + 32) else c.

Definition is_ascii (s : gostring) : bool := forallb (λ c, byte_val c <? 128) s.

(** [strings.Map(unicode.ToLower, s)]: negative runes are dropped. *)
Definition map_lower (s : gostring) : gostring :=
  concat (map (λ r, let r := ToLower_rune r in if r <? 0 then [] else encode_rune r) (runes s)).

(** [strings.ToLower], with its ASCII fast path. *)
Definition ToLower (s : gostring) : gostring :=
  if is_ascii s then map lower_byte s else map_lower s.
End ToLower.

(** ** Laws of searching and trimming *)

Lemma HasPrefix_spec s p : HasPrefix s p = true ↔ ∃ r, s = p ++ r.
Proof. unfold HasPrefix. rewrite bool_decide_eq_true. done. Qed.

Lemma HasSuffix_spec s p : HasSuffix s p = true ↔ ∃ r, s = r ++ p.
Proof. unfold HasSuffix. rewrite bool_decide_eq_true. done. Qed.

Lemma HasPrefix_app p r : HasPrefix (p ++ r) p = true.
Proof. apply HasPrefix_spec. eauto. Qed.

Lemma HasSuffix_app p r : HasSuffix (r ++ p) p = true.
Proof. apply HasSuffix_spec. eauto. Qed.

Lemma TrimPrefix_app p r : TrimPrefix (p ++ r) p = r.
Proof. unfold TrimPrefix. by rewrite HasPrefix_app, drop_app_length. Qed.

Lemma take_suffix {A} (p r : list A) : take (length (r ++ p) - length p) (r ++ p) = r.
Proof.
  rewrite length_app. replace (length r + length p - length p)%nat with (length r) by lia.
  by rewrite take_app_length.
Qed.

Lemma TrimSuffix_app p r : TrimSuffix (r ++ p) p = r.
Proof. unfold TrimSuffix. by rewrite HasSuffix_app, take_suffix. Qed.

Lemma CutPrefix_spec s p r : CutPrefix s p = Some r ↔ s = p ++ r.
Proof.
  unfold CutPrefix. case_match eqn:H.
  - apply HasPrefix_spec in H as [r' ->]. rewrite drop_app_length.
    split; [congruence|]. intros ?%app_inv_head. congruence.
  - split; [done|]. intros ->. by rewrite HasPrefix_app in H.
Qed.

Lemma CutPrefix_None s p : CutPrefix s p = None ↔ ¬ ∃ r, s = p ++ r.
Proof.
  unfold CutPrefix. case_match eqn:H.
  - apply HasPrefix_spec in H. naive_solver.
  - split; [|done]. intros _ ?%HasPrefix_spec. congruence.
Qed.

Lemma ContainsByte_true s c : ContainsByte s c = true ↔ c ∈ s.
Proof. apply bool_decide_eq_true. Qed.
Lemma ContainsByte_false s c : ContainsByte s c = false ↔ c ∉ s.
Proof. apply bool_decide_eq_false. Qed.

Lemma CutByte_None s c : CutByte s c = None ↔ c ∉ s.
Proof.
  induction s as [|x s IH]; simpl; [split; [set_solver|done]|].
  case_bool_decide; subst; [set_solver|].
  destruct (CutByte s c) as [[b a]|]; [|set_solver].
  split; [done|]. intros Hn. exfalso. apply not_elem_of_cons in Hn as [_ Hn].
  by apply IH in Hn.
Qed.

Lemma CutByte_Some s c b a : CutByte s c = Some (b, a) ↔ s = b ++ c :: a ∧ c ∉ b.
Proof.
  revert b. induction s as [|x s IH]; intros b; simpl.
  { split; [done|]. intros [H _]. by destruct b. }
  case_bool_decide as Hx; subst.
  { split; [intros [= <- <-]; set_solver|].
    intros [H Hb]. destruct b; simplify_eq/=; [done|set_solver]. }
  destruct (CutByte s c) as [[b' a']|] eqn:Hc.
  - split.
    + intros [= <- <-]. destruct (proj1 (IH b') eq_refl) as [-> ?]. set_solver.
    + intros [H Hb]. destruct b as [|y b]; simplify_eq/=. apply not_elem_of_cons in Hb as [_ Hb].
      by pose proof (proj2 (IH b) (conj eq_refl Hb)) as [= -> ->].
  - split; [done|]. apply CutByte_None in Hc. intros [H Hb].
    destruct b; simplify_eq/=. set_solver.
Qed.

Lemma LastCutByte_None s c : LastCutByte s c = None ↔ c ∉ s.
Proof.
  induction s as [|x s IH]; simpl; [split; [set_solver|done]|].
  destruct (LastCutByte s c) as [[b a]|] eqn:Hc.
  - split; [done|]. intros Hn%not_elem_of_cons. destruct Hn as [_ Hn]. by apply IH in Hn.
  - case_bool_decide; subst; set_solver.
Qed.

Lemma LastCutByte_Some s c b a : LastCutByte s c = Some (b, a) ↔ s = b ++ c :: a ∧ c ∉ a.
Proof.
  revert b. induction s as [|x s IH]; intros b; simpl.
  { split; [done|]. intros [H _]. by destruct b. }
  destruct (LastCutByte s c) as [[b' a']|] eqn:Hc.
  - split.
    + intros [= <- <-]. destruct (proj1 (IH b') eq_refl) as [-> ?]. done.
    + intros [H Ha]. destruct b as [|y b]; simplify_eq/=.
      * apply LastCutByte_None in Ha. congruence.
      * by pose proof (proj2 (IH b) (conj eq_refl Ha)) as [= -> ->].
  - apply LastCutByte_None in Hc. case_bool_decide as Hx; subst.
    + split; [intros [= <- <-]; done|]. intros [H Ha]. destruct b; simplify_eq/=; [done|set_solver].
    + split; [done|]. intros [H Ha]. destruct b; simplify_eq/=. set_solver.
Qed.

Lemma LastCutByte_snoc s x c :
  x ≠ c → LastCutByte (s ++ [x]) c
          = match LastCutByte s c with Some (b, r) => Some (b, r ++ [x]) | None => None end.
Proof.
  intros Hx. destruct (LastCutByte s c) as [[b r]|] eqn:H.
  - apply LastCutByte_Some in H as [-> Hr]. apply LastCutByte_Some. split.
    + by rewrite <- app_assoc.
    + set_solver.
  - apply LastCutByte_None in H. apply LastCutByte_None. set_solver.
Qed.

Lemma digits_no_byte s c : forallb is_digit s = true → is_digit c = false → c ∉ s.
Proof.
  intros Hs Hc Hin. rewrite forallb_forall in Hs. apply list_elem_of_In, Hs in Hin. congruence.
Qed.

(** ** Laws of the decimal conversions *)

Lemma digit_of_val n : 0 ≤ n < 10 → byte_val (digit_of n) = 48 + n.
Proof. intros. unfold digit_of. apply byte_val_of. lia. Qed.

Lemma digit_of_is_digit n : 0 ≤ n < 10 → is_digit (digit_of n) = true.
Proof. intros. unfold is_digit. rewrite digit_of_val by done. lia. Qed.

(** What a decimal string denotes, whatever precedes it. *)
Definition decimal_value (s : gostring) (acc : Z) : Z :=
  foldl (λ a c, a * 10 + (byte_val c - 48)) acc s.

Lemma atoi_loop_digits s acc :
  forallb is_digit s = true → atoi_loop s acc = Some (decimal_value s acc).
Proof.
  revert acc. induction s as [|c s IH]; intros acc; simpl; [done|].
  intros [-> Hs]%andb_true_iff. by apply IH.
Qed.

Lemma atoi_loop_nondigit s acc n : atoi_loop s acc = Some n → forallb is_digit s = true.
Proof.
  revert acc. induction s as [|c s IH]; intros acc; simpl; [done|].
  destruct (is_digit c); [|done]. apply IH.
Qed.

Lemma decimal_value_app s1 s2 acc :
  decimal_value (s1 ++ s2) acc = decimal_value s2 (decimal_value s1 acc).
Proof. apply foldl_app. Qed.

Lemma itoa_loop_small fuel n acc :
  n < 10 → itoa_loop (S fuel) n acc = digit_of (n mod 10) :: acc.
Proof. intros Hn. cbn [itoa_loop]. by rewrite (proj2 (Z.ltb_lt n 10)). Qed.

(** [itoa_loop] puts the digits of [n] in front of [acc]. *)
Lemma itoa_loop_spec fuel n acc :
  0 ≤ n < 10 ^ Z.of_nat fuel → fuel ≠ O →
  ∃ ds, itoa_loop fuel n acc = ds ++ acc ∧ forallb is_digit ds = true ∧ ds ≠ []
        ∧ decimal_value ds 0 = n ∧ (n < 10 → length ds = 1%nat)
        ∧ (10 ≤ n → head ds ≠ Some "0"%char).
Proof.
  revert n acc. induction fuel as [|fuel IH]; [done|]. intros n acc Hn _.
  rewrite Nat2Z.inj_succ, Z.pow_succ_r in Hn by lia. simpl.
  pose proof (Z.mod_pos_bound n 10).
  assert (Hd : is_digit (digit_of (n mod 10)) = true) by (apply digit_of_is_digit; lia).
  destruct (Z.ltb_spec n 10) as [Hlt|Hge].
  - exists [digit_of (n mod 10)]. simpl. rewrite Hd. repeat split; try done; [|lia].
    unfold decimal_value. simpl. rewrite digit_of_val by lia. rewrite Z.mod_small; lia.
  - destruct fuel as [|fuel']; [change (10 ^ Z.of_nat 0) with 1 in Hn; lia|].
    pose proof (Z.div_mod n 10).
    destruct (IH (n / 10) (digit_of (n mod 10) :: acc)) as (ds & -> & Hds & Hne & Hv & Hl & Hh);
      [lia|done|].
    exists (ds ++ [digit_of (n mod 10)]). rewrite <- app_assoc. repeat split; [| | | |].
    + rewrite forallb_app, Hds. simpl. by rewrite Hd.
    + by destruct ds.
    + rewrite decimal_value_app, Hv. unfold decimal_value. simpl.
      rewrite digit_of_val by lia. lia.
    + lia.
    + intros _. rewrite head_app. destruct (decide (10 ≤ n / 10)) as [H10|H10].
      * destruct ds; [done|]. by apply Hh.
      * destruct ds as [|d ds]; [done|]. simpl. assert (length (d :: ds) = 1%nat) as Hl1 by (apply Hl; lia).
        destruct ds; [|done]. intros [= ->]. unfold decimal_value in Hv. simpl in Hv.
        change (byte_val "0") with 48 in Hv. lia.
Qed.

Lemma Itoa_nonneg n : 0 ≤ n < 10 ^ 20 →
  forallb is_digit (Itoa n) = true ∧ Itoa n ≠ [] ∧ decimal_value (Itoa n) 0 = n
  ∧ (10 ≤ n → head (Itoa n) ≠ Some "0"%char) ∧ (n < 10 → length (Itoa n) = 1%nat).
Proof.
  intros Hn. unfold Itoa. destruct (Z.ltb_spec n 0); [lia|].
  destruct (itoa_loop_spec 20 n []) as (ds & -> & ?); [done|done|].
  rewrite app_nil_r. naive_solver.
Qed.

(** [Atoi] of digits does not see a sign. *)
Lemma Atoi_digits s :
  s ≠ [] → forallb is_digit s = true → decimal_value s 0 ≤ max_int64 →
  0 ≤ decimal_value s 0 → Atoi s = Some (decimal_value s 0).
Proof.
  destruct s as [|c s]; [done|]. intros _ Hs Hm H0. unfold Atoi.
  pose proof Hs as [Hc _]%andb_true_iff.
  rewrite (bool_decide_eq_false_2 (c = "-"%char)) by (intros ->; done).
  rewrite (bool_decide_eq_false_2 (c = "+"%char)) by (intros ->; done).
  rewrite atoi_loop_digits by done. cbn [mbind option_bind].
  rewrite (proj2 (Z.leb_le min_int64 _)) by (unfold min_int64; lia).
  by rewrite (proj2 (Z.leb_le _ max_int64)).
Qed.

Lemma Atoi_Itoa n : 0 ≤ n ≤ max_int64 → Atoi (Itoa n) = Some n.
Proof.
  intros Hn. assert (0 ≤ n < 10 ^ 20) as H20 by (unfold max_int64 in Hn; lia).
  destruct (Itoa_nonneg n H20) as (Hd & Hne & Hv & _).
  rewrite Atoi_digits; rewrite ?Hv; try done; lia.
Qed.

Lemma Atoi_range s n : Atoi s = Some n → in_int64 n.
Proof.
  unfold Atoi, in_int64. destruct (match s with [] => _ | _ => _ end) as [neg ds].
  destruct ds; [done|]. intros H. inv_ok. case_match; [|done]. inv_ok. bool_simpl. lia.
Qed.

(** ** Laws of [ToLower] *)

Section ToLower_laws.
Context {U : UnicodeTables}.

Lemma lower_byte_ascii c : byte_val c < 128 → byte_val (lower_byte c) < 128.
Proof.
  intros. unfold lower_byte. case_match eqn:Hu; [|done].
  unfold is_upper in Hu. bool_simpl. rewrite byte_val_of; lia.
Qed.

Lemma lower_byte_idemp c : lower_byte (lower_byte c) = lower_byte c.
Proof.
  destruct (is_upper c) eqn:Hu.
  - assert (lower_byte c = byte_of (byte_val c + 32)) as -> by (unfold lower_byte; by rewrite Hu).
    unfold lower_byte. case_match eqn:Hu'; [|done].
    unfold is_upper in *. bool_simpl. 
    pose proof (byte_val_of (byte_val c + 32)). lia.
  - assert (lower_byte c = c) as E by (unfold lower_byte; by rewrite Hu). by rewrite !E.
Qed.

(** A byte that is not an upper-case letter occurs in the result exactly when
    it occurred before, or came from the letter it is the lower case of. *)
Lemma lower_byte_fixed c d :
  is_lower d = false → is_upper d = false → lower_byte c = d ↔ c = d.
Proof.
  unfold lower_byte. intros Hl Hu. case_match eqn:Hc; [|done].
  split; [intros <-|congruence].
  exfalso. unfold is_lower, is_upper in *. bool_simpl.
  pose proof (byte_val_of (byte_val c + 32)). lia.
Qed.

Lemma ToLower_ascii s : is_ascii s = true → ToLower s = map lower_byte s.
Proof. intros H. unfold ToLower. by rewrite H. Qed.

Lemma is_ascii_lower s : is_ascii s = true → is_ascii (map lower_byte s) = true.
Proof.
  unfold is_ascii. induction s as [|c s IH]; simpl; [done|].
  intros [Hc Hs]%andb_true_iff. apply andb_true_iff. split; [|by apply IH].
  bool_simpl. apply Z.ltb_lt. by apply lower_byte_ascii.
Qed.

Lemma ToLower_idemp s : is_ascii s = true → ToLower (ToLower s) = ToLower s.
Proof.
  intros H. rewrite !ToLower_ascii; try done; [|by rewrite ToLower_ascii; [apply is_ascii_lower|]].
  rewrite map_map. apply map_ext, lower_byte_idemp.
Qed.

Lemma ToLower_elem s c :
  is_ascii s = true → is_lower c = false → is_upper c = false →
  c ∈ ToLower s ↔ c ∈ s.
Proof.
  intros Hs Hl Hu. rewrite ToLower_ascii by done. rewrite list_elem_of_fmap.
  split; [intros (d & Hd & ?)|intros ?; exists c].
  - symmetry in Hd. apply (lower_byte_fixed d c Hl Hu) in Hd. by subst.
  - split; [|done]. symmetry. by apply lower_byte_fixed.
Qed.
End ToLower_laws.

(** The lower case of a non-ASCII code point is non-ASCII or an ASCII letter
    (the letters are k for the Kelvin sign and i for the dotted capital I). *)
Class UnicodeLaws (U : UnicodeTables) := {
  unicode_lower_range r : 128 ≤ r →
    128 ≤ unicode_lower r ∨ (97 ≤ unicode_lower r ≤ 122)
}.

Section ToLower_unicode.
Context {U : UnicodeTables} {L : UnicodeLaws U}.

Lemma encode_rune_ascii r c : 0 ≤ r → c ∈ encode_rune r → byte_val c < 128 → byte_val c = r.
Proof.
  intros Hr. unfold encode_rune.
  assert ((valid_rune r = r ∨ valid_rune r = 65533) ∧ valid_rune r ≤ 1114111) as [Hr' Hmax].
  { unfold valid_rune, RuneError. destruct (_ || _) eqn:Hb; [lia|]. bool_simpl. lia. }
  cbv zeta. generalize dependent (valid_rune r). intros r' Hr' Hmax.
  assert (0 ≤ r') by (destruct Hr' as [-> | ->]; lia).
  intros Hc Hv. destruct (Z.ltb_spec r' 128).
  - apply list_elem_of_singleton in Hc as ->. rewrite byte_val_of by lia.
    destruct Hr' as [->|H']; [done|lia].
  - exfalso. revert Hc. repeat case_match; rewrite !elem_of_cons, elem_of_nil;
      intros Hc; destruct_or?; try done; subst c; bool_simpl;
      rewrite byte_val_of in Hv by (Z.div_mod_to_equations; lia); Z.div_mod_to_equations; lia.
Qed.

Lemma runes_elem s r : r ∈ runes s → r < 128 → ∃ c, c ∈ s ∧ byte_val c = r.
Proof.
  induction s as [s IH] using (induction_ltof1 _ length). unfold ltof in IH.
  destruct s as [|c0 s1]; simpl; [set_solver|].
  assert (∀ s' : gostring, (length s' ≤ length s1)%nat → (∀ c, c ∈ s' → c ∈ c0 :: s1) →
    r ∈ runes s' → r < 128 → ∃ c, c ∈ c0 :: s1 ∧ byte_val c = r) as Hrec.
  { intros s' Hl Hsub Hin Hv. destruct (IH s') as (c & ? & ?); [simpl; lia|done..|]. eauto. }
  pose proof (byte_val_range c0).
  repeat case_match; subst; rewrite ?elem_of_cons; unfold RuneError, in_range, cont, accept3, accept4 in *;
    intros [->|Hin] Hv; try (eapply Hrec; [..|done|done]; [simpl; lia|set_solver]);
    try lia; try (exists c0; split; [set_solver|done]);
    bool_simpl; unfold in_range in *; repeat case_match; bool_simpl; lia.
Qed.

(** Lower-casing introduces no ASCII byte but letters. *)
Lemma ToLower_elem_inv s c :
  c ∈ ToLower s → byte_val c < 128 → is_lower c = false → c ∈ s.
Proof.
  intros Hc Hv Hl. unfold ToLower in Hc. destruct (is_ascii s) eqn:Ha.
  - apply list_elem_of_fmap in Hc as (d & -> & Hd). unfold lower_byte in *.
    destruct (is_upper d) eqn:Hu; [|done]. exfalso. unfold is_lower, is_upper in *.
    bool_simpl. rewrite byte_val_of in Hl by lia. lia.
  - unfold map_lower in Hc. apply list_elem_of_In, in_concat in Hc as (w & Hw & Hc).
    apply in_map_iff in Hw as (r & <- & Hr). apply list_elem_of_In in Hc, Hr.
    destruct (Z.ltb_spec (ToLower_rune r) 0); [set_solver|].
    apply encode_rune_ascii in Hc; [|done..]. unfold ToLower_rune in Hc.
    destruct (Z.leb_spec r 127).
    + assert (byte_val c = r) as Hcr.
      { destruct (in_range 65 90 r) eqn:Hir; [|done]. exfalso.
        unfold is_lower, in_range in *. bool_simpl. lia. }
      destruct (runes_elem s r) as (d & Hd & Hdr); [done|lia|].
      assert (d = c) as -> by (apply (inj byte_val); lia). done.
    + exfalso. destruct (unicode_lower_range r) as [?|?]; [lia..|].
      unfold is_lower in Hl. lia.
Qed.

Lemma runes_head c s : ∃ r rs, runes (c :: s) = r :: rs ∧ (r = byte_val c ∨ 128 ≤ r).
Proof.
  cbn [runes]. pose proof (byte_val_range c). unfold RuneError, in_range in *.
  repeat case_match; bool_simpl; do 2 eexists; (split; [reflexivity|]);
    unfold cont, accept3, accept4, in_range in *; repeat case_match; bool_simpl; lia.
Qed.

(** Lower-casing keeps the first byte when it is ASCII and no letter. *)
Lemma ToLower_head s c :
  head (ToLower s) = Some c → byte_val c < 128 → is_lower c = false → head s = Some c.
Proof.
  intros Hc Hv Hl. unfold ToLower in Hc. destruct s as [|d s]; [done|]. destruct (is_ascii (d :: s)).
  - cbn in Hc |- *. f_equal. injection Hc as Hc. unfold lower_byte in Hc.
    destruct (is_upper d) eqn:Hu; [|done]. exfalso. subst c. unfold is_lower, is_upper in *.
    bool_simpl. rewrite byte_val_of in Hl by lia. lia.
  - destruct (runes_head d s) as (r & rs & Hr & Hrd). unfold map_lower in Hc. rewrite Hr in Hc.
    cbn [map concat] in Hc. unfold ToLower_rune in Hc. pose proof (byte_val_range d).
    set (r' := if r <=? 127 then _ else _) in Hc.
    assert (0 ≤ r' ∧ (r' = byte_val d ∨ 128 ≤ r' ∨ 97 ≤ r' ≤ 122)) as [H0 Hcase].
    { unfold r', in_range. destruct (Z.leb_spec r 127).
      - destruct ((65 <=? r) && (r <=? 90)) eqn:E; bool_simpl; lia.
      - pose proof (unicode_lower_range r ltac:(lia)). lia. }
    clearbody r'. rewrite (proj2 (Z.ltb_ge _ _) H0) in Hc.
    assert (∃ e es, encode_rune r' = e :: es) as (e & es & He)
      by (unfold encode_rune; cbv zeta; repeat case_match; eauto).
    rewrite He in Hc. injection Hc as ->.
    assert (byte_val c = r') as Hcr.
    { apply encode_rune_ascii; [done| |done]. rewrite He. by apply list_elem_of_here. }
    unfold is_lower, in_range in Hl. cbn. f_equal. apply (inj byte_val). lia.
Qed.
End ToLower_unicode.

#[export] Hint Rewrite TrimPrefix_app TrimSuffix_app : exporter.
#[export] Hint Resolve Atoi_range : exporter.

(** A concrete table, for evaluating the definitions: no non-ASCII letter has a
    lower case of its own. *)
Definition caseless : UnicodeTables := {| unicode_lower r := r |}.
#[global] Instance caseless_laws : UnicodeLaws caseless.
Proof. constructor. intros r Hr. by left. Defined.
