(* ===== verification/GoNetip.v ===== *)
(** * The parts of Go's [net/netip] used

    Addresses are integers of 32 or 128 bits, an IPv6 address with its zone.
    [ParseAddr] and [ParsePrefix] follow the library's scanners byte by byte. *)

From S2P Require Import Prelude GoStrings.
Open Scope Z_scope.

Inductive Addr :=
  | V4 (bits : Z)
  | V6 (bits : Z) (zone : gostring).

#[global] Instance Addr_eq_dec : EqDecision Addr.
Proof. solve_decision. Defined.

Definition Zone (a : Addr) : gostring := match a with V4 _ => [] | V6 _ z => z end.
Definition BitLen (a : Addr) : Z := match a with V4 _ => 32 | V6 _ _ => 128 end.
Definition addr_bits (a : Addr) : Z := match a with V4 n | V6 n _ => n end.

(** Big-endian bytes as an integer. *)
Definition be_bytes (l : list Z) : Z := foldl (λ a b, a * 256 + b) 0 l.

(** ** IPv4 *)

(** The loop of [parseIPv4Fields].  [prev] is the byte before the current one,
    [val] and [digLen] the field being read, [fields] the fields stored. *)
Fixpoint ipv4_loop (prev : option ascii) (s : gostring) (val digLen : Z) (fields : list Z)
    : option (list Z) :=
  match s with
  | [] => if (length fields <? 3)%nat then None else Some (fields ++ [val])
  | c :: s' =>
      if is_digit c then
        if (digLen =? 1) && (val =? 0) then None
        else
          let val := val * 10 + (byte_val c - 48) in
          if 255 <? val then None else ipv4_loop (Some c) s' val (digLen + 1) fields
      else if bool_decide (c = "."%char) then
        if bool_decide (prev = None) || bool_decide (s' = []) || bool_decide (prev = Some "."%char)
        then None
        else if (length fields =? 3)%nat then None
        else ipv4_loop (Some c) s' 0 0 (fields ++ [val])
      else None
  end.

Definition parseIPv4Fields (s : gostring) : option (list Z) := ipv4_loop None s 0 0 [].

Definition parseIPv4 (s : gostring) : option Addr :=
  fields ← parseIPv4Fields s; Some (V4 (be_bytes fields)).

(** ** IPv6 *)

(** One group of hexadecimal digits: at most four, the value and what follows. *)
Fixpoint hex_group (off : nat) (acc : Z) (s : gostring) : option (nat * Z * gostring) :=
  match s with
  | [] => Some (off, acc, [])
  | c :: s' =>
      match hex_val c with
      | None => Some (off, acc, s)
      | Some v =>
          if (3 <? off)%nat then None
          else
            let acc := acc * 16 + v in
            if 65535 <? acc then None else hex_group (S off) acc s'
      end
  end.

(** The loop of [parseIPv6].  [room] is the number of 16-bit groups that still
    fit, [ip] the bytes stored and [ell] the position of the ellipsis in it. *)
Fixpoint ipv6_loop (room : nat) (s : gostring) (ip : list Z) (ell : option nat)
    : option (gostring * list Z * option nat) :=
  match room with
  | O => Some (s, ip, ell)
  | S room' =>
      '(off, acc, rest) ← hex_group 0 0 s;
      if (off =? 0)%nat then None
      else
      let ip2 := ip ++ [acc / 256; acc mod 256] in
      match rest with
      | [] => Some ([], ip2, ell)
      | c :: rest1 =>
          if bool_decide (c = "."%char) then
            if bool_decide (ell = None) && negb (length ip =? 12)%nat then None
            else if (16 <? length ip + 4)%nat then None
            else fields ← parseIPv4Fields s; Some ([], ip ++ fields, ell)
          else if negb (bool_decide (c = ":"%char)) then None
          else
            match rest1 with
            | [] => None
            | d :: rest2 =>
                if bool_decide (d = ":"%char) then
                  match ell, rest2 with
                  | Some _, _ => None
                  | None, [] => Some ([], ip2, Some (length ip2))
                  | None, _ => ipv6_loop room' rest2 ip2 (Some (length ip2))
                  end
                else ipv6_loop room' rest1 ip2 ell
            end
      end
  end.

(** The bytes after the loop: the ellipsis stands for at least one zero byte. *)
Definition expand_ellipsis (ip : list Z) (ell : option nat) : option (list Z) :=
  if (length ip <? 16)%nat then
    match ell with
    | None => None
    | Some e => Some (take e ip ++ replicate (16 - length ip) 0 ++ drop e ip)
    end
  else match ell with Some _ => None | None => Some ip end.

(** The zone is split off at the first [%], and must not be empty. *)
Definition split_zone (input : gostring) : option (gostring * gostring) :=
  match CutByte input "%"%char with
  | None => Some (input, [])
  | Some (_, []) => None
  | Some (s, zone) => Some (s, zone)
  end.

(** A leading ellipsis; alone it is the unspecified address. *)
Definition leading_ellipsis (s : gostring) : gostring * option nat :=
  match CutPrefix s "::" with Some s' => (s', Some 0%nat) | None => (s, None) end.

Definition ipv6_bits (input : gostring) : option Z :=
  let '(s, ell) := leading_ellipsis input in
  if bool_decide (ell ≠ None) && bool_decide (s = []) then Some 0
  else
    '(rest, ip, ell) ← ipv6_loop 8 s [] ell;
    match rest with
    | [] => ip ← expand_ellipsis ip ell; Some (be_bytes ip)
    | _ => None
    end.

Definition parseIPv6 (input : gostring) : option Addr :=
  '(s, zone) ← split_zone input; bits ← ipv6_bits s; Some (V6 bits zone).

(** [netip.ParseAddr]: the first of the bytes [.], [:] and [%] decides. *)
Fixpoint addr_kind (s : gostring) : option ascii :=
  match s with
  | [] => None
  | c :: s' => if bool_decide (c ∈ ["."; ":"; "%"]%char) then Some c else addr_kind s'
  end.

Definition ParseAddr (s : gostring) : option Addr :=
  match addr_kind s with
  | Some "."%char => parseIPv4 s
  | Some ":"%char => parseIPv6 s
  | _ => None
  end.

(** ** Prefixes *)

Record Prefix := { p_addr : Addr; p_bits : Z }.

Definition ParsePrefix (s : gostring) : option Prefix :=
  '(addr_s, bits_s) ← LastCutByte s "/"%char;
  ip ← ParseAddr addr_s;
  match Zone ip with
  | _ :: _ => None
  | [] =>
      if (1 <? length bits_s)%nat
         && match bits_s with c :: _ => negb (is_digit c) || bool_decide (c = "0"%char) | [] => false end
      then None
      else
        bits ← Atoi bits_s;
        if (bits <? 0) || (BitLen ip <? bits) then None
        else Some {| p_addr := ip; p_bits := bits |}
  end.

(** The mask of the [bits] top bits of a [w]-bit integer. *)
Definition mask (w bits : Z) : Z := Z.shiftl (Z.ones bits) (w - bits).

Definition Masked (p : Prefix) : Prefix :=
  {| p_addr := match p.(p_addr) with
               | V4 n => V4 (Z.land n (mask 32 p.(p_bits)))
               | V6 n z => V6 (Z.land n (mask 128 p.(p_bits))) []
               end;
     p_bits := p.(p_bits) |}.

(** [Prefix.Contains]: same family, no zone, and no differing bit in the prefix. *)
Definition Contains (p : Prefix) (ip : Addr) : bool :=
  match p.(p_addr), ip with
  | V4 n, V4 m => Z.shiftr (Z.lxor m n) (Z.land (32 - p.(p_bits)) 63) mod 2 ^ 32 =? 0
  | V6 n _, V6 m [] => Z.land (Z.lxor m n) (mask 128 p.(p_bits)) =? 0
  | _, _ => false
  end.

Example parse_v4 : ParseAddr "192.0.2.1" = Some (V4 3221225985).
Proof. reflexivity. Qed.
Example parse_v6 : ParseAddr "2001:db8::1" = Some (V6 42540766411282592856903984951653826561 []).
Proof. reflexivity. Qed.
Example parse_v6_zone : ParseAddr "fe80::1%eth0" = Some (V6 338288524927261089654018896841347694593 "eth0").
Proof. reflexivity. Qed.
Example parse_4in6 : ParseAddr "::ffff:192.0.2.1" = Some (V6 281473902969345 []).
Proof. reflexivity. Qed.
Example parse_bad :
  map ParseAddr (map String.list_ascii_of_string ["1.2.3"; "1.2.3.4.5"; "01.2.3.4"; "1.2.3.256"; "1..2.3"; "::1::2"; "1:2:3:4:5:6:7:8:9"; "1:2:3:4:5:6:7::8"; "12345::"; "::%"; "localhost"; ":"]%string)
  = replicate 12 None.
Proof. reflexivity. Qed.

(** ** The textual form of an IPv4 address is unique *)

(** Four decimal fields joined by dots. *)
Fixpoint dotted (fields : list Z) : gostring :=
  match fields with
  | [] => []
  | [n] => Itoa n
  | n :: fields' => Itoa n ++ "."%char :: dotted fields'
  end.

Definition octet (n : Z) : Prop := 0 ≤ n ≤ 255.

(** A finite check: appending a digit to the text of a positive octet gives the
    text of the larger number, and a single digit is its own text. *)
Lemma Itoa_snoc_octet n d :
  1 ≤ n ≤ 255 → 0 ≤ d < 10 → Itoa (n * 10 + d) = Itoa n ++ [digit_of d].
Proof.
  intros Hn Hd.
  assert (forallb (λ n, forallb (λ d, bool_decide (Itoa (n * 10 + d) = Itoa n ++ [digit_of d]))
            (seqZ 0 10)) (seqZ 1 255) = true) as HF by (vm_compute; reflexivity).
  rewrite forallb_forall in HF. specialize (HF n).
  rewrite forallb_forall, <- list_elem_of_In, elem_of_seqZ in HF.
  eapply bool_decide_eq_true_1, HF; [lia|]. apply list_elem_of_In, elem_of_seqZ. lia.
Qed.

Lemma Itoa_digit d : 0 ≤ d < 10 → Itoa d = [digit_of d].
Proof.
  intros Hd. unfold Itoa. destruct (Z.ltb_spec d 0); [lia|].
  rewrite itoa_loop_small by lia. by rewrite Z.mod_small by lia.
Qed.

Lemma digit_of_byte c : is_digit c = true → digit_of (byte_val c - 48) = c.
Proof.
  unfold is_digit, digit_of. intros. bool_simpl.
  replace (48 + (byte_val c - 48)) with (byte_val c) by lia. apply byte_of_val.
Qed.

Lemma digit_range c : is_digit c = true → 0 ≤ byte_val c - 48 < 10.
Proof. unfold is_digit. intros. bool_simpl. lia. Qed.

(** The digits read so far are the text of the value read so far. *)
Definition reading (prev : option ascii) (cur : gostring) (val digLen : Z) : Prop :=
  (cur = [] ∧ val = 0 ∧ digLen = 0 ∧ (prev = None ∨ prev = Some "."%char))
  ∨ (cur = Itoa val ∧ octet val ∧ digLen = Z.of_nat (length cur) ∧ cur ≠ []
     ∧ prev ≠ None ∧ prev ≠ Some "."%char).

Lemma reading_digit prev cur val digLen c :
  reading prev cur val digLen → is_digit c = true →
  (digLen =? 1) && (val =? 0) = false →
  let val' := val * 10 + (byte_val c - 48) in
  (255 <? val') = false → reading (Some c) (cur ++ [c]) val' (digLen + 1).
Proof.
  intros Hr Hc Hz val' Hv. pose proof (digit_range c Hc). bool_simpl.
  assert (Some c ≠ Some "."%char) by (intros [= ->]; done).
  right. destruct Hr as [(-> & -> & -> & _)|(-> & Ho & Hl & Hne & _)]; unfold octet in *.
  - subst val'. rewrite Z.mul_0_l, Z.add_0_l, Itoa_digit, digit_of_byte by done.
    repeat split; try done; lia.
  - destruct (decide (val = 0)) as [->|Hnz].
    { change (Itoa 0) with ["0"%char] in Hl. simpl in Hl. lia. }
    subst val'. rewrite Itoa_snoc_octet, digit_of_byte by lia || done.
    repeat split; try done; try lia; rewrite ?length_app; simpl; [lia|].
    by destruct (Itoa val).
Qed.

Lemma ipv4_loop_sound s : ∀ prev cur val digLen fields r,
  reading prev cur val digLen → Forall octet fields →
  (s = [] → cur = [] → (length fields < 3)%nat) → (length fields ≤ 3)%nat →
  ipv4_loop prev s val digLen fields = Some r →
  ∃ tl, r = fields ++ tl ∧ length r = 4%nat ∧ Forall octet r ∧ cur ++ s = dotted tl.
Proof.
  induction s as [|c s IH]; intros prev cur val digLen fields r Hr Hf Hend H3; simpl.
  - destruct (Nat.ltb_spec (length fields) 3); [done|]. intros [= <-].
    destruct Hr as [(-> & _)|(Hcur & Ho & _)]; [naive_solver lia|].
    exists [val]. rewrite length_app, app_nil_r. simpl. repeat split; [lia| |done].
    apply Forall_app; auto.
  - destruct (is_digit c) eqn:Hc.
    { destruct ((digLen =? 1) && (val =? 0)) eqn:Hz; [done|].
      destruct (255 <? _) eqn:Hv; [done|]. intros Hl.
      destruct (IH (Some c) (cur ++ [c]) _ _ fields r (reading_digit _ _ _ _ _ Hr Hc Hz Hv) Hf)
        as (tl & ? & ? & ? & Htl); try done.
      { by destruct cur. }
      exists tl. by rewrite <- app_assoc in Htl. }
    case_bool_decide; [|done]. subst c.
    destruct (bool_decide (prev = None) || bool_decide (s = []) || _) eqn:Hb; [done|].
    destruct (Nat.eqb_spec (length fields) 3); [done|]. bool_simpl. intros Hl.
    destruct Hr as [(_ & _ & _ & [?|?])|(Hcur & Ho & _)]; [done..|].
    destruct (IH (Some "."%char) [] 0 0 (fields ++ [val]) r) as (tl & -> & Hlen & Hall & Htl); try done.
    + left. eauto.
    + apply Forall_app; auto.
    + rewrite length_app. simpl. lia.
    + exists (val :: tl). rewrite <- app_assoc in Hlen, Hall |- *. repeat split; try done.
      rewrite Hcur. destruct tl as [|x tl]; [|simpl in Htl |- *; by rewrite Htl].
      rewrite !length_app in Hlen. simpl in Hlen. simpl in Htl. destruct s; done || lia.
Qed.

Lemma parseIPv4Fields_sound s r :
  parseIPv4Fields s = Some r → length r = 4%nat ∧ Forall octet r ∧ s = dotted r.
Proof.
  unfold parseIPv4Fields. intros H.
  destruct (ipv4_loop_sound s None [] 0 0 [] r) as (tl & -> & ? & ? & ?); try done.
  - left. eauto.
  - simpl. lia.
  - simpl. lia.
Qed.

Lemma ipv4_loop_digit prev d s val digLen fields :
  0 ≤ d < 10 → (digLen =? 1) && (val =? 0) = false → val * 10 + d ≤ 255 →
  ipv4_loop prev (digit_of d :: s) val digLen fields
  = ipv4_loop (Some (digit_of d)) s (val * 10 + d) (digLen + 1) fields.
Proof.
  intros Hd Hz Hv. simpl. rewrite digit_of_is_digit, Hz, digit_of_val by done.
  replace (val * 10 + (48 + d - 48)) with (val * 10 + d) by lia.
  by rewrite (proj2 (Z.ltb_ge 255 _)).
Qed.

(** Reading the text of an octet reaches its value. *)
Lemma ipv4_loop_octet n prev s fields :
  octet n → ∃ d k, 0 ≤ d < 10 ∧
    ipv4_loop prev (Itoa n ++ s) 0 0 fields = ipv4_loop (Some (digit_of d)) s n k fields.
Proof.
  intros Hn. unfold octet in Hn.
  destruct (decide (n < 10)).
  { exists n, (0 + 1). split; [lia|]. rewrite Itoa_digit by lia. simpl app.
    by rewrite ipv4_loop_digit by (done || lia). }
  pose proof (Z.div_mod n 10). pose proof (Z.mod_pos_bound n 10).
  destruct (decide (n < 100)).
  { exists (n mod 10), (0 + 1 + 1). split; [lia|].
    replace n with (n / 10 * 10 + n mod 10) at 1 by lia.
    rewrite Itoa_snoc_octet, Itoa_digit by lia. simpl app.
    rewrite !ipv4_loop_digit by (done || lia). f_equal; lia. }
  pose proof (Z.div_mod (n / 10) 10). pose proof (Z.mod_pos_bound (n / 10) 10).
  exists (n mod 10), (0 + 1 + 1 + 1). split; [lia|].
  replace n with (n / 10 * 10 + n mod 10) at 1 by lia.
  rewrite Itoa_snoc_octet by lia.
  replace (n / 10) with (n / 10 / 10 * 10 + (n / 10) mod 10) at 1 by lia.
  rewrite Itoa_snoc_octet, Itoa_digit by lia. simpl app.
  rewrite !ipv4_loop_digit by (done || lia). f_equal; lia.
Qed.

Lemma parseIPv4Fields_dotted a b c d :
  octet a → octet b → octet c → octet d →
  parseIPv4Fields (dotted [a; b; c; d]) = Some [a; b; c; d].
Proof.
  intros Ha Hb Hc Hd. unfold parseIPv4Fields. simpl dotted.
  assert (Hdot : ∀ e, 0 ≤ e < 10 → Some (digit_of e) ≠ Some "."%char).
  { intros e He [= Heq]. pose proof (digit_of_val e He) as Hv. rewrite Heq in Hv.
    change (byte_val ".") with 46 in Hv. lia. }
  assert (Hne : ∀ n (s : gostring), octet n → Itoa n ++ s ≠ []).
  { intros n s Hn Happ. apply app_eq_nil in Happ as [Hnil _].
    destruct (Itoa_nonneg n) as (_ & Hnn & _); unfold octet in *; [lia|done]. }
  assert (Hstep : ∀ n e (k : Z) (s : gostring) fields, 0 ≤ e < 10 → s ≠ [] → (length fields ≠ 3)%nat →
    ipv4_loop (Some (digit_of e)) ("."%char :: s) n k fields
    = ipv4_loop (Some "."%char) s 0 0 (fields ++ [n])).
  { intros n e k s fields He Hs Hl. simpl.
    rewrite (bool_decide_eq_false_2 (s = [])) by done.
    rewrite (bool_decide_eq_false_2 (Some (digit_of e) = _)) by auto.
    by rewrite (proj2 (Nat.eqb_neq _ _) Hl). }
  destruct (ipv4_loop_octet a None ("."%char :: Itoa b ++ "."%char :: Itoa c ++ "."%char :: Itoa d) [] Ha)
    as (e1 & k1 & ? & ->).
  rewrite Hstep by auto.
  destruct (ipv4_loop_octet b (Some "."%char) ("."%char :: Itoa c ++ "."%char :: Itoa d) ([] ++ [a]) Hb)
    as (e2 & k2 & ? & ->).
  rewrite Hstep by auto.
  destruct (ipv4_loop_octet c (Some "."%char) ("."%char :: Itoa d) (([] ++ [a]) ++ [b]) Hc)
    as (e3 & k3 & ? & ->).
  rewrite Hstep; [|done|rewrite <- (app_nil_r (Itoa d)); auto|done].
  rewrite <- (app_nil_r (Itoa d)).
  destruct (ipv4_loop_octet d (Some "."%char) [] ((([] ++ [a]) ++ [b]) ++ [c]) Hd)
    as (e4 & k4 & ? & ->). done.
Qed.

Lemma be_bytes_4_inj a b c d a' b' c' d' :
  octet a → octet b → octet c → octet d → octet a' → octet b' → octet c' → octet d' →
  be_bytes [a; b; c; d] = be_bytes [a'; b'; c'; d'] → [a; b; c; d] = [a'; b'; c'; d'].
Proof. unfold octet, be_bytes. simpl. intros. repeat f_equal; lia. Qed.

Lemma parseIPv4_fields s n :
  parseIPv4 s = Some (V4 n) →
  ∃ a b c d, octet a ∧ octet b ∧ octet c ∧ octet d
    ∧ n = be_bytes [a; b; c; d] ∧ s = dotted [a; b; c; d].
Proof.
  unfold parseIPv4. intros H. inv_ok.
  match goal with H : parseIPv4Fields _ = _ |- _ =>
    apply parseIPv4Fields_sound in H as (Hl & Hall & ->) end.
  destruct x as [|a [|b [|c [|d [|]]]]]; try done.
  exists a, b, c, d. rewrite !list.Forall_cons in Hall. naive_solver.
Qed.

(** An IPv4 address has one spelling: no leading zeros, no short forms. *)
Lemma parseIPv4_inj s s' n :
  parseIPv4 s = Some (V4 n) → parseIPv4 s' = Some (V4 n) → s = s'.
Proof.
  intros (a & b & c & d & ? & ? & ? & ? & -> & ->)%parseIPv4_fields
    (a' & b' & c' & d' & ? & ? & ? & ? & Hn & ->)%parseIPv4_fields.
  f_equal. by apply be_bytes_4_inj.
Qed.

Lemma ParseAddr_V4 s n : ParseAddr s = Some (V4 n) → parseIPv4 s = Some (V4 n).
Proof.
  unfold ParseAddr. destruct (addr_kind s) as [c|]; [|done].
  destruct (decide (c = "."%char)) as [->|]; [done|].
  destruct (decide (c = ":"%char)) as [->|].
  - unfold parseIPv6. intros H. inv_ok. destruct x. inv_ok. done.
  - destruct c as [[] [] [] [] [] [] [] []]; done.
Qed.

(** ** Ranges and alphabet of parsed addresses *)

Definition addr_char (c : ascii) : bool :=
  bool_decide (is_Some (hex_val c)) || bool_decide (c = "."%char) || bool_decide (c = ":"%char).

Lemma addr_char_digit c : is_digit c = true → addr_char c = true.
Proof. intros H. unfold addr_char, hex_val. by rewrite H. Qed.

Lemma dotted_chars fields :
  Forall octet fields → forallb addr_char (dotted fields) = true.
Proof.
  assert (∀ n, octet n → forallb addr_char (Itoa n) = true) as HI.
  { intros n Hn. destruct (Itoa_nonneg n) as (Hd & _); [unfold octet in Hn; lia|].
    apply forallb_forall. intros c Hc. rewrite forallb_forall in Hd.
    by apply addr_char_digit, Hd. }
  induction 1 as [|n l Hn Hl IH]; [done|]. destruct l as [|m l]; [by apply HI|].
  change (dotted (n :: m :: l)) with (Itoa n ++ "."%char :: dotted (m :: l)).
  rewrite forallb_app, HI by done. simpl andb.
  change (forallb addr_char (dotted (m :: l)) = true). done.
Qed.

Lemma hex_val_range c v : hex_val c = Some v → 0 ≤ v < 16.
Proof.
  unfold hex_val, is_digit. cbv zeta. intros H.
  repeat (case_match; bool_simpl); simplify_eq; lia.
Qed.

Lemma hex_group_spec s : ∀ off acc off' acc' rest,
  0 ≤ acc ≤ 65535 → hex_group off acc s = Some (off', acc', rest) →
  0 ≤ acc' ≤ 65535 ∧ ∃ ds, s = ds ++ rest ∧ forallb addr_char ds = true.
Proof.
  induction s as [|c s IH]; intros off acc off' acc' rest Hacc; simpl.
  { intros [= <- <- <-]. split; [done|]. by exists []. }
  destruct (hex_val c) as [v|] eqn:Hv.
  - destruct (3 <? off)%nat; [done|].
    destruct (65535 <? acc * 16 + v) eqn:Hb; [done|]. intros Hg.
    pose proof (hex_val_range c v Hv). bool_simpl.
    destruct (IH (S off) (acc * 16 + v) off' acc' rest ltac:(lia) Hg) as (? & ds & -> & Hds).
    split; [done|]. exists (c :: ds). split; [done|]. simpl.
    rewrite Hds, andb_true_r. unfold addr_char. by rewrite bool_decide_eq_true_2 by (rewrite Hv; eauto).
  - intros [= <- <- <-]. split; [done|]. by exists [].
Qed.

Lemma group_octets acc : 0 ≤ acc ≤ 65535 → Forall octet [acc / 256; acc mod 256].
Proof. 
  intros. unfold octet. pose proof (Z.mod_pos_bound acc 256).
  rewrite !list.Forall_cons. repeat split; try apply list.Forall_nil_2; try lia.
  - apply Z.div_pos; lia.
  - pose proof (Z.div_mod acc 256). lia.
Qed.

(** What the loop leaves: the bytes stored are octets, and every byte of the
    input consumed is a hexadecimal digit, a colon or a dot. *)
Lemma ipv6_loop_spec room : ∀ s ip ell ip' ell',
  Forall octet ip → ipv6_loop room s ip ell = Some ([], ip', ell') →
  Forall octet ip' ∧ (length ip ≤ length ip')%nat ∧ forallb addr_char s = true.
Proof.
  induction room as [|room IH]; intros s ip ell ip' ell' Hip; cbn [ipv6_loop].
  { by intros [= -> <- <-]. }
  intros H. apply bind_Some in H as ([[off acc] rest] & Hg & H).
  apply hex_group_spec in Hg as (Hacc & ds & -> & Hds); [|lia].
  destruct (off =? 0)%nat; [done|].
  assert (Hnext : Forall octet (ip ++ [acc / 256; acc mod 256]))
    by (apply Forall_app; auto using group_octets).
  assert (Hlen : (length ip ≤ length (ip ++ [acc / 256; acc mod 256]%Z))%nat)
    by (rewrite length_app; lia).
  rewrite forallb_app, Hds. simpl andb. cbv zeta in H.
  destruct rest as [|c rest]; [injection H as <- <-; eauto|].
  case_bool_decide as Hc; [subst c|].
  - destruct (_ && _); [done|]. destruct (16 <? _)%nat; [done|].
    apply bind_Some in H as (fields & Hf & [= <- <-]).
    apply parseIPv4Fields_sound in Hf as (Hl & Ho & Heq).
    repeat split; [apply Forall_app; auto|rewrite length_app; lia|].
    pose proof (dotted_chars _ Ho) as Hd. rewrite <- Heq, forallb_app in Hd. by bool_simpl.
  - case_bool_decide; [subst c|done].
    destruct rest as [|d rest]; [done|]. case_bool_decide as Hd; [subst d|].
    + destruct ell; [done|]. destruct rest as [|d rest].
      { injection H as <- <-. eauto. }
      apply IH in H as (? & ? & Hrest); [|done]. repeat split; [done|lia|exact Hrest].
    + apply IH in H as (? & ? & Hrest); [|done]. repeat split; [done|lia|exact Hrest].
Qed.

Lemma be_bytes_range l : Forall octet l → 0 ≤ be_bytes l < 256 ^ Z.of_nat (length l).
Proof.
  unfold be_bytes. induction l as [|b l IH] using rev_ind; [simpl; lia|].
  rewrite foldl_app, length_app. simpl. intros [Hl Hb]%Forall_app.
  inversion_clear Hb as [|? ? Hb' _]. unfold octet in Hb'. specialize (IH Hl).
  rewrite Nat2Z.inj_add, Z.pow_add_r by lia. change (256 ^ Z.of_nat 1) with 256. lia.
Qed.

Lemma ipv6_loop_length room : ∀ s ip ell s' ip' ell',
  (length ip + 2 * room ≤ 16)%nat → ipv6_loop room s ip ell = Some (s', ip', ell') →
  (length ip' ≤ 16)%nat.
Proof.
  induction room as [|room IH]; intros s ip ell s' ip' ell' Hr; cbn [ipv6_loop].
  { intros [= -> <- <-]. lia. }
  intros H. apply bind_Some in H as ([[off acc] rest] & Hg & H).
  destruct (off =? 0)%nat; [done|].
  assert (Hnext : (length (ip ++ [acc / 256; acc mod 256]%Z) + 2 * room ≤ 16)%nat)
    by (rewrite length_app; simpl; lia).
  cbv zeta in H. destruct rest as [|c rest]; [injection H as <- <- <-; lia|].
  case_bool_decide.
  - destruct (_ && _); [done|]. destruct (Nat.ltb_spec 16 (length ip + 4)); [done|].
    apply bind_Some in H as (fields & Hf & [= <- <- <-]).
    apply parseIPv4Fields_sound in Hf as (Hl & _). rewrite length_app. lia.
  - case_bool_decide; [|done]. destruct rest as [|d rest]; [done|]. case_bool_decide.
    + destruct ell; [done|]. destruct rest; [injection H as <- <- <-; lia|].
      by eapply IH, H.
    + by eapply IH, H.
Qed.

Definition addr_ok (a : Addr) : Prop := 0 ≤ addr_bits a < 2 ^ BitLen a.

Lemma split_zone_spec input s zone :
  split_zone input = Some (s, zone) →
  ("%"%char ∉ s) ∧ ((zone = [] ∧ input = s) ∨ (zone ≠ [] ∧ input = s ++ ("%"%char :: zone))).
Proof.
  unfold split_zone. destruct (CutByte input "%") as [[b a]|] eqn:Hc.
  - apply CutByte_Some in Hc as [-> Hb]. destruct a; [done|]. intros [= <- <-]. eauto.
  - apply CutByte_None in Hc. intros [= <- <-]. eauto.
Qed.

(** The position of the ellipsis is inside the bytes read so far. *)
Definition ell_ok (ell : option nat) (ip : list Z) : Prop :=
  match ell with Some e => (e ≤ length ip)%nat | None => True end.

Lemma expand_ellipsis_spec ip ell ip' :
  (length ip ≤ 16)%nat → Forall octet ip → expand_ellipsis ip ell = Some ip' →
  ell_ok ell ip → length ip' = 16%nat ∧ Forall octet ip'.
Proof.
  intros Hl Hip. unfold expand_ellipsis. destruct (Nat.ltb_spec (length ip) 16).
  - destruct ell as [e|]; [|done]. intros [= <-] He. split.
    + rewrite !length_app, length_take, length_drop, length_replicate. lia.
    + apply Forall_app. split; [by apply Forall_take|]. apply Forall_app. split.
      * apply Forall_replicate. unfold octet. lia.
      * by apply Forall_drop.
  - destruct ell; [done|]. intros [= <-] _. split; [lia|done].
Qed.

Lemma ipv6_loop_ellipsis room : ∀ s ip ell s' ip' ell',
  ipv6_loop room s ip ell = Some (s', ip', ell') →
  ell_ok ell ip → ell_ok ell' ip'.
Proof.
  induction room as [|room IH]; intros s ip ell s' ip' ell' H Hell; cbn [ipv6_loop] in H.
  { by injection H as <- <- <-. }
  apply bind_Some in H as ([[off acc] rest] & _ & H). destruct (off =? 0)%nat; [done|].
  cbv zeta in H.
  assert (Hell2 : ell_ok ell (ip ++ [acc / 256; acc mod 256]))
    by (unfold ell_ok in *; destruct ell; [rewrite length_app; lia|done]).
  destruct rest as [|c rest]; [by injection H as <- <- <-|]. case_bool_decide.
  - destruct (_ && _); [done|]. destruct (16 <? _)%nat; [done|].
    apply bind_Some in H as (fields & _ & [= <- <- <-]). unfold ell_ok in *.
    destruct ell; [rewrite length_app; lia|done].
  - case_bool_decide; [|done]. destruct rest as [|d rest]; [done|]. case_bool_decide.
    + destruct ell; [done|]. destruct rest; [by injection H as <- <- <-; simpl|]. refine (IH _ _ _ _ _ _ H _). simpl. lia.
    + exact (IH _ _ _ _ _ _ H Hell2).
Qed.

Lemma ipv6_loop_8 s ell ip ell' ip' :
  ell_ok ell [] → ipv6_loop 8 s [] ell = Some ([], ip, ell') →
  expand_ellipsis ip ell' = Some ip' →
  0 ≤ be_bytes ip' < 2 ^ 128 ∧ forallb addr_char s = true.
Proof.
  intros Hell Hl He.
  assert (length ip ≤ 16)%nat as Hlen by (eapply ipv6_loop_length; [|exact Hl]; simpl; lia).
  assert (ell_ok ell' ip) as Hell' by (by eapply ipv6_loop_ellipsis; [exact Hl|]).
  apply ipv6_loop_spec in Hl as (Ho & _ & Hs); [|by apply list.Forall_nil].
  destruct (expand_ellipsis_spec _ _ _ Hlen Ho He Hell') as [H16 Ho'].
  apply be_bytes_range in Ho'. by rewrite H16 in Ho'.
Qed.

Lemma ipv6_bits_spec s n :
  ipv6_bits s = Some n → 0 ≤ n < 2 ^ 128 ∧ forallb addr_char s = true.
Proof.
  unfold ipv6_bits. destruct (leading_ellipsis s) as [s' ell] eqn:Hlead.
  assert (ell_ok ell [] ∧ (forallb addr_char s' = true → forallb addr_char s = true)) as [Hell Hs].
  { unfold leading_ellipsis in Hlead. destruct (CutPrefix s "::") as [r|] eqn:Hcut.
    - injection Hlead as <- <-. apply CutPrefix_spec in Hcut as ->. by simpl.
    - by injection Hlead as <- <-. }
  case_match eqn:Hb.
  - bool_simpl. intros [= <-]. subst s'. split; [done|by apply Hs].
  - intros H. apply bind_Some in H as ([[rest ip] ell'] & Hl & H).
    destruct rest; [|done]. apply bind_Some in H as (ip' & He & [= <-]).
    destruct (ipv6_loop_8 _ _ _ _ _ Hell Hl He). eauto.
Qed.

Lemma ParseAddr_cases s a :
  ParseAddr s = Some a → parseIPv4 s = Some a ∨ parseIPv6 s = Some a.
Proof.
  unfold ParseAddr. destruct (addr_kind s) as [[[] [] [] [] [] [] [] []]|]; naive_solver.
Qed.

(** A parsed address fits its width. *)
Lemma ParseAddr_ok s a : ParseAddr s = Some a → addr_ok a.
Proof.
  intros [H|H]%ParseAddr_cases.
  - destruct a as [n|n z].
    + apply parseIPv4_fields in H as (a & b & c & d & ? & ? & ? & ? & -> & _).
      apply (be_bytes_range [a; b; c; d]). rewrite !list.Forall_cons, list.Forall_nil. auto.
    + unfold parseIPv4 in H. by apply bind_Some in H as (? & _ & ?).
  - unfold parseIPv6 in H. apply bind_Some in H as ([s' z] & _ & H).
    apply bind_Some in H as (n & Hn & [= <-]). by apply ipv6_bits_spec in Hn as [? _].
Qed.

(** Without a zone only hexadecimal digits, dots and colons are accepted. *)
Lemma ParseAddr_chars s a :
  ParseAddr s = Some a → Zone a = [] → forallb addr_char s = true.
Proof.
  intros [H|H]%ParseAddr_cases Hz.
  - destruct a as [n|n z]; [|unfold parseIPv4 in H; by apply bind_Some in H as (? & _ & ?)].
    apply parseIPv4_fields in H as (a & b & c & d & ? & ? & ? & ? & -> & ->).
    apply dotted_chars. rewrite !list.Forall_cons, list.Forall_nil. auto.
  - unfold parseIPv6 in H. apply bind_Some in H as ([s' z] & Hsp & H).
    apply bind_Some in H as (n & Hn & [= <-]). simpl in Hz. subst z.
    apply split_zone_spec in Hsp as [_ [[_ ->]|[? _]]]; [|done]. by apply ipv6_bits_spec in Hn as [_ ?].
Qed.

Lemma ParseAddr_zone_percent s a : ParseAddr s = Some a → Zone a ≠ [] → "%"%char ∈ s.
Proof.
  intros [H|H]%ParseAddr_cases Hz.
  - unfold parseIPv4 in H. apply bind_Some in H as (? & _ & [= <-]). done.
  - unfold parseIPv6 in H. apply bind_Some in H as ([s' z] & Hsp & H).
    apply bind_Some in H as (n & Hn & [= <-]). simpl in Hz.
    apply split_zone_spec in Hsp as [_ [[? _]|[_ ->]]]; [done|]. set_solver.
Qed.

(** ** Prefix containment *)

Lemma shiftr_eq_iff a b k : 0 ≤ k → Z.shiftr (Z.lxor a b) k = 0 ↔ a / 2 ^ k = b / 2 ^ k.
Proof.
  intros Hk. rewrite Z.shiftr_lxor, Z.lxor_eq_0_iff, !Z.shiftr_div_pow2 by done. done.
Qed.

Lemma land_mask_iff a w bits :
  0 ≤ a < 2 ^ w → 0 ≤ bits ≤ w → Z.land a (mask w bits) = 0 ↔ Z.shiftr a (w - bits) = 0.
Proof.
  intros Ha Hb. unfold mask. split; intros H; apply Z.bits_inj'; intros i Hi; rewrite Z.bits_0.
  - rewrite Z.shiftr_spec by lia.
    destruct (Z.ltb_spec i bits).
    + assert (Z.testbit (Z.land a (Z.shiftl (Z.ones bits) (w - bits))) (i + (w - bits)) = false) as Hf
        by (rewrite H; apply Z.bits_0).
      rewrite Z.land_spec, Z.shiftl_spec in Hf by lia.
      replace (i + (w - bits) - (w - bits)) with i in Hf by lia.
      rewrite Z.ones_spec_low in Hf by lia. by rewrite andb_true_r in Hf.
    + destruct (decide (a = 0)) as [->|]; [apply Z.bits_0|].
      apply Z.bits_above_log2; [lia|]. assert (Z.log2 a < w) by (apply Z.log2_lt_pow2; lia). lia.
  - rewrite Z.land_spec, Z.shiftl_spec by lia.
    destruct (Z.ltb_spec i (w - bits)); [rewrite (Z.testbit_neg_r (Z.ones bits)) by lia; apply andb_false_r|].
    assert (Z.testbit (Z.shiftr a (w - bits)) (i - (w - bits)) = false) as Hf
      by (rewrite H; apply Z.bits_0).
    rewrite Z.shiftr_spec in Hf by lia. replace (i - (w - bits) + (w - bits)) with i in Hf by lia.
    by rewrite Hf.
Qed.

Lemma lxor_range a b w : 0 ≤ w → 0 ≤ a < 2 ^ w → 0 ≤ b < 2 ^ w → 0 ≤ Z.lxor a b < 2 ^ w.
Proof.
  intros Hw Ha Hb. assert (0 ≤ Z.lxor a b) by (apply Z.lxor_nonneg; lia). split; [done|].
  destruct (decide (Z.lxor a b = 0)) as [->|Hne]; [lia|].
  destruct (decide (w = 0)) as [->|].
  { change (2 ^ 0) with 1 in *. assert (a = 0 ∧ b = 0) as [-> ->] by lia. done. }
  apply Z.log2_lt_pow2; [lia|]. eapply Z.le_lt_trans; [apply Z.log2_lxor; lia|].
  assert (∀ x, 0 ≤ x < 2 ^ w → Z.log2 x < w) as Hlog.
  { intros x Hx. destruct (decide (x = 0)) as [->|]; [simpl; lia|]. apply Z.log2_lt_pow2; lia. }
  apply Z.max_lub_lt; auto.
Qed.

Definition prefix_ok (p : Prefix) : Prop :=
  addr_ok p.(p_addr) ∧ 0 ≤ p.(p_bits) ≤ BitLen p.(p_addr) ∧ Zone p.(p_addr) = [].

(** Containment is agreement of family and of the leading [p_bits] bits. *)
Lemma Contains_spec p ip :
  prefix_ok p → addr_ok ip →
  Contains p ip = true ↔
  BitLen ip = BitLen p.(p_addr) ∧ Zone ip = [] ∧
  addr_bits ip / 2 ^ (BitLen ip - p.(p_bits)) = addr_bits p.(p_addr) / 2 ^ (BitLen ip - p.(p_bits)).
Proof.
  destruct p as [pa pb]. intros (Hpa & Hpb & _) Hip. unfold Contains, addr_ok in *.
  cbn [p_addr p_bits] in *.
  destruct pa as [n|n zn], ip as [m|m [|c z]]; cbn [BitLen addr_bits Zone] in *;
    try (split; [done|intros (? & ? & _); done]).
  - change 63 with (Z.ones 6). rewrite Z.land_ones by lia.
    rewrite (Z.mod_small (32 - pb)) by lia.
    pose proof (lxor_range m n 32 ltac:(lia) Hip Hpa) as Hx.
    assert (0 ≤ Z.shiftr (Z.lxor m n) (32 - pb) < 2 ^ 32) as Hs.
    { rewrite Z.shiftr_div_pow2 by lia. split; [apply Z.div_pos; lia|].
      apply Z.div_lt_upper_bound; [lia|]. assert (1 ≤ 2 ^ (32 - pb)) by (apply (Z.pow_le_mono_r 2 0); lia).
      nia. }
    rewrite Z.mod_small, Z.eqb_eq, shiftr_eq_iff by lia. naive_solver.
  - rewrite Z.eqb_eq, land_mask_iff, shiftr_eq_iff by (try apply lxor_range; lia). naive_solver.
Qed.

Lemma ParsePrefix_ok s p : ParsePrefix s = Some p → prefix_ok p.
Proof.
  unfold ParsePrefix. intros H. apply bind_Some in H as ([a_s b_s] & _ & H).
  apply bind_Some in H as (ip & Hip & H). destruct (Zone ip) eqn:Hz; [|done].
  destruct (_ && _); [done|]. apply bind_Some in H as (bits & _ & H).
  destruct (_ || _) eqn:Hb; [done|]. injection H as <-. bool_simpl.
  unfold prefix_ok. simpl. repeat split; try lia; try done; by apply ParseAddr_ok in Hip as [? ?].
Qed.

Lemma land_range a m w : 0 ≤ a < 2 ^ w → 0 ≤ m → 0 ≤ Z.land a m < 2 ^ w.
Proof.
  intros Ha Hm. assert (0 ≤ Z.land a m) by (apply Z.land_nonneg; lia).
  split; [done|]. destruct (decide (Z.land a m = 0)) as [->|]; [lia|].
  destruct (decide (a = 0)) as [->|]; [by rewrite Z.land_0_l in *|].
  apply Z.log2_lt_pow2; [lia|]. pose proof (Z.log2_land a m). assert (Z.log2 a < w) by (apply Z.log2_lt_pow2; lia).
  lia.
Qed.

Lemma mask_nonneg w bits : 0 ≤ bits ≤ w → 0 ≤ mask w bits.
Proof. intros. unfold mask. apply Z.shiftl_nonneg. rewrite Z.ones_equiv.
  assert (1 ≤ 2 ^ bits) by (apply (Z.pow_le_mono_r 2 0); lia). lia. Qed.

Lemma Masked_ok p : prefix_ok p → prefix_ok (Masked p).
Proof.
  destruct p as [[n|n z] b]; intros (Ha & Hb & Hz); unfold Masked, prefix_ok, addr_ok in *;
    cbn [p_addr p_bits BitLen addr_bits Zone] in *; (split; [|done]);
    apply land_range; auto; apply mask_nonneg; lia.
Qed.

Lemma land_mask_div a w bits :
  0 ≤ a → 0 ≤ bits ≤ w → a < 2 ^ w → Z.land a (mask w bits) / 2 ^ (w - bits) = a / 2 ^ (w - bits).
Proof.
  intros Ha Hb Hw. rewrite <- !Z.shiftr_div_pow2 by lia. apply Z.bits_inj'. intros i Hi.
  rewrite !Z.shiftr_spec by lia. unfold mask. rewrite Z.land_spec, Z.shiftl_spec by lia.
  replace (i + (w - bits) - (w - bits)) with i by lia.
  destruct (Z.ltb_spec i bits); [rewrite Z.ones_spec_low by lia; apply andb_true_r|].
  rewrite (Z.ones_spec_high bits i), andb_false_r by lia. symmetry.
  destruct (decide (a = 0)) as [->|]; [apply Z.bits_0|].
  apply Z.bits_above_log2; [lia|]. assert (Z.log2 a < w) by (apply Z.log2_lt_pow2; lia). lia.
Qed.

(** Host bits written in a CIDR pattern do not matter. *)
Lemma Contains_Masked p ip :
  prefix_ok p → addr_ok ip → Contains (Masked p) ip = Contains p ip.
Proof.
  intros Hp Hip. apply eq_true_iff_eq. rewrite !Contains_spec by (done || by apply Masked_ok).
  destruct p as [[n|n z] b]; destruct Hp as ([Hn1 Hn2] & Hb & _); unfold Masked;
    cbn [p_addr p_bits BitLen addr_bits] in *;
    (split; intros (-> & Hz & H); repeat split; try done; rewrite land_mask_div in *; done || lia).
Qed.

#[export] Hint Resolve ParseAddr_ok ParsePrefix_ok Masked_ok : exporter.

(** ** Upper and lower case

    Addresses are read alike in either case: hexadecimal digits are the only
    letters without a zone, and their value does not depend on it. *)

Lemma lower_byte_hex c : hex_val (lower_byte c) = hex_val c.
Proof. destruct c as [[] [] [] [] [] [] [] []]; reflexivity. Qed.

Lemma lower_byte_digit c : is_digit (lower_byte c) = is_digit c ∧ (is_digit c = true → lower_byte c = c).
Proof. destruct c as [[] [] [] [] [] [] [] []]; by vm_compute. Qed.

(** A byte of the notation, which no letter becomes. *)
Lemma lower_byte_sep c : 
  (lower_byte c = "."%char ↔ c = "."%char) ∧ (lower_byte c = ":"%char ↔ c = ":"%char)
  ∧ (lower_byte c = "%"%char ↔ c = "%"%char).
Proof. destruct c as [[] [] [] [] [] [] [] []]; vm_compute; repeat split; intros ?; congruence. Qed.

Lemma lower_byte_decide c :
  bool_decide (lower_byte c = "."%char) = bool_decide (c = "."%char)
  ∧ bool_decide (lower_byte c = ":"%char) = bool_decide (c = ":"%char)
  ∧ bool_decide (lower_byte c = "%"%char) = bool_decide (c = "%"%char).
Proof. destruct (lower_byte_sep c) as (? & ? & ?). split_and!; by apply bool_decide_ext. Qed.

Lemma map_lower_nil (s : gostring) : bool_decide (map lower_byte s = []) = bool_decide (s = []).
Proof. by destruct s. Qed.

Lemma ipv4_loop_lower s : ∀ prev val digLen fields,
  ipv4_loop (lower_byte <$> prev) (map lower_byte s) val digLen fields = ipv4_loop prev s val digLen fields.
Proof.
  induction s as [|c s IH]; intros prev val digLen fields; [done|]. cbn [map ipv4_loop].
  destruct (lower_byte_digit c) as [-> Hd]. destruct (lower_byte_decide c) as (-> & _ & _).
  destruct (is_digit c) eqn:E.
  - rewrite Hd by done. destruct (_ && _); [done|]. case_match; [done|].
    specialize (IH (Some c)). cbn in IH. rewrite Hd in IH by done. apply IH.
  - rewrite map_lower_nil. case_bool_decide as Hc; [|done]. subst c.
    assert (bool_decide (lower_byte <$> prev = None) = bool_decide (prev = None)) as -> by (by destruct prev).
    assert (bool_decide (lower_byte <$> prev = Some "."%char) = bool_decide (prev = Some "."%char)) as ->.
    { destruct prev as [p|]; [|done]. cbn. apply bool_decide_ext.
      destruct (lower_byte_sep p) as (Hp & _). split; intros [= ?]; f_equal; tauto. }
    destruct (_ || _); [done|]. destruct (_ =? _)%nat; [done|]. apply (IH (Some "."%char)).
Qed.

Lemma parseIPv4Fields_lower s : parseIPv4Fields (map lower_byte s) = parseIPv4Fields s.
Proof. apply (ipv4_loop_lower s None). Qed.

Lemma hex_group_lower s : ∀ off acc,
  hex_group off acc (map lower_byte s)
  = (λ '(off, acc, rest), (off, acc, map lower_byte rest)) <$> hex_group off acc s.
Proof.
  induction s as [|c s IH]; intros off acc; [done|]. cbn [map hex_group]. rewrite lower_byte_hex.
  destruct (hex_val c); [|done]. destruct (3 <? off)%nat; [done|]. cbv zeta. case_match; [done|]. apply IH.
Qed.

Lemma ipv6_loop_lower room : ∀ s ip ell,
  ipv6_loop room (map lower_byte s) ip ell
  = (λ '(rest, ip, ell), (map lower_byte rest, ip, ell)) <$> ipv6_loop room s ip ell.
Proof.
  induction room as [|room IH]; intros s ip ell; [done|]. cbn [ipv6_loop]. rewrite hex_group_lower.
  destruct (hex_group 0 0 s) as [[[off acc] rest]|]; [|done]. cbn [fmap option_fmap option_map mbind option_bind].
  destruct (off =? 0)%nat; [done|]. cbv zeta. destruct rest as [|c rest]; [done|]. cbn [map].
  destruct (lower_byte_decide c) as (-> & -> & _). rewrite parseIPv4Fields_lower.
  destruct (bool_decide (c = "."%char)).
  { destruct (_ && _); [done|]. destruct (_ <? _)%nat; [done|]. by destruct (parseIPv4Fields s). }
  destruct (negb _); [done|]. destruct rest as [|d rest]; [done|]. cbn [map].
  destruct (lower_byte_decide d) as (_ & -> & _). destruct (bool_decide (d = ":"%char)).
  - destruct ell; [done|]. destruct rest as [|e rest]; [done|]. apply (IH (e :: rest)).
  - apply (IH (d :: rest)).
Qed.

Lemma leading_ellipsis_lower s :
  leading_ellipsis (map lower_byte s)
  = (map lower_byte (leading_ellipsis s).1, (leading_ellipsis s).2).
Proof.
  unfold leading_ellipsis.
  destruct (CutPrefix s "::") as [s'|] eqn:Hc.
  - apply CutPrefix_spec in Hc as ->. rewrite map_app.
    by rewrite (proj2 (CutPrefix_spec (map lower_byte "::" ++ map lower_byte s') "::" (map lower_byte s')) eq_refl).
  - apply CutPrefix_None in Hc. rewrite (proj2 (CutPrefix_None (map lower_byte s) "::")); [done|].
    intros [r Hr]. apply Hc. destruct s as [|a [|b s]]; try done. cbn in Hr. injection Hr as Ha Hb _.
    destruct (lower_byte_sep a) as (_ & [Ha1 _] & _), (lower_byte_sep b) as (_ & [Hb1 _] & _).
    apply Ha1 in Ha. apply Hb1 in Hb. subst. by exists s.
Qed.

Lemma ipv6_bits_lower s : ipv6_bits (map lower_byte s) = ipv6_bits s.
Proof.
  unfold ipv6_bits. rewrite leading_ellipsis_lower. destruct (leading_ellipsis s) as [s' ell]. cbn [fst snd].
  rewrite map_lower_nil. destruct (_ && _); [done|]. rewrite ipv6_loop_lower.
  destruct (ipv6_loop 8 s' [] ell) as [[[rest ip] ell']|]; [|done].
  cbn [fmap option_fmap option_map mbind option_bind]. by destruct rest.
Qed.

Lemma addr_kind_lower s : addr_kind (map lower_byte s) = addr_kind s.
Proof.
  induction s as [|c s IH]; [done|]. cbn [map addr_kind]. rewrite IH.
  destruct (lower_byte_sep c) as (H1 & H2 & H3).
  destruct (decide (c ∈ ["."; ":"; "%"]%char)) as [Hc|Hc].
  - assert (lower_byte c = c) as ->; [|done].
    rewrite !elem_of_cons, elem_of_nil in Hc. destruct Hc as [->|[->|[->|[]]]]; reflexivity.
  - rewrite !bool_decide_eq_false_2; [done|done|].
    rewrite !elem_of_cons, elem_of_nil in Hc |- *. tauto.
Qed.

(** Lowering the case of an address without a zone does not change it. *)
Lemma ParseAddr_lower s : ("%"%char ∉ s) → ParseAddr (map lower_byte s) = ParseAddr s.
Proof.
  intros Hz. unfold ParseAddr. rewrite addr_kind_lower.
  assert (parseIPv4 (map lower_byte s) = parseIPv4 s) as -> by (unfold parseIPv4; by rewrite parseIPv4Fields_lower).
  assert (parseIPv6 (map lower_byte s) = parseIPv6 s) as ->; [|done].
  assert ("%"%char ∉ map lower_byte s) as Hz'.
  { rewrite list_elem_of_fmap. intros (c & Hc & Hin). destruct (lower_byte_sep c) as (_ & _ & [H _]). symmetry in Hc. apply H in Hc. by subst. }
  unfold parseIPv6, split_zone. apply CutByte_None in Hz, Hz'. rewrite Hz, Hz'. cbn. by rewrite ipv6_bits_lower.
Qed.

(** No address ends in a dot. *)
Lemma ipv4_loop_dot s : ∀ prev val digLen fields, ipv4_loop prev (s ++ ["."%char]) val digLen fields = None.
Proof.
  induction s as [|c s IH]; intros prev val digLen fields; cbn [app ipv4_loop].
  - cbn. by rewrite orb_true_r.
  - destruct (is_digit c); [destruct (_ && _); [done|]; cbv zeta; case_match; [done|apply IH]|].
    destruct (bool_decide _); [|done]. destruct (_ || _); [done|]. destruct (_ =? _)%nat; [done|apply IH].
Qed.

Lemma hex_group_dot s : ∀ off acc off' acc' rest,
  hex_group off acc (s ++ ["."%char]) = Some (off', acc', rest) → ∃ r, rest = r ++ ["."%char].
Proof.
  induction s as [|c s IH]; intros off acc off' acc' rest; cbn [app hex_group].
  - change (hex_val "."%char) with (@None Z). intros [= _ _ <-]. by exists [].
  - destruct (hex_val c); [|intros [= _ _ <-]; by exists (c :: s)].
    destruct (3 <? off)%nat; [done|]. cbv zeta. case_match; [done|]. apply IH.
Qed.

Lemma ipv6_loop_dot room : ∀ s ip ell rest ip' ell',
  ipv6_loop room (s ++ ["."%char]) ip ell = Some (rest, ip', ell') → rest ≠ [].
Proof.
  induction room as [|room IH]; intros s ip ell rest ip' ell'; cbn [ipv6_loop].
  { intros [= <- _ _]. by destruct s. }
  intros H. apply bind_Some in H as ([[off acc] r] & Hg & H).
  apply hex_group_dot in Hg as [r' ->]. destruct (off =? 0)%nat; [done|]. cbv zeta in H.
  assert (parseIPv4Fields (s ++ ["."%char]) = None) as Hn by apply ipv4_loop_dot. rewrite Hn in H.
  destruct r' as [|c r']; cbn [app] in H.
  { change (bool_decide ("."%char = "."%char)) with true in H. cbv iota in H.
    destruct (_ && _); [done|]. by destruct (_ <? _)%nat. }
  destruct (bool_decide (c = "."%char)); [destruct (_ && _); [done|]; by destruct (_ <? _)%nat|].
  destruct (negb _); [done|]. destruct r' as [|d r']; cbn [app] in H.
  - change (bool_decide ("."%char = ":"%char)) with false in H. cbv iota in H. by apply (IH []) in H.
  - destruct (bool_decide (d = ":"%char)); [|by apply (IH (d :: r')) in H].
    destruct ell; [done|]. destruct r' as [|e r']; cbn [app] in H; [by apply (IH []) in H|by apply (IH (e :: r')) in H].
Qed.

Lemma ParseAddr_dot s a : ParseAddr (s ++ ["."%char]) = Some a → Zone a ≠ [].
Proof.
  intros [H|H]%ParseAddr_cases Hz.
  - unfold parseIPv4, parseIPv4Fields in H. by rewrite ipv4_loop_dot in H.
  - unfold parseIPv6 in H. apply bind_Some in H as ([s' z] & Hsp & H).
    apply bind_Some in H as (n & Hn & [= <-]). cbn in Hz. subst z.
    apply split_zone_spec in Hsp as [_ [[_ <-]|[? _]]]; [|done]. unfold ipv6_bits in Hn.
    destruct (leading_ellipsis (s ++ ["."%char])) as [r ell] eqn:Hl.
    assert (∃ r', r = r' ++ ["."%char]) as [r' ->].
    { unfold leading_ellipsis in Hl. destruct (CutPrefix _ _) as [r1|] eqn:Hc; injection Hl as <- _; [|eauto].
      apply CutPrefix_spec in Hc. destruct s as [|x [|y s]]; [done|done|]. injection Hc as _ _ <-. eauto. }
    rewrite (bool_decide_eq_false_2 (r' ++ ["."%char] = [])), andb_false_r in Hn by (by destruct r').
    apply bind_Some in Hn as ([[rest ip] ell'] & Hn & Hr). apply ipv6_loop_dot in Hn. by destruct rest.
Qed.

Lemma ParseAddr_colon s n z : ParseAddr s = Some (V6 n z) → ":"%char ∈ s.
Proof.
  unfold ParseAddr. intros H. destruct (addr_kind s) as [k|] eqn:Hk; [|done].
  assert (Hin : k ∈ s).
  { clear H. induction s as [|c s IH]; [done|]. cbn [addr_kind] in Hk. case_bool_decide.
    - injection Hk as ->. by apply elem_of_cons; left.
    - apply elem_of_cons. right. by apply IH. }
  destruct (decide (k = "."%char)) as [->|Hd].
  { unfold parseIPv4 in H. by apply bind_Some in H as (? & _ & ?). }
  destruct (decide (k = ":"%char)) as [->|Hc]; [done|].
  by destruct k as [[] [] [] [] [] [] [] []].
Qed.
