(* ===== verification/GoNet.v ===== *)
(** * The parts of Go's [net/url] and [net] used on a probe target

    [url.Parse] of ["//" + target], the host and port of the result, and
    [net.JoinHostPort] / [net.SplitHostPort].  The rules are those of the
    toolchain go.mod asks for (go 1.27): a host has at most one colon outside
    brackets, and brackets enclose a valid IPv6 literal at the start. *)

From S2P Require Import Prelude GoStrings GoNetip.
Open Scope Z_scope.

(** ** Percent-encoding *)

Inductive encoding := encodePath | encodeUserPassword | encodeHost | encodeZone | encodeFragment.

(** The bytes [shouldEscape] leaves alone in a host or a zone. *)
Definition host_byte (c : ascii) : bool :=
  is_alnum c || bool_decide (c ∈ String.list_ascii_of_string "!$&'()*+,;=:[]<>-_.~")
  || (byte_val c =? 34).

Definition is_host_mode (m : encoding) : bool :=
  match m with encodeHost | encodeZone => true | _ => false end.

(** Whether [%ab] may be written: in a host only non-ASCII bytes and [%25], in a
    zone what could be written directly, and a space. *)
Definition escape_ok (m : encoding) (a b : Z) : bool :=
  let pct := (a =? 2) && (b =? 5) in
  match m with
  | encodeHost => (8 <=? a) || pct
  | encodeZone => pct || (a * 16 + b =? 32) || host_byte (byte_of (a * 16 + b))
  | _ => true
  end.

Fixpoint unescape (m : encoding) (s : gostring) : option gostring :=
  match s with
  | [] => Some []
  | c :: s1 =>
      if bool_decide (c = "%"%char) then
        match s1 with
        | h :: l :: s2 =>
            a ← hex_val h; b ← hex_val l;
            if escape_ok m a b then r ← unescape m s2; Some (byte_of (a * 16 + b) :: r)
            else None
        | _ => None
        end
      else if is_host_mode m && (byte_val c <? 128) && negb (host_byte c) then None
      else r ← unescape m s1; Some (c :: r)
  end.

(** ** Authorities *)

Definition validOptionalPort (p : gostring) : bool :=
  match p with
  | [] => true
  | c :: ds => bool_decide (c = ":"%char) && forallb is_digit ds
  end.

(** The text between brackets: the part before [%25] as a host, the rest as a zone. *)
Fixpoint cut_zone (s : gostring) : gostring * gostring :=
  match s with
  | [] => ([], [])
  | c :: s' =>
      if HasPrefix s "%25" then ([], s)
      else let '(h, z) := cut_zone s' in (c :: h, z)
  end.

Definition parseIPLiteral (host : gostring) : option gostring :=
  '(before, colonPort) ← LastCutByte host "]"%char;
  if negb (validOptionalPort colonPort) then None
  else
    let hostname := drop 1 before in
    let '(h, z) := cut_zone hostname in
    h' ← unescape encodeHost h; z' ← unescape encodeZone z;
    match ParseAddr (h' ++ z') with
    | Some (V6 _ _) => Some ("["%char :: (h' ++ z') ++ "]"%char :: colonPort)
    | _ => None
    end.

Definition parseHost (host : gostring) : option gostring :=
  match LastCutByte host "["%char with
  | Some ([], _) => parseIPLiteral host
  | Some _ => None
  | None =>
      match CutByte host ":"%char with
      | Some (_, port) =>
          if validOptionalPort (":"%char :: port) then unescape encodeHost host else None
      | None => unescape encodeHost host
      end
  end.

Definition userinfo_byte (c : ascii) : bool :=
  is_alnum c || bool_decide (c ∈ String.list_ascii_of_string "-._:~!$&'()*+,;=%@").

(** Everything before the last [@] is user information. *)
Definition parseAuthority (authority : gostring) : option (option gostring * gostring) :=
  match LastCutByte authority "@"%char with
  | None => host ← parseHost authority; Some (None, host)
  | Some (userinfo, h) =>
      host ← parseHost h;
      if negb (forallb userinfo_byte userinfo) then None
      else _ ← unescape encodeUserPassword userinfo; Some (Some userinfo, host)
  end.

(** ** URLs *)

Record URL := {
  User : option gostring;
  Host : gostring;
  Path : gostring;
  RawQuery : gostring;
  Fragment : gostring;
  Opaque : gostring
}.

Definition is_ctl (c : ascii) : bool := (byte_val c <? 32) || (byte_val c =? 127).

(** The query: a lone trailing [?] leaves it empty ([ForceQuery]). *)
Definition cut_query (s : gostring) : gostring * gostring :=
  match CutByte s "?"%char with Some (b, a) => (b, a) | None => (s, []) end.

(** [url.parse] of ["//" ++ rest0]: what follows the two slashes up to the next
    slash is the authority, unless a third slash makes all of it a path. *)
Definition parse_slashes (rest0 : gostring) : option URL :=
  if existsb is_ctl rest0 then None
  else
    let '(rest, query) := cut_query rest0 in
    '(user, host, raw_path) ←
      match rest with
      | "/"%char :: _ => Some (None, [], "//" ++ rest)
      | _ =>
          let '(authority, raw_path) :=
            match CutByte rest "/"%char with Some (b, a) => (b, "/"%char :: a) | None => (rest, []) end in
          '(user, host) ← parseAuthority authority; Some (user, host, raw_path)
      end;
    path ← unescape encodePath raw_path;
    Some {| User := user; Host := host; Path := path; RawQuery := query;
            Fragment := []; Opaque := [] |}.

(** [url.Parse("//" + target)]: the fragment is cut off first. *)
Definition url_Parse (target : gostring) : option URL :=
  match CutByte target "#"%char with
  | None => parse_slashes target
  | Some (rest, frag) =>
      u ← parse_slashes rest;
      f ← unescape encodeFragment frag;
      Some {| User := u.(User); Host := u.(Host); Path := u.(Path);
              RawQuery := u.(RawQuery); Fragment := f; Opaque := u.(Opaque) |}
  end.

(** [u.Hostname()] and [u.Port()] *)
Definition strip_brackets (host : gostring) : gostring :=
  if HasPrefix host "[" && HasSuffix host "]" then take (length host - 2) (drop 1 host) else host.

Definition splitHostPort (hostPort : gostring) : gostring * gostring :=
  let '(host, port) :=
    match LastCutByte hostPort ":"%char with
    | Some (h, p) => if forallb is_digit p then (h, p) else (hostPort, [])
    | None => (hostPort, [])
    end in
  (strip_brackets host, port).

Definition Hostname (u : URL) : gostring := (splitHostPort u.(Host)).1.
Definition Port (u : URL) : gostring := (splitHostPort u.(Host)).2.

(** ** Addresses of [net] *)

Definition JoinHostPort (host port : gostring) : gostring :=
  if ContainsByte host ":"%char then "["%char :: host ++ "]"%char :: ":"%char :: port
  else host ++ ":"%char :: port.

(** [net.SplitHostPort]; [None] is any of its errors. *)
Definition SplitHostPort (hostport : gostring) : option (gostring * gostring) :=
  '(before, port) ← LastCutByte hostport ":"%char;
  if HasPrefix hostport "[" then
    let inner := drop 1 hostport in
    '(host, after) ← CutByte inner "]"%char;
    (* the first closing bracket must be followed by the last colon *)
    if negb (bool_decide (after = ":"%char :: port)) then None
    else if ContainsByte inner "["%char then None
    else if ContainsByte after "]"%char then None
    else Some (host, port)
  else if ContainsByte before ":"%char then None
  else if ContainsByte hostport "["%char then None
  else if ContainsByte hostport "]"%char then None
  else Some (before, port).

Section examples.
Local Definition hp (target : gostring) : option (gostring * gostring) :=
  (λ u, (Hostname u, Port u)) <$> url_Parse target.

Example url_plain : hp "example.com:2222" = Some ("example.com" : gostring, "2222" : gostring).
Proof. reflexivity. Qed.
Example url_v6 : hp "[2001:db8::1]:22" = Some ("2001:db8::1" : gostring, "22" : gostring).
Proof. reflexivity. Qed.
Example url_zone : hp "[fe80::1%25eth0]" = Some ("fe80::1%eth0" : gostring, [] : gostring).
Proof. reflexivity. Qed.
Example url_rejects :
  map hp (map String.list_ascii_of_string
    ["example.com:notaport"; "a:1:2"; "x[::1]"; "[::1"; "[1.2.3.4]"; "a b"; "a%41"; "%zz"]%string)
  = replicate 8 None.
Proof. reflexivity. Qed.
End examples.

(** ** What the parsers guarantee *)

Lemma unescape_nil m s : unescape m s = Some [] → s = [].
Proof.
  destruct s as [|c s]; [done|]. simpl. case_bool_decide as Hc.
  - destruct s as [|h [|l s]]; [done..|]. intros H.
    apply bind_Some in H as (a & _ & H). apply bind_Some in H as (b & _ & H).
    destruct (escape_ok _ _ _); [|done]. by apply bind_Some in H as (? & _ & ?).
  - destruct (_ && _); [done|]. intros H. by apply bind_Some in H as (? & _ & ?).
Qed.

(** An ASCII byte other than [%] of an unescaped host was written as such. *)
Lemma unescape_host_elem s : ∀ r c,
  unescape encodeHost s = Some r → c ∈ r → byte_val c < 128 → c ≠ "%"%char → c ∈ s.
Proof.
  induction s as [s IH] using (induction_ltof1 _ length). unfold ltof in IH.
  destruct s as [|x s]; intros r c; simpl; [intros [= <-]; set_solver|].
  case_bool_decide as Hx.
  - destruct s as [|h [|l s]]; [done..|]. intros H Hc Hv Hp.
    apply bind_Some in H as (a & Ha & H). apply bind_Some in H as (b & Hb & H).
    destruct (_ || _) eqn:He; [|done]. apply bind_Some in H as (r' & Hr & [= <-]).
    apply elem_of_cons in Hc as [->|Hc].
    + exfalso. apply hex_val_range in Ha, Hb. rewrite byte_val_of in Hv by lia.
      destruct (8 <=? a) eqn:H8; bool_simpl; [lia|]. simpl in He. bool_simpl. by subst.
    + do 3 (apply elem_of_cons; right). eapply IH; try done. simpl. lia.
  - destruct (_ && _); [done|]. intros H Hc Hv Hp. apply bind_Some in H as (r' & Hr & [= <-]).
    apply elem_of_cons in Hc as [->|Hc]; [set_solver|].
    apply elem_of_cons. right. eapply IH; try done. simpl. lia.
Qed.

Lemma parseAuthority_no_user a host :
  parseAuthority a = Some (None, host) → ("@"%char ∉ a) ∧ parseHost a = Some host.
Proof.
  unfold parseAuthority. intros H. destruct (LastCutByte a "@"%char) as [[ui h]|] eqn:Hl.
  - apply bind_Some in H as (? & _ & H). destruct (negb _); [done|].
    by apply bind_Some in H as (? & _ & ?).
  - apply LastCutByte_None in Hl. by apply bind_Some in H as (? & ? & [= ->]).
Qed.

Lemma cut_query_empty s a : cut_query s = (a, []) →
  ∃ q, s = a ++ q ∧ (q = [] ∨ q = ["?"%char]) ∧ ("?"%char ∉ a).
Proof.
  unfold cut_query. destruct (CutByte s "?"%char) as [[b r]|] eqn:Hc.
  - intros [= <- ->]. apply CutByte_Some in Hc as [-> Hb]. exists ["?"%char]. naive_solver.
  - intros [= <-]. apply CutByte_None in Hc. exists []. rewrite app_nil_r. naive_solver.
Qed.

Lemma parse_slashes_bare rest u :
  parse_slashes rest = Some u → u.(User) = None → u.(Path) = [] → u.(RawQuery) = [] →
  ∃ a q, rest = a ++ q ∧ (q = [] ∨ q = ["?"%char]) ∧ ("?"%char ∉ a)
    ∧ ("@"%char ∉ a) ∧ ("/"%char ∉ a) ∧ parseHost a = Some u.(Host).
Proof.
  unfold parse_slashes. destruct (existsb is_ctl rest); [done|].
  destruct (cut_query rest) as [a query] eqn:Hcq. intros Hu HU HP HQ.
  apply bind_Some in Hu as ([[user host] raw] & Hbody & Hu).
  apply bind_Some in Hu as (path & Hpath & [= <-]). simpl in *. subst path user query.
  apply unescape_nil in Hpath as ->. apply cut_query_empty in Hcq as (q & -> & Hq & Hqa).
  assert (head a ≠ Some "/"%char ∧ (let '(authority, raw_path) :=
     match CutByte a "/"%char with Some (b, r) => (b, "/"%char :: r) | None => (a, []) end in
     '(user, host) ← parseAuthority authority; Some (user, host, raw_path))
     = Some (None, host, [] : gostring)) as [Hhd Hb].
  { destruct a as [|c a]; [done|]. destruct (decide (c = "/"%char)) as [->|Hc]; [by injection Hbody|].
    split; [by intros [= ->]|]. rewrite <- Hbody. by destruct c as [[] [] [] [] [] [] [] []]. }
  clear Hbody. exists a, q. destruct (CutByte a "/"%char) as [[b r]|] eqn:Hcut.
  - by apply bind_Some in Hb as ([? ?] & _ & ?).
  - apply CutByte_None in Hcut. apply bind_Some in Hb as ([? ?] & Hauth & [= -> ->]).
    apply parseAuthority_no_user in Hauth as [Hat Hhost]. done.
Qed.

(** The authority of an accepted URL has no structure but host and port. *)
Lemma url_Parse_bare target u :
  url_Parse target = Some u →
  u.(User) = None → u.(Path) = [] → u.(RawQuery) = [] → u.(Fragment) = [] →
  ∃ a q f, target = a ++ q ++ f ∧ (q = [] ∨ q = ["?"%char]) ∧ (f = [] ∨ f = ["#"%char])
    ∧ ("@"%char ∉ a) ∧ ("/"%char ∉ a) ∧ ("?"%char ∉ a) ∧ ("#"%char ∉ a)
    ∧ parseHost a = Some u.(Host).
Proof.
  intros Hp HU HP HQ HF. unfold url_Parse in Hp.
  destruct (CutByte target "#"%char) as [[rest frag]|] eqn:Hc.
  - apply CutByte_Some in Hc as [-> Hc]. apply bind_Some in Hp as (u' & Hu & Hp).
    apply bind_Some in Hp as (fr & Hfr & [= <-]). simpl in *. subst fr.
    apply unescape_nil in Hfr as ->.
    destruct (parse_slashes_bare _ _ Hu HU HP HQ) as (a & q & -> & ? & ? & ? & ? & ?).
    exists a, q, ["#"%char]. rewrite <- app_assoc. set_solver.
  - apply CutByte_None in Hc.
    destruct (parse_slashes_bare _ _ Hp HU HP HQ) as (a & q & -> & ? & ? & ? & ? & ?).
    exists a, q, []. rewrite app_nil_r. set_solver.
Qed.

(** A host is an IPv6 literal in brackets, or free of opening brackets. *)
Lemma parseHost_cases a host :
  parseHost a = Some host →
  (∃ inner n z colonPort, host = "["%char :: inner ++ "]"%char :: colonPort
     ∧ ParseAddr inner = Some (V6 n z) ∧ validOptionalPort colonPort = true)
  ∨ ("["%char ∉ host).
Proof.
  unfold parseHost. destruct (LastCutByte a "["%char) as [[[|c b] r]|] eqn:Hl; [|done|].
  - unfold parseIPLiteral. intros H. apply bind_Some in H as ([before cp] & _ & H).
    destruct (validOptionalPort cp) eqn:Hcp; [|done]. simpl in H.
    destruct (cut_zone _) as [h z]. apply bind_Some in H as (h' & _ & H).
    apply bind_Some in H as (z' & _ & H). destruct (ParseAddr (h' ++ z')) as [[|n zn]|] eqn:Ha; [done| |done].
    injection H as <-. left. by exists (h' ++ z'), n, zn, cp.
  - apply LastCutByte_None in Hl. intros H. right. intros Hin.
    assert (unescape encodeHost a = Some host) as Hu.
    { destruct (CutByte a ":"%char) as [[? ?]|]; [|done]. by destruct (validOptionalPort _). }
    by eapply Hl, unescape_host_elem.
Qed.

Lemma splitHostPort_digits host h p : splitHostPort host = (h, p) → forallb is_digit p = true.
Proof.
  unfold splitHostPort. destruct (LastCutByte host ":"%char) as [[b r]|]; [|by intros [= _ <-]].
  destruct (forallb is_digit r) eqn:Hd; by intros [= _ <-].
Qed.

Lemma strip_brackets_app inner : strip_brackets ("["%char :: inner ++ ["]"%char]) = inner.
Proof.
  unfold strip_brackets.
  assert (HasPrefix ("["%char :: inner ++ ["]"%char]) "[" = true) as -> by (apply HasPrefix_spec; eauto).
  assert (HasSuffix ("["%char :: inner ++ ["]"%char]) "]" = true) as ->.
  { apply HasSuffix_spec. by exists ("["%char :: inner). }
  change (drop 1 ("["%char :: inner ++ ["]"%char])) with (inner ++ ["]"%char]). cbn [andb].
  rewrite length_cons, length_app. cbn [length].
  replace (S (length inner + 1) - 2)%nat with (length inner) by lia. apply take_app_length.
Qed.

Lemma splitHostPort_bracketed inner cp :
  validOptionalPort cp = true →
  splitHostPort ("["%char :: inner ++ "]"%char :: cp) = (inner, drop 1 cp).
Proof.
  unfold splitHostPort. destruct cp as [|c ds]; simpl validOptionalPort; intros Hcp.
  - rewrite app_comm_cons, LastCutByte_snoc by done. rewrite <- app_comm_cons.
    destruct (LastCutByte ("["%char :: inner) ":"%char) as [[b r]|];
      [rewrite forallb_app, andb_false_r|]; by rewrite strip_brackets_app.
  - apply andb_true_iff in Hcp as [->%bool_decide_eq_true Hds].
    assert (LastCutByte ("["%char :: inner ++ "]"%char :: ":"%char :: ds) ":"%char
            = Some ("["%char :: inner ++ ["]"%char], ds)) as ->.
    { apply LastCutByte_Some. split; [by rewrite <- app_comm_cons, <- app_assoc|].
      by apply digits_no_byte. }
    by rewrite Hds, strip_brackets_app.
Qed.

Lemma strip_brackets_elem s c : c ∈ strip_brackets s → c ∈ s.
Proof.
  unfold strip_brackets. destruct (_ && _); [|done]. intros Hc.
  rewrite <- (take_drop 1 s). apply elem_of_app. right.
  rewrite <- (take_drop (length s - 2) (drop 1 s)). apply elem_of_app. by left.
Qed.

(** [u.Hostname()] of an accepted host: a valid IPv6 literal, or a name without
    an opening bracket. *)
Lemma Hostname_cases a host h p :
  parseHost a = Some host → splitHostPort host = (h, p) →
  (∃ n z, ParseAddr h = Some (V6 n z)) ∨ ("["%char ∉ h).
Proof.
  intros [(inner & n & z & cp & -> & Hip & Hcp)|Hno]%parseHost_cases Hsp.
  - rewrite splitHostPort_bracketed in Hsp by done. injection Hsp as <- _. eauto.
  - right. unfold splitHostPort in Hsp.
    destruct (LastCutByte host ":"%char) as [[b r]|] eqn:Hl;
      [destruct (forallb is_digit r)|]; injection Hsp as <- _; intros ?%strip_brackets_elem;
      [apply LastCutByte_Some in Hl as [-> _]|..]; set_solver.
Qed.

Lemma ParseAddr_head s a : ParseAddr s = Some a → head s ≠ Some "["%char.
Proof.
  destruct s as [|c s]; [done|]. intros Ha [= ->].
  destruct (decide (Zone a = [])) as [Hz|Hz].
  - by apply ParseAddr_chars in Ha.
  - apply ParseAddr_cases in Ha as [H|H].
    + unfold parseIPv4 in H. by apply bind_Some in H as (? & _ & [= <-]).
    + unfold parseIPv6 in H. apply bind_Some in H as ([s' z] & Hsp & H).
      apply bind_Some in H as (n & Hn & [= <-]). apply ipv6_bits_spec in Hn as [_ Hc].
      apply split_zone_spec in Hsp as [_ [[-> _]|[_ Heq]]]; [done|].
      destruct s' as [|c s']; [done|]. injection Heq as <- _. done.
Qed.

(** ** Joining and splitting an address *)

Lemma HasPrefix_bracket s : HasPrefix ("["%char :: s) "[" = true.
Proof. apply HasPrefix_spec. eauto. Qed.

Lemma HasPrefix_bracket_join h p :
  head h ≠ Some "["%char → HasPrefix (h ++ ":"%char :: p) "[" = false.
Proof.
  intros Hh. apply not_true_is_false. intros [r Hr]%HasPrefix_spec.
  destruct h as [|c h]; simplify_eq/=.
Qed.

Lemma SplitHostPort_JoinHostPort h p h' p' :
  head h ≠ Some "["%char → forallb is_digit p = true →
  SplitHostPort (JoinHostPort h p) = Some (h', p') → h' = h ∧ p' = p.
Proof.
  intros Hh Hp. assert (":"%char ∉ p) as Hpc by (by apply digits_no_byte).
  unfold JoinHostPort, SplitHostPort. destruct (ContainsByte h ":"%char) eqn:Hc.
  - assert (LastCutByte ("["%char :: h ++ "]"%char :: ":"%char :: p) ":"%char
            = Some ("["%char :: h ++ ["]"%char], p)) as ->.
    { apply LastCutByte_Some. split; [by rewrite <- app_comm_cons, <- app_assoc|done]. }
    simpl. rewrite drop_0. destruct (CutByte (h ++ _) "]"%char) as [[b a]|] eqn:Hcut; [|done]. simpl.
    case_bool_decide as Ha; simpl; [|done]. destruct (ContainsByte (h ++ _) _); [done|].
    destruct (ContainsByte a _); [done|]. intros [= <- <-]. split; [|done]. subst a.
    apply CutByte_Some in Hcut as [Heq _].
    replace (h ++ "]"%char :: ":"%char :: p) with ((h ++ ["]"%char]) ++ ":"%char :: p) in Heq
      by (by rewrite <- app_assoc).
    replace (b ++ "]"%char :: ":"%char :: p) with ((b ++ ["]"%char]) ++ ":"%char :: p) in Heq
      by (by rewrite <- app_assoc).
    apply app_inv_tail, app_inj_tail in Heq. by destruct Heq.
  - assert (LastCutByte (h ++ ":"%char :: p) ":"%char = Some (h, p)) as -> by (by apply LastCutByte_Some).
    simpl. rewrite HasPrefix_bracket_join by done.
    repeat (case_match; simpl; [done|]). by intros [= <- <-].
Qed.

Lemma SplitHostPort_JoinHostPort_ok h p :
  ("["%char ∉ h) → ("]"%char ∉ h) → forallb is_digit p = true →
  SplitHostPort (JoinHostPort h p) = Some (h, p).
Proof.
  intros Ho Hcl Hp. assert (":"%char ∉ p) as Hpc by (by apply digits_no_byte).
  assert ("["%char ∉ p) as Hpo by (by apply digits_no_byte).
  assert ("]"%char ∉ p) as Hpcl by (by apply digits_no_byte).
  unfold JoinHostPort, SplitHostPort. destruct (ContainsByte h ":"%char) eqn:Hc.
  - assert (LastCutByte ("["%char :: h ++ "]"%char :: ":"%char :: p) ":"%char
            = Some ("["%char :: h ++ ["]"%char], p)) as ->.
    { apply LastCutByte_Some. split; [by rewrite <- app_comm_cons, <- app_assoc|done]. }
    simpl. rewrite drop_0.
    assert (CutByte (h ++ "]"%char :: ":"%char :: p) "]"%char = Some (h, ":"%char :: p)) as ->
      by (by apply CutByte_Some).
    simpl. rewrite bool_decide_eq_true_2 by done. simpl.
    rewrite (proj2 (ContainsByte_false _ "["%char)), (proj2 (ContainsByte_false _ "]"%char));
      [done|..]; rewrite ?elem_of_app, !elem_of_cons; naive_solver.
  - apply ContainsByte_false in Hc.
    assert (LastCutByte (h ++ ":"%char :: p) ":"%char = Some (h, p)) as -> by (by apply LastCutByte_Some).
    assert (ContainsByte (h ++ ":"%char :: p) "["%char = false) as E1
      by (apply ContainsByte_false; rewrite elem_of_app, elem_of_cons; naive_solver).
    assert (ContainsByte (h ++ ":"%char :: p) "]"%char = false) as E2
      by (apply ContainsByte_false; rewrite elem_of_app, elem_of_cons; naive_solver).
    simpl. rewrite HasPrefix_bracket_join, (proj2 (ContainsByte_false h _) Hc), E1, E2; [done|].
    intros Heq. apply Ho. destruct h as [|c h]; [done|]. injection Heq as ->. apply elem_of_cons. by left.
Qed.
