(* ===== verification/Normalize.v ===== *)
(** * internal/normalize: the canonical form of a host name

    [Hostname] is applied to every configured host pattern and to the host of
    every probe request, before they are compared. *)

From S2P Require Import Prelude GoStrings.
Open Scope Z_scope.

Section Normalize.
Context {U : UnicodeTables}.

(** [normalize.Hostname]: drop one trailing dot, then lower-case. *)
Definition Hostname (h : gostring) : gostring := ToLower (TrimSuffix h ".").

Lemma Hostname_dot h : Hostname (h ++ ["."%char]) = ToLower h.
Proof. unfold Hostname. change (["."%char]) with ("." : gostring). by rewrite TrimSuffix_app. Qed.

Lemma TrimSuffix_dot h :
  TrimSuffix h "." = h ∨ h = TrimSuffix h "." ++ ["."%char].
Proof.
  unfold TrimSuffix. destruct (HasSuffix h ".") eqn:H; [|by left].
  apply HasSuffix_spec in H as [r ->]. right. by rewrite take_suffix.
Qed.

Lemma is_ascii_TrimSuffix h : is_ascii h = true → is_ascii (TrimSuffix h ".") = true.
Proof.
  intros Ha. destruct (TrimSuffix_dot h) as [->|Hd]; [done|].
  rewrite Hd in Ha. unfold is_ascii in *. rewrite forallb_app in Ha. by bool_simpl.
Qed.

(** A host already canonical, without a trailing dot, is left alone. *)
Lemma Hostname_fixed h :
  is_ascii h = true → forallb (λ c, negb (is_upper c)) h = true → HasSuffix h "." = false →
  Hostname h = h.
Proof.
  intros Ha Hu Hs. unfold Hostname, TrimSuffix. rewrite Hs, ToLower_ascii by done.
  clear Ha Hs. induction h as [|c h IH]; simpl in *; [done|]. bool_simpl.
  rewrite IH by done. unfold lower_byte. by match goal with H : is_upper c = false |- _ => rewrite H end.
Qed.

Lemma Hostname_elem_inv `{!UnicodeLaws U} h c :
  c ∈ Hostname h → byte_val c < 128 → is_lower c = false → c ∈ h.
Proof.
  intros Hc Hv Hl. apply ToLower_elem_inv in Hc; [|done..].
  destruct (TrimSuffix_dot h) as [Heq|Heq]; [by rewrite Heq in Hc|]. rewrite Heq. set_solver.
Qed.

(** Two spellings that differ in the case of ASCII letters, or in one trailing
    dot, name the same host. *)
Theorem Hostname_canonical (h : gostring) :
  is_ascii h = true → HasSuffix h "." = false →
  Hostname (h ++ ["."%char]) = Hostname h ∧ Hostname (map lower_byte h) = Hostname h.
Proof.
  intros Ha Hs. split.
  - rewrite Hostname_dot. unfold Hostname, TrimSuffix. by rewrite Hs.
  - unfold Hostname, TrimSuffix. rewrite Hs.
    destruct (HasSuffix (map lower_byte h) ".") eqn:Hs'.
    + exfalso. apply HasSuffix_spec in Hs' as [r Hr].
      destruct h as [|c h _] using rev_ind; [by destruct r|].
      rewrite map_app in Hr. apply app_inj_tail in Hr as [_ Hc].
      apply (proj1 (lower_byte_fixed c "."%char eq_refl eq_refl)) in Hc. subst c.
      by rewrite (HasSuffix_app "." h : HasSuffix (h ++ ["."%char]) "." = true) in Hs.
    + rewrite !ToLower_ascii; [|done|by apply is_ascii_lower].
      rewrite map_map. apply map_ext. intros c. apply lower_byte_idemp.
Qed.
End Normalize.

Lemma Hostname_canonical_witness :
  @Hostname caseless "example.com." = @Hostname caseless "example.com".
Proof. exact (proj1 (@Hostname_canonical caseless "example.com" eq_refl eq_refl)). Defined.
