(* ===== verification/Target.v ===== *)
(** * internal/config/target.go: the allow-list of probe targets

    Each kind of matcher is a record with its [Match] method; [TargetMatcher] is
    the interface, and [matcher] the value of that interface type that
    [buildTarget] and [resolveAllowedTargets] produce. *)

From S2P Require Import Prelude GoStrings GoNetip Normalize.
Open Scope Z_scope.

(** ** The interface and its implementations *)

Class TargetMatcher (M : Type) := Match : M → gostring → bool.

Record allowAllMatcher := AllowAllMatcher {}.
Record hostMatcher := HostMatcher { host : gostring }.
Record wildcardMatcher := WildcardMatcher { parent : gostring }.
Record ipMatcher := IPMatcher { addr : Addr }.
Record cidrMatcher := CIDRMatcher { prefix : Prefix }.

Definition allowAll_Match (_ : allowAllMatcher) (_ : gostring) : bool := true.

Definition host_Match (m : hostMatcher) (h : gostring) : bool := bool_decide (h = m.(host)).

Definition wildcard_Match (m : wildcardMatcher) (h : gostring) : bool :=
  let suffix := "."%char :: m.(parent) in
  if negb (HasSuffix h suffix) then false
  else
    let label := take (length h - length suffix) h in
    negb (bool_decide (label = [])) && negb (ContainsByte label "."%char).

Definition ip_Match (m : ipMatcher) (h : gostring) : bool :=
  match ParseAddr h with
  | None => false
  | Some a => if negb (bool_decide (Zone a = [])) then false else bool_decide (a = m.(addr))
  end.

Definition cidr_Match (m : cidrMatcher) (h : gostring) : bool :=
  match ParseAddr h with
  | None => false
  | Some a => if negb (bool_decide (Zone a = [])) then false else Contains m.(prefix) a
  end.

#[export] Instance allowAll_matcher : TargetMatcher allowAllMatcher := allowAll_Match.
#[export] Instance host_matcher : TargetMatcher hostMatcher := host_Match.
#[export] Instance wildcard_matcher : TargetMatcher wildcardMatcher := wildcard_Match.
#[export] Instance ip_matcher : TargetMatcher ipMatcher := ip_Match.
#[export] Instance cidr_matcher : TargetMatcher cidrMatcher := cidr_Match.

(** A value of interface type [TargetMatcher]. *)
Inductive matcher :=
  | MAllowAll (m : allowAllMatcher)
  | MHost (m : hostMatcher)
  | MWildcard (m : wildcardMatcher)
  | MIP (m : ipMatcher)
  | MCIDR (m : cidrMatcher).

#[export] Instance matcher_matcher : TargetMatcher matcher := λ m,
  match m with
  | MAllowAll m => Match m
  | MHost m => Match m
  | MWildcard m => Match m
  | MIP m => Match m
  | MCIDR m => Match m
  end.

(** ** Building matchers from patterns *)

Inductive target_error :=
  | ENoAllowedTargets
  | EEmptyPattern
  | EAllowAllPattern (pattern : gostring)
  | EMultiLabel (pattern : gostring)
  | EZone (pattern : gostring)
  | EEmptyHostname (pattern : gostring)
  | EInvalidWildcard (pattern : gostring)
  | EInvalidCIDR (pattern : gostring).

Section Build.
Context {U : UnicodeTables}.

Definition newHostMatcher (pattern : gostring) : res target_error matcher :=
  let h := Hostname pattern in
  if bool_decide (h = []) then Fail (EEmptyHostname pattern) else Ok (MHost (HostMatcher h)).

Definition newWildcardMatcher (pattern : gostring) : res target_error matcher :=
  let p := Hostname (TrimPrefix pattern "*.") in
  if bool_decide (p = []) || ContainsByte p "*"%char then Fail (EInvalidWildcard pattern)
  else Ok (MWildcard (WildcardMatcher p)).

Definition newIPMatcher (a : Addr) : res target_error matcher :=
  if negb (bool_decide (Zone a = [])) then Fail (EZone (Zone a)) else Ok (MIP (IPMatcher a)).

Definition newCIDRMatcher (pattern : gostring) : res target_error matcher :=
  match ParsePrefix pattern with
  | None => Fail (EInvalidCIDR pattern)
  | Some p => Ok (MCIDR (CIDRMatcher (Masked p)))
  end.

Definition buildTarget (pattern : gostring) : res target_error matcher :=
  if bool_decide (pattern = []) then Fail EEmptyPattern
  else if bool_decide (pattern = ("*" : gostring)) then Fail (EAllowAllPattern pattern)
  else if HasPrefix pattern "**" then Fail (EMultiLabel pattern)
  else if ContainsByte pattern "%"%char then Fail (EZone pattern)
  else if HasPrefix pattern "*." then newWildcardMatcher pattern
  else if ContainsByte pattern "/"%char then newCIDRMatcher pattern
  else match ParseAddr pattern with
       | Some a => newIPMatcher a
       | None => newHostMatcher pattern
       end.

(** The loop over the patterns stops at the first one that is rejected. *)
Fixpoint buildTargets (patterns : list gostring) : res target_error (list matcher) :=
  match patterns with
  | [] => Ok []
  | pat :: patterns =>
      m ← buildTarget pat; ms ← buildTargets patterns; Ok (m :: ms)
  end.

Definition resolveAllowedTargets (patterns : list gostring) (allowAll : bool)
    : res target_error (list matcher) :=
  match patterns with
  | [] => if allowAll then Ok [MAllowAll AllowAllMatcher] else Fail ENoAllowedTargets
  | _ => buildTargets patterns
  end.
End Build.

(** ** What each matcher accepts *)

Lemma wildcard_Match_spec p h :
  Match (WildcardMatcher p) h = true ↔
  ∃ label, label ≠ [] ∧ ("."%char ∉ label) ∧ h = label ++ "."%char :: p.
Proof.
  unfold Match, wildcard_matcher, wildcard_Match. cbn [parent].
  destruct (HasSuffix h ("."%char :: p)) eqn:Hs; cbn [negb].
  - apply HasSuffix_spec in Hs as [l ->]. rewrite take_suffix.
    rewrite andb_true_iff, !negb_true_iff, bool_decide_eq_false, ContainsByte_false.
    split; [naive_solver|]. intros (l' & ? & ? & Heq).
    apply app_inv_tail in Heq as ->. done.
  - split; [done|]. intros (l & _ & _ & ->). by rewrite HasSuffix_app in Hs.
Qed.

Lemma ip_Match_spec a h :
  Match (IPMatcher a) h = true ↔ ParseAddr h = Some a ∧ Zone a = [].
Proof.
  unfold Match, ip_matcher, ip_Match. cbn [addr].
  destruct (ParseAddr h) as [b|]; [|naive_solver].
  destruct (bool_decide (Zone b = [])) eqn:Hz; cbn [negb]; bool_simpl;
    rewrite ?bool_decide_eq_true; naive_solver.
Qed.

Lemma cidr_Match_spec p h :
  Match (CIDRMatcher p) h = true ↔
  ∃ a, ParseAddr h = Some a ∧ Zone a = [] ∧ Contains p a = true.
Proof.
  unfold Match, cidr_matcher, cidr_Match. cbn [prefix].
  destruct (ParseAddr h) as [b|]; [|naive_solver].
  destruct (bool_decide (Zone b = [])) eqn:Hz; cbn [negb]; bool_simpl; naive_solver.
Qed.

Section Facts.
Context {U : UnicodeTables}.

(** No pattern compiles to the matcher that accepts everything. *)
Lemma buildTarget_not_allow_all pat m : buildTarget pat = Ok m → m ≠ MAllowAll AllowAllMatcher.
Proof.
  unfold buildTarget, newWildcardMatcher, newCIDRMatcher, newIPMatcher, newHostMatcher.
  cbv zeta. intros H ->. repeat (case_match; try done).
Qed.

Lemma buildTargets_Forall2 pats ms :
  buildTargets pats = Ok ms ↔ Forall2 (λ pat m, buildTarget pat = Ok m) pats ms.
Proof.
  revert ms. induction pats as [|pat pats IH]; intros ms; simpl.
  - split; [by intros [= <-]|]. by inversion_clear 1.
  - rewrite bind_Ok. setoid_rewrite bind_Ok. setoid_rewrite IH. split.
    + intros (m & Hm & ms' & Hms & [= <-]). by constructor.
    + inversion_clear 1. eauto 8.
Qed.

Lemma buildTarget_pattern_nonempty pat m : buildTarget pat = Ok m → pat ≠ [].
Proof. intros H ->. done. Qed.
End Facts.

Section Properties.
Context {U : UnicodeTables}.

(** C28: of the host names, that is the targets that are no literal addresses, a
    wildcard pattern matches exactly those that have one non-empty label, without
    a dot, in front of its canonical suffix; in particular not the suffix itself
    and no deeper subdomain. *)
Theorem wildcard_one_label rest m :
  buildTarget ("*." ++ rest) = Ok m →
  ∃ p, p = Hostname rest ∧ p ≠ [] ∧ ("*"%char ∉ p) ∧
    ∀ h, ParseAddr h = None →
      Match m h = true ↔ ∃ label, label ≠ [] ∧ ("."%char ∉ label) ∧ h = label ++ "."%char :: p.
Proof.
  intros Hb. unfold buildTarget in Hb. do 4 (case_match; try done).
  rewrite HasPrefix_app in Hb. unfold newWildcardMatcher in Hb. rewrite TrimPrefix_app in Hb.
  cbv zeta in Hb. destruct (_ || _) eqn:Hbad; [done|]. injection Hb as <-. bool_simpl.
  eexists. repeat split; try done; [by apply ContainsByte_false|..];
    by apply wildcard_Match_spec.
Qed.

Lemma resolve_matches pats allowAll ms h :
  resolveAllowedTargets pats allowAll = Ok ms →
  existsb (λ m, Match m h) ms = true ↔
  (pats = [] ∧ allowAll = true)
  ∨ ∃ pat m, pat ∈ pats ∧ buildTarget pat = Ok m ∧ m ≠ MAllowAll AllowAllMatcher ∧ Match m h = true.
Proof.
  unfold resolveAllowedTargets. destruct pats as [|pat pats].
  { destruct allowAll; [|done]. intros [= <-]. simpl. naive_solver set_solver. }
  intros Hb%buildTargets_Forall2. rewrite existsb_exists. split.
  - intros (m & Hin & Hm). right. apply list_elem_of_In, list_elem_of_lookup in Hin as [i Hi].
    destruct (Forall2_lookup_r _ _ _ _ _ Hb Hi) as (p & Hp & Hpm).
    exists p, m. repeat split; [|done|by eapply buildTarget_not_allow_all|done].
    by eapply list_elem_of_lookup_2.
  - intros [[? _]|(p & m & Hp & Hpm & _ & Hm)]; [done|].
    apply list_elem_of_lookup in Hp as [i Hi].
    destruct (Forall2_lookup_l _ _ _ _ _ Hb Hi) as (m' & Hm' & Hpm').
    assert (m' = m) as -> by congruence. exists m. split; [|done].
    apply list_elem_of_In. by eapply list_elem_of_lookup_2.
Qed.

Lemma buildTarget_MIP pat a :
  buildTarget pat = Ok (MIP (IPMatcher a)) → ParseAddr pat = Some a ∧ Zone a = [].
Proof.
  unfold buildTarget, newWildcardMatcher, newCIDRMatcher, newIPMatcher, newHostMatcher.
  cbv zeta. intros H. repeat (case_match; simplify_eq; try done). bool_simpl. done.
Qed.

Lemma buildTarget_MCIDR pat q :
  buildTarget pat = Ok (MCIDR (CIDRMatcher q)) → ∃ p, ParsePrefix pat = Some p ∧ q = Masked p.
Proof.
  unfold buildTarget, newWildcardMatcher, newCIDRMatcher, newIPMatcher, newHostMatcher.
  cbv zeta. intros H. repeat (case_match; simplify_eq; try done). eauto.
Qed.

Lemma buildTarget_MHost pat h :
  buildTarget pat = Ok (MHost (HostMatcher h)) → h = Hostname pat ∧ ("%"%char ∉ pat).
Proof.
  unfold buildTarget, newWildcardMatcher, newCIDRMatcher, newIPMatcher, newHostMatcher.
  cbv zeta. intros H. repeat (case_match; simplify_eq; try done).
  split; [done|]. by apply ContainsByte_false.
Qed.

(** C29: an address pattern matches exactly the spellings of its address, and
    never one with a zone; an IPv4 address has one spelling. *)
Theorem ip_pattern_matches_address pat a h :
  buildTarget pat = Ok (MIP (IPMatcher a)) →
  (Match (MIP (IPMatcher a)) h = true ↔ ParseAddr h = ParseAddr pat)
  ∧ (BitLen a = 32 → Match (MIP (IPMatcher a)) h = true ↔ h = pat).
Proof.
  intros [Ha Hz]%buildTarget_MIP.
  assert (Match (MIP (IPMatcher a)) h = true ↔ ParseAddr h = ParseAddr pat) as Hm.
  { unfold Match at 1, matcher_matcher. rewrite ip_Match_spec, Ha. naive_solver. }
  split; [done|]. intros H32. rewrite Hm. split; [|by intros ->]. intros Heq.
  destruct a as [n|]; [|done]. rewrite Ha in Heq.
  eapply parseIPv4_inj; by apply ParseAddr_V4.
Qed.

(** C30: a range pattern matches exactly the literal addresses of its family,
    without a zone, that share the leading bits of the range. *)
Theorem cidr_pattern_matches_range pat q h :
  buildTarget pat = Ok (MCIDR (CIDRMatcher q)) →
  ∃ p, ParsePrefix pat = Some p ∧
    (Match (MCIDR (CIDRMatcher q)) h = true ↔
     ∃ a, ParseAddr h = Some a ∧ Zone a = [] ∧ BitLen a = BitLen p.(p_addr) ∧
       addr_bits a / 2 ^ (BitLen a - p.(p_bits))
       = addr_bits p.(p_addr) / 2 ^ (BitLen a - p.(p_bits))).
Proof.
  intros (p & Hp & ->)%buildTarget_MCIDR. exists p. split; [done|].
  unfold Match at 1, matcher_matcher. rewrite cidr_Match_spec.
  apply ParsePrefix_ok in Hp as Hok.
  split; intros (a & Ha & H); exists a; (split; [done|]); apply ParseAddr_ok in Ha as Haok.
  - destruct H as [Hz H]. rewrite Contains_Masked, Contains_spec in H by done. naive_solver.
  - rewrite Contains_Masked, Contains_spec by done. naive_solver.
Qed.

(** C31: without --allow-all-targets, no pattern but a wildcard matches a literal
    address with a zone: neither addresses, ranges nor host names do. *)
Theorem zone_matched_only_by_wildcard `{!UnicodeLaws U} pats ms m h a :
  resolveAllowedTargets pats false = Ok ms → m ∈ ms →
  ParseAddr h = Some a → Zone a ≠ [] → Match m h = true →
  ∃ w, m = MWildcard w.
Proof.
  intros Hr Hin Ha Hz Hm.
  destruct pats as [|pat0 pats]; [done|]. apply buildTargets_Forall2 in Hr.
  apply list_elem_of_lookup in Hin as [i Hi].
  destruct (Forall2_lookup_r _ _ _ _ _ Hr Hi) as (pat & _ & Hpm).
  destruct m as [[]|[hh]|w|[b]|[q]].
  - by apply buildTarget_not_allow_all in Hpm.
  - exfalso. apply buildTarget_MHost in Hpm as [-> Hpct].
    unfold Match, matcher_matcher, Match, host_matcher, host_Match in Hm. bool_simpl.
    simpl in Hm. subst h. apply Hpct. apply ParseAddr_zone_percent in Ha; [|done].
    by eapply Hostname_elem_inv in Ha.
  - eauto.
  - exfalso. apply ip_Match_spec in Hm as [Hb Hzb]. congruence.
  - exfalso. apply cidr_Match_spec in Hm as (b & Hb & Hzb & _). congruence.
Qed.
End Properties.

(** ** Patterns of the example configuration *)

Section TargetDemo.
#[local] Existing Instance caseless.

Lemma wildcard_one_label_witness :
  Match (MWildcard (WildcardMatcher "example.com")) ("a.example.com" : gostring) = true.
Proof.
  destruct (wildcard_one_label "Example.com" (MWildcard (WildcardMatcher "example.com")) eq_refl)
    as (p & Hp & _ & _ & H).
  apply H; [reflexivity|]. exists (["a"%char] : gostring). subst p. split; [discriminate|]. split; [|reflexivity].
  rewrite elem_of_cons, elem_of_nil. intros [E|[]]. discriminate E.
Defined.

Lemma ip_pattern_matches_address_witness :
  Match (MIP (IPMatcher (V4 3221225994))) ("192.0.2.10" : gostring) = true.
Proof.
  apply (proj1 (ip_pattern_matches_address "192.0.2.10" (V4 3221225994) "192.0.2.10" eq_refl)). reflexivity.
Defined.

Definition demo_prefix : Prefix :=
  match ParsePrefix "192.0.2.77/24" with Some p => Masked p | None => {| p_addr := V4 0; p_bits := 0 |} end.

Lemma cidr_pattern_matches_range_witness :
  ∃ p, ParsePrefix "192.0.2.77/24" = Some p ∧ p_bits p = 24.
Proof.
  destruct (cidr_pattern_matches_range "192.0.2.77/24" demo_prefix "192.0.2.1" ltac:(vm_compute; reflexivity))
    as (p & Hp & _). exists p. split; [exact Hp|]. vm_compute in Hp. injection Hp as <-. reflexivity.
Defined.

Lemma zone_matched_only_by_wildcard_witness :
  ∃ w, MWildcard (WildcardMatcher "example.com") = MWildcard w.
Proof.
  refine (zone_matched_only_by_wildcard [("192.0.2.1" : gostring); ("*.example.com" : gostring)]
    [MIP (IPMatcher (V4 3221225985)); MWildcard (WildcardMatcher "example.com")]
    (MWildcard (WildcardMatcher "example.com")) "fe80::1%x.example.com"
    (V6 (65152 * 2 ^ 112 + 1) "x.example.com") _ _ _ _ _).
  - vm_compute. reflexivity.
  - right. left.
  - vm_compute. reflexivity.
  - discriminate.
  - vm_compute. reflexivity.
Defined.
End TargetDemo.
