(* ===== verification/GoErrors.v ===== *)
(** * Go error values

    An error is a tree: its dynamic type with the fields the program looks at,
    and the errors it wraps.  [errors.Is] and [errors.AsType] walk the tree
    depth first, the outermost error before what it wraps. *)

From S2P Require Import Prelude.

Inductive errno :=
  | ECONNREFUSED | EHOSTUNREACH | ENETUNREACH | ECONNRESET | EPIPE | ETIMEDOUT | EAGAIN
  | OtherErrno (n : nat).

(** The dynamic types of errors the program tells apart. *)
Inductive errkind :=
  | Sentinel (name : string)           (* a variable initialised with errors.New *)
  | Errno (e : errno)                  (* syscall.Errno *)
  | KeyError (Want : nat)              (* *knownhosts.KeyError, the number of keys listed *)
  | RevokedError                       (* *knownhosts.RevokedError *)
  | DNSError (timeout : bool)          (* *net.DNSError *)
  | NegotiationError (What : gostring) (* *ssh.AlgorithmNegotiationError *)
  | NetError (timeout : bool)          (* any other net.Error, such as *net.OpError *)
  | Other (msg : string).              (* any other type, fmt.Errorf's among them *)

#[global] Instance errno_eq_dec : EqDecision errno.
Proof. solve_decision. Defined.
#[global] Instance errkind_eq_dec : EqDecision errkind.
Proof. solve_decision. Defined.

Inductive goerror := Err (k : errkind) (unwrap : list goerror).

Definition errors_New (name : string) : goerror := Err (Sentinel name) [].
Definition io_EOF : goerror := errors_New "io.EOF".
Definition io_ErrUnexpectedEOF : goerror := errors_New "io.ErrUnexpectedEOF".
Definition context_DeadlineExceeded : goerror := errors_New "context.DeadlineExceeded".
Definition context_Canceled : goerror := errors_New "context.Canceled".
Definition net_ErrClosed : goerror := errors_New "net.ErrClosed".

(** [fmt.Errorf] with [%w] verbs. *)
Definition Errorf (msg : string) (wrapped : list goerror) : goerror := Err (Other msg) wrapped.

Definition kind (e : goerror) : errkind := match e with Err k _ => k end.

(** The error and everything it wraps, in the order the library visits them. *)
Fixpoint err_chain (e : goerror) : list errkind :=
  match e with Err k es => k :: concat (map err_chain es) end.

(** [errors.Is(err, target)] for a target that is compared by identity. *)
Definition errors_Is (err target : goerror) : bool :=
  existsb (λ k, bool_decide (k = kind target)) (err_chain err).

(** [errors.AsType]: the first error in the tree of the wanted type. *)
Fixpoint first_as {A} (as_a : errkind → option A) (ks : list errkind) : option A :=
  match ks with
  | [] => None
  | k :: ks => match as_a k with Some a => Some a | None => first_as as_a ks end
  end.
Definition errors_AsType {A} (as_a : errkind → option A) (err : goerror) : option A :=
  first_as as_a (err_chain err).

Definition as_KeyError (k : errkind) : option nat :=
  match k with KeyError want => Some want | _ => None end.
Definition as_RevokedError (k : errkind) : option () :=
  match k with RevokedError => Some () | _ => None end.
Definition as_DNSError (k : errkind) : option () :=
  match k with DNSError _ => Some () | _ => None end.
Definition as_NegotiationError (k : errkind) : option gostring :=
  match k with NegotiationError what => Some what | _ => None end.

(** The types that implement [net.Error], with what their [Timeout] method
    returns: [syscall.Errno] and [context.DeadlineExceeded] are among them. *)
Definition as_net_Error (k : errkind) : option bool :=
  match k with
  | Errno e => Some (bool_decide (e = ETIMEDOUT) || bool_decide (e = EAGAIN))
  | DNSError t | NetError t => Some t
  | Sentinel name =>
      if bool_decide (name = "context.DeadlineExceeded"%string) then Some true else None
  | _ => None
  end.

(** ** Laws *)

Lemma errors_Is_spec err k es : errors_Is err (Err k es) = true ↔ k ∈ err_chain err.
Proof.
  unfold errors_Is. rewrite existsb_exists. simpl. split.
  - intros (x & Hx%list_elem_of_In & ->%bool_decide_eq_true). done.
  - intros Hk%list_elem_of_In. exists k. split; [done|]. by apply bool_decide_eq_true.
Qed.

Lemma first_as_None {A} (as_a : errkind → option A) ks :
  first_as as_a ks = None ↔ ∀ k, k ∈ ks → as_a k = None.
Proof.
  induction ks as [|k ks IH]; simpl; [split; [intros _ ? ?; set_solver|done]|].
  destruct (as_a k) as [a|] eqn:Hk.
  - split; [done|]. intros H. rewrite H in Hk; [done|]. set_solver.
  - rewrite IH. split; [|set_solver]. intros H x [->|Hx]%elem_of_cons; auto.
Qed.

Lemma first_as_Some {A} (as_a : errkind → option A) ks a :
  first_as as_a ks = Some a → ∃ k, k ∈ ks ∧ as_a k = Some a.
Proof.
  induction ks as [|k ks IH]; simpl; [done|]. destruct (as_a k) as [b|] eqn:Hk.
  - intros [= ->]. exists k. split; [set_solver|done].
  - intros (k' & ? & ?)%IH. exists k'. split; [set_solver|done].
Qed.

(** Wrapping an error with [%w] keeps what it is. *)
Lemma errors_Is_wrap msg err target :
  kind target ≠ Other msg → errors_Is (Errorf msg [err]) target = errors_Is err target.
Proof.
  intros Hne. unfold errors_Is. simpl. rewrite app_nil_r.
  by rewrite (bool_decide_eq_false_2 (Other msg = kind target)) by congruence.
Qed.
