(* ===== verification/HostKey.v ===== *)
(** * internal/probe/probe.go: host key verification

    [verifyHostKey] decides about plain keys and certificates with the
    known_hosts callback, [classifyHostKeyVerifyError] names the failure.  The
    callback is a parameter: it is built by x/crypto's knownhosts package. *)

From S2P Require Import Prelude GoErrors.

(** ** Names *)

Definition ErrReasonServerHostKeyUnknown : gostring := "server_host_key_unknown".
Definition ErrReasonServerHostKeyMismatch : gostring := "server_host_key_mismatch".
Definition ErrReasonServerHostKeyRevoked : gostring := "server_host_key_revoked".
Definition ErrReasonServerHostKeyRejected : gostring := "server_host_key_rejected".
Definition ErrReasonServerHostCertificateInvalid : gostring := "server_host_certificate_invalid".

(** ** Keys and the callback of x/crypto/ssh *)

(** An [ssh.PublicKey] is a plain key or a [*ssh.Certificate]; of the latter the
    program reads the key, the CA's key and the format of the CA's signature. *)
Inductive PublicKey :=
  | PlainKey (blob : gostring)
  | Certificate (blob : gostring) (Key SignatureKey : PublicKey) (SignatureFormat : gostring).

#[global] Instance PublicKey_eq_dec : EqDecision PublicKey.
Proof. solve_decision. Defined.

(** [ssh.HostKeyCallback]: the host name, the remote address and the key. *)
Abbreviation HostKeyCallback := (gostring → gostring → PublicKey → option goerror).

(** Algorithm names are constants of x/crypto/ssh. *)
Class KeyAlgoNames := {
  KeyAlgoED25519 : gostring; KeyAlgoECDSA256 : gostring; KeyAlgoECDSA384 : gostring;
  KeyAlgoECDSA521 : gostring; KeyAlgoSKED25519 : gostring; KeyAlgoSKECDSA256 : gostring;
  KeyAlgoRSASHA512 : gostring; KeyAlgoRSASHA256 : gostring
}.

Section HostKey.
Context {N : KeyAlgoNames}.

Definition caSignatureAlgorithms : list gostring :=
  [KeyAlgoED25519; KeyAlgoECDSA256; KeyAlgoECDSA384; KeyAlgoECDSA521;
   KeyAlgoSKED25519; KeyAlgoSKECDSA256; KeyAlgoRSASHA512; KeyAlgoRSASHA256].

Definition errHostCertificateInvalid : goerror :=
  errors_New "host certificate from a trusted CA is invalid".

Definition is_some {A} (o : option A) : bool := match o with Some _ => true | None => false end.

(** [errors.AsType] of a possibly nil error. *)
Definition is_revoked (e : option goerror) : bool :=
  match e with Some e => is_some (errors_AsType as_RevokedError e) | None => false end.
Definition is_key_error (e : option goerror) : bool :=
  match e with Some e => is_some (errors_AsType as_KeyError e) | None => false end.

Definition verifyHostKey (cb : HostKeyCallback) (hostname remote : gostring) (key : PublicKey)
    : option goerror :=
  let check k := cb hostname remote k in
  match key with
  | PlainKey _ => check key
  | Certificate _ Key SignatureKey Format =>
      let certErr := check key in
      let certErr :=
        match certErr with
        | None =>
            if bool_decide (Format ∈ caSignatureAlgorithms) then None
            else Some (Errorf "CA signature algorithm not allowed" [])
        | Some e => Some e
        end in
      match certErr with
      | None => None
      | Some certErr =>
          let caErr := check SignatureKey in
          if is_revoked caErr then caErr
          else
            let plainErr := check Key in
            if is_key_error plainErr && negb (is_some caErr)
            then Some (Errorf "invalid host certificate" [errHostCertificateInvalid; certErr])
            else plainErr
      end
  end.

Definition classifyHostKeyVerifyError (err : goerror) : gostring :=
  if errors_Is err errHostCertificateInvalid then ErrReasonServerHostCertificateInvalid
  else
    match errors_AsType as_KeyError err with
    | Some want =>
        if (want =? 0)%nat then ErrReasonServerHostKeyUnknown else ErrReasonServerHostKeyMismatch
    | None =>
        if is_some (errors_AsType as_RevokedError err) then ErrReasonServerHostKeyRevoked
        else ErrReasonServerHostKeyRejected
    end.
End HostKey.

(** ** What known_hosts says

    An abstract view of a parsed known_hosts file for one target: the documented
    behaviour of the callback knownhosts builds from it, and the verdict the
    README promises ("known_hosts vouches for the key, through a CA or
    directly; a @revoked key or CA always fails"). *)

Record known_hosts := {
  kh_revoked : PublicKey → bool;    (* on a @revoked line *)
  kh_authority : PublicKey → bool;  (* on a @cert-authority line matching the target *)
  kh_listed : PublicKey → bool;     (* on a line for the target *)
  kh_valid : PublicKey → bool;      (* certificate in date, for this host, a host certificate *)
  kh_keys : nat                     (* how many keys the file has for the target *)
}.

Definition is_plain (k : PublicKey) : bool := match k with PlainKey _ => true | _ => false end.

(** Keys as x/crypto parses them: certificates are not nested. *)
Definition key_ok (k : PublicKey) : bool :=
  match k with
  | PlainKey _ => true
  | Certificate _ Key SignatureKey _ => is_plain Key && is_plain SignatureKey
  end.

Definition cert_accepted (kh : known_hosts) (k : PublicKey) : bool :=
  match k with
  | PlainKey _ => false
  | Certificate _ Key SignatureKey _ =>
      kh.(kh_authority) SignatureKey && kh.(kh_valid) k
      && negb (kh.(kh_revoked) Key) && negb (kh.(kh_revoked) SignatureKey)
  end.

(** The documented behaviour of a knownhosts callback. *)
Class KnownHostsCallback (kh : known_hosts) (cb : PublicKey → option goerror) : Prop := {
  cb_revoked k : is_plain k = true → kh.(kh_revoked) k = true →
    cb k = Some (Err RevokedError []);
  cb_vouched k : is_plain k = true → kh.(kh_revoked) k = false →
    kh.(kh_listed) k || kh.(kh_authority) k = true → cb k = None;
  cb_unknown k : is_plain k = true → kh.(kh_revoked) k = false →
    kh.(kh_listed) k || kh.(kh_authority) k = false → cb k = Some (Err (KeyError kh.(kh_keys)) []);
  cb_cert k : is_plain k = false → cb k = None ↔ cert_accepted kh k = true
}.

Section Verdict.
Context {N : KeyAlgoNames} (kh : known_hosts).

Definition unlisted_reason : gostring :=
  if (kh.(kh_keys) =? 0)%nat then ErrReasonServerHostKeyUnknown else ErrReasonServerHostKeyMismatch.

(** The verdict on a key: [None] when known_hosts vouches for it. *)
Definition verdict (key : PublicKey) : option gostring :=
  let vouched k := kh.(kh_listed) k || kh.(kh_authority) k in
  match key with
  | PlainKey _ =>
      if kh.(kh_revoked) key then Some ErrReasonServerHostKeyRevoked
      else if vouched key then None else Some unlisted_reason
  | Certificate _ Key CA Format =>
      if kh.(kh_revoked) Key || kh.(kh_revoked) CA then Some ErrReasonServerHostKeyRevoked
      else if kh.(kh_authority) CA && kh.(kh_valid) key && bool_decide (Format ∈ caSignatureAlgorithms)
      then None
      else if vouched Key then None
      else if vouched CA then Some ErrReasonServerHostCertificateInvalid
      else Some unlisted_reason
  end.

Lemma classify_KeyError n :
  classifyHostKeyVerifyError (Err (KeyError n) [])
  = if (n =? 0)%nat then ErrReasonServerHostKeyUnknown else ErrReasonServerHostKeyMismatch.
Proof. done. Qed.

Lemma classify_Revoked :
  classifyHostKeyVerifyError (Err RevokedError []) = ErrReasonServerHostKeyRevoked.
Proof. done. Qed.

Lemma classify_invalid e :
  classifyHostKeyVerifyError (Errorf "invalid host certificate" [errHostCertificateInvalid; e])
  = ErrReasonServerHostCertificateInvalid.
Proof. done. Qed.

Lemma verifyHostKey_verdict cb hostname remote key :
  KnownHostsCallback kh (cb hostname remote) → key_ok key = true →
  classifyHostKeyVerifyError <$> verifyHostKey cb hostname remote key = verdict key.
Proof.
  intros [Hrev Hvouch Hunk Hcert] Hok.
  assert (Hplain : ∀ k, is_plain k = true →
    cb hostname remote k =
      if kh.(kh_revoked) k then Some (Err RevokedError [])
      else if kh.(kh_listed) k || kh.(kh_authority) k then None
      else Some (Err (KeyError kh.(kh_keys)) [])).
  { intros k Hk. destruct (kh_revoked kh k) eqn:?; [auto|].
    destruct (kh_listed kh k || kh_authority kh k) eqn:?; auto. }
  destruct key as [blob|blob Key CA Format].
  { simpl. rewrite Hplain by done. unfold verdict, unlisted_reason. cbv zeta.
    by destruct (kh_revoked kh (PlainKey blob)), (kh_listed kh (PlainKey blob)),
      (kh_authority kh (PlainKey blob)). }
  simpl in Hok. apply andb_true_iff in Hok as [HK HC].
  unfold verifyHostKey, verdict, unlisted_reason. cbv zeta. rewrite (Hplain Key HK), (Hplain CA HC).
  specialize (Hcert (Certificate blob Key CA Format) eq_refl). unfold cert_accepted in Hcert.
  destruct (cb hostname remote (Certificate blob Key CA Format)) as [e|].
  - assert (kh_authority kh CA && kh_valid kh (Certificate blob Key CA Format)
      && negb (kh_revoked kh Key) && negb (kh_revoked kh CA) = false) as Hna.
    { apply not_true_is_false. intros H. by apply Hcert in H. }
    destruct (kh_revoked kh Key), (kh_revoked kh CA), (kh_authority kh CA),
      (kh_valid kh (Certificate blob Key CA Format)), (bool_decide (Format ∈ _)),
      (kh_listed kh Key || kh_authority kh Key), (kh_listed kh CA);
      try discriminate Hna; reflexivity.
  - pose proof (proj1 Hcert eq_refl) as Ha. bool_simpl.
    repeat match goal with H : kh_revoked kh _ = _ |- _ => rewrite H
      | H : kh_authority kh _ = _ |- _ => rewrite H | H : kh_valid kh _ = _ |- _ => rewrite H end.
    destruct (bool_decide (Format ∈ _)), (kh_listed kh Key || kh_authority kh Key),
      (kh_listed kh CA); done.
Qed.

(** C5: [verifyHostKey] and [classifyHostKeyVerifyError] together implement the
    verdict of a known_hosts file: for every plain key and certificate, success
    is reported exactly when the verdict is to accept, and otherwise the error
    reason reported is the verdict's (unknown, mismatch, revoked, invalid
    certificate). *)
Theorem verifyHostKey_refines_verdict cb hostname remote key :
  KnownHostsCallback kh (cb hostname remote) → key_ok key = true →
  classifyHostKeyVerifyError <$> verifyHostKey cb hostname remote key = verdict key.
Proof. apply verifyHostKey_verdict. Qed.

(** C6: verification succeeds exactly when the file vouches for the key and
    nothing about it is revoked: a plain key must be listed or be an
    authority's; a certificate's key must be, or its signing CA an authority
    with a valid certificate and a signature algorithm that is allowed, and
    neither the key nor the CA may be revoked. *)
Theorem verified_is_vouched cb hostname remote key :
  KnownHostsCallback kh (cb hostname remote) → key_ok key = true →
  verifyHostKey cb hostname remote key = None ↔
  match key with
  | PlainKey _ => kh.(kh_revoked) key = false ∧ kh.(kh_listed) key || kh.(kh_authority) key = true
  | Certificate _ Key CA Format =>
      kh.(kh_revoked) Key = false ∧ kh.(kh_revoked) CA = false ∧
      (kh.(kh_listed) Key || kh.(kh_authority) Key = true
       ∨ kh.(kh_authority) CA = true ∧ kh.(kh_valid) key = true ∧ Format ∈ caSignatureAlgorithms)
  end.
Proof.
  intros Hcb Hok. pose proof (verifyHostKey_verdict cb hostname remote key Hcb Hok) as Hv.
  assert (verifyHostKey cb hostname remote key = None ↔ verdict key = None) as ->.
  { rewrite <- Hv. by destruct (verifyHostKey cb hostname remote key). }
  clear. unfold verdict. destruct key as [b|b Key CA Format]; cbv zeta.
  - repeat case_match; naive_solver.
  - destruct (kh_revoked kh Key), (kh_revoked kh CA); simpl; try (split; [done|naive_solver]).
    destruct (bool_decide_reflect (Format ∈ caSignatureAlgorithms)),
      (kh_authority kh CA), (kh_valid kh (Certificate b Key CA Format)),
      (kh_listed kh Key || kh_authority kh Key), (kh_listed kh CA); simpl; naive_solver.
Qed.
End Verdict.

(** ** A callback that behaves as documented *)

(** The callback of an abstract known_hosts file; it satisfies the contract, so
    the theorems above apply to something. *)
Definition kh_callback (kh : known_hosts) : HostKeyCallback := λ _ _ k,
  if is_plain k then
    if kh.(kh_revoked) k then Some (Err RevokedError [])
    else if kh.(kh_listed) k || kh.(kh_authority) k then None
    else Some (Err (KeyError kh.(kh_keys)) [])
  else if cert_accepted kh k then None
  else Some (errors_New "ssh: certificate not accepted").

Lemma kh_callback_ok kh hostname remote : KnownHostsCallback kh (kh_callback kh hostname remote).
Proof.
  split; unfold kh_callback; intros k Hp; rewrite Hp.
  - by intros ->.
  - by intros -> ->.
  - by intros -> ->.
  - by destruct (cert_accepted kh k).
Qed.

Definition demo_names : KeyAlgoNames := {|
  KeyAlgoED25519 := "ssh-ed25519"; KeyAlgoECDSA256 := "ecdsa-sha2-nistp256";
  KeyAlgoECDSA384 := "ecdsa-sha2-nistp384"; KeyAlgoECDSA521 := "ecdsa-sha2-nistp521";
  KeyAlgoSKED25519 := "sk-ssh-ed25519@openssh.com"; KeyAlgoSKECDSA256 := "sk-ecdsa-sha2-nistp256@openssh.com";
  KeyAlgoRSASHA512 := "rsa-sha2-512"; KeyAlgoRSASHA256 := "rsa-sha2-256" |}.

(** One trusted CA, one revoked key and nothing else. *)
Definition demo_hosts : known_hosts := {|
  kh_revoked := λ k, bool_decide (k = PlainKey "stolen");
  kh_authority := λ k, bool_decide (k = PlainKey "ca");
  kh_listed := λ _, false; kh_valid := λ _, true; kh_keys := 1 |}.

Definition demo_cert (format : gostring) : PublicKey :=
  Certificate "cert" (PlainKey "host") (PlainKey "ca") format.

Lemma verifyHostKey_refines_verdict_witness :
  classifyHostKeyVerifyError <$>
    @verifyHostKey demo_names (kh_callback demo_hosts) "h" "r" (demo_cert "ssh-rsa")
  = Some ErrReasonServerHostCertificateInvalid.
Proof.
  exact (@verifyHostKey_refines_verdict demo_names demo_hosts (kh_callback demo_hosts) "h" "r"
           (demo_cert "ssh-rsa") (kh_callback_ok _ _ _) eq_refl).
Defined.

Lemma verified_is_vouched_witness :
  @verifyHostKey demo_names (kh_callback demo_hosts) "h" "r" (demo_cert "ssh-ed25519") = None.
Proof.
  apply (@verified_is_vouched demo_names demo_hosts (kh_callback demo_hosts) "h" "r"
           (demo_cert "ssh-ed25519") (kh_callback_ok _ _ _) eq_refl).
  split; [vm_compute; reflexivity|]. split; [vm_compute; reflexivity|]. right.
  split; [vm_compute; reflexivity|]. split; [reflexivity|]. by apply list_elem_of_here.
Defined.
