(* ===== verification/Identification.v ===== *)
(** * internal/probe/probe.go: the server's identification string

    [identificationWatcher] sits on the connection and records the first line
    that starts with "SSH-" (RFC 4253, section 4.2); [parseServerIdentification]
    splits it into fields.  Both read untrusted bytes. *)

From S2P Require Import Prelude GoStrings.

Definition maxIdentificationLen : nat := 255.
Definition LF : ascii := "010".
Definition CR : ascii := "013".

(** ** The watcher *)

Record identificationWatcher := Watcher {
  line : gostring;
  identification : gostring;
  received : option Z   (* the time, once the line was complete *)
}.

Definition new_watcher : identificationWatcher := Watcher [] [] None.

(** [scan]: the loop over the bytes of one read; it returns at the newline that
    ends the identification string.  [now] is the clock at that moment. *)
Fixpoint scan (w : identificationWatcher) (b : gostring) (now : Z) : identificationWatcher :=
  match b with
  | [] => w
  | c :: b =>
      if bool_decide (c = LF) then
        if HasPrefix w.(line) "SSH-"
        then Watcher w.(line) (TrimSuffix w.(line) [CR]) (Some now)
        else scan (Watcher [] w.(identification) w.(received)) b now
      else if (length w.(line) <? maxIdentificationLen + 2)%nat
      then scan (Watcher (w.(line) ++ [c]) w.(identification) w.(received)) b now
      else scan w b now
  end.

(** [Read]: once the string was received, nothing is scanned any more. *)
Definition Read (w : identificationWatcher) (p : gostring) (now : Z) : identificationWatcher :=
  match w.(received) with None => scan w p now | Some _ => w end.

(** ** Parsing *)

Record ServerIdentification := Ident {
  id_String : gostring;
  ProtoVersion : gostring;
  SoftwareVersion : gostring;
  Comments : gostring;
  RFCConformant : bool
}.

(** The zero value of the Go struct. *)
Definition zero_ident : ServerIdentification := Ident [] [] [] [] false.

Inductive ident_error := ETooLong | EBadPrefix | ENotPrintable | ENoSoftware.

Definition printable (c : ascii) : bool := negb ((byte_val c <? 32) || (126 <? byte_val c))%Z.

(** The loop over the protocol versions stops at the first whose prefix fits. *)
Fixpoint cut_proto (raw : gostring) (versions : list gostring) : option (gostring * gostring) :=
  match versions with
  | [] => None
  | v :: versions =>
      match CutPrefix raw ("SSH-" ++ v ++ "-") with
      | Some r => Some (v, r)
      | None => cut_proto raw versions
      end
  end.

Definition parseServerIdentification (raw : gostring) : res ident_error ServerIdentification :=
  if (maxIdentificationLen <? length raw)%nat then Fail ETooLong
  else
    match cut_proto raw ["2.0" : gostring; "1.99" : gostring] with
    | None => Fail EBadPrefix
    | Some (proto, rest) =>
        if negb (forallb printable rest) then Fail ENotPrintable
        else
          let '(software, comments) :=
            match CutByte rest " "%char with Some (b, a) => (b, a) | None => (rest, []) end in
          if bool_decide (software = []) then Fail ENoSoftware
          else Ok (Ident raw proto software comments
                     ((length raw <=? maxIdentificationLen - 2)%nat
                      && negb (ContainsByte software "-"%char)))
    end.

Definition withoutComments (s : ServerIdentification) : ServerIdentification :=
  Ident ("SSH-" ++ s.(ProtoVersion) ++ "-" ++ s.(SoftwareVersion))
    s.(ProtoVersion) s.(SoftwareVersion) [] s.(RFCConformant).

(** ** The watcher against its specification *)

(** The complete lines of a stream, without their newlines; [cur] is the
    beginning of the line being read. *)
Fixpoint lines_from (cur : gostring) (s : gostring) : list gostring :=
  match s with
  | [] => []
  | c :: s => if bool_decide (c = LF) then cur :: lines_from [] s else lines_from (cur ++ [c]) s
  end.

Fixpoint last_line (cur : gostring) (s : gostring) : gostring :=
  match s with
  | [] => cur
  | c :: s => if bool_decide (c = LF) then last_line [] s else last_line (cur ++ [c]) s
  end.

(** What should be observed: the first complete line that starts with "SSH-",
    as far as the watcher stores it, without a carriage return at its end. *)
Definition cap (l : gostring) : gostring := take (maxIdentificationLen + 2) l.

Definition ssh_line (s : gostring) : option gostring :=
  head (filter (λ l, HasPrefix l "SSH-" = true) (lines_from [] s)).

Definition trim_cr (l : gostring) : gostring := TrimSuffix l [CR].

Lemma cap_snoc l c :
  cap (l ++ [c]) = if (length (cap l) <? maxIdentificationLen + 2)%nat then cap l ++ [c] else cap l.
Proof.
  unfold cap. rewrite length_take. set (m := (maxIdentificationLen + 2)%nat).
  destruct (Nat.ltb_spec (m `min` length l) m).
  - rewrite (take_ge (l ++ [c])) by (rewrite length_app; simpl; lia). by rewrite take_ge by lia.
  - by rewrite take_app_le by lia.
Qed.

Lemma length_cap l : (length (cap l) ≤ maxIdentificationLen + 2)%nat.
Proof. unfold cap. rewrite length_take. apply Nat.le_min_l. Qed.

Lemma HasPrefix_cap l p : (length p ≤ maxIdentificationLen + 2)%nat → HasPrefix (cap l) p = HasPrefix l p.
Proof.
  intros Hp. apply eq_true_iff_eq. rewrite !HasPrefix_spec. unfold cap. split; intros [r Hr].
  - exists (r ++ drop (maxIdentificationLen + 2) l). by rewrite app_assoc, <- Hr, take_drop.
  - subst l. rewrite take_app_ge by done. eauto.
Qed.

Lemma scan_spec s : ∀ cur id now,
  scan (Watcher (cap cur) id None) s now
  = match head (filter (λ l, HasPrefix l "SSH-" = true) (lines_from cur s)) with
    | Some l => Watcher (cap l) (trim_cr (cap l)) (Some now)
    | None => Watcher (cap (last_line cur s)) id None
    end.
Proof.
  induction s as [|c s IH]; intros cur id now; [done|]. cbn [scan lines_from last_line line identification received].
  case_bool_decide as Hc.
  - rewrite HasPrefix_cap by (unfold maxIdentificationLen; simpl; lia).
    rewrite filter_cons. destruct (HasPrefix cur "SSH-") eqn:Hp.
    + by rewrite decide_True.
    + rewrite decide_False by done. apply (IH []).
  - rewrite <- IH, cap_snoc. by destruct (_ <? _)%nat.
Qed.

Lemma lines_from_app s1 : ∀ cur s2,
  lines_from cur (s1 ++ s2) = lines_from cur s1 ++ lines_from (last_line cur s1) s2.
Proof.
  induction s1 as [|c s1 IH]; intros cur s2; simpl; [done|].
  case_bool_decide; [by rewrite IH|]. apply IH.
Qed.

Lemma last_line_app s1 : ∀ cur s2, last_line cur (s1 ++ s2) = last_line (last_line cur s1) s2.
Proof.
  induction s1 as [|c s1 IH]; intros cur s2; simpl; [done|]. case_bool_decide; apply IH.
Qed.

(** The watcher after a sequence of reads, each with the clock it saw. *)
Definition reads (w : identificationWatcher) (chunks : list (gostring * Z)) : identificationWatcher :=
  foldl (λ w ch, Read w ch.1 ch.2) w chunks.

Definition stream (chunks : list (gostring * Z)) : gostring := concat (map fst chunks).

(** The read that completes the identification string. *)
Fixpoint completing (cur : gostring) (chunks : list (gostring * Z)) : option (gostring * Z) :=
  match chunks with
  | [] => None
  | (p, now) :: chunks =>
      match head (filter (λ l, HasPrefix l "SSH-" = true) (lines_from cur p)) with
      | Some l => Some (l, now)
      | None => completing (last_line cur p) chunks
      end
  end.

Lemma reads_received w chunks : w.(received) ≠ None → reads w chunks = w.
Proof.
  intros Hw. induction chunks as [|ch chunks IH]; [done|]. simpl.
  assert (Read w ch.1 ch.2 = w) as -> by (unfold Read; by destruct (received w)). done.
Qed.

Lemma reads_spec chunks : ∀ cur id,
  reads (Watcher (cap cur) id None) chunks
  = match completing cur chunks with
    | Some (l, now) => Watcher (cap l) (trim_cr (cap l)) (Some now)
    | None => Watcher (cap (last_line cur (stream chunks))) id None
    end.
Proof.
  induction chunks as [|[p now] chunks IH]; intros cur id; [done|].
  change (reads (Watcher (cap cur) id None) ((p, now) :: chunks))
    with (reads (scan (Watcher (cap cur) id None) p now) chunks).
  cbn [completing]. rewrite scan_spec.
  destruct (head _) as [l|].
  - by apply reads_received.
  - rewrite IH. unfold stream. simpl. by rewrite last_line_app.
Qed.

Lemma completing_stream chunks : ∀ cur,
  fst <$> completing cur chunks
  = head (filter (λ l, HasPrefix l "SSH-" = true) (lines_from cur (stream chunks))).
Proof.
  induction chunks as [|[p now] chunks IH]; intros cur; [done|].
  unfold stream. simpl. rewrite lines_from_app, list.filter_app.
  destruct (filter _ (lines_from cur p)) as [|l ls]; [apply IH|done].
Qed.

Lemma reads_new chunks :
  reads new_watcher chunks
  = match completing [] chunks with
    | Some (l, now) => Watcher (cap l) (trim_cr (cap l)) (Some now)
    | None => Watcher (cap (last_line [] (stream chunks))) [] None
    end.
Proof. change new_watcher with (Watcher (cap []) [] None). apply reads_spec. Qed.

Lemma ssh_line_completing chunks : ssh_line (stream chunks) = fst <$> completing [] chunks.
Proof. unfold ssh_line. by rewrite completing_stream. Qed.

(** C17: however the bytes of the connection are cut into reads, the
    watcher reports the first line that starts with "SSH-", or nothing. *)
Theorem watcher_reports_first_ssh_line chunks :
  let w := reads new_watcher chunks in
  match ssh_line (stream chunks) with
  | Some l => w.(received) ≠ None ∧ w.(identification) = trim_cr (cap l)
  | None => w.(received) = None ∧ w.(identification) = []
  end.
Proof.
  cbv zeta. rewrite reads_new, ssh_line_completing.
  by destruct (completing [] chunks) as [[l now]|].
Qed.

(** The buffer for the line never grows past the limit. *)
Theorem watcher_buffer_bounded chunks :
  (length (reads new_watcher chunks).(line) ≤ maxIdentificationLen + 2)%nat.
Proof.
  rewrite reads_new. destruct (completing [] chunks) as [[l now]|]; apply length_cap.
Qed.

(** The instant recorded is that of one of the reads. *)
Lemma completing_now chunks : ∀ cur l now, completing cur chunks = Some (l, now) →
  now ∈ map snd chunks.
Proof.
  induction chunks as [|[p t] chunks IH]; intros cur l now; [done|]. cbn [completing map snd].
  destruct (head _) as [l'|]; [intros [= _ <-]|intros ?%IH]; set_solver.
Qed.

(** ** The parser against the grammar of RFC 4253, section 4.2 *)

Definition proto_ok (proto : gostring) : Prop := proto = "2.0" ∨ proto = "1.99".

(** The strings accepted, and the fields reported for them. *)
Definition ident_grammar (raw : gostring) (id : ServerIdentification) : Prop :=
  let '(Ident str proto software comments conformant) := id in
  str = raw ∧ proto_ok proto ∧ software ≠ [] ∧ (" "%char ∉ software)
  ∧ (∃ tail, raw = "SSH-" ++ proto ++ "-" ++ software ++ tail
      ∧ ((tail = [] ∧ comments = []) ∨ tail = " "%char :: comments))
  ∧ forallb printable (software ++ comments) = true
  ∧ (length raw ≤ 255)%nat
  ∧ (conformant = true ↔ (length raw ≤ 253)%nat ∧ ("-"%char ∉ software)).

Lemma cut_proto_Some raw proto rest :
  cut_proto raw ["2.0" : gostring; "1.99" : gostring] = Some (proto, rest)
  ↔ proto_ok proto ∧ raw = "SSH-" ++ proto ++ "-" ++ rest.
Proof.
  unfold cut_proto, proto_ok.
  destruct (CutPrefix raw _) as [r|] eqn:H1.
  { apply CutPrefix_spec in H1 as ->. split; [intros [= <- <-]; auto|].
    intros [[-> | ->] Heq]; [by injection Heq as ->|done]. }
  destruct (CutPrefix raw ("SSH-" ++ "1.99" ++ "-")) as [r|] eqn:H2.
  { apply CutPrefix_spec in H2 as ->. split; [intros [= <- <-]; auto|].
    intros [[-> | ->] Heq]; [done|by injection Heq as ->]. }
  split; [done|]. apply CutPrefix_None in H1, H2. intros [[-> | ->] ->]; naive_solver.
Qed.

Lemma printable_space : printable " " = true.
Proof. done. Qed.

Lemma parse_sound raw id : parseServerIdentification raw = Ok id → ident_grammar raw id.
Proof.
  unfold parseServerIdentification. destruct (Nat.ltb_spec maxIdentificationLen (length raw)); [done|].
  destruct (cut_proto raw _) as [[proto rest]|] eqn:Hp; [|done].
  apply cut_proto_Some in Hp as [Hproto Hraw].
  destruct (forallb printable rest) eqn:Hpr; [|done]. cbn [negb].
  destruct (CutByte rest " "%char) as [[software comments]|] eqn:Hc.
  - apply CutByte_Some in Hc as [-> Hsp]. case_bool_decide; [done|]. intros [= <-].
    repeat split; try done.
    + exists (" "%char :: comments). auto.
    + rewrite forallb_app in Hpr |- *. exact Hpr.
    + bool_simpl. by apply Nat.leb_le.
    + bool_simpl. by apply ContainsByte_false.
    + intros [??]. apply andb_true_iff. split; [by apply Nat.leb_le|].
      by apply negb_true_iff, ContainsByte_false.
  - apply CutByte_None in Hc. case_bool_decide; [done|]. intros [= <-].
    repeat split; try done.
    + exists []. rewrite app_nil_r. auto.
    + by rewrite app_nil_r.
    + bool_simpl. by apply Nat.leb_le.
    + bool_simpl. by apply ContainsByte_false.
    + intros [??]. apply andb_true_iff. split; [by apply Nat.leb_le|].
      by apply negb_true_iff, ContainsByte_false.
Qed.

Lemma parse_complete raw id : ident_grammar raw id → parseServerIdentification raw = Ok id.
Proof.
  destruct id as [str proto software comments conformant].
  intros (-> & Hproto & Hne & Hsp & (tail & Hraw & Htail) & Hpr & Hlen & Hconf).
  unfold parseServerIdentification.
  destruct (Nat.ltb_spec maxIdentificationLen (length raw)); [unfold maxIdentificationLen in *; lia|].
  rewrite (proj2 (cut_proto_Some raw proto (software ++ tail))) by done.
  assert (conformant = (length raw <=? maxIdentificationLen - 2)%nat && negb (ContainsByte software "-"%char)) as ->.
  { apply eq_true_iff_eq. rewrite Hconf, andb_true_iff, Nat.leb_le, negb_true_iff, ContainsByte_false. done. }
  rewrite forallb_app in Hpr. apply andb_true_iff in Hpr as [Hps Hpc].
  destruct Htail as [[-> ->]| ->].
  - rewrite app_nil_r, Hps. cbn [negb]. rewrite (proj2 (CutByte_None _ _) Hsp).
    by rewrite bool_decide_eq_false_2.
  - rewrite forallb_app, Hps. simpl. rewrite Hpc. cbn [negb].
    rewrite (proj2 (CutByte_Some _ _ software comments)) by done.
    by rewrite bool_decide_eq_false_2.
Qed.

(** C16: exactly the identification strings of the grammar are parsed, into the
    fields of the grammar: printable bytes, a protocol version, a software
    version and comments. *)
Theorem parse_iff_grammar raw id :
  parseServerIdentification raw = Ok id ↔ ident_grammar raw id.
Proof. split; [apply parse_sound|apply parse_complete]. Qed.

(** ** Label safety *)

Definition label_safe (s : gostring) : Prop := forallb printable s = true ∧ (length s ≤ 255)%nat.

Lemma label_safe_sub s l r : label_safe (l ++ s ++ r) → label_safe s.
Proof.
  intros [Hp Hl]. rewrite !forallb_app in Hp. rewrite !length_app in Hl. bool_simpl.
  split; [done|lia].
Qed.

Lemma ident_grammar_printable raw id :
  ident_grammar raw id → label_safe id.(id_String) ∧ label_safe id.(ProtoVersion)
    ∧ label_safe id.(SoftwareVersion) ∧ label_safe id.(Comments).
Proof.
  destruct id as [str proto software comments conformant].
  intros (-> & Hproto & Hne & Hsp & (tail & Hraw & Htail) & Hpr & Hlen & _).
  rewrite forallb_app in Hpr. apply andb_true_iff in Hpr as [Hps Hpc].
  assert (label_safe raw) as Hsafe.
  { split; [|done]. subst raw. rewrite !forallb_app, Hps.
    destruct Hproto as [-> | ->], Htail as [[-> _]| ->]; done || (simpl; by rewrite Hpc). }
  cbn [id_String ProtoVersion SoftwareVersion Comments]. split; [done|].
  rewrite Hraw in Hsafe. split; [by eapply label_safe_sub|].
  split.
  - apply (label_safe_sub software ("SSH-" ++ proto ++ "-") tail). by rewrite <- !app_assoc.
  - destruct Htail as [[_ ->]| ->]; [split; [done|simpl; lia]|].
    apply (label_safe_sub comments ("SSH-" ++ proto ++ "-" ++ software ++ " ") []).
    rewrite app_nil_r. rewrite <- !app_assoc. done.
Qed.

(** Dropping the comments leaves a string that parses to the same fields. *)
Lemma withoutComments_length raw id :
  ident_grammar raw id → (length (withoutComments id).(id_String) ≤ length raw)%nat.
Proof.
  destruct id as [str proto software comments conformant].
  intros (_ & _ & _ & _ & (tail & -> & _) & _).
  cbn [withoutComments id_String ProtoVersion SoftwareVersion]. rewrite !length_app. lia.
Qed.

(** A stripped identification parses back to itself. *)
Theorem withoutComments_reparses raw id :
  parseServerIdentification raw = Ok id →
  ∃ id', parseServerIdentification (withoutComments id).(id_String) = Ok id'
    ∧ id'.(id_String) = (withoutComments id).(id_String)
    ∧ id'.(ProtoVersion) = id.(ProtoVersion) ∧ id'.(SoftwareVersion) = id.(SoftwareVersion)
    ∧ id'.(Comments) = [] ∧ (id.(RFCConformant) = true → id'.(RFCConformant) = true).
Proof.
  intros Hg%parse_sound. pose proof (withoutComments_length raw id Hg) as Hle.
  destruct id as [str proto software comments conformant].
  destruct Hg as (-> & Hproto & Hne & Hsp & _ & Hpr & Hlen & Hconf). cbn in Hle.
  rewrite forallb_app in Hpr. apply andb_true_iff in Hpr as [Hps _].
  cbn [withoutComments id_String ProtoVersion SoftwareVersion Comments RFCConformant].
  set (s := "SSH-" ++ proto ++ "-" ++ software).
  exists (Ident s proto software [] (bool_decide ((length s ≤ 253)%nat ∧ "-"%char ∉ software))).
  cbn [id_String ProtoVersion SoftwareVersion Comments RFCConformant].
  split; [|repeat split; try done; intros [??]%Hconf; apply bool_decide_eq_true; split; [|done];
    change (length s ≤ length raw)%nat in Hle; lia].
  apply parse_complete. unfold ident_grammar. split_and!; try done.
  - exists []. rewrite app_nil_r. auto.
  - by rewrite app_nil_r.
  - change (length s ≤ length raw)%nat in Hle. lia.
  - by rewrite bool_decide_eq_true.
Qed.

(** Storing at most 257 bytes of a line never changes what is parsed: a longer
    line is rejected either way. *)
Lemma cap_parse l :
  is_ok (parseServerIdentification (trim_cr (cap l))) = is_ok (parseServerIdentification (trim_cr l))
  ∧ (∀ id, parseServerIdentification (trim_cr l) = Ok id → trim_cr (cap l) = trim_cr l).
Proof.
  destruct (decide (length l ≤ maxIdentificationLen + 2)%nat) as [Hl|Hl].
  { assert (cap l = l) as -> by (by unfold cap; rewrite take_ge). done. }
  assert (∀ s, (maxIdentificationLen + 1 < length s)%nat → ∃ e, parseServerIdentification (trim_cr s) = Fail e) as Hlong.
  { intros s Hs. exists ETooLong. unfold parseServerIdentification.
    assert (maxIdentificationLen < length (trim_cr s))%nat as Ht.
    { unfold trim_cr, TrimSuffix. destruct (HasSuffix s [CR]); [|lia].
      rewrite length_take. change (length [CR]) with 1%nat. lia. }
    by rewrite (proj2 (Nat.ltb_lt _ _) Ht). }
  destruct (Hlong l) as [e ->]; [lia|]. destruct (Hlong (cap l)) as [e' ->].
  - unfold cap. rewrite length_take. lia.
  - done.
Qed.

Lemma withoutComments_reparses_witness :
  ∃ id', parseServerIdentification "SSH-2.0-OpenSSH_10.0" = Ok id'.
Proof.
  destruct (withoutComments_reparses "SSH-2.0-OpenSSH_10.0 Debian"
    (Ident "SSH-2.0-OpenSSH_10.0 Debian" "2.0" "OpenSSH_10.0" "Debian" true)) as (id' & H & _).
  - vm_compute. reflexivity.
  - exists id'. exact H.
Defined.
