(* ===== verification/GoFloat.v ===== *)
(** * float64 arithmetic, [strconv.ParseFloat] and [time.Duration.Seconds]

    A finite float64 is an integer count of 2^-1074, the spacing of the smallest
    floats; every finite float64 is such a multiple.  Arithmetic rounds the
    exact result to 53 significant bits, ties to even.  The sign of zero is not
    kept: the program never looks at it. *)

From S2P Require Import Prelude GoStrings.
Open Scope Z_scope.

(** ** Rounding *)

Definition unit : Z := 2 ^ 1074.

(** The integer nearest to a/b (b > 0), the even one of two equally near. *)
Definition rne (a b : Z) : Z :=
  let q := (2 * a + b) / (2 * b) in
  if ((2 * a + b) mod (2 * b) =? 0) && Z.odd q then q - 1 else q.

(** How many low bits of a/b are lost to the 53 bits of the significand. *)
Definition lost_bits (a b : Z) : Z := Z.max 0 (Z.log2 (a / b) - 52).

Definition round_pos (a b : Z) : Z :=
  let e := lost_bits a b in rne a (b * 2 ^ e) * 2 ^ e.

(** The float64, in units, nearest to a/b units. *)
Definition round_div (a b : Z) : Z :=
  if a <? 0 then - round_pos (- a) b else round_pos a b.

Inductive float64 := NaN | Inf (neg : bool) | Fin (units : Z).

#[global] Instance float64_eq_dec : EqDecision float64.
Proof. solve_decision. Defined.

(** ** Operations on finite floats *)

Definition f64_of_int (n : Z) : Z := round_div (n * unit) 1.
Definition f64_add (x y : Z) : Z := round_div (x + y) 1.
Definition f64_mul (x y : Z) : Z := round_div (x * y) unit.
Definition f64_div (x y : Z) : Z := round_div (x * unit) y.

(** Conversion to an integer type truncates towards zero. *)
Definition f64_to_int (x : Z) : Z := Z.quot x unit.

(** ** [time.Duration] *)

Definition Second : Z := 1000000000.
Definition Millisecond : Z := 1000000.

(** [Duration.Seconds]: whole seconds plus the fraction, added as floats. *)
Definition Seconds (d : Z) : Z :=
  f64_add (f64_of_int (Z.quot d Second))
          (f64_div (f64_of_int (Z.rem d Second)) (f64_of_int Second)).

(** ** [strconv.ParseFloat(s, 64)] *)

Definition lower (c : ascii) : ascii := lower_byte c.

(** Case-insensitive comparison with a lower-case word. *)
Definition equal_fold (s w : gostring) : bool := bool_decide (map lower s = w).

(** [special]: the optional sign and inf, infinity or nan (unsigned). *)
Definition parse_special (s : gostring) : option float64 :=
  let '(signed, neg, r) :=
    match s with
    | c :: s' => if bool_decide (c = "-"%char) then (true, true, s')
                 else if bool_decide (c = "+"%char) then (true, false, s') else (false, false, s)
    | [] => (false, false, s)
    end in
  if equal_fold r "inf" || equal_fold r "infinity" then Some (Inf neg)
  else if negb signed && equal_fold r "nan" then Some NaN
  else None.

Record mantissa := {
  m_value : Z;          (* the digits as one integer *)
  m_frac : Z;           (* how many of them follow the point *)
  m_sawdot : bool;
  m_sawdigits : bool
}.

Definition mantissa_zero : mantissa := {| m_value := 0; m_frac := 0; m_sawdot := false; m_sawdigits := false |}.

(** A digit of the base: hexadecimal letters only after 0x. *)
Definition base_digit (hex : bool) (c : ascii) : option Z :=
  if is_digit c then Some (byte_val c - 48) else if hex then hex_val c else None.

Lemma base_digit_nonneg hex c v : base_digit hex c = Some v → 0 ≤ v.
Proof. destruct c as [[] [] [] [] [] [] [] []], hex; intros H; vm_compute in H; inversion H; subst; done. Qed.

(** The mantissa loop: it stops at the first byte that does not fit. *)
Fixpoint read_mantissa (hex : bool) (s : gostring) (m : mantissa) : mantissa * gostring :=
  match s with
  | [] => (m, [])
  | c :: s' =>
      if bool_decide (c = "_"%char) then read_mantissa hex s' m
      else if bool_decide (c = "."%char) then
        if m.(m_sawdot) then (m, s)
        else read_mantissa hex s' {| m_value := m.(m_value); m_frac := m.(m_frac);
                                     m_sawdot := true; m_sawdigits := m.(m_sawdigits) |}
      else match base_digit hex c with
           | Some v =>
               read_mantissa hex s'
                 {| m_value := m.(m_value) * (if hex then 16 else 10) + v;
                    m_frac := if m.(m_sawdot) then m.(m_frac) + 1 else m.(m_frac);
                    m_sawdot := m.(m_sawdot); m_sawdigits := true |}
           | None => (m, s)
           end
  end.

(** Digits of the exponent; past 10000 further digits no longer count. *)
Fixpoint read_exp_digits (s : gostring) (e : Z) : Z * gostring :=
  match s with
  | [] => (e, [])
  | c :: s' =>
      if bool_decide (c = "_"%char) then read_exp_digits s' e
      else if is_digit c then
        read_exp_digits s' (if e <? 10000 then e * 10 + (byte_val c - 48) else e)
      else (e, s)
  end.

(** The optional exponent: [None] is a syntax error. *)
Definition read_exponent (hex : bool) (s : gostring) : option (Z * gostring) :=
  match s with
  | c :: s' =>
      if bool_decide (lower c = if hex then "p"%char else "e"%char) then
        let '(sign, s'') :=
          match s' with
          | d :: r => if bool_decide (d = "+"%char) then (1, r)
                      else if bool_decide (d = "-"%char) then (-1, r) else (1, s')
          | [] => (1, s')
          end in
        match s'' with
        | d :: _ => if is_digit d then let '(e, r) := read_exp_digits s'' 0 in Some (sign * e, r)
                    else None
        | [] => None
        end
      else if hex then None else Some (0, s)
  | [] => if hex then None else Some (0, s)
  end.

(** [underscoreOK]: underscores only between digits, or after a base prefix.
    [prev] is the class of the previous byte: a digit, an underscore, other. *)
Inductive byte_class := CDigit | CUnderscore | COther.

Fixpoint underscore_loop (hex : bool) (prev : byte_class) (s : gostring) : bool :=
  match s with
  | [] => match prev with CUnderscore => false | _ => true end
  | c :: s' =>
      match base_digit hex c with
      | Some _ => underscore_loop hex CDigit s'
      | None =>
          if bool_decide (c = "_"%char) then
            match prev with CDigit => underscore_loop hex CUnderscore s' | _ => false end
          else match prev with CUnderscore => false | _ => underscore_loop hex COther s' end
      end
  end.

Definition strip_sign (s : gostring) : bool * gostring :=
  match s with
  | c :: s' => if bool_decide (c = "-"%char) then (true, s')
               else if bool_decide (c = "+"%char) then (false, s') else (false, s)
  | [] => (false, s)
  end.

Definition base_prefix (s : gostring) : option (ascii * gostring) :=
  match s with
  | z :: x :: s' => if bool_decide (z = "0"%char) then Some (lower x, s') else None
  | _ => None
  end.

Definition underscoreOK (s : gostring) : bool :=
  let s := (strip_sign s).2 in
  match base_prefix s with
  | Some (x, s') =>
      if bool_decide (x ∈ ["b"; "o"; "x"]%char)
      then underscore_loop (bool_decide (x = "x"%char)) CDigit s'
      else underscore_loop false COther s
  | None => underscore_loop false COther s
  end.

(** The largest finite float64 is below 2^1024. *)
Definition overflows (x : Z) : bool := 2 ^ 1024 * unit <=? Z.abs x.

(** [None] is either of the errors [ErrSyntax] and [ErrRange]. *)
Definition ParseFloat (s : gostring) : option float64 :=
  match parse_special s with
  | Some f => Some f
  | None =>
      let '(neg, r) := strip_sign s in
      let '(hex, r) :=
        match base_prefix r with
        | Some (x, (_ :: _) as r') => if bool_decide (x = "x"%char) then (true, r') else (false, r)
        | _ => (false, r)
        end in
      let '(m, r) := read_mantissa hex r mantissa_zero in
      if negb m.(m_sawdigits) then None
      else
        '(e, r) ← read_exponent hex r;
        match r with
        | _ :: _ => None
        | [] =>
            if ContainsByte s "_"%char && negb (underscoreOK s) then None
            else
              let base := if hex then 2 else 10 in
              let exp := if hex then e - 4 * m.(m_frac) else e - m.(m_frac) in
              let x :=
                if m.(m_value) =? 0 then 0
                else if 0 <=? exp then round_pos (m.(m_value) * base ^ exp * unit) 1
                else round_pos (m.(m_value) * unit) (base ^ (- exp)) in
              if overflows x then None else Some (Fin (if neg : bool then - x else x))
        end
  end.

(** ** Laws of rounding

    Rounding is monotone and fixes the floats, so it never crosses one. *)

(** An integer count of units that is a float64 of at most 53 significant bits. *)
Definition repr (x : Z) : Prop := ∃ k e, 0 ≤ e ∧ Z.abs k ≤ 2 ^ 53 ∧ x = k * 2 ^ e.

Lemma rne_bounds a b : 0 < b → - b ≤ 2 * (a - rne a b * b) ≤ b.
Proof.
  intros Hb. unfold rne.
  pose proof (Z.div_mod (2 * a + b) (2 * b) ltac:(lia)) as Hd.
  pose proof (Z.mod_pos_bound (2 * a + b) (2 * b) ltac:(lia)) as Hm.
  destruct (_ && _) eqn:E; bool_simpl; nia.
Qed.

Lemma rne_mono a b c d : 0 < b → 0 < d → a * d ≤ c * b → rne a b ≤ rne c d.
Proof.
  intros Hb Hd H. unfold rne.
  set (p := (2 * a + b) / (2 * b)). set (q := (2 * c + d) / (2 * d)).
  pose proof (Z.div_mod (2 * a + b) (2 * b) ltac:(lia)) as Ha.
  pose proof (Z.mod_pos_bound (2 * a + b) (2 * b) ltac:(lia)) as Ham.
  pose proof (Z.div_mod (2 * c + d) (2 * d) ltac:(lia)) as Hc.
  pose proof (Z.mod_pos_bound (2 * c + d) (2 * d) ltac:(lia)) as Hcm.
  fold p in Ha. fold q in Hc.
  assert (p ≤ q) as Hpq.
  { apply Z.nlt_ge. intros ?. assert ((q + 1) * (b * d) ≤ p * (b * d)) by nia. nia. }
  destruct (decide (p = q)) as [e|Hne]; [|repeat case_match; lia].
  clearbody p q. subst q.
  destruct (_ && Z.odd p) eqn:E1; destruct (((2 * c + d) mod (2 * d) =? 0) && Z.odd p) eqn:E2; try lia.
  apply andb_true_iff in E2 as [E2%Z.eqb_eq Ho]. rewrite Ho, andb_true_r in E1.
  apply Z.eqb_neq in E1. exfalso.
  assert (2 * b * p * d < (2 * a + b) * d) by nia. nia.
Qed.

Lemma rne_int n b : 0 < b → rne (n * b) b = n.
Proof. intros Hb. pose proof (rne_bounds (n * b) b Hb). nia. Qed.

Lemma lost_bits_spec a b : 0 ≤ a → 0 < b →
  0 ≤ lost_bits a b ∧ a < 2 ^ 53 * (b * 2 ^ lost_bits a b) ∧
  (lost_bits a b = 0 ∨ 2 ^ 52 * (b * 2 ^ lost_bits a b) ≤ a).
Proof.
  intros Ha Hb. unfold lost_bits.
  pose proof (Z.div_mod a b ltac:(lia)) as Hd. pose proof (Z.mod_pos_bound a b Hb) as Hm.
  pose proof (Z.div_pos a b Ha Hb) as Hq. set (q := a / b) in *. clearbody q.
  split; [lia|].
  destruct (decide (q = 0)) as [->|Hq0].
  { rewrite Z.max_l by (simpl; lia). split; [|by left]. nia. }
  pose proof (Z.log2_spec q ltac:(lia)) as [Hl1 Hl2].
  pose proof (Z.log2_nonneg q).
  destruct (Z.max_spec 0 (Z.log2 q - 52)) as [[? ->]|[? ->]].
  - replace (Z.succ (Z.log2 q)) with (53 + (Z.log2 q - 52)) in Hl2 by lia.
    replace (Z.log2 q) with (52 + (Z.log2 q - 52)) in Hl1 by lia.
    rewrite Z.pow_add_r in Hl1, Hl2 by lia.
    split; [|right]; nia.
  - pose proof (Z.pow_le_mono_r 2 (Z.succ (Z.log2 q)) 53 ltac:(lia) ltac:(lia)).
    split; [nia|by left].
Qed.

Lemma round_pos_mono a b c d :
  0 ≤ a → 0 ≤ c → 0 < b → 0 < d → a * d ≤ c * b → round_pos a b ≤ round_pos c d.
Proof.
  intros Ha Hc Hb Hd H. unfold round_pos.
  pose proof (lost_bits_spec a b Ha Hb) as (Hx0 & Hx1 & Hx2).
  pose proof (lost_bits_spec c d Hc Hd) as (Hy0 & Hy1 & Hy2).
  set (x := lost_bits a b) in *. set (y := lost_bits c d) in *. clearbody x y.
  pose proof (Z.pow_pos_nonneg 2 x ltac:(lia) Hx0). pose proof (Z.pow_pos_nonneg 2 y ltac:(lia) Hy0).
  destruct (Z.lt_trichotomy x y) as [Hlt|[->|Hgt]].
  - destruct Hy2 as [?|Hy2]; [lia|].
    assert (2 * 2 ^ x ≤ 2 ^ y).
    { replace (2 * 2 ^ x) with (2 ^ (x + 1)) by (rewrite Z.pow_add_r; lia). apply Z.pow_le_mono_r; lia. }
    transitivity (2 ^ 53 * 2 ^ x).
    + apply Z.mul_le_mono_nonneg_r; [lia|].
      pose proof (rne_bounds a (b * 2 ^ x) ltac:(nia)). nia.
    + transitivity (2 ^ 52 * 2 ^ y); [lia|]. apply Z.mul_le_mono_nonneg_r; [lia|].
      pose proof (rne_bounds c (d * 2 ^ y) ltac:(nia)). nia.
  - apply Z.mul_le_mono_nonneg_r; [lia|]. apply rne_mono; nia.
  - exfalso. destruct Hx2 as [?|Hx2]; [lia|].
    assert (2 * 2 ^ y ≤ 2 ^ x).
    { replace (2 * 2 ^ y) with (2 ^ (y + 1)) by (rewrite Z.pow_add_r; lia). apply Z.pow_le_mono_r; lia. }
    assert (2 ^ 52 * (b * 2 ^ x) * d ≤ a * d) by nia.
    assert (c * b < 2 ^ 53 * (d * 2 ^ y) * b) by nia.
    assert (2 ^ 53 * (d * 2 ^ y) * b ≤ 2 ^ 52 * (b * 2 ^ x) * d) by nia. lia.
Qed.

Lemma round_pos_repr a b : 0 ≤ a → 0 < b → repr (round_pos a b).
Proof.
  intros Ha Hb. pose proof (lost_bits_spec a b Ha Hb) as (Hx0 & Hx1 & _). unfold round_pos.
  set (x := lost_bits a b) in *. clearbody x. exists (rne a (b * 2 ^ x)), x.
  pose proof (Z.pow_pos_nonneg 2 x ltac:(lia) Hx0).
  pose proof (rne_bounds a (b * 2 ^ x) ltac:(nia)). split_and!; [done| |done]. nia.
Qed.

Lemma round_pos_fixed x b : 0 ≤ x → 0 < b → repr x → round_pos (x * b) b = x.
Proof.
  intros Hx Hb (k & e & He & Hk & ->). unfold round_pos, lost_bits.
  rewrite Z.div_mul by lia.
  pose proof (Z.pow_pos_nonneg 2 e ltac:(lia) He). assert (0 ≤ k) by nia.
  set (l := Z.max 0 _). assert (0 ≤ l) by lia.
  assert (∃ j, k * 2 ^ e = j * 2 ^ l) as [j Hj].
  { destruct (decide (k = 2 ^ 53)) as [->|Hk'].
    - unfold l. rewrite Z.mul_comm, <- Z.pow_add_r, Z.log2_pow2 by lia. rewrite Z.max_r by lia.
      exists (2 ^ 52). rewrite <- Z.pow_add_r by lia. f_equal; lia.
    - destruct (decide (k = 0)) as [->|Hk0]; [by exists 0|].
      assert (l ≤ e) as Hle.
      { unfold l. rewrite Z.log2_mul_pow2 by lia.
        pose proof (Z.log2_lt_pow2 k 53 ltac:(lia)). lia. }
      exists (k * 2 ^ (e - l)). rewrite <- Z.mul_assoc, <- Z.pow_add_r by lia. do 2 f_equal; lia. }
  clearbody l. pose proof (Z.pow_pos_nonneg 2 l ltac:(lia) ltac:(done)). rewrite Hj.
  replace (j * 2 ^ l * b) with (j * (b * 2 ^ l)) by ring. rewrite rne_int by nia. done.
Qed.

(** A float that bounds the exact value bounds the rounded one. *)
Lemma round_div_le a b y : 0 ≤ a → 0 < b → repr y → a ≤ y * b → round_div a b ≤ y.
Proof.
  intros Ha Hb Hy H. unfold round_div. destruct (a <? 0) eqn:E; bool_simpl; [lia|].
  rewrite <- (round_pos_fixed y 1) by (done || nia). apply round_pos_mono; nia.
Qed.

Lemma round_div_ge a b y : 0 ≤ y → 0 < b → repr y → y * b ≤ a → y ≤ round_div a b.
Proof.
  intros Hy0 Hb Hy H. unfold round_div. destruct (a <? 0) eqn:E; bool_simpl; [nia|].
  rewrite <- (round_pos_fixed y 1) at 1 by done. apply round_pos_mono; nia.
Qed.

Lemma round_div_fixed x b : 0 ≤ x → 0 < b → repr x → round_div (x * b) b = x.
Proof.
  intros Hx Hb Hr. pose proof (round_div_le (x * b) b x ltac:(nia) Hb Hr ltac:(lia)).
  pose proof (round_div_ge (x * b) b x Hx Hb Hr ltac:(lia)). lia.
Qed.

Lemma unit_pos : 0 < unit.
Proof. unfold unit. lia. Qed.

Lemma repr_int n : 0 ≤ n ≤ 2 ^ 53 → repr (n * unit).
Proof. intros H. exists n, 1074. unfold unit. lia. Qed.

Lemma repr_0 : repr 0.
Proof. exists 0, 0. lia. Qed.

Lemma repr_opp x : repr x → repr (- x).
Proof. intros (k & e & ? & ? & ->). exists (- k), e. lia. Qed.

Lemma f64_of_int_exact n : 0 ≤ n ≤ 2 ^ 53 → f64_of_int n = n * unit.
Proof.
  intros H. unfold f64_of_int. rewrite <- (Z.mul_1_r (n * unit)) at 1.
  apply round_div_fixed; [|lia|by apply repr_int]. pose proof unit_pos. nia.
Qed.

(** The difference between a float and a whole number below it is a float. *)
Lemma repr_sub_int x n : repr x → 0 ≤ n → n * unit < x < (n + 1) * unit → repr (x - n * unit).
Proof.
  intros (k & e & He & Hk & ->) Hn [H1 H2].
  pose proof (Z.pow_pos_nonneg 2 e ltac:(lia) He).
  destruct (decide (e ≤ 1074)) as [Hle|Hgt].
  - assert (unit = 2 ^ (1074 - e) * 2 ^ e) as Hu
      by (unfold unit; rewrite <- Z.pow_add_r by lia; f_equal; lia).
    pose proof (Z.pow_pos_nonneg 2 (1074 - e) ltac:(lia) ltac:(lia)).
    rewrite Hu in *. exists (k - n * 2 ^ (1074 - e)), e. split_and!; [lia| |ring].
    clear Hu. set (w := 2 ^ (1074 - e)) in *. set (v := 2 ^ e) in *. clearbody w v.
    assert (0 ≤ n * w) by nia. assert (n * w < k) by nia. lia.
  - exfalso. assert (2 ^ e = 2 ^ (e - 1074) * unit) as Hu
      by (unfold unit; rewrite <- Z.pow_add_r by lia; f_equal; lia).
    rewrite Hu, Z.mul_assoc in H1, H2. pose proof unit_pos.
    apply Z.mul_lt_mono_pos_r in H1, H2; [lia|done|done].
Qed.

(** A float below [d.Seconds()] is at most d nanoseconds. *)
Lemma below_Seconds d x : 0 ≤ d < 2 ^ 53 → repr x → x < Seconds d → x * Second ≤ d * unit.
Proof.
  intros Hd Hx Hlt. apply Z.nlt_ge. intros Hgt. revert Hlt. apply Z.nlt_ge.
  pose proof unit_pos as Hu. unfold Seconds.
  pose proof (Z.quot_rem d Second ltac:(done)) as Hqr.
  pose proof (Z.rem_bound_pos d Second ltac:(lia) ltac:(done)) as Hr.
  pose proof (Z.quot_pos d Second ltac:(lia) ltac:(done)) as Hq.
  set (q := Z.quot d Second) in *. set (r := Z.rem d Second) in *. clearbody q r.
  unfold Second in *.
  rewrite (f64_of_int_exact q), (f64_of_int_exact r), (f64_of_int_exact 1000000000) by lia.
  unfold f64_div, f64_add.
  destruct (decide ((q + 1) * unit ≤ x)) as [Hbig|Hsmall].
  - assert (round_div (r * unit * unit) (1000000000 * unit) ≤ unit).
    { apply round_div_le; try nia. rewrite <- (Z.mul_1_l unit). apply repr_int. lia. }
    assert (0 ≤ round_div (r * unit * unit) (1000000000 * unit)).
    { apply round_div_ge; try nia. apply repr_0. }
    apply round_div_le; [nia|lia|done|nia].
  - assert (q * unit < x) by nia.
    assert (round_div (r * unit * unit) (1000000000 * unit) ≤ x - q * unit).
    { apply round_div_le; [nia|nia| |].
      - apply repr_sub_int; [done|lia|lia].
      - assert (r * unit ≤ (x - q * unit) * 1000000000) by nia. nia. }
    assert (0 ≤ round_div (r * unit * unit) (1000000000 * unit)).
    { apply round_div_ge; try nia. apply repr_0. }
    apply round_div_le; [nia|lia|done|lia].
Qed.

(** Seconds as a float converted to nanoseconds never exceed a whole bound. *)
Lemma to_nanoseconds_le x d : 0 ≤ x → 0 ≤ d ≤ 2 ^ 53 → x * Second ≤ d * unit →
  0 ≤ f64_to_int (f64_mul x (f64_of_int Second)) ≤ d.
Proof.
  intros Hx Hd H. pose proof unit_pos as Hu.
  rewrite f64_of_int_exact by (unfold Second; lia). unfold f64_mul, f64_to_int.
  assert (round_div (x * (Second * unit)) unit ≤ d * unit).
  { apply round_div_le; [unfold Second; nia|done|by apply repr_int|nia]. }
  assert (0 ≤ round_div (x * (Second * unit)) unit).
  { apply round_div_ge; [lia|done|apply repr_0|unfold Second in *; nia]. }
  split; [by apply Z.quot_pos|].
  rewrite Z.quot_div_nonneg by done. apply Z.div_le_upper_bound; lia.
Qed.

Lemma ParseFloat_repr s x : ParseFloat s = Some (Fin x) → repr x.
Proof.
  unfold ParseFloat. destruct (parse_special s) as [f|] eqn:Esp.
  { intros [= ->]. unfold parse_special in Esp. destruct s; repeat case_match; discriminate. }
  clear Esp. destruct (strip_sign s) as [neg r0].
  destruct (match base_prefix r0 with Some (_, _ :: _) => _ | _ => _ end) as [hex r1].
  assert (∀ m : mantissa, 0 ≤ m_value m → 0 ≤ m_value (read_mantissa hex r1 m).1) as Hval.
  { induction r1 as [|c r IH]; simpl; [done|]. intros m Hm.
    destruct (bool_decide (c = "_"%char)); [by apply IH|].
    destruct (bool_decide (c = "."%char)).
    { destruct (m_sawdot m); [done|]. by apply IH. }
    destruct (base_digit hex c) as [v|] eqn:Ev; [|done]. apply IH. simpl.
    assert (0 ≤ v). { eapply base_digit_nonneg; eassumption. } destruct hex; lia. }
  specialize (Hval mantissa_zero ltac:(done)).
  destruct (read_mantissa hex r1 mantissa_zero) as [m r2]. simpl in Hval.
  destruct (negb _); [done|]. intros H. inv_ok. destruct x0 as [e r3].
  destruct r3; [|done]. destruct (_ && _); [done|].
  match type of H with (if overflows ?y then _ else _) = _ => set (y0 := y) in *; destruct (overflows y0); [done|] end.
  assert (repr y0) as Hy.
  { unfold y0. destruct (m_value m =? 0); [apply repr_0|].
    pose proof unit_pos.
    destruct (0 <=? _) eqn:E; bool_simpl; apply round_pos_repr; try lia.
    - assert (0 ≤ (if hex then 2 else 10) ^ (if hex then e - 4 * m_frac m else e - m_frac m))
        by (apply Z.pow_nonneg; destruct hex; lia). nia.
    - apply Z.pow_pos_nonneg; destruct hex; lia. }
  clearbody y0. destruct neg; injection H as H; subst; [by apply repr_opp|done].
Qed.

Section examples.
Local Definition ns (s : gostring) : option Z :=
  f ← ParseFloat s; match f with Fin x => Some (f64_to_int (f64_mul x (f64_of_int Second))) | _ => None end.
Example pf_1 : map ns (map String.list_ascii_of_string ["2.5"; "0.25"; "10.2"; "1e-1"; "0x1p3"; "1_0.5"; "+.5"]%string)
  = map Some [2500000000; 250000000; 10200000000; 100000000; 8000000000; 10500000000; 500000000].
Proof. vm_compute. reflexivity. Qed.
Example pf_2 : map ParseFloat (map String.list_ascii_of_string
  ["not-a-number"; "1e400"; "1__0"; "0x1"; "1e"; "."; "+nan"; "_1"; "1 "]%string) = replicate 9 None.
Proof. vm_compute. reflexivity. Qed.
Example pf_3 : map ParseFloat (map String.list_ascii_of_string ["NaN"; "-Inf"; "infinity"]%string)
  = [Some NaN; Some (Inf true); Some (Inf false)].
Proof. vm_compute. reflexivity. Qed.
End examples.
