(* ===== verification/Probe.v ===== *)
(** * internal/probe/probe.go: one probe of one target

    [Run] dials the target, lets x/crypto/ssh run the handshake and reports what
    happened.  The dialer and [ssh.NewClientConn] are parameters: the dialer by
    what it returned and when it connected, the SSH client as a tree of the
    reads and callbacks it performs, each callback's answer selecting what it
    does next. *)

From Stdlib Require Import Sorted.
From S2P Require Import Prelude GoStrings GoNetip GoNet GoErrors HostKey Identification.
From coqutil Require Import Datatypes.RecordSettersUsingExistingGetters.
Open Scope Z_scope.

(** ** Names *)

Definition ErrPhaseDNSLookup : gostring := "dns_lookup".
Definition ErrPhaseTCPConnect : gostring := "tcp_connect".
Definition ErrPhaseVersionExchange : gostring := "version_exchange".
Definition ErrPhaseKeyExchange : gostring := "key_exchange".

Definition ErrReasonConnectionRefused : gostring := "connection_refused".
Definition ErrReasonNoRouteToHost : gostring := "no_route_to_host".
Definition ErrReasonNetworkUnreachable : gostring := "network_unreachable".
Definition ErrReasonDNSFailure : gostring := "dns_failure".
Definition ErrReasonConnectionReset : gostring := "connection_reset".
Definition ErrReasonTimeout : gostring := "timeout".
Definition ErrReasonCanceled : gostring := "canceled".
Definition ErrReasonUserAuthReached : gostring := "user_auth_reached".
Definition ErrReasonNoCommonKex : gostring := "no_common_kex_algorithm".
Definition ErrReasonNoCommonHostKey : gostring := "no_common_host_key_algorithm".
Definition ErrReasonNoCommonCipher : gostring := "no_common_cipher".
Definition ErrReasonNoCommonMAC : gostring := "no_common_mac".
Definition ErrReasonNoCommonAlgorithm : gostring := "no_common_algorithm".
Definition ErrReasonOther : gostring := "other".

(** ** The result of a probe *)

(** Durations and instants are nanoseconds. *)
Record Result := mkResult {
  DNSLookup : bool;
  DNSLookupSuccess : bool;
  DNSLookupDuration : Z;
  TCPConnectSuccess : bool;
  TCPConnectDuration : Z;
  TCPMSS : Z;
  ServerIdentification : Identification.ServerIdentification;
  VersionExchangeSuccess : bool;
  VersionExchangeDuration : Z;
  KeyExchangeSuccess : bool;
  KeyExchangeDuration : Z;
  KEXAlgorithm : gostring;
  ServerHostKeyVerifySuccess : bool;
  ServerHostKeyAlgorithm : gostring;
  EncryptionClientToServer : gostring;
  EncryptionServerToClient : gostring;
  MACClientToServer : gostring;
  MACServerToClient : gostring;
  ErrorPhase : gostring;
  ErrorReason : gostring;
  Duration : Z;
  Success : bool
}.

(** The zero value every probe starts from. *)
Definition zero_Result : Result :=
  mkResult false false 0 false 0 0 zero_ident false 0 false 0 [] false [] [] [] [] [] [] [] 0 false.

(** [Time.Sub]: the difference saturates at the ends of int64. *)
Definition Sub (t u : Z) : Z := Z.max min_int64 (Z.min max_int64 (t - u)).

(** ** Options and algorithm lists *)

(** Constants of x/crypto/ssh the defaults are made of. *)
Class SSHNames := {
  ssh_key_names :: KeyAlgoNames;
  KeyExchangeMLKEM768X25519 : gostring; KeyExchangeCurve25519 : gostring;
  KeyExchangeECDHP256 : gostring; KeyExchangeECDHP384 : gostring; KeyExchangeECDHP521 : gostring;
  KeyExchangeDHGEXSHA256 : gostring; KeyExchangeDH16SHA512 : gostring; KeyExchangeDH14SHA256 : gostring;
  CertAlgoED25519v01 : gostring; CertAlgoECDSA256v01 : gostring; CertAlgoECDSA384v01 : gostring;
  CertAlgoECDSA521v01 : gostring; CertAlgoRSASHA512v01 : gostring; CertAlgoRSASHA256v01 : gostring;
  CipherChaCha20Poly1305 : gostring; CipherAES128GCM : gostring; CipherAES256GCM : gostring;
  CipherAES128CTR : gostring; CipherAES192CTR : gostring; CipherAES256CTR : gostring;
  HMACSHA256ETM : gostring; HMACSHA512ETM : gostring; HMACSHA256 : gostring;
  HMACSHA512 : gostring; HMACSHA1 : gostring
}.

Record Options := {
  opt_HostKeyCallback : option HostKeyCallback;
  opt_Ciphers : list gostring;
  opt_KeyExchanges : list gostring;
  opt_MACs : list gostring;
  opt_HostKeyAlgorithms : list gostring;
  opt_StripServerIdentificationComments : bool
}.

Definition orDefault (algorithms defaults : list gostring) : list gostring :=
  match algorithms with [] => defaults | _ => algorithms end.

(** The data of [ssh.ClientConfig]; its callbacks are [hostKeyCallback] and
    [transportReady] below. *)
Record ClientConfig := {
  cc_User : gostring;
  cc_Ciphers : list gostring;
  cc_KeyExchanges : list gostring;
  cc_MACs : list gostring;
  cc_HostKeyAlgorithms : list gostring
}.

Section Defaults.
Context {N : SSHNames}.

Definition defaultKeyExchanges : list gostring :=
  [KeyExchangeMLKEM768X25519; KeyExchangeCurve25519; KeyExchangeECDHP256; KeyExchangeECDHP384;
   KeyExchangeECDHP521; KeyExchangeDHGEXSHA256; KeyExchangeDH16SHA512; KeyExchangeDH14SHA256].

Definition defaultHostKeyAlgorithms : list gostring :=
  [CertAlgoED25519v01; CertAlgoECDSA256v01; CertAlgoECDSA384v01; CertAlgoECDSA521v01;
   CertAlgoRSASHA512v01; CertAlgoRSASHA256v01; KeyAlgoED25519; KeyAlgoECDSA256; KeyAlgoECDSA384;
   KeyAlgoECDSA521; KeyAlgoRSASHA512; KeyAlgoRSASHA256].

Definition defaultCiphers : list gostring :=
  [CipherChaCha20Poly1305; CipherAES128GCM; CipherAES256GCM; CipherAES128CTR; CipherAES192CTR;
   CipherAES256CTR].

Definition defaultMACs : list gostring :=
  [HMACSHA256ETM; HMACSHA512ETM; HMACSHA256; HMACSHA512; HMACSHA1].

Definition clientConfig (opts : Options) : ClientConfig := {|
  cc_User := "ssh_transport_exporter";
  cc_Ciphers := orDefault opts.(opt_Ciphers) defaultCiphers;
  cc_KeyExchanges := orDefault opts.(opt_KeyExchanges) defaultKeyExchanges;
  cc_MACs := orDefault opts.(opt_MACs) defaultMACs;
  cc_HostKeyAlgorithms := orDefault opts.(opt_HostKeyAlgorithms) defaultHostKeyAlgorithms
|}.
End Defaults.

(** ** Classifying errors *)

(** A context is known by what [ctx.Err()] returns when it is asked. *)
Definition classifyContextError (ctx_Err : option goerror) : gostring :=
  match ctx_Err with
  | None => []
  | Some e =>
      if errors_Is e context_DeadlineExceeded then ErrReasonTimeout
      else if errors_Is e context_Canceled then ErrReasonCanceled
      else []
  end.

Definition classifyNegotiationError (What : gostring) : gostring :=
  if bool_decide (What = ("key exchange" : gostring)) then ErrReasonNoCommonKex
  else if bool_decide (What = ("host key" : gostring)) then ErrReasonNoCommonHostKey
  else if bool_decide (What = ("client to server cipher" : gostring))
       || bool_decide (What = ("server to client cipher" : gostring)) then ErrReasonNoCommonCipher
  else if bool_decide (What = ("client to server MAC" : gostring))
       || bool_decide (What = ("server to client MAC" : gostring)) then ErrReasonNoCommonMAC
  else ErrReasonNoCommonAlgorithm.

Definition is_net_timeout (err : goerror) : bool :=
  match errors_AsType as_net_Error err with Some t => t | None => false end.

Definition errno_error (e : errno) : goerror := Err (Errno e) [].

Definition classifyDialError (ctx_Err : option goerror) (err : goerror) : gostring :=
  let reason := classifyContextError ctx_Err in
  if negb (bool_decide (reason = [])) then reason
  else if is_net_timeout err then ErrReasonTimeout
  else if errors_Is err (errno_error ECONNREFUSED) then ErrReasonConnectionRefused
  else if errors_Is err (errno_error EHOSTUNREACH) then ErrReasonNoRouteToHost
  else if errors_Is err (errno_error ENETUNREACH) then ErrReasonNetworkUnreachable
  else if errors_Is err (errno_error ECONNRESET) then ErrReasonConnectionReset
  else if is_some (errors_AsType as_DNSError err) then ErrReasonDNSFailure
  else ErrReasonOther.

Definition classifyKexError (ctx_Err : option goerror) (err : goerror) : gostring :=
  let reason := classifyContextError ctx_Err in
  if negb (bool_decide (reason = [])) then reason
  else match errors_AsType as_NegotiationError err with
       | Some what => classifyNegotiationError what
       | None =>
           if is_net_timeout err then ErrReasonTimeout
           else if errors_Is err io_EOF || errors_Is err io_ErrUnexpectedEOF
                   || errors_Is err (errno_error ECONNRESET) || errors_Is err (errno_error EPIPE)
           then ErrReasonConnectionReset
           else ErrReasonOther
       end.

Definition isHostname (target : gostring) : bool :=
  let host := match SplitHostPort target with Some (host, _) => host | None => target end in
  match ParseAddr host with Some _ => false | None => true end.

(** ** The SSH client of x/crypto *)

Record Algorithms := {
  alg_KeyExchange : gostring;
  alg_HostKey : gostring;
  alg_Write_Cipher : gostring; alg_Write_MAC : gostring;
  alg_Read_Cipher : gostring; alg_Read_MAC : gostring
}.

(** What [ssh.NewClientConn] does, one step at a time: it reads a chunk from the
    connection at some instant, it calls [HostKeyCallback] or
    [TransportReadyCallback] and goes on with the answer, or it returns. *)
Inductive handshake :=
  | HsReturn (err : option goerror)
  | HsRead (chunk : gostring) (now : Z) (k : handshake)
  | HsHostKey (hostname remote : gostring) (key : PublicKey) (k : option goerror → handshake)
  | HsReady (now : Z) (algs : Algorithms) (k : option goerror → handshake).

Record hostKeyResult := { verified : bool; errorReason : gostring }.

(** What the handshake shares with [Run]: the connection's watcher, the channel
    of capacity one, and the result under construction. *)
Record hs_state := mkState {
  conn : identificationWatcher;
  hostKeyResultCh : option hostKeyResult;
  result : Result
}.

Definition errAbort : goerror := errors_New "probe: aborting before auth by design".

(** The callback used when none is configured. *)
Definition noHostKeyCallback : HostKeyCallback :=
  λ _ _ _, Some (errors_New "no HostKeyCallback configured").

Section Run.
Context {N : SSHNames}.

Definition hostKeyOutcome (cb : HostKeyCallback) (hostname remote : gostring) (key : PublicKey)
    : hostKeyResult :=
  match verifyHostKey cb hostname remote key with
  | None => {| verified := true; errorReason := [] |}
  | Some err => {| verified := false; errorReason := classifyHostKeyVerifyError err |}
  end.

(** The send is dropped when the channel already holds a result. *)
Definition hostKeyCallback (cb : HostKeyCallback) (hostname remote : gostring) (key : PublicKey)
    (st : hs_state) : hs_state * option goerror :=
  let hk := hostKeyOutcome cb hostname remote key in
  (match st.(hostKeyResultCh) with
   | None => st <| hostKeyResultCh := Some hk |>
   | Some _ => st
   end, None).

Definition transportReady (now : Z) (algs : Algorithms) (st : hs_state) : hs_state * option goerror :=
  let r := st.(result) in
  let r := match st.(conn).(received) with
           | Some received => r <| KeyExchangeDuration := Sub now received |>
           | None => r
           end in
  let r := r <| KEXAlgorithm := algs.(alg_KeyExchange) |>
             <| ServerHostKeyAlgorithm := algs.(alg_HostKey) |>
             <| EncryptionClientToServer := algs.(alg_Write_Cipher) |>
             <| EncryptionServerToClient := algs.(alg_Read_Cipher) |>
             <| MACClientToServer := algs.(alg_Write_MAC) |>
             <| MACServerToClient := algs.(alg_Read_MAC) |> in
  (st <| result := r |>, Some errAbort).

(** [ssh.NewClientConn] running with the probe's connection and callbacks. *)
Fixpoint NewClientConn (cb : HostKeyCallback) (h : handshake) (st : hs_state)
    : hs_state * option goerror :=
  match h with
  | HsReturn err => (st, err)
  | HsRead chunk now k => NewClientConn cb k (st <| conn := Read st.(conn) chunk now |>)
  | HsHostKey hostname remote key k =>
      let '(st, e) := hostKeyCallback cb hostname remote key st in NewClientConn cb (k e) st
  | HsReady now algs k =>
      let '(st, e) := transportReady now algs st in NewClientConn cb (k e) st
  end.

(** Everything outside the program that one probe meets. *)
Record Env := {
  start : Z;                                      (* time.Now() on entry *)
  dialStart : Z;
  attempts : list Z;                              (* when ControlContext ran *)
  DialContext : gostring → res goerror (option (res goerror Z));
      (* the connection is a TCP connection, whose MSS may be readable, or not *)
  dialEnd : Z;
  ctx_Err_dial : option goerror;                  (* ctx.Err() after a failed dial *)
  versionExchangeStart : Z;
  ssh_NewClientConn : gostring → ClientConfig → handshake;
  ctx_Err_kex : option goerror;                   (* ctx.Err() after a failed handshake *)
  finish : Z                                      (* time.Now() on return *)
}.

(** [connectStart.CompareAndSwap(nil, &now)]. *)
Definition ControlContext (connectStart : option Z) (now : Z) : option Z :=
  match connectStart with None => Some now | Some _ => connectStart end.

(** Lines 268-300: the dial is reported. *)
Definition reportDial (env : Env) (target : gostring) : res Result Result :=
  let attemptStart := fold_left ControlContext env.(attempts) None in
  let r := zero_Result <| DNSLookup := isHostname target |> in
  let '(connectFrom, r) :=
    match attemptStart with
    | Some at0 =>
        (at0, if r.(DNSLookup)
              then r <| DNSLookupSuccess := true |> <| DNSLookupDuration := Sub at0 env.(dialStart) |>
              else r)
    | None => (env.(dialStart), r)
    end in
  match env.(DialContext) target with
  | Fail err =>
      let phase := if r.(DNSLookup) && negb r.(DNSLookupSuccess)
                   then ErrPhaseDNSLookup else ErrPhaseTCPConnect in
      Fail (r <| ErrorPhase := phase |>
              <| ErrorReason := classifyDialError env.(ctx_Err_dial) err |>)
  | Ok tcpConn =>
      let r := r <| TCPConnectSuccess := true |>
                 <| TCPConnectDuration := Sub env.(dialEnd) connectFrom |> in
      Ok (match tcpConn with Some (Ok mss) => r <| TCPMSS := mss |> | _ => r end)
  end.

(** Lines 349-362: the version exchange, from what the watcher saw. *)
Definition reportVersionExchange (env : Env) (opts : Options) (w : identificationWatcher)
    (r : Result) : Result :=
  match w.(received) with
  | None => r
  | Some received =>
      let r := r <| VersionExchangeSuccess := true |>
                 <| VersionExchangeDuration := Sub received env.(versionExchangeStart) |> in
      match parseServerIdentification w.(identification) with
      | Fail _ => r
      | Ok ident =>
          r <| ServerIdentification :=
                 if opts.(opt_StripServerIdentificationComments) then withoutComments ident else ident |>
      end
  end.

(** Lines 364-381: the error of the handshake. *)
Definition reportKeyExchange (env : Env) (handshakeErr : option goerror) (r : Result) : Result :=
  match handshakeErr with
  | Some err =>
      if errors_Is err errAbort then r <| KeyExchangeSuccess := true |>
      else
        r <| ErrorPhase := if r.(VersionExchangeSuccess) then ErrPhaseKeyExchange
                           else ErrPhaseVersionExchange |>
          <| ErrorReason := classifyKexError env.(ctx_Err_kex) err |>
  | None =>
      r <| ErrorPhase := ErrPhaseKeyExchange |> <| ErrorReason := ErrReasonUserAuthReached |>
  end.

(** Lines 383-392: a failed host key check outranks a later failure. *)
Definition reportHostKey (ch : option hostKeyResult) (r : Result) : Result :=
  match ch with
  | None => r
  | Some hk =>
      let r := r <| ServerHostKeyVerifySuccess := hk.(verified) |> in
      if hk.(verified) then r
      else r <| ErrorPhase := ErrPhaseKeyExchange |> <| ErrorReason := hk.(errorReason) |>
  end.

Definition handshakeOf (env : Env) (target : gostring) (opts : Options) : handshake :=
  env.(ssh_NewClientConn) target (clientConfig opts).

Definition configuredCallback (opts : Options) : HostKeyCallback :=
  match opts.(opt_HostKeyCallback) with Some cb => cb | None => noHostKeyCallback end.

(** [Run] up to the deferred assignment of [Duration]. *)
Definition run_body (env : Env) (target : gostring) (opts : Options) : Result :=
  match reportDial env target with
  | Fail r => r
  | Ok r =>
      let '(st, handshakeErr) :=
        NewClientConn (configuredCallback opts) (handshakeOf env target opts)
          (mkState new_watcher None r) in
      let r := reportVersionExchange env opts st.(conn) st.(result) in
      let r := reportKeyExchange env handshakeErr r in
      let r := reportHostKey st.(hostKeyResultCh) r in
      r <| Success := bool_decide (r.(ErrorPhase) = []) && r.(KeyExchangeSuccess)
                      && r.(ServerHostKeyVerifySuccess) |>
  end.

Definition Run (env : Env) (target : gostring) (opts : Options) : Result :=
  (run_body env target opts) <| Duration := Sub env.(finish) env.(start) |>.
End Run.

(** ** The callbacks along the handshake *)

(** The reads and callbacks of a handshake whose callbacks answer as [Run]'s do. *)
Inductive hs_event :=
  | EvRead (chunk : gostring) (now : Z)
  | EvHostKey (hostname remote : gostring) (key : PublicKey)
  | EvReady (now : Z) (algs : Algorithms).

Fixpoint trace (h : handshake) : list hs_event * option goerror :=
  match h with
  | HsReturn err => ([], err)
  | HsRead chunk now k => let '(evs, err) := trace k in (EvRead chunk now :: evs, err)
  | HsHostKey hostname remote key k =>
      let '(evs, err) := trace (k None) in (EvHostKey hostname remote key :: evs, err)
  | HsReady now algs k =>
      let '(evs, err) := trace (k (Some errAbort)) in (EvReady now algs :: evs, err)
  end.

Definition chunks (evs : list hs_event) : list (gostring * Z) :=
  omap (λ ev, match ev with EvRead c now => Some (c, now) | _ => None end) evs.

Fixpoint first_key (evs : list hs_event) : option (gostring * gostring * PublicKey) :=
  match evs with
  | [] => None
  | EvHostKey hostname remote key :: _ => Some (hostname, remote, key)
  | _ :: evs => first_key evs
  end.

Definition is_ready (ev : hs_event) : bool := match ev with EvReady _ _ => true | _ => false end.
Definition reached_ready (evs : list hs_event) : bool := existsb is_ready evs.

(** What x/crypto/ssh documents about its client: [TransportReadyCallback] is
    called after the version exchange and after [HostKeyCallback] accepted the
    key, an error it returns ends the handshake and is wrapped by the error
    returned, authentication comes only after it, and no other error is the
    probe's [errAbort].  [s] is what was read so far, [hk] whether
    [HostKeyCallback] ran. *)
Inductive client_contract : gostring → bool → handshake → Prop :=
  | cc_return s hk e :
      errors_Is e errAbort = false → client_contract s hk (HsReturn (Some e))
  | cc_read s hk chunk now k :
      client_contract (s ++ chunk) hk k → client_contract s hk (HsRead chunk now k)
  | cc_host_key s hk hostname remote key k :
      ssh_line s ≠ None → client_contract s true (k None) →
      client_contract s hk (HsHostKey hostname remote key k)
  | cc_ready s now algs k :
      ssh_line s ≠ None →
      (∀ e, ∃ w, k (Some e) = HsReturn (Some w) ∧ ∀ t, errors_Is e t = true → errors_Is w t = true) →
      client_contract s true (HsReady now algs k).

Section Trace.
Context {N : SSHNames}.

Definition on_event (cb : HostKeyCallback) (st : hs_state) (ev : hs_event) : hs_state :=
  match ev with
  | EvRead chunk now => st <| conn := Read st.(conn) chunk now |>
  | EvHostKey hostname remote key => (hostKeyCallback cb hostname remote key st).1
  | EvReady now algs => (transportReady now algs st).1
  end.

Lemma NewClientConn_trace cb h : ∀ st,
  NewClientConn cb h st = (foldl (on_event cb) st (trace h).1, (trace h).2).
Proof.
  induction h as [err|chunk now k IH|hostname remote key k IH|now algs k IH]; intros st;
    cbn [NewClientConn trace]; [done|..].
  - rewrite IH. by destruct (trace k).
  - unfold hostKeyCallback at 1. rewrite IH. by destruct (trace (k None)).
  - unfold transportReady at 1. rewrite IH. by destruct (trace (k (Some errAbort))).
Qed.

Lemma foldl_conn cb evs : ∀ st,
  (foldl (on_event cb) st evs).(conn) = reads st.(conn) (chunks evs).
Proof.
  induction evs as [|ev evs IH]; intros st; [done|]. cbn [foldl]. rewrite IH.
  destruct ev; cbn; [done|by destruct (hostKeyResultCh st)|done].
Qed.

Lemma foldl_channel cb evs : ∀ st,
  (foldl (on_event cb) st evs).(hostKeyResultCh)
  = match st.(hostKeyResultCh) with
    | Some hk => Some hk
    | None => (λ '(h, r, k), hostKeyOutcome cb h r k) <$> first_key evs
    end.
Proof.
  induction evs as [|ev evs IH]; intros st; cbn [foldl first_key].
  { by destruct (hostKeyResultCh st). }
  rewrite IH. destruct ev; cbn; [done| |done]. by destruct (hostKeyResultCh st) eqn:E; cbn; rewrite ?E.
Qed.

(** A handshake writes only what [TransportReadyCallback] reports. *)
Definition with_kex (r : Result) (d : Z) (kex hk ec es mc ms : gostring) : Result :=
  r <| KeyExchangeDuration := d |> <| KEXAlgorithm := kex |> <| ServerHostKeyAlgorithm := hk |>
    <| EncryptionClientToServer := ec |> <| EncryptionServerToClient := es |>
    <| MACClientToServer := mc |> <| MACServerToClient := ms |>.

Lemma foldl_result cb evs : ∀ st, ∃ d kex hk ec es mc ms,
  (foldl (on_event cb) st evs).(result) = with_kex st.(result) d kex hk ec es mc ms.
Proof.
  induction evs as [|ev evs IH]; intros st; cbn [foldl].
  - destruct (result st) eqn:E. by do 7 eexists.
  - destruct (IH (on_event cb st ev)) as (d & kex & hk & ec & es & mc & ms & ->).
    exists d, kex, hk, ec, es, mc, ms.
    destruct ev; cbn [on_event]; [done|unfold hostKeyCallback; by destruct (hostKeyResultCh st)|].
    unfold transportReady. by destruct (received (conn st)).
Qed.
End Trace.

(** ** What [Run] reports, field by field *)

Section RunFields.
Context {N : SSHNames} (env : Env) (target : gostring) (opts : Options).

Definition events : list hs_event := (trace (handshakeOf env target opts)).1.
Definition handshakeErr : option goerror := (trace (handshakeOf env target opts)).2.
Definition final_watcher : identificationWatcher := reads new_watcher (chunks events).

(** The result of the first host key check, if there was one. *)
Definition key_outcome : option hostKeyResult :=
  (λ '(h, r, k), hostKeyOutcome (configuredCallback opts) h r k) <$> first_key events.

Definition aborted (err : option goerror) : bool :=
  match err with Some e => errors_Is e errAbort | None => false end.

Definition connect_start : option Z := head env.(attempts).

Lemma ControlContext_first ts : ∀ t, fold_left ControlContext ts (Some t) = Some t.
Proof. induction ts as [|u ts IH]; intros t; [done|]. apply IH. Qed.

Lemma connect_start_spec : fold_left ControlContext env.(attempts) None = connect_start.
Proof. unfold connect_start. destruct (attempts env) as [|t ts]; [done|]. apply ControlContext_first. Qed.

Definition kex_error : gostring * gostring :=
  match handshakeErr with
  | Some e =>
      if errors_Is e errAbort then ([], [])
      else (if is_some final_watcher.(received) then ErrPhaseKeyExchange else ErrPhaseVersionExchange,
            classifyKexError env.(ctx_Err_kex) e)
  | None => (ErrPhaseKeyExchange, ErrReasonUserAuthReached)
  end.

Definition final_error : gostring * gostring :=
  match key_outcome with
  | Some hk => if hk.(verified) then kex_error else (ErrPhaseKeyExchange, hk.(errorReason))
  | None => kex_error
  end.

Lemma reportDial_Fail r err :
  reportDial env target = Fail r → env.(DialContext) target = Fail err →
  r.(DNSLookup) = isHostname target ∧ r.(DNSLookupSuccess) = isHostname target && is_some connect_start
  ∧ r.(TCPConnectSuccess) = false ∧ r.(VersionExchangeSuccess) = false ∧ r.(KeyExchangeSuccess) = false
  ∧ r.(Success) = false ∧ r.(ServerIdentification) = zero_ident
  ∧ r.(ErrorPhase) = (if isHostname target && negb (is_some connect_start)
                      then ErrPhaseDNSLookup else ErrPhaseTCPConnect)
  ∧ r.(ErrorReason) = classifyDialError env.(ctx_Err_dial) err
  ∧ r.(ServerHostKeyVerifySuccess) = false.
Proof.
  unfold reportDial. rewrite connect_start_spec. intros H Hd. rewrite Hd in H.
  destruct connect_start as [t|], (isHostname target); injection H as <-; split_and!; done.
Qed.

Lemma reportDial_Ok r :
  reportDial env target = Ok r →
  (∃ c, env.(DialContext) target = Ok c)
  ∧ r.(DNSLookup) = isHostname target ∧ r.(DNSLookupSuccess) = isHostname target && is_some connect_start
  ∧ r.(DNSLookupDuration) = (if r.(DNSLookupSuccess) then Sub (default 0 connect_start) env.(dialStart) else 0)
  ∧ r.(TCPConnectSuccess) = true
  ∧ r.(TCPConnectDuration) = Sub env.(dialEnd) (default env.(dialStart) connect_start)
  ∧ r.(VersionExchangeSuccess) = false ∧ r.(KeyExchangeSuccess) = false
  ∧ r.(ServerIdentification) = zero_ident ∧ r.(ErrorPhase) = [] ∧ r.(ErrorReason) = []
  ∧ r.(ServerHostKeyVerifySuccess) = false.
Proof.
  unfold reportDial. rewrite connect_start_spec. intros H.
  destruct (DialContext env target) as [c|e]; [split; [eauto|]|];
    destruct connect_start as [t|], (isHostname target);
    try discriminate H; destruct c as [[mss|?]|]; injection H as <-; split_and!; done.
Qed.

Lemma reportDial_VersionExchangeDuration :
  match reportDial env target with Ok r | Fail r => r.(VersionExchangeDuration) = 0 end.
Proof.
  unfold reportDial. rewrite connect_start_spec.
  destruct connect_start, (isHostname target), (DialContext env target) as [[[|]|]|]; reflexivity.
Qed.

Lemma Run_connected r :
  reportDial env target = Ok r →
  let res := Run env target opts in
  let w := final_watcher in
  res.(DNSLookup) = r.(DNSLookup) ∧ res.(DNSLookupSuccess) = r.(DNSLookupSuccess)
  ∧ res.(DNSLookupDuration) = r.(DNSLookupDuration)
  ∧ res.(TCPConnectSuccess) = r.(TCPConnectSuccess) ∧ res.(TCPConnectDuration) = r.(TCPConnectDuration)
  ∧ res.(VersionExchangeSuccess) = is_some w.(received)
  ∧ res.(VersionExchangeDuration)
    = (match w.(received) with Some t => Sub t env.(versionExchangeStart) | None => 0 end)
  ∧ res.(ServerIdentification)
    = match w.(received), parseServerIdentification w.(identification) with
      | Some _, Ok ident =>
          if opts.(opt_StripServerIdentificationComments) then withoutComments ident else ident
      | _, _ => zero_ident
      end
  ∧ res.(KeyExchangeSuccess) = aborted handshakeErr
  ∧ res.(ServerHostKeyVerifySuccess) = (match key_outcome with Some hk => hk.(verified) | None => false end)
  ∧ res.(ErrorPhase) = final_error.1 ∧ res.(ErrorReason) = final_error.2
  ∧ res.(Success) = bool_decide (res.(ErrorPhase) = []) && res.(KeyExchangeSuccess)
                    && res.(ServerHostKeyVerifySuccess).
Proof.
  intros Hd. pose proof (reportDial_Ok r Hd) as (_ & _ & _ & _ & _ & _ & Hv & Hk & Hi & Hp & Hr & Hh).
  pose proof reportDial_VersionExchangeDuration as Ht. rewrite Hd in Ht.
  cbv zeta. unfold Run, run_body. rewrite Hd, NewClientConn_trace.
  set (st0 := mkState new_watcher None r).
  destruct (foldl_result (configuredCallback opts) events st0) as (d & kex & hk & ec & es & mc & ms & Hres).
  pose proof (foldl_conn (configuredCallback opts) events st0) as Hconn.
  pose proof (foldl_channel (configuredCallback opts) events st0) as Hch.
  fold events handshakeErr. rewrite Hres, Hconn, Hch.
  change (reads (conn st0) (chunks events)) with final_watcher.
  change (match hostKeyResultCh st0 with Some hk => Some hk | None => _ end) with key_outcome.
  unfold final_error, kex_error. clear Hres Hconn Hch. generalize final_watcher, key_outcome, handshakeErr.
  intros w ko he. cbn [result st0]. destruct r. cbn in Hv, Hk, Hi, Hp, Hr, Hh, Ht. subst.
  unfold reportVersionExchange, reportKeyExchange, reportHostKey, aborted.
  destruct (received w) as [t|]; [destruct (parseServerIdentification (identification w)) as [id|e]|];
    (destruct he as [e'|]; [destruct (errors_Is e' errAbort)|]);
    (destruct ko as [[[] reason]|]); cbn; split_and!; intros; simplify_eq; reflexivity.
Qed.
End RunFields.

(** ** The contracts of the environment *)

Lemma ssh_line_app s t : ssh_line s ≠ None → ssh_line (s ++ t) ≠ None.
Proof.
  unfold ssh_line. rewrite lines_from_app, list.filter_app.
  by destruct (filter _ (lines_from [] s)).
Qed.

Lemma reached_ready_spec evs : reached_ready evs = true ↔ ∃ now algs, EvReady now algs ∈ evs.
Proof.
  unfold reached_ready. rewrite existsb_exists. split.
  - intros ([]&Hin%list_elem_of_In&Hr); try done. eauto.
  - intros (now & algs & Hin%list_elem_of_In). by exists (EvReady now algs).
Qed.

(** What the contract says of the reads and callbacks: the error is the probe's
    own exactly when the transport became ready, which is then the last event,
    after the identification string and a host key. *)
Lemma contract_trace s hk h : client_contract s hk h →
  let evs := (trace h).1 in
  (∃ e, (trace h).2 = Some e ∧ errors_Is e errAbort = reached_ready evs)
  ∧ (first_key evs ≠ None → ssh_line (s ++ stream (chunks evs)) ≠ None)
  ∧ (reached_ready evs = true →
      (hk = true ∨ first_key evs ≠ None) ∧
      ∃ evs' now algs, evs = evs' ++ [EvReady now algs] ∧ reached_ready evs' = false
        ∧ ssh_line (s ++ stream (chunks evs')) ≠ None).
Proof.
  cbv zeta. induction 1 as [s hk e He|s hk c now k _ IH|s hk hn rm key k Hs _ IH|s now algs k Hs Hk];
    cbn [trace].
  - cbn. split_and!; [eauto|done|done].
  - destruct (trace k) as [evs err]. cbn in IH |- *. destruct IH as (He & Hkey & Hr).
    unfold stream in *. cbn. rewrite app_assoc. split_and!; [done|done|].
    intros (? & evs' & n & a & -> & Hn & Hl)%Hr. split; [done|].
    exists (EvRead c now :: evs'), n, a. split_and!; [done|done|]. cbn. by rewrite app_assoc.
  - destruct (trace (k None)) as [evs err]. cbn in IH |- *. destruct IH as (He & Hkey & Hr).
    split_and!; [done|by intros _; apply ssh_line_app|].
    intros (? & evs' & n & a & -> & Hn & Hl)%Hr. split; [by right|].
    by exists (EvHostKey hn rm key :: evs'), n, a.
  - destruct (Hk errAbort) as (w & -> & Hw). cbn. split_and!.
    + exists w. split; [done|]. by apply Hw.
    + done.
    + intros _. split; [by left|]. exists [], now, algs. split_and!; [done|done|]. by rewrite app_nil_r.
Qed.

(** A dial succeeds only through a connection attempt. *)
Definition dial_contract (env : Env) (target : gostring) : Prop :=
  is_ok (env.(DialContext) target) = true → env.(attempts) ≠ [].

(** The errors of the dialer: connecting fails with an errno, and only the lookup
    of a name, which comes before the first attempt, with a [DNSError], which
    wraps no errno. *)
Definition dial_errors (env : Env) (target : gostring) : Prop :=
  ∀ err, env.(DialContext) target = Fail err →
    if isHostname target && bool_decide (env.(attempts) = []) then
      Forall (λ e, errors_Is err (errno_error e) = false) [ECONNREFUSED; EHOSTUNREACH; ENETUNREACH; ECONNRESET]
    else errors_AsType as_DNSError err = None.

(** Algorithms are negotiated after the version exchange. *)
Definition negotiation_contract `{SSHNames} (env : Env) (target : gostring) (opts : Options) : Prop :=
  ∀ err what, handshakeErr env target opts = Some err → errors_AsType as_NegotiationError err = Some what →
    ssh_line (stream (chunks (events env target opts))) ≠ None.

Definition times (evs : list hs_event) : list Z :=
  omap (λ ev, match ev with EvRead _ now | EvReady now _ => Some now | _ => None end) evs.

(** The monotonic clock, read in the order of the code, for a probe that ends
    before the clock difference saturates (292 years). *)
Definition clock_contract `{SSHNames} (env : Env) (target : gostring) (opts : Options) : Prop :=
  env.(start) ≤ env.(dialStart) ∧ env.(dialStart) ≤ env.(dialEnd)
  ∧ Forall (λ t, env.(dialStart) ≤ t ≤ env.(dialEnd)) env.(attempts)
  ∧ env.(dialEnd) ≤ env.(versionExchangeStart)
  ∧ StronglySorted Z.le (env.(versionExchangeStart) :: times (events env target opts) ++ [env.(finish)])
  ∧ env.(finish) - env.(start) ≤ max_int64.

Section Outcomes.
Context {N : SSHNames} (env : Env) (target : gostring) (opts : Options).
Context (Hclient : client_contract [] false (handshakeOf env target opts)).

Abbreviation evs := (events env target opts).
Abbreviation err := (handshakeErr env target opts).
Abbreviation res := (Run env target opts).

Lemma received_iff : is_some (final_watcher env target opts).(received) = true
  ↔ ssh_line (stream (chunks evs)) ≠ None.
Proof.
  unfold final_watcher. rewrite reads_new, ssh_line_completing.
  by destruct (completing [] (chunks evs)) as [[]|].
Qed.

Lemma aborted_iff_ready : aborted err = reached_ready evs.
Proof.
  destruct (contract_trace _ _ _ Hclient) as ((e & He & Ha) & _).
  unfold err, aborted. by rewrite He.
Qed.

Lemma ready_has_key : reached_ready evs = true → first_key evs ≠ None.
Proof.
  intros Hr. destruct (contract_trace _ _ _ Hclient) as (_ & _ & Hready).
  destruct (Hready Hr) as ([?|?] & _); done.
Qed.

Lemma key_has_received : first_key evs ≠ None →
  is_some (final_watcher env target opts).(received) = true.
Proof.
  intros Hk. apply received_iff.
  destruct (contract_trace _ _ _ Hclient) as (_ & Hkey & _). by apply Hkey.
Qed.

Lemma ready_has_received : reached_ready evs = true →
  is_some (final_watcher env target opts).(received) = true.
Proof. intros Hr. by apply key_has_received, ready_has_key. Qed.

Lemma kex_error_contract : ∃ e, err = Some e ∧ kex_error env target opts =
  if reached_ready evs then ([], [])
  else (if is_some (final_watcher env target opts).(received) then ErrPhaseKeyExchange
        else ErrPhaseVersionExchange, classifyKexError env.(ctx_Err_kex) e).
Proof.
  destruct (contract_trace _ _ _ Hclient) as ((e & He & Ha) & _).
  exists e. split; [done|]. unfold kex_error, handshakeErr. rewrite He. by rewrite Ha.
Qed.
End Outcomes.
