(* ===== verification/ProbeRun.v ===== *)
(** * internal/probe/probe.go: what a probe reports

    Theorems about [Run] of Probe.v: the errors it can report, when it succeeds,
    the order of its phases, the host key's verdict, the identification string,
    the algorithms and the times. *)

From Stdlib Require Import Sorted.
From stdpp Require Import sorting.
From S2P Require Import Prelude GoStrings GoErrors HostKey Identification Probe.
From coqutil Require Import Datatypes.RecordSettersUsingExistingGetters.
Open Scope Z_scope.

(** ** Errors *)

Definition dial_reasons : list gostring :=
  [ErrReasonTimeout; ErrReasonCanceled; ErrReasonConnectionRefused; ErrReasonNoRouteToHost;
   ErrReasonNetworkUnreachable; ErrReasonConnectionReset; ErrReasonDNSFailure; ErrReasonOther].

Definition kex_reasons : list gostring :=
  [ErrReasonTimeout; ErrReasonCanceled; ErrReasonNoCommonKex; ErrReasonNoCommonHostKey;
   ErrReasonNoCommonCipher; ErrReasonNoCommonMAC; ErrReasonNoCommonAlgorithm;
   ErrReasonConnectionReset; ErrReasonOther].

Definition host_key_reasons : list gostring :=
  [ErrReasonServerHostKeyUnknown; ErrReasonServerHostKeyMismatch; ErrReasonServerHostKeyRevoked;
   ErrReasonServerHostKeyRejected; ErrReasonServerHostCertificateInvalid].

(** The reasons the stages of a phase can report, and the pair of a probe
    without error. *)
Definition error_ok (phase reason : gostring) : Prop :=
  (phase = [] ∧ reason = [])
  ∨ ((phase = ErrPhaseDNSLookup ∨ phase = ErrPhaseTCPConnect) ∧ reason ∈ dial_reasons)
  ∨ (phase = ErrPhaseVersionExchange ∧ reason ∈ kex_reasons)
  ∨ (phase = ErrPhaseKeyExchange ∧ reason ∈ kex_reasons ++ host_key_reasons).

Ltac in_list := rewrite ?elem_of_app, ?elem_of_cons; tauto.

Lemma classifyContextError_in ctx_Err :
  classifyContextError ctx_Err ∈ [[]; ErrReasonTimeout; ErrReasonCanceled].
Proof. unfold classifyContextError. repeat case_match; in_list. Qed.

Lemma classifyDialError_in ctx_Err e : classifyDialError ctx_Err e ∈ dial_reasons.
Proof.
  unfold classifyDialError, dial_reasons. cbv zeta.
  pose proof (classifyContextError_in ctx_Err) as Hc. rewrite !elem_of_cons in Hc.
  destruct (bool_decide (classifyContextError ctx_Err = [])) eqn:E; cbn [negb]; bool_simpl.
  - repeat case_match; in_list.
  - rewrite !elem_of_cons. rewrite elem_of_nil in Hc. tauto.
Qed.

Lemma classifyKexError_in ctx_Err e : classifyKexError ctx_Err e ∈ kex_reasons.
Proof.
  unfold classifyKexError, classifyNegotiationError, kex_reasons. cbv zeta.
  pose proof (classifyContextError_in ctx_Err) as Hc. rewrite !elem_of_cons in Hc.
  destruct (bool_decide (classifyContextError ctx_Err = [])) eqn:E; cbn [negb]; bool_simpl.
  - repeat case_match; in_list.
  - rewrite !elem_of_cons. rewrite elem_of_nil in Hc. tauto.
Qed.

Lemma classifyHostKey_in e : classifyHostKeyVerifyError e ∈ host_key_reasons.
Proof. unfold classifyHostKeyVerifyError, host_key_reasons. repeat case_match; in_list. Qed.

Lemma reason_nonempty r : r ∈ dial_reasons ∨ r ∈ kex_reasons ∨ r ∈ host_key_reasons → r ≠ [].
Proof.
  intros Hr ->. unfold dial_reasons, kex_reasons, host_key_reasons in Hr.
  rewrite !elem_of_cons, !elem_of_nil in Hr.
  repeat match goal with H : _ ∨ _ |- _ => destruct H as [H|H] end; done.
Qed.

Section RunErrors.
Context {N : SSHNames} (env : Env) (target : gostring) (opts : Options).

Lemma key_outcome_spec :
  match key_outcome env target opts with
  | None => first_key (events env target opts) = None
  | Some hk => ∃ h r k, first_key (events env target opts) = Some (h, r, k) ∧
      match verifyHostKey (configuredCallback opts) h r k with
      | None => hk.(verified) = true
      | Some e => hk.(verified) = false ∧ hk.(errorReason) = classifyHostKeyVerifyError e
      end
  end.
Proof.
  unfold key_outcome. destruct (first_key _) as [[[h r] k]|]; [|done]. cbn.
  exists h, r, k. split; [done|]. unfold hostKeyOutcome.
  by destruct (verifyHostKey _ h r k).
Qed.

Lemma Run_dial_failed e :
  env.(DialContext) target = Fail e → ∃ r, reportDial env target = Fail r
    ∧ Run env target opts = r <| Duration := Sub env.(finish) env.(start) |>.
Proof.
  intros He. unfold Run, run_body. destruct (reportDial env target) as [r|r] eqn:Hr; [|eauto].
  apply reportDial_Ok in Hr as [[c Hc] _]. congruence.
Qed.

Lemma dial_ok c : env.(DialContext) target = Ok c → ∃ r, reportDial env target = Ok r.
Proof. unfold reportDial. intros ->. repeat case_match; eauto. Qed.

Context (Hclient : client_contract [] false (handshakeOf env target opts)).

Lemma final_error_ok : error_ok (final_error env target opts).1 (final_error env target opts).2.
Proof.
  destruct (kex_error_contract env target opts Hclient) as (e & He & Hk).
  assert (error_ok (kex_error env target opts).1 (kex_error env target opts).2) as Hkex.
  { rewrite Hk. pose proof (classifyKexError_in env.(ctx_Err_kex) e).
    destruct (reached_ready _); [by left|].
    destruct (is_some _); unfold error_ok; rewrite elem_of_app; tauto. }
  unfold final_error. pose proof key_outcome_spec as Ho.
  destruct (key_outcome env target opts) as [hk|]; [|done].
  destruct Ho as (h & r & k & _ & Hv). destruct (verifyHostKey _ h r k) as [ve|].
  - destruct Hv as [-> ->]. do 3 right. split; [done|]. apply elem_of_app. right. apply classifyHostKey_in.
  - by rewrite Hv.
Qed.

(** The transport became ready and the first host key was verified. *)
Definition probe_ok : Prop :=
  reached_ready (events env target opts) = true
  ∧ ∃ h r k, first_key (events env target opts) = Some (h, r, k)
      ∧ verifyHostKey (configuredCallback opts) h r k = None.

Lemma final_error_nil :
  ((final_error env target opts).1 = [] ↔ probe_ok) ∧ ((final_error env target opts).2 = [] ↔ probe_ok).
Proof.
  destruct (kex_error_contract env target opts Hclient) as (e & He & Hk).
  pose proof (reason_nonempty _ (or_intror (or_introl (classifyKexError_in env.(ctx_Err_kex) e)))) as Hne.
  pose proof (ready_has_key env target opts Hclient) as Hrk.
  unfold final_error, probe_ok. rewrite Hk. pose proof key_outcome_spec as Ho.
  destruct (key_outcome env target opts) as [hk|].
  - destruct Ho as (h & rm & k & -> & Hv). destruct (verifyHostKey _ h rm k) as [ve|] eqn:Hve.
    + destruct Hv as [-> ->]. pose proof (reason_nonempty _ (or_intror (or_intror (classifyHostKey_in ve)))).
      cbn. split; (split; [done|]); naive_solver.
    + rewrite Hv. destruct (reached_ready _); [naive_solver|].
      destruct (is_some _); cbn; split; (split; [done|]); naive_solver.
  - destruct (reached_ready _); [by destruct Hrk|].
    destruct (is_some _); cbn; split; (split; [done|]); naive_solver.
Qed.

Lemma Run_error_ok :
  error_ok (Run env target opts).(ErrorPhase) (Run env target opts).(ErrorReason).
Proof.
  destruct (DialContext env target) as [c|e] eqn:Hd.
  - destruct (dial_ok c Hd) as [r Hr].
    destruct (Run_connected env target opts r Hr) as (_&_&_&_&_&_&_&_&_&_&->&->&_).
    apply final_error_ok.
  - destruct (Run_dial_failed e Hd) as (r & Hr & ->).
    destruct (reportDial_Fail env target r e Hr Hd) as (_&_&_&_&_&_&_&Hp&Hre&_). cbn.
    rewrite Hp, Hre. right. left. split; [case_match; auto|]. apply classifyDialError_in.
Qed.

Lemma Run_ok : (Run env target opts).(Success) = true ↔
  (∃ c, env.(DialContext) target = Ok c) ∧ probe_ok.
Proof.
  destruct (DialContext env target) as [c|e] eqn:Hd.
  - destruct (dial_ok c Hd) as [r Hr].
    destruct (Run_connected env target opts r Hr) as (_&_&_&_&_&_&_&_&Hke&Hhk&Hp&Hre&Hs).
    rewrite Hs, !andb_true_iff, bool_decide_eq_true, Hp, (proj1 final_error_nil), Hke, Hhk, aborted_iff_ready by done.
    unfold probe_ok. pose proof key_outcome_spec as Ho.
    destruct (key_outcome env target opts) as [hk|]; [|rewrite Ho; naive_solver].
    destruct Ho as (h & rm & k & -> & Hv). destruct (verifyHostKey _ h rm k) eqn:E; naive_solver.
  - destruct (Run_dial_failed e Hd) as (r & Hr & ->).
    destruct (reportDial_Fail env target r e Hr Hd) as (_&_&_&_&_&Hs&_). cbn. rewrite Hs. naive_solver.
Qed.

Lemma Run_no_error :
  ((Run env target opts).(Success) = true ↔ (Run env target opts).(ErrorPhase) = [])
  ∧ ((Run env target opts).(Success) = true ↔ (Run env target opts).(ErrorReason) = []).
Proof.
  rewrite Run_ok. destruct final_error_nil as [Hn1 Hn2]. destruct (DialContext env target) as [c|e] eqn:Hd.
  - destruct (dial_ok c Hd) as [r Hr].
    destruct (Run_connected env target opts r Hr) as (_&_&_&_&_&_&_&_&_&_&Hp&Hre&_).
    rewrite Hp, Hre, Hn1, Hn2. naive_solver.
  - destruct (Run_dial_failed e Hd) as (r & Hr & ->).
    destruct (reportDial_Fail env target r e Hr Hd) as (_&_&_&_&_&_&_&Hp&Hre&_). cbn.
    rewrite Hp, Hre. pose proof (reason_nonempty _ (or_introl (classifyDialError_in env.(ctx_Err_dial) e))).
    split; (split; [naive_solver|]); [by case_match|done].
Qed.

(** C1: a probe succeeds exactly when the connection was made, the transport
    became ready and the first host key presented was verified; and exactly
    then it reports neither an error phase nor an error reason. *)
Theorem Run_success_iff :
  let res := Run env target opts in
  (res.(Success) = true ↔
    (∃ c, env.(DialContext) target = Ok c)
    ∧ reached_ready (events env target opts) = true
    ∧ ∃ h r k, first_key (events env target opts) = Some (h, r, k)
        ∧ verifyHostKey (configuredCallback opts) h r k = None)
  ∧ (res.(Success) = true ↔ res.(ErrorPhase) = []) ∧ (res.(Success) = true ↔ res.(ErrorReason) = []).
Proof. split; [apply Run_ok|apply Run_no_error]. Qed.
End RunErrors.

(** ** The table of the README *)

Definition no_common_reasons : list gostring :=
  [ErrReasonNoCommonKex; ErrReasonNoCommonHostKey; ErrReasonNoCommonCipher; ErrReasonNoCommonMAC;
   ErrReasonNoCommonAlgorithm].

(** "Error Phases and Reasons": the phases listed for a reason. *)
Definition documented_phases (reason : gostring) : list gostring :=
  if bool_decide (reason ∈ [ErrReasonConnectionRefused; ErrReasonNoRouteToHost; ErrReasonNetworkUnreachable])
  then [ErrPhaseTCPConnect]
  else if bool_decide (reason = ErrReasonDNSFailure) then [ErrPhaseDNSLookup]
  else if bool_decide (reason = ErrReasonConnectionReset)
  then [ErrPhaseTCPConnect; ErrPhaseVersionExchange; ErrPhaseKeyExchange]
  else if bool_decide (reason ∈ [ErrReasonTimeout; ErrReasonCanceled; ErrReasonOther])
  then [ErrPhaseDNSLookup; ErrPhaseTCPConnect; ErrPhaseVersionExchange; ErrPhaseKeyExchange]
  else if bool_decide (reason ∈ host_key_reasons ++ no_common_reasons ++ [ErrReasonUserAuthReached])
  then [ErrPhaseKeyExchange]
  else [].

Ltac documented := apply (bool_decide_eq_true_1 _); vm_compute; reflexivity.

Lemma documented_reasons reasons phase :
  forallb (λ r, bool_decide (phase ∈ documented_phases r)) reasons = true →
  ∀ r, r ∈ reasons → phase ∈ documented_phases r.
Proof.
  intros Hall r Hr. rewrite forallb_forall in Hall. apply (bool_decide_eq_true_1 _), Hall.
  by apply list_elem_of_In.
Qed.

Lemma context_reason ctx_Err :
  classifyContextError ctx_Err ≠ [] → classifyContextError ctx_Err ∈ [ErrReasonTimeout; ErrReasonCanceled].
Proof. intros Hc. pose proof (classifyContextError_in ctx_Err) as H. apply elem_of_cons in H as [H|H]; done. Qed.

Lemma lookup_error_documented ctx_Err err :
  Forall (λ e, errors_Is err (errno_error e) = false) [ECONNREFUSED; EHOSTUNREACH; ENETUNREACH; ECONNRESET] →
  ErrPhaseDNSLookup ∈ documented_phases (classifyDialError ctx_Err err).
Proof.
  rewrite !list.Forall_cons. intros (H1 & H2 & H3 & H4 & _).
  apply (documented_reasons [ErrReasonTimeout; ErrReasonCanceled; ErrReasonDNSFailure; ErrReasonOther]); [done|].
  unfold classifyDialError. cbv zeta. rewrite H1, H2, H3, H4.
  case_bool_decide as Hc; cbn [negb]; [repeat case_match; in_list|].
  apply context_reason in Hc. rewrite !elem_of_cons, elem_of_nil in Hc. rewrite !elem_of_cons. tauto.
Qed.

Lemma connect_error_documented ctx_Err err :
  errors_AsType as_DNSError err = None →
  ErrPhaseTCPConnect ∈ documented_phases (classifyDialError ctx_Err err).
Proof.
  intros Hd. apply (documented_reasons [ErrReasonTimeout; ErrReasonCanceled; ErrReasonConnectionRefused;
    ErrReasonNoRouteToHost; ErrReasonNetworkUnreachable; ErrReasonConnectionReset; ErrReasonOther]); [done|].
  unfold classifyDialError. cbv zeta. rewrite Hd. cbn [is_some].
  case_bool_decide as Hc; cbn [negb]; [repeat case_match; in_list|].
  apply context_reason in Hc. rewrite !elem_of_cons, elem_of_nil in Hc. rewrite !elem_of_cons. tauto.
Qed.

Lemma kex_error_documented ctx_Err err :
  ErrPhaseKeyExchange ∈ documented_phases (classifyKexError ctx_Err err).
Proof. apply (documented_reasons kex_reasons); [done|]. apply classifyKexError_in. Qed.

Lemma version_error_documented ctx_Err err :
  errors_AsType as_NegotiationError err = None →
  ErrPhaseVersionExchange ∈ documented_phases (classifyKexError ctx_Err err).
Proof.
  intros Hn. apply (documented_reasons [ErrReasonTimeout; ErrReasonCanceled; ErrReasonConnectionReset;
    ErrReasonOther]); [done|].
  unfold classifyKexError. cbv zeta. rewrite Hn.
  case_bool_decide as Hc; cbn [negb]; [repeat case_match; in_list|].
  apply context_reason in Hc. rewrite !elem_of_cons, elem_of_nil in Hc. rewrite !elem_of_cons. tauto.
Qed.

Section RunDocumented.
Context {N : SSHNames} (env : Env) (target : gostring) (opts : Options).
Context (Hclient : client_contract [] false (handshakeOf env target opts))
        (Hdial : dial_errors env target) (Hneg : negotiation_contract env target opts).

Lemma kex_phase_documented :
  kex_error env target opts = ([], [])
  ∨ (kex_error env target opts).1 ∈ documented_phases (kex_error env target opts).2.
Proof.
  destruct (kex_error_contract env target opts Hclient) as (e & He & ->).
  destruct (reached_ready _); [by left|]. right. cbn [fst snd].
  destruct (is_some (received (final_watcher env target opts))) eqn:Hr; [apply kex_error_documented|].
  apply version_error_documented. destruct (errors_AsType as_NegotiationError e) as [what|] eqn:Hn; [|done].
  apply (Hneg _ _ He), (received_iff env target opts) in Hn. congruence.
Qed.

(** C13: whatever the server and the network do, the error phase and reason a
    probe reports are both empty or a pair of the README's table; and the probe
    never reports that user authentication was reached. *)
Theorem Run_error_documented :
  let res := Run env target opts in
  (res.(ErrorPhase) = [] ∧ res.(ErrorReason) = []
   ∨ res.(ErrorPhase) ∈ documented_phases res.(ErrorReason))
  ∧ res.(ErrorReason) ≠ ErrReasonUserAuthReached.
Proof.
  cbv zeta. split.
  - destruct (DialContext env target) as [c|e] eqn:Hd.
    + destruct (dial_ok env target c Hd) as [r Hr].
      destruct (Run_connected env target opts r Hr) as (_&_&_&_&_&_&_&_&_&_&->&->&_).
      pose proof kex_phase_documented as Hk. unfold final_error. pose proof (key_outcome_spec env target opts) as Ho.
      destruct (key_outcome env target opts) as [hk|]; [|destruct Hk as [->|Hk]; auto].
      destruct (verified hk) eqn:Hv; [destruct Hk as [->|Hk]; auto|]. right.
      destruct Ho as (h & rm & k & _ & Hvk). destruct (verifyHostKey _ h rm k); [|congruence].
      destruct Hvk as [_ ->]. cbn [fst snd].
      apply (documented_reasons host_key_reasons); [done|]. apply classifyHostKey_in.
    + destruct (Run_dial_failed env target opts e Hd) as (r & Hr & ->).
      destruct (reportDial_Fail env target r e Hr Hd) as (_&_&_&_&_&_&_&Hp&Hre&_). cbn. rewrite Hp, Hre.
      right. specialize (Hdial e Hd). unfold connect_start.
      destruct (attempts env); cbn in *; destruct (isHostname target); cbn in *;
        try (by apply connect_error_documented); by apply lookup_error_documented.
  - intros Hu. destruct (Run_error_ok env target opts Hclient) as [[_ Hr]|[[_ Hr]|[[_ Hr]|[_ Hr]]]];
      rewrite Hu in Hr; [discriminate Hr|..]; revert Hr; apply (bool_decide_eq_false_1 _); vm_compute; reflexivity.
Qed.
End RunDocumented.

(** ** Phases *)

(** The phase that failed first, read off the success gauges. *)
Definition first_failed (r : Result) : gostring :=
  if r.(DNSLookup) && negb r.(DNSLookupSuccess) then ErrPhaseDNSLookup
  else if negb r.(TCPConnectSuccess) then ErrPhaseTCPConnect
  else if negb r.(VersionExchangeSuccess) then ErrPhaseVersionExchange
  else if negb (r.(KeyExchangeSuccess) && r.(ServerHostKeyVerifySuccess)) then ErrPhaseKeyExchange
  else [].

Section RunPhases.
Context {N : SSHNames} (env : Env) (target : gostring) (opts : Options).
Context (Hclient : client_contract [] false (handshakeOf env target opts))
        (Hdial : dial_contract env target).

Abbreviation res := (Run env target opts).

Lemma dial_attempted c : env.(DialContext) target = Ok c → is_some (connect_start env) = true.
Proof.
  intros Hc. unfold connect_start. destruct (attempts env) eqn:E; [|done].
  exfalso. apply Hdial; [by rewrite Hc|done].
Qed.

Lemma final_phase :
  (final_error env target opts).1 =
    if is_some (final_watcher env target opts).(received) then
      if reached_ready (events env target opts)
         && (match key_outcome env target opts with Some hk => hk.(verified) | None => false end)
      then [] else ErrPhaseKeyExchange
    else ErrPhaseVersionExchange.
Proof.
  destruct (kex_error_contract env target opts Hclient) as (e & He & Hk).
  pose proof (ready_has_received env target opts Hclient) as Hrr.
  pose proof (key_has_received env target opts Hclient) as Hkr.
  pose proof (ready_has_key env target opts Hclient) as Hrk.
  unfold final_error. rewrite Hk. pose proof (key_outcome_spec env target opts) as Ho.
  destruct (key_outcome env target opts) as [hk|].
  - destruct Ho as (h & r & k & Hf & _). rewrite Hkr by (by rewrite Hf).
    by destruct (reached_ready _), (verified hk).
  - destruct (reached_ready _); [by destruct Hrk|]. by destruct (is_some _).
Qed.

(** C12: the phases of a probe happen in order: a phase that succeeded has every
    earlier one succeed, a host key is only verified after the version
    exchange, and the error phase is the first phase that did not succeed,
    where key exchange includes the verification of the host key. *)
Theorem Run_phases_in_order :
  (res.(KeyExchangeSuccess) = true → res.(VersionExchangeSuccess) = true)
  ∧ (res.(ServerHostKeyVerifySuccess) = true → res.(VersionExchangeSuccess) = true)
  ∧ (res.(VersionExchangeSuccess) = true → res.(TCPConnectSuccess) = true)
  ∧ (res.(TCPConnectSuccess) = true → res.(DNSLookupSuccess) = res.(DNSLookup))
  ∧ res.(ErrorPhase) = first_failed res.
Proof.
  destruct (DialContext env target) as [c|e] eqn:Hd.
  - destruct (dial_ok env target c Hd) as [r Hr].
    destruct (reportDial_Ok env target r Hr) as (_ & Hdns & Hdnss & _ & Htcp & _).
    destruct (Run_connected env target opts r Hr) as (H1&H2&_&H4&_&Hv&_&_&Hke&Hhk&Hp&_&_).
    rewrite (dial_attempted c Hd), andb_true_r in Hdnss.
    unfold first_failed. rewrite Hp, final_phase, H1, H2, H4, Hke, Hhk, Hv, Hdnss, Hdns, Htcp, aborted_iff_ready by done.
    pose proof (ready_has_received env target opts Hclient) as Hrr.
    pose proof (key_has_received env target opts Hclient) as Hkr.
    pose proof (key_outcome_spec env target opts) as Ho.
    split_and!; [done| |done|done|].
    + intros Hok. destruct (key_outcome env target opts) as [hk|]; [|done].
      destruct Ho as (h & rm & k & Hf & _). apply Hkr. by rewrite Hf.
    + destruct (isHostname target), (is_some _); cbn; try done; by destruct (_ && _).
  - destruct (Run_dial_failed env target opts e Hd) as (r & Hr & ->).
    destruct (reportDial_Fail env target r e Hr Hd) as (Hdns&Hdnss&Htcp&Hv&Hke&_&_&Hp&_&Hhk).
    unfold first_failed. cbn. rewrite Htcp, Hv, Hke, Hp, Hdns, Hdnss, Hhk.
    split_and!; try done. by destruct (isHostname target), (is_some _).
Qed.
End RunPhases.

(** ** Host keys *)

Section RunHostKey.
Context {N : SSHNames} (env : Env) (target : gostring) (opts : Options).

Lemma key_outcome_first h r k :
  first_key (events env target opts) = Some (h, r, k) →
  key_outcome env target opts = Some (hostKeyOutcome (configuredCallback opts) h r k).
Proof. intros Hf. unfold key_outcome. by rewrite Hf. Qed.

Lemma final_error_key h r k e :
  first_key (events env target opts) = Some (h, r, k) →
  verifyHostKey (configuredCallback opts) h r k = Some e →
  final_error env target opts = (ErrPhaseKeyExchange, classifyHostKeyVerifyError e).
Proof.
  intros Hf Hv. unfold final_error. rewrite (key_outcome_first h r k Hf). unfold hostKeyOutcome. by rewrite Hv.
Qed.

(** C7: the first host key the server presents decides, by what known_hosts
    says about it: if it is vouched for, the probe reports it verified, and
    if not, the probe fails in the key exchange with the reason for that
    verdict, however the handshake ended and whatever keys came later. *)
Theorem Run_reports_verdict kh cb h r k c :
  env.(DialContext) target = Ok c →
  opts.(opt_HostKeyCallback) = Some cb → KnownHostsCallback kh (cb h r) → key_ok k = true →
  first_key (events env target opts) = Some (h, r, k) →
  let res := Run env target opts in
  match verdict kh k with
  | None => res.(ServerHostKeyVerifySuccess) = true
  | Some reason => res.(ServerHostKeyVerifySuccess) = false ∧ res.(Success) = false
      ∧ res.(ErrorPhase) = ErrPhaseKeyExchange ∧ res.(ErrorReason) = reason
  end.
Proof.
  intros Hd Hcb Hkh Hok Hf. cbv zeta.
  rewrite <- (verifyHostKey_verdict kh cb h r k Hkh Hok).
  destruct (dial_ok env target c Hd) as [r0 Hr].
  destruct (Run_connected env target opts r0 Hr) as (_&_&_&_&_&_&_&_&_&Hhk&Hp&Hre&Hs).
  assert (configuredCallback opts = cb) as Hcc by (unfold configuredCallback; by rewrite Hcb).
  pose proof (final_error_key h r k) as Hfe. rewrite Hcc in Hfe.
  rewrite (key_outcome_first h r k Hf), Hcc in Hhk. unfold hostKeyOutcome in Hhk.
  destruct (verifyHostKey cb h r k) as [e|]; cbn [fmap option_fmap option_map]; [|done].
  rewrite Hs, Hhk, Hp, Hre, (Hfe e Hf eq_refl), andb_false_r. done.
Qed.

(** Without a host key callback no probe succeeds, and a server that
    presents a plain host key is reported as rejected. *)
Theorem Run_without_callback_fails c h r blob :
  opts.(opt_HostKeyCallback) = None → env.(DialContext) target = Ok c →
  first_key (events env target opts) = Some (h, r, PlainKey blob) →
  let res := Run env target opts in
  res.(Success) = false ∧ res.(ServerHostKeyVerifySuccess) = false
  ∧ res.(ErrorPhase) = ErrPhaseKeyExchange ∧ res.(ErrorReason) = ErrReasonServerHostKeyRejected.
Proof.
  intros Hcb Hd Hf. cbv zeta. destruct (dial_ok env target c Hd) as [r0 Hr].
  destruct (Run_connected env target opts r0 Hr) as (_&_&_&_&_&_&_&_&_&Hhk&Hp&Hre&Hs).
  assert (configuredCallback opts = noHostKeyCallback) as Hcc by (unfold configuredCallback; by rewrite Hcb).
  pose proof (final_error_key h r (PlainKey blob)) as Hfe. rewrite Hcc in Hfe.
  rewrite (key_outcome_first h r _ Hf), Hcc in Hhk. unfold hostKeyOutcome in Hhk.
  change (verifyHostKey noHostKeyCallback h r (PlainKey blob)) with (Some (errors_New "no HostKeyCallback configured")) in Hhk.
  rewrite Hs, Hhk, Hp, Hre, (Hfe _ Hf eq_refl), andb_false_r. done.
Qed.
End RunHostKey.

(** ** The server's identification string *)

Section RunIdentification.
Context {N : SSHNames} (env : Env) (target : gostring) (opts : Options).

Lemma zero_ident_safe : label_safe (id_String zero_ident) ∧ label_safe (ProtoVersion zero_ident)
  ∧ label_safe (SoftwareVersion zero_ident) ∧ label_safe (Comments zero_ident).
Proof. unfold label_safe. cbn. split_and!; done || lia. Qed.

Lemma withoutComments_safe raw id : ident_grammar raw id →
  let i := withoutComments id in
  label_safe i.(id_String) ∧ label_safe i.(ProtoVersion) ∧ label_safe i.(SoftwareVersion)
  ∧ label_safe i.(Comments).
Proof.
  intros Hg. pose proof (ident_grammar_printable raw id Hg) as (Hs & Hp & Hv & Hc).
  cbn. split_and!; [|done|done|unfold label_safe; split; [done|cbn; lia]].
  pose proof (withoutComments_length raw id Hg) as Hl.
  destruct id as [str proto software comments conf].
  destruct Hg as (Hraw & _ & _ & _ & _ & _ & Hlen & _). destruct Hp as [Hp _], Hv as [Hv _].
  cbn in Hl, Hp, Hv |- *. split; [|cbn; lia].
  cbn. rewrite forallb_app, Hp. by cbn.
Qed.

(** Whatever bytes a server sends, the four parts of the identification string
    that become label values are printable ASCII of at most 255 characters. *)
Lemma Run_identification_safe :
  let id := (Run env target opts).(ServerIdentification) in
  label_safe id.(id_String) ∧ label_safe id.(ProtoVersion) ∧ label_safe id.(SoftwareVersion)
  ∧ label_safe id.(Comments).
Proof.
  cbv zeta. destruct (DialContext env target) as [c|e] eqn:Hd.
  - destruct (dial_ok env target c Hd) as [r Hr].
    destruct (Run_connected env target opts r Hr) as (_&_&_&_&_&_&_&->&_).
    destruct (received _); [|apply zero_ident_safe].
    destruct (parseServerIdentification _) as [id|] eqn:Hp; [|apply zero_ident_safe].
    apply parse_sound in Hp. case_match.
    + by eapply withoutComments_safe.
    + by eapply ident_grammar_printable.
  - destruct (Run_dial_failed env target opts e Hd) as (r & Hr & ->).
    destruct (reportDial_Fail env target r e Hr Hd) as (_&_&_&_&_&_&Hi&_). cbn.
    rewrite Hi. apply zero_ident_safe.
Qed.

(** C18: the identification reported is that of the first line of the
    connection that starts with "SSH-": the version exchange succeeds exactly
    when there is such a line, and its fields are reported when it parses. *)
Theorem Run_identification_of_stream c :
  env.(DialContext) target = Ok c →
  let res := Run env target opts in
  match ssh_line (stream (chunks (events env target opts))) with
  | None => res.(VersionExchangeSuccess) = false ∧ res.(ServerIdentification) = zero_ident
  | Some l => res.(VersionExchangeSuccess) = true ∧
      match parseServerIdentification (trim_cr l) with
      | Fail _ => res.(ServerIdentification) = zero_ident
      | Ok id => res.(ServerIdentification)
          = if opts.(opt_StripServerIdentificationComments) then withoutComments id else id
      end
  end.
Proof.
  intros Hd. cbv zeta. destruct (dial_ok env target c Hd) as [r Hr].
  destruct (Run_connected env target opts r Hr) as (_&_&_&_&_&Hv&_&Hi&_). rewrite Hv, Hi.
  unfold final_watcher. rewrite reads_new, ssh_line_completing.
  destruct (completing [] _) as [[l now]|]; cbn [received identification fmap option_fmap option_map fst is_some]; [|done]. split; [done|].
  destruct (parseServerIdentification (trim_cr l)) as [id|e] eqn:Hp.
  - by rewrite (proj2 (cap_parse l) id Hp), Hp.
  - destruct (parseServerIdentification (trim_cr (cap l))) eqn:Hc; [|done].
    pose proof (proj1 (cap_parse l)) as Hok. by rewrite Hc, Hp in Hok.
Qed.
End RunIdentification.

(** ** Algorithms and times *)

(** The fields [TransportReadyCallback] writes. *)
Definition kex_fields (r : Result) : Z * gostring * gostring * gostring * gostring * gostring * gostring :=
  (r.(KeyExchangeDuration), r.(KEXAlgorithm), r.(ServerHostKeyAlgorithm), r.(EncryptionClientToServer),
   r.(EncryptionServerToClient), r.(MACClientToServer), r.(MACServerToClient)).

Definition no_kex_fields := kex_fields zero_Result.

Section RunKex.
Context {N : SSHNames} (env : Env) (target : gostring) (opts : Options).

Lemma reportDial_kex : match reportDial env target with Ok r | Fail r => kex_fields r = no_kex_fields end.
Proof.
  unfold reportDial. rewrite connect_start_spec.
  destruct (connect_start env), (isHostname target), (DialContext env target) as [[[|]|]|]; reflexivity.
Qed.

Lemma foldl_no_ready cb evs : ∀ st, reached_ready evs = false →
  (foldl (on_event cb) st evs).(result) = st.(result).
Proof.
  induction evs as [|ev evs IH]; intros st; [done|]. cbn. intros [Hev Hr]%orb_false_iff.
  rewrite IH by done. destruct ev; [done| |done]. cbn. by destruct (hostKeyResultCh st).
Qed.

Lemma Run_kex r : reportDial env target = Ok r →
  kex_fields (Run env target opts) =
  kex_fields (foldl (on_event (configuredCallback opts)) (mkState new_watcher None r)
                (events env target opts)).(result).
Proof.
  intros Hd. unfold Run, run_body. rewrite Hd, NewClientConn_trace. fold (events env target opts).
  generalize (foldl (on_event (configuredCallback opts)) (mkState new_watcher None r) (events env target opts)).
  intros [w ch r']. generalize ((trace (handshakeOf env target opts)).2). intros he.
  cbn [conn result hostKeyResultCh]. unfold reportVersionExchange, reportKeyExchange, reportHostKey.
  destruct (received w); [destruct (parseServerIdentification _)|];
    (destruct he as [he|]; [destruct (errors_Is he errAbort)|]);
    (destruct ch as [[[] ?]|]); reflexivity.
Qed.

Context (Hclient : client_contract [] false (handshakeOf env target opts)).

Lemma ready_split : reached_ready (events env target opts) = true →
  ∃ evs' now algs, events env target opts = evs' ++ [EvReady now algs]
    ∧ reached_ready evs' = false
    ∧ ∃ t, (final_watcher env target opts).(received) = Some t
        ∧ (reads new_watcher (chunks evs')).(received) = Some t ∧ t ∈ map snd (chunks evs').
Proof.
  intros Hr. destruct (contract_trace _ _ _ Hclient) as (_ & _ & Hready).
  destruct (Hready Hr) as (_ & evs' & now & algs & He & Hn & Hl).
  exists evs', now, algs. split_and!; [done|done|].
  unfold final_watcher, events. rewrite He. unfold chunks at 1. rewrite omap_app, app_nil_r.
  fold (chunks evs'). rewrite reads_new. rewrite app_nil_l, ssh_line_completing in Hl.
  destruct (completing [] (chunks evs')) as [[l t]|] eqn:Hc; [|done].
  exists t. split_and!; [done..|]. by eapply completing_now.
Qed.

Lemma Run_algs :
  let res := Run env target opts in
  if res.(KeyExchangeSuccess) then
    ∃ now algs, list.last (events env target opts) = Some (EvReady now algs)
      ∧ res.(KEXAlgorithm) = algs.(alg_KeyExchange)
      ∧ res.(ServerHostKeyAlgorithm) = algs.(alg_HostKey)
      ∧ res.(EncryptionClientToServer) = algs.(alg_Write_Cipher)
      ∧ res.(EncryptionServerToClient) = algs.(alg_Read_Cipher)
      ∧ res.(MACClientToServer) = algs.(alg_Write_MAC)
      ∧ res.(MACServerToClient) = algs.(alg_Read_MAC)
  else kex_fields res = no_kex_fields.
Proof.
  cbv zeta. pose proof reportDial_kex as Hk. destruct (DialContext env target) as [c|e] eqn:Hd.
  - destruct (dial_ok env target c Hd) as [r Hr]. rewrite Hr in Hk.
    pose proof (Run_kex r Hr) as Hf.
    destruct (Run_connected env target opts r Hr) as (_&_&_&_&_&_&_&_&->&_).
    rewrite aborted_iff_ready by done.
    destruct (reached_ready (events env target opts)) eqn:Hready.
    + destruct (ready_split Hready) as (evs' & now & algs & He & Hn & _).
      exists now, algs. rewrite He, list.last_snoc. split; [done|].
      rewrite He, foldl_snoc in Hf. cbn [on_event] in Hf. unfold transportReady in Hf.
      unfold kex_fields in Hf. destruct (received _); cbn in Hf; naive_solver.
    + by rewrite Hf, foldl_no_ready.
  - destruct (Run_dial_failed env target opts e Hd) as (r & Hr & ->). rewrite Hr in Hk.
    destruct (reportDial_Fail env target r e Hr Hd) as (_&_&_&_&Hke&_). cbn. by rewrite Hke.
Qed.

(** A probe reports the algorithms the transport negotiated when its key
    exchange succeeded, and none when it did not. *)
Theorem Run_algorithms :
  let res := Run env target opts in
  if res.(KeyExchangeSuccess) then
    ∃ now algs, list.last (events env target opts) = Some (EvReady now algs)
      ∧ res.(KEXAlgorithm) = algs.(alg_KeyExchange)
      ∧ res.(ServerHostKeyAlgorithm) = algs.(alg_HostKey)
      ∧ res.(EncryptionClientToServer) = algs.(alg_Write_Cipher)
      ∧ res.(EncryptionServerToClient) = algs.(alg_Read_Cipher)
      ∧ res.(MACClientToServer) = algs.(alg_Write_MAC)
      ∧ res.(MACServerToClient) = algs.(alg_Read_MAC)
  else kex_fields res = no_kex_fields.
Proof. apply Run_algs. Qed.
End RunKex.

Section RunTimes.
Context {N : SSHNames} (env : Env) (target : gostring) (opts : Options).
Context (Hclient : client_contract [] false (handshakeOf env target opts))
        (Hdial : dial_contract env target) (Hclock : clock_contract env target opts).

Abbreviation res := (Run env target opts).

Lemma Sub_ok t u : u ≤ t → t - u ≤ max_int64 → Sub t u = t - u.
Proof. unfold Sub, min_int64, max_int64. lia. Qed.

Lemma chunk_times evs t : t ∈ map snd (chunks evs) → t ∈ times evs.
Proof.
  unfold times, chunks. rewrite list_elem_of_fmap. setoid_rewrite list_elem_of_omap.
  intros ([c t'] & -> & ev & Hev & He). destruct ev; simplify_eq. by exists (EvRead c t').
Qed.

(** Every instant of the handshake lies between its start and its end. *)
Lemma times_between t : t ∈ times (events env target opts) →
  env.(versionExchangeStart) ≤ t ≤ env.(finish).
Proof.
  destruct Hclock as (_ & _ & _ & _ & Hs & _). intros Ht.
  apply StronglySorted_cons in Hs as [Hall Hs]. rewrite list.Forall_forall in Hall.
  apply StronglySorted_app in Hs as (Hle & _). split; [|apply Hle; set_solver].
  apply Hall, elem_of_app. by left.
Qed.

Lemma received_between t : (final_watcher env target opts).(received) = Some t →
  env.(versionExchangeStart) ≤ t ≤ env.(finish).
Proof.
  intros Ht. apply times_between, chunk_times. unfold final_watcher in Ht. rewrite reads_new in Ht.
  destruct (completing [] _) as [[l now]|] eqn:Hc; [|done]. simplify_eq/=. by eapply completing_now.
Qed.

(** The instants between the phases: the first connection attempt, the read that
    completed the identification string, and the ready transport, which is the
    last event of a handshake that reaches it. *)
Definition identified_at : option Z := snd <$> completing [] (chunks (events env target opts)).
Definition ready_at : option Z :=
  match list.last (events env target opts) with Some (EvReady now _) => Some now | _ => None end.

(** From one instant to another, for a phase that succeeded. *)
Definition span (succeeded : bool) (from to : option Z) : Z :=
  match succeeded, from, to with true, Some t, Some u => u - t | _, _, _ => 0 end.

Lemma received_identified : (final_watcher env target opts).(received) = identified_at.
Proof.
  unfold final_watcher, identified_at. rewrite reads_new. by destruct (completing [] _) as [[l t]|].
Qed.

(** The key exchange lasts from the identification string to the ready transport. *)
Lemma kex_duration r : reportDial env target = Ok r →
  if reached_ready (events env target opts) then
    ∃ t now, identified_at = Some t ∧ ready_at = Some now ∧ res.(KeyExchangeDuration) = Sub now t
      ∧ t ≤ now ≤ env.(finish)
  else res.(KeyExchangeDuration) = 0.
Proof.
  intros Hr. pose proof (f_equal (λ x, x.1.1.1.1.1.1) (Run_kex env target opts r Hr)) as Hf.
  pose proof (reportDial_kex env target) as Hk. rewrite Hr in Hk.
  apply (f_equal (λ x, x.1.1.1.1.1.1)) in Hk. cbn [kex_fields fst] in Hf, Hk. rewrite Hf.
  destruct (reached_ready (events env target opts)) eqn:Hready; [|by rewrite foldl_no_ready].
  destruct (ready_split env target opts Hclient Hready) as (evs' & now & algs & He & _ & t & Hw & Ht & Hin).
  exists t, now. split; [by rewrite <- received_identified|].
  split; [unfold ready_at; by rewrite He, list.last_snoc|]. split.
  - rewrite He, foldl_snoc. cbn [on_event]. unfold transportReady. rewrite foldl_conn. cbn [conn].
    by rewrite Ht.
  - split; [|apply times_between; rewrite He; unfold times; rewrite omap_app; set_solver].
    destruct Hclock as (_ & _ & _ & _ & Hs & _). rewrite He in Hs. unfold times in Hs.
    rewrite omap_app in Hs. apply StronglySorted_cons in Hs as [_ Hs].
    apply StronglySorted_app in Hs as (_ & Hs & _). apply StronglySorted_app in Hs as (Hle & _).
    apply Hle; [by apply chunk_times|]. cbn. set_solver.
Qed.

Lemma attempt_between t : connect_start env = Some t → env.(dialStart) ≤ t ≤ env.(dialEnd).
Proof.
  destruct Hclock as (_ & _ & Hatt & _). unfold connect_start. intros Ht. rewrite list.Forall_forall in Hatt.
  apply Hatt. destruct (attempts env); simplify_eq/=. apply list_elem_of_here.
Qed.

Lemma clock_order : env.(start) ≤ env.(dialStart) ≤ env.(dialEnd)
  ∧ env.(dialEnd) ≤ env.(versionExchangeStart) ≤ env.(finish) ∧ env.(finish) - env.(start) ≤ max_int64.
Proof.
  destruct Hclock as (H1 & H2 & _ & H3 & Hs & H4). apply StronglySorted_cons in Hs as [Hall _].
  rewrite list.Forall_forall in Hall. split_and!; try done. apply Hall. set_solver.
Qed.

(** Each duration is the span of its phase. *)
Lemma spans :
  res.(DNSLookupDuration) = span res.(DNSLookupSuccess) (Some env.(dialStart)) (connect_start env)
  ∧ res.(TCPConnectDuration) = span res.(TCPConnectSuccess) (connect_start env) (Some env.(dialEnd))
  ∧ res.(VersionExchangeDuration)
    = span res.(VersionExchangeSuccess) (Some env.(versionExchangeStart)) identified_at
  ∧ res.(KeyExchangeDuration) = span res.(KeyExchangeSuccess) identified_at ready_at.
Proof.
  pose proof clock_order as (? & ? & ?). pose proof attempt_between as Hcs.
  destruct (DialContext env target) as [c|e] eqn:Hd.
  - destruct (dial_ok env target c Hd) as [r Hr].
    destruct (reportDial_Ok env target r Hr) as (_ & _ & Hdnss & Hdns & Htcps & Htcp & _).
    destruct (Run_connected env target opts r Hr) as (_&->&->&->&->&->&->&_&->&_).
    rewrite Hdns, Htcp, Hdnss, Htcps, aborted_iff_ready by done.
    pose proof (dial_attempted env target Hdial c Hd) as Ha.
    destruct (connect_start env) as [t0|]; [|done]. specialize (Hcs t0 eq_refl). cbn [default from_option id is_some].
    pose proof (kex_duration r Hr) as Hk. rewrite received_identified.
    assert (∀ t, identified_at = Some t → versionExchangeStart env ≤ t ≤ finish env) as Hid
      by (intros t Ht; apply received_between; by rewrite received_identified).
    split_and!; [destruct (isHostname target); cbn; [apply Sub_ok; lia|done]|apply Sub_ok; lia|..].
    + destruct identified_at as [t|]; [|done]. specialize (Hid t eq_refl). apply Sub_ok; lia.
    + destruct (reached_ready _); [|done]. destruct Hk as (t & now & Ht & -> & -> & Hn).
      specialize (Hid t Ht). rewrite Ht. apply Sub_ok; lia.
  - destruct (Run_dial_failed env target opts e Hd) as (r & Hr & ->).
    destruct (reportDial_Fail env target r e Hr Hd) as (_&Hdnss&Htcp&Hv&Hke&_).
    pose proof (reportDial_kex env target) as Hk. pose proof (reportDial_VersionExchangeDuration env target) as Hvd.
    rewrite Hr in Hk, Hvd. unfold kex_fields in Hk. injection Hk as Hk _.
    assert (r.(TCPConnectDuration) = 0 ∧ r.(DNSLookupDuration)
      = if r.(DNSLookupSuccess) then Sub (default 0 (connect_start env)) env.(dialStart) else 0) as [Ht Hdn].
    { revert Hr. unfold reportDial. rewrite connect_start_spec, Hd.
      destruct (connect_start env) as [t|], (isHostname target); intros [= <-]; done. }
    cbn. rewrite Htcp, Hv, Hke, Hvd, Hk, Ht, Hdn, Hdnss. split_and!; try done.
    destruct (isHostname target); [|done]. destruct (connect_start env) as [t|]; [|done].
    specialize (Hcs t eq_refl). cbn. apply Sub_ok; lia.
Qed.

(** The instants of a phase that succeeded are known, and in order. *)
Lemma spans_known :
  (res.(DNSLookupSuccess) || res.(TCPConnectSuccess) = true → is_some (connect_start env) = true)
  ∧ (res.(VersionExchangeSuccess) = true → is_some identified_at = true)
  ∧ (res.(KeyExchangeSuccess) = true →
     ∃ t now, identified_at = Some t ∧ ready_at = Some now ∧ t ≤ now ≤ env.(finish)).
Proof.
  destruct (DialContext env target) as [c|e] eqn:Hd.
  - destruct (dial_ok env target c Hd) as [r Hr].
    destruct (Run_connected env target opts r Hr) as (_&_&_&_&_&->&_&_&->&_).
    rewrite aborted_iff_ready, received_identified by done. split_and!; [|done|].
    + intros _. by apply (dial_attempted env target Hdial c).
    + pose proof (kex_duration r Hr) as Hk. intros Hready. rewrite Hready in Hk.
      destruct Hk as (t & now & ? & ? & _ & ?). eauto.
  - destruct (Run_dial_failed env target opts e Hd) as (r & Hr & ->).
    destruct (reportDial_Fail env target r e Hr Hd) as (_&Hdnss&Htcp&Hv&Hke&_).
    cbn. rewrite Hdnss, Htcp, Hv, Hke, orb_false_r. split_and!; [|done..].
    by intros [_ ?]%andb_true_iff.
Qed.

(** C15: each duration a probe reports is the time its phase took, and 0 for a
    phase that did not succeed: the lookup until the first connection attempt,
    the connect from there, the version exchange until the read that completes
    the identification string, the key exchange from there until the transport is
    ready; none is negative, and together they do not exceed the duration of the
    probe, the time from its start to its end. *)
Theorem Run_durations :
  res.(DNSLookupDuration) = span res.(DNSLookupSuccess) (Some env.(dialStart)) (connect_start env)
  ∧ res.(TCPConnectDuration) = span res.(TCPConnectSuccess) (connect_start env) (Some env.(dialEnd))
  ∧ res.(VersionExchangeDuration)
    = span res.(VersionExchangeSuccess) (Some env.(versionExchangeStart)) identified_at
  ∧ res.(KeyExchangeDuration) = span res.(KeyExchangeSuccess) identified_at ready_at
  ∧ (res.(DNSLookupSuccess) || res.(TCPConnectSuccess) = true → is_some (connect_start env) = true)
  ∧ (res.(VersionExchangeSuccess) = true → is_some identified_at = true)
  ∧ (res.(KeyExchangeSuccess) = true → is_some ready_at = true)
  ∧ 0 ≤ res.(DNSLookupDuration) ∧ 0 ≤ res.(TCPConnectDuration) ∧ 0 ≤ res.(VersionExchangeDuration)
  ∧ 0 ≤ res.(KeyExchangeDuration)
  ∧ res.(DNSLookupDuration) + res.(TCPConnectDuration) + res.(VersionExchangeDuration)
    + res.(KeyExchangeDuration) ≤ res.(Duration)
  ∧ res.(Duration) = env.(finish) - env.(start).
Proof.
  destruct spans as (Hs1 & Hs2 & Hs3 & Hs4). destruct spans_known as (Hc & Hi & Hr).
  do 6 (split; [done|]). split; [intros Hk; by destruct (Hr Hk) as (t & now & _ & -> & _)|].
  rewrite Hs1, Hs2, Hs3, Hs4. pose proof clock_order as (? & ? & ?).
  assert (res.(Duration) = env.(finish) - env.(start)) as -> by (apply Sub_ok; lia).
  assert (Hid : ∀ t, identified_at = Some t → versionExchangeStart env ≤ t ≤ finish env)
    by (intros t Ht; apply received_between; by rewrite received_identified).
  pose proof attempt_between as Hcs. clear Hs1 Hs2 Hs3 Hs4.
  unfold span. destruct (connect_start env) as [t0|]; [specialize (Hcs t0 eq_refl)|];
    (destruct (KeyExchangeSuccess res) eqn:Hk; [destruct (Hr eq_refl) as (t & now & Ht & Hn & ?);
       rewrite Ht, Hn; specialize (Hid t Ht)|destruct identified_at as [t|]; [specialize (Hid t eq_refl)|]]);
    destruct (DNSLookupSuccess res), (TCPConnectSuccess res), (VersionExchangeSuccess res); split_and!; lia.
Qed.
End RunTimes.

(** ** One probe, run *)

Definition demo_ssh_names : SSHNames := {|
  ssh_key_names := demo_names;
  KeyExchangeMLKEM768X25519 := "mlkem768x25519-sha256"; KeyExchangeCurve25519 := "curve25519-sha256";
  KeyExchangeECDHP256 := "ecdh-sha2-nistp256"; KeyExchangeECDHP384 := "ecdh-sha2-nistp384";
  KeyExchangeECDHP521 := "ecdh-sha2-nistp521";
  KeyExchangeDHGEXSHA256 := "diffie-hellman-group-exchange-sha256";
  KeyExchangeDH16SHA512 := "diffie-hellman-group16-sha512";
  KeyExchangeDH14SHA256 := "diffie-hellman-group14-sha256";
  CertAlgoED25519v01 := "ssh-ed25519-cert-v01@openssh.com";
  CertAlgoECDSA256v01 := "ecdsa-sha2-nistp256-cert-v01@openssh.com";
  CertAlgoECDSA384v01 := "ecdsa-sha2-nistp384-cert-v01@openssh.com";
  CertAlgoECDSA521v01 := "ecdsa-sha2-nistp521-cert-v01@openssh.com";
  CertAlgoRSASHA512v01 := "rsa-sha2-512-cert-v01@openssh.com";
  CertAlgoRSASHA256v01 := "rsa-sha2-256-cert-v01@openssh.com";
  CipherChaCha20Poly1305 := "chacha20-poly1305@openssh.com"; CipherAES128GCM := "aes128-gcm@openssh.com";
  CipherAES256GCM := "aes256-gcm@openssh.com"; CipherAES128CTR := "aes128-ctr";
  CipherAES192CTR := "aes192-ctr"; CipherAES256CTR := "aes256-ctr";
  HMACSHA256ETM := "hmac-sha2-256-etm@openssh.com"; HMACSHA512ETM := "hmac-sha2-512-etm@openssh.com";
  HMACSHA256 := "hmac-sha2-256"; HMACSHA512 := "hmac-sha2-512"; HMACSHA1 := "hmac-sha1" |}.

Section Demo.
#[local] Existing Instance demo_ssh_names.

Definition demo_algs : Algorithms := {|
  alg_KeyExchange := KeyExchangeCurve25519; alg_HostKey := KeyAlgoED25519;
  alg_Write_Cipher := CipherAES128GCM; alg_Write_MAC := [];
  alg_Read_Cipher := CipherAES128GCM; alg_Read_MAC := [] |}.

(** An OpenSSH server behind a banner, with the key given. *)
Definition demo_handshake (key : PublicKey) : handshake :=
  HsRead ("hello" ++ [LF] ++ "SSH-2.0-Open") 30 (HsRead ("SSH_10.0 demo" ++ [CR; LF]) 35
    (HsHostKey "h:22" "192.0.2.1:22" key (λ _,
      HsReady 60 demo_algs (λ e,
        HsReturn (Some (Errorf "ssh: handshake failed" (option_list e))))))).

Definition demo_env (key : PublicKey) : Env := {|
  start := 1; dialStart := 2; attempts := [5; 6]; DialContext := λ _, Ok (Some (Ok 1448));
  dialEnd := 15; ctx_Err_dial := None; versionExchangeStart := 16;
  ssh_NewClientConn := λ _ _, demo_handshake key; ctx_Err_kex := None; finish := 70 |}.

Definition demo_opts (cb : option HostKeyCallback) : Options := {|
  opt_HostKeyCallback := cb; opt_Ciphers := []; opt_KeyExchanges := []; opt_MACs := [];
  opt_HostKeyAlgorithms := []; opt_StripServerIdentificationComments := true |}.

Definition known : option HostKeyCallback := Some (kh_callback demo_hosts).

Example demo_run_ok :
  let r := Run (demo_env (PlainKey "ca")) "h:22" (demo_opts known) in
  (r.(Success), r.(DNSLookupDuration), r.(TCPConnectDuration), r.(VersionExchangeDuration),
   r.(KeyExchangeDuration), r.(Duration), r.(ServerIdentification).(id_String))
  = (true, 3, 10, 19, 25, 69, ("SSH-2.0-OpenSSH_10.0" : gostring)).
Proof. vm_compute. reflexivity. Qed.

Example demo_run_revoked :
  let r := Run (demo_env (PlainKey "stolen")) "h:22" (demo_opts known) in
  (r.(Success), r.(KeyExchangeSuccess), r.(ErrorPhase), r.(ErrorReason))
  = (false, true, ErrPhaseKeyExchange, ErrReasonServerHostKeyRevoked).
Proof. vm_compute. reflexivity. Qed.

Lemma demo_client key opts : client_contract [] false (handshakeOf (demo_env key) "h:22" opts).
Proof.
  unfold handshakeOf. cbn [ssh_NewClientConn demo_env demo_handshake].
  apply cc_read, cc_read, cc_host_key, cc_ready; try (by vm_compute).
  intros e. eexists. split; [done|]. intros [k es] Hk.
  apply errors_Is_spec. apply errors_Is_spec in Hk. cbn. rewrite app_nil_r. by right.
Qed.

Lemma demo_dial key : dial_contract (demo_env key) "h:22".
Proof. by intros _. Qed.

Lemma demo_clock key opts : clock_contract (demo_env key) "h:22" opts.
Proof.
  assert (times (events (demo_env key) "h:22" opts) = [30; 35; 60]) as Ht by reflexivity.
  unfold clock_contract. rewrite Ht. unfold max_int64. cbn [start dialStart dialEnd attempts versionExchangeStart finish demo_env].
  split_and!; try lia; repeat constructor; lia.
Qed.

Lemma Run_error_documented_witness :
  let res := Run (demo_env (PlainKey "stolen")) "h:22" (demo_opts known) in
  res.(ErrorPhase) = ErrPhaseKeyExchange ∧ res.(ErrorReason) ≠ ErrReasonUserAuthReached.
Proof.
  split; [vm_compute; reflexivity|].
  refine (proj2 (Run_error_documented (demo_env (PlainKey "stolen")) "h:22" (demo_opts known) (demo_client _ _) _ _)).
  - intros err Hd. discriminate Hd.
  - intros err what _ _. vm_compute. discriminate.
Defined.

Lemma Run_success_iff_witness :
  (Run (demo_env (PlainKey "ca")) "h:22" (demo_opts known)).(Success) = true.
Proof.
  apply (proj1 (Run_success_iff (demo_env (PlainKey "ca")) "h:22" (demo_opts known) (demo_client _ _))).
  split; [by eexists|]. split; [vm_compute; reflexivity|].
  exists "h:22", "192.0.2.1:22", (PlainKey "ca"). split; vm_compute; reflexivity.
Defined.

Lemma Run_phases_in_order_witness :
  let r := Run (demo_env (PlainKey "stolen")) "h:22" (demo_opts known) in
  r.(ErrorPhase) = first_failed r ∧ first_failed r = ErrPhaseKeyExchange.
Proof.
  split; [|vm_compute; reflexivity].
  destruct (Run_phases_in_order (demo_env (PlainKey "stolen")) "h:22" (demo_opts known) (demo_client _ _) (demo_dial _))
    as (_ & _ & _ & _ & H). exact H.
Defined.

Lemma Run_reports_verdict_witness :
  (Run (demo_env (PlainKey "stolen")) "h:22" (demo_opts known)).(ErrorReason) = ErrReasonServerHostKeyRevoked.
Proof.
  apply (Run_reports_verdict (demo_env (PlainKey "stolen")) "h:22" (demo_opts known) demo_hosts
    (kh_callback demo_hosts) "h:22" "192.0.2.1:22" (PlainKey "stolen") (Some (Ok 1448))
    eq_refl eq_refl (kh_callback_ok _ _ _) eq_refl eq_refl).
Defined.

Lemma Run_without_callback_fails_witness :
  (Run (demo_env (PlainKey "ca")) "h:22" (demo_opts None)).(ErrorReason) = ErrReasonServerHostKeyRejected.
Proof.
  apply (Run_without_callback_fails (demo_env (PlainKey "ca")) "h:22" (demo_opts None) (Some (Ok 1448))
    "h:22" "192.0.2.1:22" "ca" eq_refl eq_refl eq_refl).
Defined.

Lemma Run_identification_of_stream_witness :
  (Run (demo_env (PlainKey "ca")) "h:22" (demo_opts known)).(VersionExchangeSuccess) = true.
Proof.
  pose proof (Run_identification_of_stream (demo_env (PlainKey "ca")) "h:22" (demo_opts known) (Some (Ok 1448)) eq_refl) as H.
  cbv zeta in H.
  assert (ssh_line (stream (chunks (events (demo_env (PlainKey "ca")) "h:22" (demo_opts known))))
          = Some ("SSH-2.0-OpenSSH_10.0 demo" ++ [CR])) as E by (vm_compute; reflexivity).
  rewrite E in H. exact (proj1 H).
Defined.

Lemma Run_algorithms_witness :
  let res := Run (demo_env (PlainKey "ca")) "h:22" (demo_opts known) in
  ∃ now algs, list.last (events (demo_env (PlainKey "ca")) "h:22" (demo_opts known)) = Some (EvReady now algs)
    ∧ res.(KEXAlgorithm) = algs.(alg_KeyExchange).
Proof.
  pose proof (Run_algorithms (demo_env (PlainKey "ca")) "h:22" (demo_opts known) (demo_client _ _)) as H.
  cbv zeta in H |- *.
  assert (KeyExchangeSuccess (Run (demo_env (PlainKey "ca")) "h:22" (demo_opts known)) = true) as E
    by (vm_compute; reflexivity).
  rewrite E in H. destruct H as (now & algs & H1 & H2 & _). exists now, algs. exact (conj H1 H2).
Defined.

Lemma Run_durations_witness :
  0 ≤ (Run (demo_env (PlainKey "ca")) "h:22" (demo_opts known)).(KeyExchangeDuration).
Proof.
  destruct (Run_durations (demo_env (PlainKey "ca")) "h:22" (demo_opts known) (demo_client _ _) (demo_dial _) (demo_clock _ _))
    as (_ & _ & _ & _ & _ & _ & _ & _ & _ & _ & H & _). exact H.
Defined.
End Demo.
