(* ===== verification/ProbeFailure.v ===== *)
(** * internal/probe/probe.go: why a failed probe failed

    Which error [Run] reports, as a function of where the probe stopped, and the
    precedence of the causes: a refused host key, the probe's own context, the
    error that came back. *)

From S2P Require Import Prelude GoStrings GoErrors HostKey Identification Probe ProbeRun.
Open Scope Z_scope.

Section Failure.
Context {N : SSHNames} (env : Env) (target : gostring) (opts : Options).
Context (Hclient : client_contract [] false (handshakeOf env target opts)).

Abbreviation res := (Run env target opts).

(** Where the probe stopped, seen from outside: whether a connection was
    attempted and made, and whether the server identified itself. *)
Definition stopped_in : gostring :=
  match env.(DialContext) target with
  | Fail _ => if isHostname target && negb (is_some (connect_start env)) then ErrPhaseDNSLookup else ErrPhaseTCPConnect
  | Ok _ => match ssh_line (stream (chunks (events env target opts))) with
            | None => ErrPhaseVersionExchange
            | Some _ => ErrPhaseKeyExchange
            end
  end.

(** [ctx.Err()] at the moment the error that ended the probe is classified. *)
Definition context_then : option goerror :=
  match env.(DialContext) target with Fail _ => env.(ctx_Err_dial) | Ok _ => env.(ctx_Err_kex) end.

(** The host key was checked and refused. *)
Definition key_refused : bool :=
  match env.(DialContext) target, key_outcome env target opts with
  | Ok _, Some hk => negb hk.(verified)
  | _, _ => false
  end.

(** The error that ended the probe, classified for its stage. *)
Definition cause_reason : gostring :=
  match env.(DialContext) target, handshakeErr env target opts with
  | Fail err, _ => classifyDialError env.(ctx_Err_dial) err
  | Ok _, Some err => classifyKexError env.(ctx_Err_kex) err
  | Ok _, None => ErrReasonUserAuthReached
  end.

Lemma received_ssh_line :
  is_some (final_watcher env target opts).(received)
  = is_some (ssh_line (stream (chunks (events env target opts)))).
Proof.
  pose proof (received_iff env target opts) as H. apply eq_true_iff_eq. rewrite H.
  by destruct (ssh_line _).
Qed.

(** A probe that failed without a refused host key reports the phase it stopped
    in and the class of the error that stopped it. *)
Lemma Run_failure :
  res.(Success) = false → key_refused = false →
  res.(ErrorPhase) = stopped_in ∧ res.(ErrorReason) = cause_reason.
Proof.
  intros Hs Hk. unfold stopped_in, cause_reason, key_refused in *.
  destruct (DialContext env target) as [c|e] eqn:Hd.
  - destruct (dial_ok env target c Hd) as [r Hr].
    pose proof (proj1 (Run_no_error env target opts Hclient)) as Hne.
    destruct (Run_connected env target opts r Hr) as (_&_&_&_&_&_&_&_&_&_&Hp&->&_).
    rewrite Hp in Hne |- *. rewrite Hs in Hne.
    destruct (kex_error_contract env target opts Hclient) as (e & He & Hkex).
    unfold final_error in *. rewrite He.
    assert (Hend : (kex_error env target opts).1 ≠ [] →
      (kex_error env target opts).1 = match ssh_line (stream (chunks (events env target opts))) with
                                      | Some _ => ErrPhaseKeyExchange | None => ErrPhaseVersionExchange end
      ∧ (kex_error env target opts).2 = classifyKexError env.(ctx_Err_kex) e).
    { rewrite Hkex, received_ssh_line. destruct (reached_ready _); [done|]. by destruct (ssh_line _). }
    destruct (key_outcome env target opts) as [hk|]; [destruct (verified hk); [|done]|];
      apply Hend; intros Hnil; by apply Hne in Hnil.
  - destruct (Run_dial_failed env target opts e Hd) as (r & Hr & ->).
    destruct (reportDial_Fail env target r e Hr Hd) as (_&_&_&_&_&_&_&Hp&Hre&_). cbn. by rewrite Hp, Hre.
Qed.

Lemma cause_reason_context :
  classifyContextError context_then ≠ [] → handshakeErr env target opts ≠ None →
  cause_reason = classifyContextError context_then.
Proof.
  unfold cause_reason, context_then, classifyDialError, classifyKexError.
  intros Hc He. destruct (DialContext env target); [destruct (handshakeErr env target opts); [|done]|];
    by rewrite bool_decide_eq_false_2.
Qed.

(** C14: a probe stopped by its own context is not reported as the connection
    error this caused: once the context has ended, by its deadline or by
    cancellation, a failed probe reports just that, in the phase it had
    reached, unless the host key had been refused before. *)
Theorem Run_reports_context :
  classifyContextError context_then ≠ [] → res.(Success) = false → key_refused = false →
  res.(ErrorPhase) = stopped_in ∧ res.(ErrorReason) = classifyContextError context_then.
Proof.
  intros Hc Hs Hk. destruct (Run_failure Hs Hk) as [-> ->]. split; [done|].
  apply cause_reason_context; [done|]. by destruct (kex_error_contract env target opts Hclient) as (e & -> & _).
Qed.
End Failure.

(** ** A server that never speaks *)

Section FailureDemo.
#[local] Existing Instance demo_ssh_names.

(** The deadline closes the connection, which fails the client's read. *)
Definition silent_env : Env := {|
  start := 0; dialStart := 1; attempts := [2]; DialContext := λ _, Ok (Some (Ok 1448)); dialEnd := 3;
  ctx_Err_dial := None; versionExchangeStart := 4;
  ssh_NewClientConn := λ _ _, HsReturn (Some (Errorf "ssh: handshake failed" [net_ErrClosed]));
  ctx_Err_kex := Some context_DeadlineExceeded; finish := 100 |}.

Lemma silent_client opts : client_contract [] false (handshakeOf silent_env "192.0.2.1:22" opts).
Proof. by apply cc_return. Qed.

Lemma Run_reports_context_witness :
  (Run silent_env "192.0.2.1:22" (demo_opts known)).(ErrorPhase) = ErrPhaseVersionExchange
  ∧ (Run silent_env "192.0.2.1:22" (demo_opts known)).(ErrorReason) = ErrReasonTimeout.
Proof.
  refine (Run_reports_context silent_env "192.0.2.1:22" (demo_opts known) (silent_client _) _ _ _);
    [discriminate|vm_compute; reflexivity|reflexivity].
Defined.
End FailureDemo.
