(* ===== verification/Collector.v ===== *)
(** * internal/collector/collector.go: from a probe's result to metrics

    [Describe] lists the descriptors, [Collect] runs the probe and sends its
    metrics.  A metric is what [MustNewConstMetric] is called with; that function
    panics unless the label values are as many as the descriptor's labels and
    valid UTF-8, and the registry refuses a scrape with a metric that was not
    described or that occurs twice: the theorems exclude all of it. *)

From S2P Require Import Prelude GoStrings GoFloat GoErrors HostKey Identification Probe ProbeRun.
From coqutil Require Import Datatypes.RecordSettersUsingExistingGetters.
Open Scope Z_scope.

(** ** Descriptors *)

(** [prometheus.BuildFQName], as documented: the components are joined by an
    underscore and an empty one is skipped. *)
Class PrometheusNames := BuildFQName : gostring → gostring → gostring → gostring.
Class PrometheusLaws `{PrometheusNames} : Prop := {
  BuildFQName_full ns sub name : ns ≠ [] → sub ≠ [] → name ≠ [] →
    BuildFQName ns sub name = ns ++ "_" ++ sub ++ "_" ++ name;
  BuildFQName_no_subsystem ns name : ns ≠ [] → name ≠ [] →
    BuildFQName ns [] name = ns ++ "_" ++ name
}.

Inductive ValueType := GaugeValue.

Record Desc := NewDesc { fqName : gostring; variableLabels : list gostring }.
Record typedDesc := mkTypedDesc { desc : Desc; valueType : ValueType }.

Record Metric := mkMetric {
  m_desc : Desc; m_type : ValueType; m_value : float64; m_labels : list gostring
}.

Definition mustNewConstMetric (td : typedDesc) (value : float64) (labelValues : list gostring) : Metric :=
  mkMetric td.(desc) td.(valueType) value labelValues.

Definition boolToFloat64 (b : bool) : float64 := if b then Fin (f64_of_int 1) else Fin (f64_of_int 0).

Definition namespace : gostring := "ssh_transport".
Definition subSystemDNS : gostring := "dns_lookup".
Definition subSystemTCP : gostring := "tcp".
Definition subSystemTCPConnect : gostring := "tcp_connect".
Definition subSystemServerIdent : gostring := "server_identification".
Definition subSystemVersionExchange : gostring := "version_exchange".
Definition subSystemKEX : gostring := "kex".
Definition subSystemKeyExchange : gostring := "key_exchange".
Definition subSystemServerHostKey : gostring := "server_host_key".
Definition subSystemEncryption : gostring := "encryption".
Definition subSystemMAC : gostring := "mac".
Definition subSystemError : gostring := "error".

Section Collector.
Context {P : PrometheusNames}.

Definition gauge (subsystem name : gostring) (labels : list gostring) : typedDesc :=
  mkTypedDesc (NewDesc (BuildFQName namespace subsystem name) labels) GaugeValue.

Definition dnsLookupSuccessDesc := gauge subSystemDNS "success" [].
Definition dnsLookupDurationDesc := gauge subSystemDNS "duration_seconds" [].
Definition tcpConnectSuccessDesc := gauge subSystemTCPConnect "success" [].
Definition tcpConnectDurationDesc := gauge subSystemTCPConnect "duration_seconds" [].
Definition tcpMSSDesc := gauge subSystemTCP "mss_bytes" [].
Definition serverIdentificationInfoDesc :=
  gauge subSystemServerIdent "info"
    [("identification_string" : gostring); ("protoversion" : gostring);
     ("softwareversion" : gostring); ("comments" : gostring)].
Definition serverIdentificationRFCConformantDesc := gauge subSystemServerIdent "rfc_conformant" [].
Definition versionExchangeSuccessDesc := gauge subSystemVersionExchange "success" [].
Definition versionExchangeDurationDesc := gauge subSystemVersionExchange "duration_seconds" [].
Definition kexAlgorithmInfoDesc := gauge subSystemKEX "algorithm_info" [("algorithm" : gostring)].
Definition serverHostKeyAlgorithmInfoDesc :=
  gauge subSystemServerHostKey "algorithm_info" [("algorithm" : gostring)].
Definition encryptionAlgorithmInfoDesc :=
  gauge subSystemEncryption "algorithm_info" [("direction" : gostring); ("algorithm" : gostring)].
Definition macAlgorithmInfoDesc :=
  gauge subSystemMAC "algorithm_info" [("direction" : gostring); ("algorithm" : gostring)].
Definition serverHostKeyVerifySuccessDesc := gauge subSystemServerHostKey "verify_success" [].
Definition keyExchangeSuccessDesc := gauge subSystemKeyExchange "success" [].
Definition keyExchangeDurationDesc := gauge subSystemKeyExchange "duration_seconds" [].
Definition errorInfoDesc := gauge subSystemError "info" [("phase" : gostring); ("reason" : gostring)].
Definition durationDesc := gauge [] "duration_seconds" [].
Definition successDesc := gauge [] "success" [].

(** The descriptors in the order they are sent. *)
Definition Describe : list Desc := map desc
  [dnsLookupSuccessDesc; dnsLookupDurationDesc; tcpConnectSuccessDesc; tcpConnectDurationDesc;
   tcpMSSDesc; serverIdentificationInfoDesc; serverIdentificationRFCConformantDesc;
   versionExchangeSuccessDesc; versionExchangeDurationDesc; kexAlgorithmInfoDesc;
   serverHostKeyAlgorithmInfoDesc; encryptionAlgorithmInfoDesc; macAlgorithmInfoDesc;
   serverHostKeyVerifySuccessDesc; keyExchangeSuccessDesc; keyExchangeDurationDesc;
   errorInfoDesc; durationDesc; successDesc].

(** Sending one metric, when a condition of the code holds. *)
Definition send (b : bool) (m : Metric) : list Metric := if b then [m] else [].

Definition nonempty (s : gostring) : bool := negb (bool_decide (s = [])).

Definition seconds (d : Z) : float64 := Fin (Seconds d).
Definition one : float64 := Fin (f64_of_int 1).

(** Lines 289-352: the metrics of a result, in the order they are sent. *)
Definition metrics (r : Result) : list Metric :=
  (if r.(DNSLookup) then
     send true (mustNewConstMetric dnsLookupSuccessDesc (boolToFloat64 r.(DNSLookupSuccess)) [])
     ++ send r.(DNSLookupSuccess) (mustNewConstMetric dnsLookupDurationDesc (seconds r.(DNSLookupDuration)) [])
   else [])
  ++ send true (mustNewConstMetric tcpConnectSuccessDesc (boolToFloat64 r.(TCPConnectSuccess)) [])
  ++ (if r.(TCPConnectSuccess) then
        send true (mustNewConstMetric tcpConnectDurationDesc (seconds r.(TCPConnectDuration)) [])
        ++ send (0 <? r.(TCPMSS)) (mustNewConstMetric tcpMSSDesc (Fin (f64_of_int r.(TCPMSS))) [])
      else [])
  ++ (let id := r.(ServerIdentification) in
      if r.(VersionExchangeSuccess) then
        send (nonempty id.(id_String))
          (mustNewConstMetric serverIdentificationInfoDesc one
             [id.(id_String); id.(ProtoVersion); id.(SoftwareVersion); id.(Comments)])
        ++ send true (mustNewConstMetric serverIdentificationRFCConformantDesc (boolToFloat64 id.(RFCConformant)) [])
      else [])
  ++ send true (mustNewConstMetric versionExchangeSuccessDesc (boolToFloat64 r.(VersionExchangeSuccess)) [])
  ++ send r.(VersionExchangeSuccess)
       (mustNewConstMetric versionExchangeDurationDesc (seconds r.(VersionExchangeDuration)) [])
  ++ send (r.(KeyExchangeSuccess) && nonempty r.(KEXAlgorithm))
       (mustNewConstMetric kexAlgorithmInfoDesc one [r.(KEXAlgorithm)])
  ++ send (nonempty r.(ServerHostKeyAlgorithm))
       (mustNewConstMetric serverHostKeyAlgorithmInfoDesc one [r.(ServerHostKeyAlgorithm)])
  ++ send (nonempty r.(EncryptionClientToServer))
       (mustNewConstMetric encryptionAlgorithmInfoDesc one
          [("client_to_server" : gostring); r.(EncryptionClientToServer)])
  ++ send (nonempty r.(EncryptionServerToClient))
       (mustNewConstMetric encryptionAlgorithmInfoDesc one
          [("server_to_client" : gostring); r.(EncryptionServerToClient)])
  ++ send (nonempty r.(MACClientToServer))
       (mustNewConstMetric macAlgorithmInfoDesc one
          [("client_to_server" : gostring); r.(MACClientToServer)])
  ++ send (nonempty r.(MACServerToClient))
       (mustNewConstMetric macAlgorithmInfoDesc one
          [("server_to_client" : gostring); r.(MACServerToClient)])
  ++ send true (mustNewConstMetric serverHostKeyVerifySuccessDesc (boolToFloat64 r.(ServerHostKeyVerifySuccess)) [])
  ++ send true (mustNewConstMetric keyExchangeSuccessDesc (boolToFloat64 r.(KeyExchangeSuccess)) [])
  ++ send r.(KeyExchangeSuccess)
       (mustNewConstMetric keyExchangeDurationDesc (seconds r.(KeyExchangeDuration)) [])
  ++ send (nonempty r.(ErrorPhase))
       (mustNewConstMetric errorInfoDesc one [r.(ErrorPhase); r.(ErrorReason)])
  ++ send true (mustNewConstMetric durationDesc (seconds r.(Duration)) [])
  ++ send true (mustNewConstMetric successDesc (boolToFloat64 r.(Success)) []).

(** A collector for one target and module; [run] is [probe.Run] in its context. *)
Record SSHCollector := New {
  c_target : gostring;
  c_opts : Options;
  c_run : gostring → Options → Result
}.

Definition Collect (c : SSHCollector) : list Metric := metrics (c.(c_run) c.(c_target) c.(c_opts)).
End Collector.

(** ** What the registry accepts *)

(** Unfolds the descriptors' names to the documented strings. *)
Ltac names := cbv beta iota zeta delta [m_desc m_labels mustNewConstMetric desc fqName gauge fst snd map
    dnsLookupSuccessDesc dnsLookupDurationDesc tcpConnectSuccessDesc tcpConnectDurationDesc tcpMSSDesc
    serverIdentificationInfoDesc serverIdentificationRFCConformantDesc versionExchangeSuccessDesc
    versionExchangeDurationDesc kexAlgorithmInfoDesc serverHostKeyAlgorithmInfoDesc
    encryptionAlgorithmInfoDesc macAlgorithmInfoDesc serverHostKeyVerifySuccessDesc
    keyExchangeSuccessDesc keyExchangeDurationDesc errorInfoDesc durationDesc successDesc];
  rewrite !BuildFQName_no_subsystem, !BuildFQName_full by done.

Section Registry.
Context `{PrometheusLaws}.

(** Every metric there is, whatever the result says about sending it. *)
Definition all_metrics (r : Result) : list Metric :=
  let id := r.(ServerIdentification) in
  [mustNewConstMetric dnsLookupSuccessDesc (boolToFloat64 r.(DNSLookupSuccess)) [];
   mustNewConstMetric dnsLookupDurationDesc (seconds r.(DNSLookupDuration)) [];
   mustNewConstMetric tcpConnectSuccessDesc (boolToFloat64 r.(TCPConnectSuccess)) [];
   mustNewConstMetric tcpConnectDurationDesc (seconds r.(TCPConnectDuration)) [];
   mustNewConstMetric tcpMSSDesc (Fin (f64_of_int r.(TCPMSS))) [];
   mustNewConstMetric serverIdentificationInfoDesc one
     [id.(id_String); id.(ProtoVersion); id.(SoftwareVersion); id.(Comments)];
   mustNewConstMetric serverIdentificationRFCConformantDesc (boolToFloat64 id.(RFCConformant)) [];
   mustNewConstMetric versionExchangeSuccessDesc (boolToFloat64 r.(VersionExchangeSuccess)) [];
   mustNewConstMetric versionExchangeDurationDesc (seconds r.(VersionExchangeDuration)) [];
   mustNewConstMetric kexAlgorithmInfoDesc one [r.(KEXAlgorithm)];
   mustNewConstMetric serverHostKeyAlgorithmInfoDesc one [r.(ServerHostKeyAlgorithm)];
   mustNewConstMetric encryptionAlgorithmInfoDesc one
     [("client_to_server" : gostring); r.(EncryptionClientToServer)];
   mustNewConstMetric encryptionAlgorithmInfoDesc one
     [("server_to_client" : gostring); r.(EncryptionServerToClient)];
   mustNewConstMetric macAlgorithmInfoDesc one [("client_to_server" : gostring); r.(MACClientToServer)];
   mustNewConstMetric macAlgorithmInfoDesc one [("server_to_client" : gostring); r.(MACServerToClient)];
   mustNewConstMetric serverHostKeyVerifySuccessDesc (boolToFloat64 r.(ServerHostKeyVerifySuccess)) [];
   mustNewConstMetric keyExchangeSuccessDesc (boolToFloat64 r.(KeyExchangeSuccess)) [];
   mustNewConstMetric keyExchangeDurationDesc (seconds r.(KeyExchangeDuration)) [];
   mustNewConstMetric errorInfoDesc one [r.(ErrorPhase); r.(ErrorReason)];
   mustNewConstMetric durationDesc (seconds r.(Duration)) [];
   mustNewConstMetric successDesc (boolToFloat64 r.(Success)) []].

Lemma send_sublist b m l k : sublist l k → sublist (send b m ++ l) (m :: k).
Proof. destruct b; cbn; [by apply sublist_skip|by apply sublist_cons]. Qed.

Lemma metrics_sublist r : sublist (metrics r) (all_metrics r).
Proof.
  unfold metrics, all_metrics. cbv zeta.
  destruct (DNSLookup r); rewrite <- ?app_assoc;
    [do 2 apply send_sublist|do 2 apply sublist_cons; rewrite app_nil_l];
  apply send_sublist; (destruct (TCPConnectSuccess r); rewrite <- ?app_assoc;
    [do 2 apply send_sublist|do 2 apply sublist_cons; rewrite app_nil_l]);
  (destruct (VersionExchangeSuccess r); rewrite <- ?app_assoc;
    [do 2 apply send_sublist|do 2 apply sublist_cons; rewrite app_nil_l]);
  do 13 apply send_sublist; rewrite <- (app_nil_r (send true _)); apply send_sublist, sublist_nil.
Qed.

(** What the registry identifies a metric by. *)
Definition metric_id (m : Metric) : gostring * list gostring := (m.(m_desc).(fqName), m.(m_labels)).

(** The part of it that does not vary: the name, and the direction. *)
Definition fixed_id (k : gostring * list gostring) : gostring * option gostring :=
  (k.1, if bool_decide (k.1 = encryptionAlgorithmInfoDesc.(desc).(fqName))
           || bool_decide (k.1 = macAlgorithmInfoDesc.(desc).(fqName)) then head k.2 else None).

Lemma all_metrics_keys r : NoDup (map fixed_id (map metric_id (all_metrics r))).
Proof.
  unfold all_metrics. cbv zeta. cbn [map]. unfold metric_id, fixed_id. names.
  apply (bool_decide_eq_true_1 _). vm_compute. reflexivity.
Qed.

Lemma all_metrics_described r :
  Forall (λ m, m.(m_desc) ∈ Describe ∧ length m.(m_labels) = length m.(m_desc).(variableLabels))
    (all_metrics r).
Proof.
  unfold all_metrics. cbv zeta. unfold Describe. cbn [map].
  repeat (apply list.Forall_cons; split;
    [split; [cbn [m_desc mustNewConstMetric]; repeat first [apply list_elem_of_here|apply list_elem_of_further]|reflexivity]|]).
  apply list.Forall_nil_2.
Qed.

Lemma Describe_names : NoDup (map fqName Describe).
Proof. unfold Describe. names. apply (bool_decide_eq_true_1 _). vm_compute. reflexivity. Qed.

(** What the registry checks of a scrape, for any result. *)
Lemma metrics_consistent r :
  Forall (λ m, m.(m_desc) ∈ Describe ∧ length m.(m_labels) = length m.(m_desc).(variableLabels)) (metrics r)
  ∧ NoDup (map metric_id (metrics r)).
Proof.
  pose proof (metrics_sublist r) as Hs. split.
  - pose proof (all_metrics_described r) as Hd. rewrite list.Forall_forall in Hd |- *.
    intros m Hm. eapply Hd, elem_of_sublist; done.
  - apply (sublist_NoDup _ (map metric_id (all_metrics r))).
    + apply (NoDup_fmap_1 fixed_id), all_metrics_keys.
    + by apply sublist_map.
Qed.

(** No scrape is refused: whatever a probe reports, every metric sent was
    described, has as many label values as its descriptor has labels, and no
    two metrics share a name and their label values; the descriptors have
    distinct names. *)
Theorem Collect_consistent (c : SSHCollector) :
  Forall (λ m, m.(m_desc) ∈ Describe ∧ length m.(m_labels) = length m.(m_desc).(variableLabels)) (Collect c)
  ∧ NoDup (map metric_id (Collect c)) ∧ NoDup (map fqName Describe).
Proof.
  destruct (metrics_consistent (c.(c_run) c.(c_target) c.(c_opts))) as [Hd Hn].
  split_and!; [exact Hd|exact Hn|apply Describe_names].
Qed.
End Registry.

(** ** When each metric is sent *)

Section Presence.
Context `{PrometheusLaws}.

(** Whether a metric of this descriptor is among those sent. *)
Definition sends (ms : list Metric) (td : typedDesc) : bool :=
  existsb (λ m, bool_decide (m.(m_desc).(fqName) = td.(desc).(fqName))) ms.

Lemma sends_send b m td :
  sends (send b m) td = b && bool_decide (m.(m_desc).(fqName) = td.(desc).(fqName)).
Proof. unfold sends. destruct b; cbn; [by rewrite orb_false_r|done]. Qed.

Lemma sends_app l k td : sends (l ++ k) td = sends l td || sends k td.
Proof. apply existsb_app. Qed.

Lemma sends_if (b : bool) l td : sends (if b then l else []) td = b && sends l td.
Proof. by destruct b. Qed.

(** The condition of each metric, in the order of [metrics]. *)
Definition conditions (r : Result) : list (bool * typedDesc) :=
  [(r.(DNSLookup), dnsLookupSuccessDesc);
   (r.(DNSLookup) && r.(DNSLookupSuccess), dnsLookupDurationDesc);
   (true, tcpConnectSuccessDesc); (r.(TCPConnectSuccess), tcpConnectDurationDesc);
   (r.(TCPConnectSuccess) && (0 <? r.(TCPMSS)), tcpMSSDesc);
   (r.(VersionExchangeSuccess) && nonempty r.(ServerIdentification).(id_String), serverIdentificationInfoDesc);
   (r.(VersionExchangeSuccess), serverIdentificationRFCConformantDesc);
   (true, versionExchangeSuccessDesc); (r.(VersionExchangeSuccess), versionExchangeDurationDesc);
   (r.(KeyExchangeSuccess) && nonempty r.(KEXAlgorithm), kexAlgorithmInfoDesc);
   (nonempty r.(ServerHostKeyAlgorithm), serverHostKeyAlgorithmInfoDesc);
   (nonempty r.(EncryptionClientToServer), encryptionAlgorithmInfoDesc);
   (nonempty r.(EncryptionServerToClient), encryptionAlgorithmInfoDesc);
   (nonempty r.(MACClientToServer), macAlgorithmInfoDesc);
   (nonempty r.(MACServerToClient), macAlgorithmInfoDesc);
   (true, serverHostKeyVerifySuccessDesc); (true, keyExchangeSuccessDesc);
   (r.(KeyExchangeSuccess), keyExchangeDurationDesc); (nonempty r.(ErrorPhase), errorInfoDesc);
   (true, durationDesc); (true, successDesc)].

Definition same_name (td td' : typedDesc) : bool :=
  bool_decide (td.(desc).(fqName) = td'.(desc).(fqName)).

Lemma sends_conditions r td :
  sends (metrics r) td = existsb (λ '(b, td'), b && same_name td' td) (conditions r).
Proof.
  unfold metrics, conditions. cbv zeta. rewrite !sends_app, !sends_if, !sends_app, !sends_send.
  cbn [existsb]. unfold same_name. cbn [mustNewConstMetric m_desc].
  rewrite !andb_true_l, orb_false_r, !andb_orb_distrib_r, !andb_assoc, ?andb_true_r, !orb_assoc. done.
Qed.

Lemma sends_eval r td b :
  existsb (λ '(b, td'), b && same_name td' td) (conditions r) = b → sends (metrics r) td = b.
Proof. by rewrite sends_conditions. Qed.
End Presence.

(** Evaluates whether a metric is sent from the conditions of all metrics. *)
Ltac eval_sends :=
  apply sends_eval; unfold conditions, same_name; names; cbn [existsb];
  repeat match goal with
  | |- context [bool_decide (?x = ?y)] =>
      let v := eval vm_compute in (bool_decide (x = y)) in change (bool_decide (x = y)) with v
  end;
  cbn [andb orb]; rewrite ?andb_false_r, ?andb_true_r; cbn [orb]; rewrite ?orb_false_r, ?orb_true_r; reflexivity.

Section PresenceTable.
Context `{PrometheusLaws}.

(** C23: each metric is sent exactly under its condition: the success gauges, the
    host key gauge and the totals always (the DNS gauge for hostnames), durations
    for the phases that succeeded and for no others, what was negotiated when it
    is known, the error when there is one; where the duration of a key exchange
    that completed is only claimed for a probe that does not fail in that phase,
    as one whose host key was refused does. *)
Theorem Collect_presence (c : SSHCollector) :
  let r := c.(c_run) c.(c_target) c.(c_opts) in
  let sends := sends (Collect c) in
  sends dnsLookupSuccessDesc = r.(DNSLookup)
  ∧ sends dnsLookupDurationDesc = r.(DNSLookup) && r.(DNSLookupSuccess)
  ∧ sends tcpConnectDurationDesc = r.(TCPConnectSuccess)
  ∧ sends tcpMSSDesc = r.(TCPConnectSuccess) && (0 <? r.(TCPMSS))
  ∧ sends serverIdentificationInfoDesc
    = r.(VersionExchangeSuccess) && nonempty r.(ServerIdentification).(id_String)
  ∧ sends serverIdentificationRFCConformantDesc = r.(VersionExchangeSuccess)
  ∧ sends versionExchangeDurationDesc = r.(VersionExchangeSuccess)
  ∧ sends kexAlgorithmInfoDesc = r.(KeyExchangeSuccess) && nonempty r.(KEXAlgorithm)
  ∧ sends serverHostKeyAlgorithmInfoDesc = nonempty r.(ServerHostKeyAlgorithm)
  ∧ sends encryptionAlgorithmInfoDesc
    = nonempty r.(EncryptionClientToServer) || nonempty r.(EncryptionServerToClient)
  ∧ sends macAlgorithmInfoDesc = nonempty r.(MACClientToServer) || nonempty r.(MACServerToClient)
  ∧ (r.(KeyExchangeSuccess) = false ∨ r.(ErrorPhase) ≠ ErrPhaseKeyExchange →
     sends keyExchangeDurationDesc = r.(KeyExchangeSuccess))
  ∧ sends errorInfoDesc = nonempty r.(ErrorPhase)
  ∧ Forall (λ td, sends td = true)
      [tcpConnectSuccessDesc; versionExchangeSuccessDesc; serverHostKeyVerifySuccessDesc;
       keyExchangeSuccessDesc; durationDesc; successDesc].
Proof.
  cbv zeta. unfold Collect. generalize (c_run c (c_target c) (c_opts c)). intros r.
  split_and!; try (intros _); try eval_sends.
  repeat (apply list.Forall_cons; split; [eval_sends|]). apply list.Forall_nil_2.
Qed.
End PresenceTable.

(** ** The metrics of a probe *)

Section CollectRun.
Context `{PrometheusLaws} {N : SSHNames} (env : Env) (target : gostring) (opts : Options).
Context (Hclient : client_contract [] false (handshakeOf env target opts)).

(** The collector [New] returns, which runs the probe in its environment. *)
Definition probe_collector : SSHCollector := New target opts (Run env).

Abbreviation res := (Run env target opts).

Lemma success_metric r :
  mustNewConstMetric successDesc (boolToFloat64 r.(Success)) [] ∈ metrics r.
Proof.
  unfold metrics. cbv zeta. rewrite !app_assoc. apply elem_of_app. right. by apply list_elem_of_here.
Qed.

(** Of a scrape either the success gauge is 1 and no error is reported, or
    it is 0 and one is; and a scrape whose key exchange did not complete
    reports no negotiated algorithm. *)
Theorem Collect_success_or_error :
  mustNewConstMetric successDesc (boolToFloat64 (negb (sends (Collect probe_collector) errorInfoDesc))) []
    ∈ Collect probe_collector
  ∧ (sends (Collect probe_collector) keyExchangeDurationDesc = false →
     Forall (λ td, sends (Collect probe_collector) td = false)
       [kexAlgorithmInfoDesc; serverHostKeyAlgorithmInfoDesc; encryptionAlgorithmInfoDesc; macAlgorithmInfoDesc]).
Proof.
  unfold Collect, probe_collector. cbn [c_run c_target c_opts]. split.
  - assert (sends (metrics res) errorInfoDesc = nonempty res.(ErrorPhase)) as -> by eval_sends.
    assert (negb (nonempty res.(ErrorPhase)) = res.(Success)) as ->; [|apply success_metric].
    apply eq_true_iff_eq. rewrite (proj1 (Run_no_error env target opts Hclient)).
    unfold nonempty. by rewrite negb_involutive, bool_decide_eq_true.
  - assert (sends (metrics res) keyExchangeDurationDesc = res.(KeyExchangeSuccess)) as -> by eval_sends.
    intros Hk. pose proof (Run_algs env target opts Hclient) as Ha. cbv zeta in Ha. rewrite Hk in Ha.
    unfold no_kex_fields, kex_fields in Ha. revert Ha. generalize res. clear Hk. intros r Ha. 
    injection Ha as _ H1 H2 H3 H4 H5 H6. cbn in H1, H2, H3, H4, H5, H6.
    assert (Hs : ∀ td, sends (metrics r) td = existsb (λ '(b, td'), b && same_name td' td) (conditions r))
      by apply sends_conditions.
    unfold conditions in Hs. rewrite H1, H2, H3, H4, H5, H6 in Hs.
    change (nonempty []) with false in Hs. rewrite !andb_false_r in Hs.
    repeat (apply list.Forall_cons; split; [rewrite Hs; unfold same_name; names; cbn [existsb];
      repeat match goal with
      | |- context [bool_decide (?x = ?y)] =>
          let v := eval vm_compute in (bool_decide (x = y)) in change (bool_decide (x = y)) with v
      end; by rewrite ?andb_false_r|]). apply list.Forall_nil_2.
Qed.

Lemma label_safe_nil : label_safe [].
Proof. split; [done|cbn; lia]. Qed.

Lemma reasons_safe phase reason : error_ok phase reason → label_safe phase ∧ label_safe reason.
Proof.
  assert (Hall : ∀ r, r ∈ dial_reasons ++ kex_reasons ++ host_key_reasons → label_safe r).
  { intros r Hr. assert (Hb : forallb (λ r, forallb printable r && (length r <=? 255)%nat)
      (dial_reasons ++ kex_reasons ++ host_key_reasons) = true) by (vm_compute; reflexivity).
    rewrite forallb_forall in Hb. specialize (Hb r (proj1 (list_elem_of_In _ _) Hr)).
    apply andb_true_iff in Hb as [? ?%Nat.leb_le]. done. }
  intros [[-> ->]|[[[-> | ->] Hr]|[[-> Hr]|[-> Hr]]]].
  - split; apply label_safe_nil.
  - split; [split; [done|cbn; lia]|apply Hall; set_solver].
  - split; [split; [done|cbn; lia]|apply Hall; set_solver].
  - split; [split; [done|cbn; lia]|apply Hall; set_solver].
  - split; [split; [done|cbn; lia]|apply Hall; set_solver].
Qed.

(** The names of the algorithms a handshake negotiated can be label values. *)
Definition negotiated_safe : Prop :=
  ∀ now algs, EvReady now algs ∈ events env target opts →
    Forall label_safe [algs.(alg_KeyExchange); algs.(alg_HostKey); algs.(alg_Write_Cipher);
                       algs.(alg_Read_Cipher); algs.(alg_Write_MAC); algs.(alg_Read_MAC)].

Lemma probe_labels_safe :
  negotiated_safe → Forall (λ m, Forall label_safe m.(m_labels)) (Collect probe_collector).
Proof.
  intros Halgs. unfold Collect, probe_collector. cbn [c_run c_target c_opts].
  assert (Hid := Run_identification_safe env target opts). cbv zeta in Hid.
  pose proof (reasons_safe _ _ (Run_error_ok env target opts Hclient)) as [Hp Hr].
  assert (Forall label_safe [res.(KEXAlgorithm); res.(ServerHostKeyAlgorithm); res.(EncryptionClientToServer);
    res.(EncryptionServerToClient); res.(MACClientToServer); res.(MACServerToClient)]) as Ha.
  { pose proof (Run_algs env target opts Hclient) as Ha. cbv zeta in Ha.
    destruct (KeyExchangeSuccess res).
    - destruct Ha as (now & algs & Hl & -> & -> & -> & -> & -> & ->). apply (Halgs now).
      apply last_Some_elem_of in Hl. done.
    - unfold no_kex_fields, kex_fields in Ha. revert Ha. generalize res. intros r Ha.
      injection Ha as _ -> -> -> -> -> ->. repeat (apply list.Forall_cons; split; [apply label_safe_nil|]).
      apply list.Forall_nil_2. }
  revert Hid Hp Hr Ha. generalize res. intros r (Hi1 & Hi2 & Hi3 & Hi4) Hp Hr Ha.
  rewrite !list.Forall_cons in Ha. destruct Ha as (H1 & H2 & H3 & H4 & H5 & H6 & _).
  assert (label_safe "client_to_server" ∧ label_safe "server_to_client") as [Hc Hs]
    by (split; (split; [done|cbn; lia])).
  apply list.Forall_forall. intros m Hm.
  assert (Forall (λ m, Forall label_safe m.(m_labels)) (all_metrics r)) as Hall.
  { unfold all_metrics. cbv zeta.
    repeat (apply list.Forall_cons; split;
      [cbn [m_labels mustNewConstMetric]; rewrite ?list.Forall_cons; auto using list.Forall_nil_2|]).
    apply list.Forall_nil_2. }
  rewrite list.Forall_forall in Hall. apply Hall. eapply elem_of_sublist; [done|apply metrics_sublist].
Qed.

(** C22: every label value of a scrape is printable ASCII of at most 255
    characters, so no metric panics on invalid UTF-8, whatever the server
    sent, if the names of the negotiated algorithms are. *)
Theorem Collect_labels_safe :
  negotiated_safe →
  Forall (λ m, Forall label_safe m.(m_labels)) (Collect probe_collector).
Proof. apply probe_labels_safe. Qed.
End CollectRun.

(** ** A scrape *)

Definition join_names (ns sub name : gostring) : gostring :=
  if bool_decide (name = []) then []
  else if bool_decide (sub = []) then ns ++ "_" ++ name else ns ++ "_" ++ sub ++ "_" ++ name.

Section CollectDemo.
#[local] Existing Instance demo_ssh_names.
#[local] Instance demo_prometheus : PrometheusNames := join_names.

#[local] Instance demo_prometheus_laws : PrometheusLaws.
Proof.
  split; intros; unfold BuildFQName, demo_prometheus, join_names.
  - by rewrite !bool_decide_eq_false_2.
  - by rewrite bool_decide_eq_false_2.
Qed.

Definition demo_collector (key : PublicKey) : SSHCollector :=
  probe_collector (demo_env key) "h:22" (demo_opts known).

(** A host key that fails verification leaves the key exchange successful: its
    gauge is 1 and its duration is sent, though the error names its phase. *)
Lemma host_key_failure_keeps_key_exchange_metrics :
  let ms := Collect (demo_collector (PlainKey "stolen")) in
  mustNewConstMetric keyExchangeSuccessDesc (boolToFloat64 true) [] ∈ ms
  ∧ sends ms keyExchangeDurationDesc = true
  ∧ mustNewConstMetric errorInfoDesc one [ErrPhaseKeyExchange; ErrReasonServerHostKeyRevoked] ∈ ms.
Proof.
  cbv zeta. unfold Collect, demo_collector, probe_collector. cbn [c_run c_target c_opts].
  assert (∀ r, r.(KeyExchangeSuccess) = true → r.(ErrorPhase) = ErrPhaseKeyExchange →
    r.(ErrorReason) = ErrReasonServerHostKeyRevoked →
    mustNewConstMetric keyExchangeSuccessDesc (boolToFloat64 true) [] ∈ metrics r
    ∧ sends (metrics r) keyExchangeDurationDesc = true
    ∧ mustNewConstMetric errorInfoDesc one [ErrPhaseKeyExchange; ErrReasonServerHostKeyRevoked] ∈ metrics r) as H.
  { intros r Hk Hp Hr. split_and!.
    - unfold metrics. cbv zeta. rewrite Hk. repeat (apply elem_of_app; first [left; by apply list_elem_of_here|right]).
    - rewrite <- Hk. eval_sends.
    - unfold metrics. cbv zeta. rewrite Hp, Hr. repeat (apply elem_of_app; first [left; by apply list_elem_of_here|right]). }
  apply H; vm_compute; reflexivity.
Qed.

Lemma Collect_consistent_witness :
  NoDup (map metric_id (Collect (demo_collector (PlainKey "ca")))).
Proof. exact (proj1 (proj2 (Collect_consistent (demo_collector (PlainKey "ca"))))). Defined.

Lemma Collect_presence_witness :
  sends (Collect (demo_collector (PlainKey "ca"))) dnsLookupSuccessDesc
  = (c_run (demo_collector (PlainKey "ca")) "h:22" (demo_opts known)).(DNSLookup).
Proof. exact (proj1 (Collect_presence (demo_collector (PlainKey "ca")))). Defined.

Lemma Collect_success_or_error_witness :
  mustNewConstMetric successDesc
    (boolToFloat64 (negb (sends (Collect (demo_collector (PlainKey "ca"))) errorInfoDesc))) []
  ∈ Collect (demo_collector (PlainKey "ca")).
Proof.
  exact (proj1 (Collect_success_or_error (demo_env (PlainKey "ca")) "h:22" (demo_opts known) (demo_client _ _))).
Defined.

Lemma demo_algs_safe :
  Forall label_safe [demo_algs.(alg_KeyExchange); demo_algs.(alg_HostKey); demo_algs.(alg_Write_Cipher);
                     demo_algs.(alg_Read_Cipher); demo_algs.(alg_Write_MAC); demo_algs.(alg_Read_MAC)].
Proof.
  repeat (apply list.Forall_cons; split; [split; [done|cbn; lia]|]). apply list.Forall_nil_2.
Qed.

Lemma demo_ready_safe key now algs :
  EvReady now algs ∈ events (demo_env key) "h:22" (demo_opts known) →
  Forall label_safe [algs.(alg_KeyExchange); algs.(alg_HostKey); algs.(alg_Write_Cipher);
                     algs.(alg_Read_Cipher); algs.(alg_Write_MAC); algs.(alg_Read_MAC)].
Proof.
  unfold events, handshakeOf. cbn [ssh_NewClientConn demo_env demo_handshake trace fst].
  rewrite !elem_of_cons, elem_of_nil. intros Hr.
  assert (algs = demo_algs) as ->; [|apply demo_algs_safe].
  repeat destruct Hr as [Hr|Hr]; try discriminate Hr; [|done]. by injection Hr.
Qed.

Lemma Collect_labels_safe_witness :
  Forall (λ m, Forall label_safe m.(m_labels)) (Collect (demo_collector (PlainKey "ca"))).
Proof.
  exact (Collect_labels_safe (demo_env (PlainKey "ca")) "h:22" (demo_opts known) (demo_client _ _) (demo_ready_safe _)).
Defined.
End CollectDemo.
