(* ===== verification/Mss.v ===== *)
(** * internal/probe/mss_linux.go and mss_other.go: the negotiated TCP MSS

    [tcpNegotiatedMSS] asks the kernel on Linux and nobody elsewhere.  The system
    call and the runtime's access to the socket are parameters; the theorem
    follows the number into the metrics of a probe. *)

From S2P Require Import Prelude GoStrings GoFloat GoErrors HostKey Probe ProbeRun Collector.
Open Scope Z_scope.

Definition IPPROTO_TCP : Z := 6.
Definition TCP_MAXSEG : Z := 2.

(** What the program calls on a TCP connection: [SyscallConn], and [Control],
    which runs a function on the file descriptor; the function's writes to
    captured variables are a state that is passed through. *)
Class RawSockets := {
  TCPConn : Type;
  RawConn : Type;
  SyscallConn : TCPConn → res goerror RawConn;
  Control : ∀ {S}, RawConn → (Z → S → S) → S → S * option goerror;
  GetsockoptInt : Z → Z → Z → res goerror Z
}.

(** As documented: [Control] invokes the function on the descriptor and returns
    nil, or fails without having invoked it. *)
Class RawSocketsLaws (R : RawSockets) := {
  fd_of : RawConn → Z;
  control_spec S rc (f : Z → S → S) s :
    Control rc f s = (f (fd_of rc) s, None) ∨ ∃ e, Control rc f s = (s, Some e)
}.

Section Mss.
Context {R : RawSockets}.

Definition tcpNegotiatedMSS_linux (conn : TCPConn) : res goerror Z :=
  match SyscallConn conn with
  | Fail err => Fail (Errorf "SyscallConn" [err])
  | Ok rawConn =>
      let '((mss, sockErr), controlErr) :=
        Control rawConn (λ fd _, match GetsockoptInt fd IPPROTO_TCP TCP_MAXSEG with
                                 | Ok n => (n, None)
                                 | Fail e => (0, Some e)
                                 end) (0, None) in
      match controlErr, sockErr with
      | Some err, _ => Fail (Errorf "syscall.RawConn.Control" [err])
      | None, Some err => Fail (Errorf "getsockopt(TCP_MAXSEG)" [err])
      | None, None => Ok mss
      end
  end.

Definition errMSSNotSupported : goerror :=
  errors_New "negotiated MSS reading is only supported on linux".
Definition tcpNegotiatedMSS_other (conn : TCPConn) : res goerror Z := Fail errMSSNotSupported.

(** The answer is the kernel's for the descriptor of the connection, or an error:
    never a number the kernel did not give. *)
Lemma tcpNegotiatedMSS_linux_spec {L : RawSocketsLaws R} conn mss :
  tcpNegotiatedMSS_linux conn = Ok mss →
  ∃ rc, SyscallConn conn = Ok rc ∧ GetsockoptInt (fd_of rc) IPPROTO_TCP TCP_MAXSEG = Ok mss.
Proof.
  unfold tcpNegotiatedMSS_linux. destruct (SyscallConn conn) as [rc|e]; [|done].
  destruct (control_spec _ rc (λ fd _, match GetsockoptInt fd IPPROTO_TCP TCP_MAXSEG with
    | Ok n => (n, None) | Fail e => (0, Some e) end) (0, None)) as [-> | [e ->]]; [|done].
  destruct (GetsockoptInt _ _ _) eqn:Hg; [|done]. intros [= <-]. eauto.
Qed.

(** ** The MSS metric of a probe *)

Context `{PrometheusLaws} {N : SSHNames} (env : Env) (target : gostring) (opts : Options).

(** What the dialer of [Run] returns when it returns this connection. *)
Definition dialed (tcpNegotiatedMSS : TCPConn → res goerror Z) (conn : option TCPConn)
    : option (res goerror Z) := tcpNegotiatedMSS <$> conn.

Lemma Run_TCPMSS :
  (Run env target opts).(TCPMSS) =
    match env.(DialContext) target with Ok (Some (Ok mss)) => mss | _ => 0 end.
Proof.
  unfold Run, run_body.
  assert (Hd : match reportDial env target with
               | Ok r => r.(TCPMSS) = match env.(DialContext) target with Ok (Some (Ok mss)) => mss | _ => 0 end
               | Fail r => r.(TCPMSS) = 0 ∧ ¬ is_ok (env.(DialContext) target) = true
               end).
  { unfold reportDial. destruct (fold_left _ _ _), (isHostname target), (DialContext env target) as [[[|]|]|];
      cbn; done. }
  destruct (reportDial env target) as [r|r].
  - rewrite NewClientConn_trace.
    destruct (foldl_result (configuredCallback opts) (trace (handshakeOf env target opts)).1
      (mkState Identification.new_watcher None r)) as (d & kex & hk & ec & es & mc & ms & Hres).
    rewrite Hres, <- Hd. generalize (foldl (on_event (configuredCallback opts)) (mkState Identification.new_watcher None r)
      (trace (handshakeOf env target opts)).1). intros st. cbn [result]. destruct r.
    unfold reportVersionExchange, reportKeyExchange, reportHostKey.
    generalize (trace (handshakeOf env target opts)).2 as he. intros he.
    destruct (Identification.received (conn st)); [destruct (Identification.parseServerIdentification _)|];
      (destruct he as [he|]; [destruct (errors_Is he errAbort)|]);
      (destruct (hostKeyResultCh st) as [[[] ?]|]); reflexivity.
  - destruct Hd as [Hr Hd]. destruct r. cbn in Hr |- *. rewrite Hr. by destruct (DialContext env target).
Qed.

Lemma mss_metric r : r.(TCPConnectSuccess) = true → 0 < r.(TCPMSS) →
  mustNewConstMetric tcpMSSDesc (Fin (f64_of_int r.(TCPMSS))) [] ∈ metrics r.
Proof.
  intros Hc Hm. unfold metrics. cbv zeta. rewrite Hc, (proj2 (Z.ltb_lt _ _) Hm).
  do 2 (apply elem_of_app; right). apply elem_of_app. left. by apply elem_of_cons; right; apply list_elem_of_here.
Qed.

(** The MSS metric of a scrape is the kernel's answer for the connection the
    probe made, and only on Linux: it is sent only when the connection is a
    TCP connection whose MSS could be read and is positive, and has that value;
    on other systems it is never sent. *)
Theorem mss_metric_from_kernel {L : RawSocketsLaws R} conn :
  let ms := Collect (probe_collector env target opts) in
  (env.(DialContext) target = Ok (dialed tcpNegotiatedMSS_other conn) → sends ms tcpMSSDesc = false)
  ∧ (env.(DialContext) target = Ok (dialed tcpNegotiatedMSS_linux conn) → sends ms tcpMSSDesc = true →
     ∃ c rc mss, conn = Some c ∧ SyscallConn c = Ok rc ∧ GetsockoptInt (fd_of rc) IPPROTO_TCP TCP_MAXSEG = Ok mss
       ∧ 0 < mss ∧ mustNewConstMetric tcpMSSDesc (Fin (f64_of_int mss)) [] ∈ ms).
Proof.
  cbv zeta. unfold Collect, probe_collector. cbn [c_run c_target c_opts].
  pose proof Run_TCPMSS as Hm. revert Hm. generalize (Run env target opts). intros r Hm.
  assert (sends (metrics r) tcpMSSDesc = r.(TCPConnectSuccess) && (0 <? r.(TCPMSS))) as Hs by eval_sends.
  rewrite Hs. split; intros Hd; rewrite Hd in Hm; cbn in Hm.
  - destruct conn; cbn in Hm; rewrite Hm; apply andb_false_r.
  - intros [Hc Hp%Z.ltb_lt]%andb_true_iff. destruct conn as [c|]; cbn in Hm; [|lia].
    destruct (tcpNegotiatedMSS_linux c) as [mss|] eqn:Hk; [|lia].
    apply tcpNegotiatedMSS_linux_spec in Hk as (rc & Hrc & Hg).
    exists c, rc, mss. split_and!; [done..|lia|]. rewrite <- Hm. by apply mss_metric.
Qed.
End Mss.

(** ** A kernel that answers 1448 for every descriptor *)

Section MssDemo.
#[local] Existing Instance demo_ssh_names.
#[local] Existing Instance demo_prometheus.
#[local] Existing Instance demo_prometheus_laws.

#[local] Instance demo_sockets : RawSockets := {|
  TCPConn := Z; RawConn := Z; SyscallConn := Ok; Control := λ S rc f s, (f rc s, None);
  GetsockoptInt := λ _ _ _, Ok 1448 |}.
#[local] Instance demo_sockets_laws : RawSocketsLaws demo_sockets.
Proof. exists (λ rc : Z, rc). by left. Defined.

Lemma mss_metric_from_kernel_witness :
  ∃ mss, GetsockoptInt 7 IPPROTO_TCP TCP_MAXSEG = Ok mss ∧ 0 < mss.
Proof.
  destruct (proj2 (mss_metric_from_kernel (demo_env (PlainKey "ca")) "h:22" (demo_opts known) (Some (7 : @TCPConn demo_sockets))) eq_refl)
    as (c & rc & mss & Hc & Hrc & Hg & Hp & _); [vm_compute; reflexivity|].
  injection Hc as <-. injection Hrc as <-. exists mss. split; assumption.
Defined.
End MssDemo.
