(* ===== verification/Config.v ===== *)
(** * internal/config/config.go and module.go: from a file to modules

    [loadRawConfig] reads and validates the YAML, [build] compiles each module:
    its host key callback, its target matchers and its ports.  Reading files,
    YAML and known_hosts are parameters, and so is the order in which Go ranges
    over a map, which differs from run to run. *)

From S2P Require Import Prelude GoStrings GoErrors GoNetip Normalize Target HostKey Probe.
Open Scope Z_scope.

Definition DefaultModuleName : gostring := "default".

(** ** Algorithms x/crypto/ssh implements *)

Record AlgorithmLists := {
  Ciphers : list gostring; KeyExchanges : list gostring;
  MACs : list gostring; HostKeys : list gostring
}.

(** [ssh.SupportedAlgorithms()] and [ssh.InsecureAlgorithms()]. *)
Class SSHAlgorithms := {
  SupportedAlgorithms : AlgorithmLists;
  InsecureAlgorithms : AlgorithmLists
}.

Definition algorithmSet (lists : list (list gostring)) : gset gostring :=
  fold_left (λ set l, fold_left (λ set name, {[name]} ∪ set) l set) lists ∅.

Section Known.
Context {S : SSHAlgorithms}.
Definition knownCiphers := algorithmSet [SupportedAlgorithms.(Ciphers); InsecureAlgorithms.(Ciphers)].
Definition knownKeyExchanges :=
  algorithmSet [SupportedAlgorithms.(KeyExchanges); InsecureAlgorithms.(KeyExchanges)].
Definition knownMACs := algorithmSet [SupportedAlgorithms.(MACs); InsecureAlgorithms.(MACs)].
Definition knownHostKeyAlgorithms :=
  algorithmSet [SupportedAlgorithms.(HostKeys); InsecureAlgorithms.(HostKeys)].
End Known.

Inductive config_error :=
  | EReadingFile (e : goerror)
  | EParsingFile (e : goerror)
  | EKnownHostsRequired (name : gostring)
  | EInvalidPort (name : gostring) (p : Z)
  | ETargetPortNotAllowed (name : gostring) (p : Z) (ports : list Z)
  | EUnknownAlgorithms (kind : gostring) (unknown : list gostring)
  | EModule (name : gostring) (e : config_error)
  | ELoadingKnownHosts (name : gostring) (e : goerror)
  | EAllowedTargets (name : gostring) (e : target_error)
  | ELoadingConfigFile (e : config_error).

(** Every unknown name is collected before the error is returned. *)
Definition validateAlgorithms (kind : gostring) (names : list gostring) (known : gset gostring)
    : res config_error () :=
  let unknown := fold_left (λ unknown name, if bool_decide (name ∈ known) then unknown
                                            else unknown ++ [name]) names [] in
  match unknown with
  | [] => Ok ()
  | _ => Fail (EUnknownAlgorithms kind unknown)
  end.

(** ** The configuration file *)

(** A nil slice and an empty one differ for [AllowedPorts] only. *)
Record rawConfigModule := {
  rm_KnownHostsFile : gostring;
  rm_AllowedTargets : list gostring;
  rm_AllowedPorts : option (list Z);
  rm_TargetPort : Z;
  rm_Ciphers : list gostring;
  rm_KeyExchanges : list gostring;
  rm_MACs : list gostring;
  rm_HostKeyAlgorithms : list gostring;
  rm_StripServerIdentificationComments : bool
}.

Record rawConfig := {
  rc_KnownHostsFile : gostring;
  rc_AllowedTargets : list gostring;
  rc_AllowedPorts : option (list Z);
  rc_TargetPort : Z;
  rc_Modules : gmap gostring rawConfigModule;
  rc_StripServerIdentificationComments : bool;
  rc_allowAllTargets : bool
}.

Definition zero_module : rawConfigModule :=
  Build_rawConfigModule [] [] None 0 [] [] [] [] false.
Definition zero_rawConfig : rawConfig := Build_rawConfig [] [] None 0 ∅ false false.

(** What the program calls outside itself. *)
Class ConfigEnv := {
  ReadFile : gostring → res goerror gostring;
  yaml_Decode : gostring → res goerror rawConfig;
  knownhosts_New : gostring → res goerror HostKeyCallback;
  ssh_algorithms :: SSHAlgorithms
}.

(** The order in which one run's [for range] visits the entries of a map; every
    entry is visited once. *)
Class MapRange := range_order : ∀ {A}, gmap gostring A → list (gostring * A).
Class MapRangeLaws `(MapRange) : Prop :=
  range_order_perm A (m : gmap gostring A) : range_order m ≡ₚ map_to_list m.

(** A loop over a map that stops at the first error and stores its results. *)
Fixpoint for_each {E A B} (f : gostring → A → res E B) (l : list (gostring * A)) (acc : gmap gostring B)
    : res E (gmap gostring B) :=
  match l with
  | [] => Ok acc
  | (name, a) :: l => b ← f name a; for_each f l (<[name := b]> acc)
  end.

Record Module_ := {
  mod_Options : Options;
  mod_AllowedTargets : list matcher;
  mod_AllowedPorts : gset Z;
  mod_TargetPort : Z
}.

Section Config.
Context {U : UnicodeTables} {C : ConfigEnv} {R : MapRange}.

Definition ports_of (o : option (list Z)) : list Z := default [] o.

(** The body of the loop: inheritance, then validation. *)
Definition resolveModule (cfg : rawConfig) (name : gostring) (m : rawConfigModule)
    : res config_error rawConfigModule :=
  let known_hosts := if bool_decide (m.(rm_KnownHostsFile) = [])
                     then cfg.(rc_KnownHostsFile) else m.(rm_KnownHostsFile) in
  _ ← fail_if (bool_decide (known_hosts = [])) (EKnownHostsRequired name);
  let targets := match m.(rm_AllowedTargets) with [] => cfg.(rc_AllowedTargets) | ts => ts end in
  let strip := m.(rm_StripServerIdentificationComments) || cfg.(rc_StripServerIdentificationComments) in
  let port := if m.(rm_TargetPort) =? 0 then cfg.(rc_TargetPort) else m.(rm_TargetPort) in
  let port := if port =? 0 then 22 else port in
  let ports := match m.(rm_AllowedPorts) with None => cfg.(rc_AllowedPorts) | Some _ => m.(rm_AllowedPorts) end in
  let ports := match ports_of ports with [] => [port] | ps => ps end in
  _ ← match list_find (λ p, (p <? 1) || (65535 <? p) = true) ports with
      | Some (_, p) => Fail (EInvalidPort name p)
      | None => Ok ()
      end;
  _ ← fail_if (negb (bool_decide (port ∈ ports))) (ETargetPortNotAllowed name port ports);
  _ ← map_err (EModule name) (validateAlgorithms "ciphers" m.(rm_Ciphers) knownCiphers);
  _ ← map_err (EModule name) (validateAlgorithms "kex algorithms" m.(rm_KeyExchanges) knownKeyExchanges);
  _ ← map_err (EModule name) (validateAlgorithms "macs" m.(rm_MACs) knownMACs);
  _ ← map_err (EModule name)
        (validateAlgorithms "host key algorithms" m.(rm_HostKeyAlgorithms) knownHostKeyAlgorithms);
  Ok {| rm_KnownHostsFile := known_hosts; rm_AllowedTargets := targets;
        rm_AllowedPorts := Some ports; rm_TargetPort := port; rm_Ciphers := m.(rm_Ciphers);
        rm_KeyExchanges := m.(rm_KeyExchanges); rm_MACs := m.(rm_MACs);
        rm_HostKeyAlgorithms := m.(rm_HostKeyAlgorithms);
        rm_StripServerIdentificationComments := strip |}.

(** An empty file decodes to [io.EOF], which leaves the zero configuration. *)
Definition decode (data : gostring) : res config_error rawConfig :=
  match yaml_Decode data with
  | Ok cfg => Ok cfg
  | Fail e => if errors_Is e io_EOF then Ok zero_rawConfig else Fail (EParsingFile e)
  end.

Definition with_modules (cfg : rawConfig) (modules : gmap gostring rawConfigModule) (allowAll : bool)
    : rawConfig :=
  {| rc_KnownHostsFile := cfg.(rc_KnownHostsFile); rc_AllowedTargets := cfg.(rc_AllowedTargets);
     rc_AllowedPorts := cfg.(rc_AllowedPorts); rc_TargetPort := cfg.(rc_TargetPort);
     rc_Modules := modules;
     rc_StripServerIdentificationComments := cfg.(rc_StripServerIdentificationComments);
     rc_allowAllTargets := allowAll |}.

(** Without modules there is the default one. *)
Definition declared_modules (cfg : rawConfig) : gmap gostring rawConfigModule :=
  if bool_decide (cfg.(rc_Modules) = ∅) then {[DefaultModuleName := zero_module]} else cfg.(rc_Modules).

Definition loadRawConfig (path : gostring) (allowAllTargetsFlag : bool) : res config_error rawConfig :=
  data ← map_err EReadingFile (ReadFile path);
  cfg ← decode data;
  let modules := declared_modules cfg in
  let allowAll := allowAllTargetsFlag && bool_decide (cfg.(rc_AllowedTargets) = []) in
  modules' ← for_each (resolveModule cfg) (range_order modules) modules;
  Ok (with_modules cfg modules' allowAll).

Definition buildModule (allowAll : bool) (name : gostring) (m : rawConfigModule)
    : res config_error Module_ :=
  cb ← map_err (ELoadingKnownHosts name) (knownhosts_New m.(rm_KnownHostsFile));
  targets ← map_err (EAllowedTargets name) (resolveAllowedTargets m.(rm_AllowedTargets) allowAll);
  Ok {| mod_Options := {| opt_HostKeyCallback := Some cb; opt_Ciphers := m.(rm_Ciphers);
                          opt_KeyExchanges := m.(rm_KeyExchanges); opt_MACs := m.(rm_MACs);
                          opt_HostKeyAlgorithms := m.(rm_HostKeyAlgorithms);
                          opt_StripServerIdentificationComments := m.(rm_StripServerIdentificationComments) |};
        mod_AllowedTargets := targets;
        mod_AllowedPorts := list_to_set (ports_of m.(rm_AllowedPorts));
        mod_TargetPort := m.(rm_TargetPort) |}.

Definition build (raw : rawConfig) : res config_error (gmap gostring Module_) :=
  for_each (buildModule raw.(rc_allowAllTargets)) (range_order raw.(rc_Modules)) ∅.

Definition Load (path : gostring) (allowAllTargets : bool) : res config_error (gmap gostring Module_) :=
  raw ← map_err ELoadingConfigFile (loadRawConfig path allowAllTargets);
  build raw.
End Config.

(** ** Loops over maps *)

Lemma for_each_Ok {E A B} (f : gostring → A → res E B) l : ∀ acc m, NoDup l.*1 →
  for_each f l acc = Ok m ↔
    (∀ k a, (k, a) ∈ l → ∃ b, f k a = Ok b ∧ m !! k = Some b) ∧ (∀ k, k ∉ l.*1 → m !! k = acc !! k).
Proof.
  induction l as [|[k a] l IH]; intros acc m; cbn [for_each fmap list_fmap fst].
  - intros _. split; [intros [= ->]; set_solver|]. intros [_ H]. f_equal. apply map_eq. intros k.
    symmetry. apply H. set_solver.
  - intros [Hk Hnd]%list.NoDup_cons. rewrite bind_Ok. setoid_rewrite (IH _ m Hnd). split.
    + intros (b & Hb & Hl & Hn). split.
      * intros k' a' [[= -> ->]|Hin]%elem_of_cons; [|by apply Hl].
        exists b. split; [done|]. rewrite Hn by done. by rewrite lookup_insert_eq.
      * intros k' Hk'. apply not_elem_of_cons in Hk' as [Hne Hk']. rewrite Hn by done.
        by rewrite lookup_insert_ne.
    + intros (Hl & Hn). destruct (Hl k a (list_elem_of_here _ _)) as (b & Hb & Hm).
      exists b. split_and!; [done| |].
      * intros k' a' Hin. apply Hl. by apply list_elem_of_further.
      * intros k' Hk'. destruct (decide (k' = k)) as [->|Hne]; [by rewrite lookup_insert_eq|].
        rewrite lookup_insert_ne by done. apply Hn. set_solver.
Qed.

Lemma for_each_range `{MapRangeLaws} {E A B} (f : gostring → A → res E B) (m0 : gmap gostring A) acc m :
  for_each f (range_order m0) acc = Ok m ↔
    (∀ k a, m0 !! k = Some a → ∃ b, f k a = Ok b ∧ m !! k = Some b)
    ∧ (∀ k, m0 !! k = None → m !! k = acc !! k).
Proof.
  pose proof (range_order_perm A m0) as Hp.
  assert (Hin : ∀ k a, (k, a) ∈ range_order m0 ↔ m0 !! k = Some a)
    by (intros k a; rewrite Hp; apply elem_of_map_to_list).
  assert (Hout : ∀ k, k ∉ (range_order m0).*1 ↔ m0 !! k = None).
  { intros k. rewrite eq_None_not_Some, list_elem_of_fmap. split.
    - intros Hn [a Ha]. apply Hn. exists (k, a). split; [done|]. by apply Hin.
    - intros Hn ([k' a] & -> & Ha%Hin). apply Hn. eauto. }
  rewrite for_each_Ok; [|rewrite Hp; apply NoDup_fst_map_to_list].
  setoid_rewrite Hin. setoid_rewrite Hout. done.
Qed.

(** ** Validation *)

Lemma unknown_filter (names : list gostring) (known : gset gostring) : ∀ acc,
  fold_left (λ unknown name, if bool_decide (name ∈ known) then unknown else unknown ++ [name]) names acc
  = acc ++ filter (.∉ known) names.
Proof.
  induction names as [|n names IH]; intros acc; cbn [fold_left]; [by rewrite app_nil_r|].
  rewrite IH, filter_cons. case_bool_decide.
  - by rewrite decide_False by tauto.
  - rewrite decide_True by done. by rewrite <- app_assoc.
Qed.

(** Algorithm names are accepted when all are known, and otherwise every
    unknown one is reported, in order. *)
Lemma validateAlgorithms_eq kind (names : list gostring) known :
  validateAlgorithms kind names known =
    match filter (.∉ known) names with [] => Ok () | unknown => Fail (EUnknownAlgorithms kind unknown) end.
Proof. unfold validateAlgorithms. rewrite unknown_filter. cbn [app]. by destruct (filter _ names). Qed.

Lemma filter_nil_iff {A} (P : A → Prop) `{!∀ x, Decision (P x)} l : filter P l = [] ↔ Forall (λ x, ¬ P x) l.
Proof.
  induction l as [|x l IH]; [done|]. rewrite filter_cons, list.Forall_cons.
  destruct (decide (P x)); rewrite ?IH; [|tauto]. split; [done|tauto].
Qed.

Lemma validateAlgorithms_Ok kind (names : list gostring) known u :
  validateAlgorithms kind names known = Ok u ↔ Forall (.∈ known) names.
Proof.
  rewrite validateAlgorithms_eq. destruct u.
  assert (filter (.∉ known) names = [] ↔ Forall (.∈ known) names) as <-.
  { rewrite filter_nil_iff. apply Forall_proper; [|done]. intros x. destruct (decide (x ∈ known)); tauto. }
  by destruct (filter _ names).
Qed.

Section Spec.
Context {U : UnicodeTables} {C : ConfigEnv}.

(** A setting of a module, or the file's own where the module has none. *)
Definition inherit {A} (is_set : A → bool) (module_ default_ : A) : A :=
  if is_set module_ then module_ else default_.

Definition nonempty_list {A} (l : list A) : bool := match l with [] => false | _ => true end.

(** What a module amounts to once the file's defaults are applied. *)
Definition resolved (cfg : rawConfig) (m : rawConfigModule) : rawConfigModule :=
  let port := inherit (λ p, negb (p =? 0)) m.(rm_TargetPort)
                (inherit (λ p, negb (p =? 0)) cfg.(rc_TargetPort) 22) in
  {| rm_KnownHostsFile := inherit nonempty_list m.(rm_KnownHostsFile) cfg.(rc_KnownHostsFile);
     rm_AllowedTargets := inherit nonempty_list m.(rm_AllowedTargets) cfg.(rc_AllowedTargets);
     rm_AllowedPorts := Some (inherit nonempty_list
       (ports_of (inherit is_some m.(rm_AllowedPorts) cfg.(rc_AllowedPorts))) [port]);
     rm_TargetPort := port; rm_Ciphers := m.(rm_Ciphers); rm_KeyExchanges := m.(rm_KeyExchanges);
     rm_MACs := m.(rm_MACs); rm_HostKeyAlgorithms := m.(rm_HostKeyAlgorithms);
     rm_StripServerIdentificationComments :=
       m.(rm_StripServerIdentificationComments) || cfg.(rc_StripServerIdentificationComments) |}.

(** A module that can be probed with. *)
Definition module_valid (m : rawConfigModule) : Prop :=
  m.(rm_KnownHostsFile) ≠ []
  ∧ Forall (λ p, 1 ≤ p ≤ 65535) (ports_of m.(rm_AllowedPorts))
  ∧ m.(rm_TargetPort) ∈ ports_of m.(rm_AllowedPorts)
  ∧ Forall (.∈ knownCiphers) m.(rm_Ciphers) ∧ Forall (.∈ knownKeyExchanges) m.(rm_KeyExchanges)
  ∧ Forall (.∈ knownMACs) m.(rm_MACs) ∧ Forall (.∈ knownHostKeyAlgorithms) m.(rm_HostKeyAlgorithms).

Lemma find_bad_port name (ports : list Z) :
  match list_find (λ p, (p <? 1) || (65535 <? p) = true) ports with
  | Some (_, p) => Fail (EInvalidPort name p)
  | None => Ok ()
  end = Ok () ↔ Forall (λ p, 1 ≤ p ≤ 65535) ports.
Proof.
  destruct (list_find _ ports) as [[i p]|] eqn:Hf.
  - split; [done|]. apply list_find_Some in Hf as (Hl & Hb & _). intros Hall.
    apply list_elem_of_lookup_2 in Hl. rewrite list.Forall_forall in Hall. specialize (Hall p Hl).
    apply orb_true_iff in Hb as [?%Z.ltb_lt|?%Z.ltb_lt]; lia.
  - split; [intros _|done]. apply list_find_None in Hf.
    eapply list.Forall_impl; [exact Hf|]. intros p Hp. apply not_true_is_false in Hp. bool_simpl. lia.
Qed.

Lemma resolveModule_Ok cfg name m m' :
  resolveModule cfg name m = Ok m' ↔ m' = resolved cfg m ∧ module_valid (resolved cfg m).
Proof.
  unfold resolveModule, resolved, module_valid. cbv zeta.
  cbn [rm_KnownHostsFile rm_AllowedPorts rm_TargetPort rm_Ciphers rm_KeyExchanges rm_MACs rm_HostKeyAlgorithms].
  assert ((if bool_decide (rm_KnownHostsFile m = []) then rc_KnownHostsFile cfg else rm_KnownHostsFile m)
    = inherit nonempty_list (rm_KnownHostsFile m) (rc_KnownHostsFile cfg)) as ->
    by (unfold inherit; by destruct (rm_KnownHostsFile m)).
  set (port := if (if rm_TargetPort m =? 0 then _ else _) =? 0 then 22 else _).
  assert (port = inherit (λ p, negb (p =? 0)) m.(rm_TargetPort)
                (inherit (λ p, negb (p =? 0)) cfg.(rc_TargetPort) 22)) as <-.
  { unfold port, inherit. destruct (rm_TargetPort m =? 0) eqn:E; cbn [negb]; [|by rewrite E].
    by destruct (rc_TargetPort cfg =? 0). }
  set (ports := match ports_of _ with [] => [port] | ps => ps end).
  assert (ports = inherit nonempty_list
    (ports_of (inherit is_some m.(rm_AllowedPorts) cfg.(rc_AllowedPorts))) [port]) as <-.
  { unfold ports, inherit. destruct (rm_AllowedPorts m) as [[|]|]; try done. cbn.
    by destruct (rc_AllowedPorts cfg) as [[|]|]. }
  assert (match rm_AllowedTargets m with [] => rc_AllowedTargets cfg | ts => ts end
    = inherit nonempty_list (rm_AllowedTargets m) (rc_AllowedTargets cfg)) as Ht
    by (unfold inherit; by destruct (rm_AllowedTargets m)).
  cbn [ports_of default from_option id]. rewrite <- Ht. clearbody port ports. clear Ht.
  rewrite !bind_Ok. split.
  - intros (? & Hk & H). inv_ok.
    repeat match goal with H : validateAlgorithms _ _ _ = Ok _ |- _ => apply validateAlgorithms_Ok in H end.
    repeat match goal with x : () |- _ => destruct x end. bool_simpl.
    apply find_bad_port in H0. bool_simpl. split_and!; try done.
  - intros (-> & Hk & Hp & Hin & H1 & H2 & H3 & H4). exists (). rewrite fail_if_Ok.
    rewrite bool_decide_eq_false. split; [done|].
    rewrite (proj2 (find_bad_port name ports) Hp). cbn [mbind res_bind].
    rewrite bool_decide_eq_true_2 by done. cbn [negb fail_if mbind res_bind].
    by rewrite (proj2 (validateAlgorithms_Ok _ _ _ ()) H1), (proj2 (validateAlgorithms_Ok _ _ _ ()) H2),
      (proj2 (validateAlgorithms_Ok _ _ _ ()) H3), (proj2 (validateAlgorithms_Ok _ _ _ ()) H4).
Qed.

Lemma buildModule_Ok allowAll name m b :
  buildModule allowAll name m = Ok b ↔
    ∃ cb targets, knownhosts_New m.(rm_KnownHostsFile) = Ok cb
      ∧ resolveAllowedTargets m.(rm_AllowedTargets) allowAll = Ok targets
      ∧ b = {| mod_Options := {| opt_HostKeyCallback := Some cb; opt_Ciphers := m.(rm_Ciphers);
                 opt_KeyExchanges := m.(rm_KeyExchanges); opt_MACs := m.(rm_MACs);
                 opt_HostKeyAlgorithms := m.(rm_HostKeyAlgorithms);
                 opt_StripServerIdentificationComments := m.(rm_StripServerIdentificationComments) |};
               mod_AllowedTargets := targets;
               mod_AllowedPorts := list_to_set (ports_of m.(rm_AllowedPorts));
               mod_TargetPort := m.(rm_TargetPort) |}.
Proof.
  unfold buildModule. rewrite bind_Ok. setoid_rewrite map_err_Ok. setoid_rewrite bind_Ok.
  setoid_rewrite map_err_Ok. split.
  - intros (cb & Hcb & targets & Ht & H). inv_ok. eauto 10.
  - intros (cb & targets & Hcb & Ht & ->). eauto 10.
Qed.
End Spec.

(** ** What [Load] accepts and produces *)

Section Load.
Context {U : UnicodeTables} {C : ConfigEnv} `{MapRangeLaws}.

(** The module that [Load] builds of one entry, when it does. *)
Definition loads_as (cfg : rawConfig) (allowAll : bool) (name : gostring) (m : rawConfigModule)
    (b : Module_) : Prop :=
  module_valid (resolved cfg m) ∧ buildModule allowAll name (resolved cfg m) = Ok b.

Definition allow_all (cfg : rawConfig) (flag : bool) : bool :=
  flag && bool_decide (cfg.(rc_AllowedTargets) = []).

Lemma Load_Ok path flag modules :
  Load path flag = Ok modules ↔
    ∃ data cfg, ReadFile path = Ok data ∧ decode data = Ok cfg ∧
      ∀ name, match declared_modules cfg !! name with
              | Some m => ∃ b, loads_as cfg (allow_all cfg flag) name m b ∧ modules !! name = Some b
              | None => modules !! name = None
              end.
Proof.
  unfold Load, loadRawConfig, build. rewrite bind_Ok. setoid_rewrite map_err_Ok. split.
  - intros (raw & Hraw & Hb). apply bind_Ok in Hraw as (data & Hd & Hraw). apply map_err_Ok in Hd.
    apply bind_Ok in Hraw as (cfg & Hc & Hraw). apply bind_Ok in Hraw as (ms & Hms & Hraw).
    injection Hraw as <-. exists data, cfg. split_and!; [done..|]. intros name.
    cbn [with_modules rc_Modules rc_allowAllTargets] in Hb.
    apply for_each_range in Hms as [Hms Hnone], Hb as [Hb Hbnone].
    destruct (declared_modules cfg !! name) as [m|] eqn:Hm.
    + destruct (Hms name m Hm) as (m' & [-> Hv]%resolveModule_Ok & Hm').
      destruct (Hb name _ Hm') as (b & Hbm & Hl). exists b. done.
    + rewrite Hbnone; [by rewrite lookup_empty|]. by rewrite Hnone.
  - intros (data & cfg & Hd & Hc & Hall).
    set (ms := resolved cfg <$> declared_modules cfg).
    exists (with_modules cfg ms (allow_all cfg flag)). split.
    + rewrite bind_Ok. exists data. rewrite map_err_Ok. split; [done|].
      rewrite bind_Ok. exists cfg. split; [done|]. rewrite bind_Ok. exists ms. split; [|done].
      apply for_each_range. unfold ms. split.
      * intros k m Hm. specialize (Hall k). rewrite Hm in Hall. destruct Hall as (b & [Hv _] & _).
        exists (resolved cfg m). rewrite lookup_fmap, Hm. split; [|done]. by apply resolveModule_Ok.
      * intros k Hk. by rewrite lookup_fmap, Hk.
    + apply for_each_range. cbn [with_modules rc_Modules rc_allowAllTargets]. unfold ms.
      split; intros k; specialize (Hall k).
      * intros m'. rewrite lookup_fmap. destruct (declared_modules cfg !! k) as [m|]; [|done].
        intros [= <-]. destruct Hall as (b & [_ Hb] & Hl). eauto.
      * rewrite lookup_fmap. destruct (declared_modules cfg !! k) as [m|]; [done|].
        by rewrite lookup_empty.
Qed.

(** C24: every module [Load] returns can be probed with: its ports are 1-65535
    and include the port probed by default, it has a host key callback and at
    least one target matcher, and its algorithms are implemented; and there
    is at least one module. *)
Theorem Load_modules_valid path flag modules :
  Load path flag = Ok modules →
  modules ≠ ∅ ∧
  ∀ name m, modules !! name = Some m →
    (∀ p, p ∈ m.(mod_AllowedPorts) → 1 ≤ p ≤ 65535) ∧ m.(mod_TargetPort) ∈ m.(mod_AllowedPorts)
    ∧ m.(mod_AllowedTargets) ≠ [] ∧ m.(mod_Options).(opt_HostKeyCallback) ≠ None
    ∧ Forall (.∈ knownCiphers) m.(mod_Options).(opt_Ciphers)
    ∧ Forall (.∈ knownKeyExchanges) m.(mod_Options).(opt_KeyExchanges)
    ∧ Forall (.∈ knownMACs) m.(mod_Options).(opt_MACs)
    ∧ Forall (.∈ knownHostKeyAlgorithms) m.(mod_Options).(opt_HostKeyAlgorithms).
Proof.
  intros (data & cfg & _ & _ & Hall)%Load_Ok. split.
  - intros ->. assert (declared_modules cfg ≠ ∅) as Hne.
    { unfold declared_modules. case_bool_decide; [apply map_non_empty_singleton|done]. }
    apply map_choose in Hne as (name & m & Hm). specialize (Hall name). rewrite Hm in Hall.
    destruct Hall as (b & _ & Hb). by rewrite lookup_empty in Hb.
  - intros name m Hm. specialize (Hall name).
    destruct (declared_modules cfg !! name) as [rm|]; [|congruence].
    destruct Hall as (b & [Hv Hb] & Hl). assert (b = m) as -> by congruence.
    apply buildModule_Ok in Hb as (cb & targets & _ & Ht & ->).
    destruct Hv as (_ & Hports & Hport & Hci & Hke & Hma & Hho). cbn [mod_AllowedPorts mod_TargetPort
      mod_AllowedTargets mod_Options opt_HostKeyCallback opt_Ciphers opt_KeyExchanges opt_MACs opt_HostKeyAlgorithms].
    split_and!; try done.
    + intros p Hp%elem_of_list_to_set. rewrite list.Forall_forall in Hports. by apply Hports.
    + by apply elem_of_list_to_set.
    + intros ->. unfold resolveAllowedTargets in Ht.
      destruct (rm_AllowedTargets (resolved cfg rm)) as [|p ps]; [by destruct (allow_all _ _)|].
      apply buildTargets_Forall2 in Ht. inversion Ht.
Qed.

(** The patterns of a module: its own, or the file's when it has none. *)
Definition module_patterns (cfg : rawConfig) (rm : rawConfigModule) : list gostring :=
  inherit nonempty_list rm.(rm_AllowedTargets) cfg.(rc_AllowedTargets).

Lemma resolved_targets pats allowAll ms :
  resolveAllowedTargets pats allowAll = Ok ms →
  match pats with
  | [] => allowAll = true ∧ ms = [MAllowAll AllowAllMatcher]
  | _ => Forall2 (λ pat t, buildTarget pat = Ok t ∧ t ≠ MAllowAll AllowAllMatcher) pats ms
  end.
Proof.
  unfold resolveAllowedTargets. destruct pats; [destruct allowAll; [by intros [= <-]|done]|].
  intros Hb%buildTargets_Forall2. eapply list.Forall2_impl; [exact Hb|].
  intros pat t Ht. exact (conj Ht (buildTarget_not_allow_all _ _ Ht)).
Qed.

(** C26: a list of targets always wins: without --allow-all-targets, or where the
    module or the file has a list, each matcher of a module is built from the
    pattern at its place in the module's list, or in the file's when the module
    has none, and none matches everything; with the flag, and no list configured
    anywhere, every module has the one matcher that does. *)
Theorem Load_allow_all path flag modules :
  Load path flag = Ok modules →
  ∃ data cfg, ReadFile path = Ok data ∧ decode data = Ok cfg
  ∧ (∀ name m, modules !! name = Some m → ∃ rm, declared_modules cfg !! name = Some rm
      ∧ (flag = false ∨ module_patterns cfg rm ≠ [] →
         module_patterns cfg rm ≠ []
         ∧ Forall2 (λ pat t, buildTarget pat = Ok t ∧ t ≠ MAllowAll AllowAllMatcher)
             (module_patterns cfg rm) m.(mod_AllowedTargets)))
  ∧ (flag = true → cfg.(rc_AllowedTargets) = [] →
     (∀ name rm, declared_modules cfg !! name = Some rm → rm.(rm_AllowedTargets) = []) →
     ∀ name m, modules !! name = Some m → m.(mod_AllowedTargets) = [MAllowAll AllowAllMatcher]).
Proof.
  intros (data & cfg & Hd & Hc & Hall)%Load_Ok. exists data, cfg. do 2 (split; [done|]).
  assert (Hm : ∀ name m, modules !! name = Some m → ∃ rm, declared_modules cfg !! name = Some rm
    ∧ resolveAllowedTargets (module_patterns cfg rm) (allow_all cfg flag) = Ok m.(mod_AllowedTargets)).
  { intros name m Hm. specialize (Hall name). destruct (declared_modules cfg !! name) as [rm|]; [|congruence].
    exists rm. split; [done|]. destruct Hall as (b & [_ Hb] & Hl). assert (b = m) as -> by congruence.
    apply buildModule_Ok in Hb as (cb & targets & _ & Ht & ->). exact Ht. }
  split.
  - intros name m (rm & Hrm & Ht%resolved_targets)%Hm. exists rm. split; [done|]. intros Hcase.
    destruct (module_patterns cfg rm); [|done]. destruct Ht as [Ha _], Hcase as [->|?]; done.
  - intros -> He Hnone name m (rm & Hrm & Ht%resolved_targets)%Hm. unfold module_patterns in Ht.
    rewrite (Hnone name rm Hrm), He in Ht. apply Ht.
Qed.

(** A configuration that leaves some module without targets is refused
    altogether, at start and on reload, unless --allow-all-targets covers that
    module. *)
Theorem Load_refuses_no_targets path flag data cfg name rm :
  ReadFile path = Ok data → decode data = Ok cfg → declared_modules cfg !! name = Some rm →
  inherit nonempty_list rm.(rm_AllowedTargets) cfg.(rc_AllowedTargets) = [] → flag = false →
  is_ok (Load path flag) = false.
Proof.
  intros Hd Hc Hm Ht ->. apply not_true_is_false. intros [modules Hl]%is_ok_true.
  apply Load_Ok in Hl as (data' & cfg' & Hd' & Hc' & Hall).
  assert (data' = data) as -> by congruence. assert (cfg' = cfg) as -> by congruence.
  specialize (Hall name). rewrite Hm in Hall. destruct Hall as (b & [_ Hb] & _).
  apply buildModule_Ok in Hb as (cb & targets & _ & Hr & _).
  cbn [resolved rm_AllowedTargets] in Hr. by rewrite Ht in Hr.
Qed.
End Load.

Section Inheritance.
Context {U : UnicodeTables} {C : ConfigEnv} {R : MapRange} {RL : MapRangeLaws R}.

(** C27: a loaded module is the module of the file with the file's settings
    where it has none of its own: known_hosts, targets (in order, where there are
    any), the port (22 by default), the ports (the target port by default, also
    when a module sets an empty list), and the switch to strip comments, which a
    module cannot unset; its algorithms are its own. *)
Theorem Load_inherits path flag modules name m :
  Load path flag = Ok modules → modules !! name = Some m →
  ∃ data cfg rm cb, ReadFile path = Ok data ∧ decode data = Ok cfg
    ∧ declared_modules cfg !! name = Some rm
    ∧ knownhosts_New (inherit nonempty_list rm.(rm_KnownHostsFile) cfg.(rc_KnownHostsFile)) = Ok cb
    ∧ (module_patterns cfg rm ≠ [] →
       Forall2 (λ pat t, buildTarget pat = Ok t) (module_patterns cfg rm) m.(mod_AllowedTargets))
    ∧ m.(mod_TargetPort) = inherit (λ p, negb (p =? 0)) rm.(rm_TargetPort)
                             (inherit (λ p, negb (p =? 0)) cfg.(rc_TargetPort) 22)
    ∧ m.(mod_AllowedPorts) = list_to_set (inherit nonempty_list
        (ports_of (inherit is_some rm.(rm_AllowedPorts) cfg.(rc_AllowedPorts))) [m.(mod_TargetPort)])
    ∧ m.(mod_Options) = {| opt_HostKeyCallback := Some cb; opt_Ciphers := rm.(rm_Ciphers);
        opt_KeyExchanges := rm.(rm_KeyExchanges); opt_MACs := rm.(rm_MACs);
        opt_HostKeyAlgorithms := rm.(rm_HostKeyAlgorithms);
        opt_StripServerIdentificationComments :=
          rm.(rm_StripServerIdentificationComments) || cfg.(rc_StripServerIdentificationComments) |}.
Proof.
  intros (data & cfg & Hd & Hc & Hall)%Load_Ok Hm. exists data, cfg.
  specialize (Hall name). destruct (declared_modules cfg !! name) as [rm|]; [|congruence].
  destruct Hall as (b & [_ Hb] & Hl). assert (b = m) as -> by congruence.
  apply buildModule_Ok in Hb as (cb & targets & Hcb & Ht%resolved_targets & ->).
  exists rm, cb. split_and!; try done. cbn [mod_AllowedTargets]. fold (module_patterns cfg rm) in Ht.
  change (rm_AllowedTargets (resolved cfg rm)) with (module_patterns cfg rm) in Ht.
  destruct (module_patterns cfg rm); [done|]. intros _. eapply list.Forall2_impl; [exact Ht|]. by intros ?? [? _].
Qed.
End Inheritance.

Section Order.
Context {U : UnicodeTables} {C : ConfigEnv} (R1 R2 : MapRange).
Context {L1 : MapRangeLaws R1} {L2 : MapRangeLaws R2}.

(** C25: the order in which Go ranges over the modules does not matter: two
    runs on the same files accept the same configurations and build the same
    modules (which error is reported first may differ). *)
Theorem Load_order_independent path flag modules :
  @Load U C R1 path flag = Ok modules ↔ @Load U C R2 path flag = Ok modules.
Proof. by rewrite !Load_Ok. Qed.
End Order.

(** ** One configuration, loaded *)

Definition demo_module : rawConfigModule := {|
  rm_KnownHostsFile := []; rm_AllowedTargets := []; rm_AllowedPorts := Some []; rm_TargetPort := 2222;
  rm_Ciphers := [("aes128-ctr" : gostring)]; rm_KeyExchanges := []; rm_MACs := [];
  rm_HostKeyAlgorithms := []; rm_StripServerIdentificationComments := false |}.

Definition demo_config : rawConfig := {|
  rc_KnownHostsFile := "known_hosts";
  rc_AllowedTargets := [("192.0.2.0/24" : gostring); ("*.example.com" : gostring)];
  rc_AllowedPorts := Some [22]; rc_TargetPort := 0;
  rc_Modules := {[DefaultModuleName := demo_module]};
  rc_StripServerIdentificationComments := true; rc_allowAllTargets := false |}.

Section ConfigDemo.
#[local] Existing Instance caseless.

#[local] Instance demo_algorithms : SSHAlgorithms := {|
  SupportedAlgorithms := {| Ciphers := [("aes128-ctr" : gostring)]; KeyExchanges := []; MACs := []; HostKeys := [] |};
  InsecureAlgorithms := {| Ciphers := []; KeyExchanges := []; MACs := []; HostKeys := [] |} |}.

(** The file without a name holds nothing, the one at "bare" lists no targets, and
    in the one at "mixed" one module of two does. *)
Definition demo_decode (data : gostring) : res goerror rawConfig :=
  if bool_decide (data = []) then Fail io_EOF
  else if bool_decide (data = ("bare" : gostring)) then
    Ok (Build_rawConfig "known_hosts" [] None 0 ∅ false false)
  else if bool_decide (data = ("mixed" : gostring)) then
    Ok (Build_rawConfig "known_hosts" [] None 0
          (<[("open" : gostring) := zero_module]> {[("listed" : gostring) :=
             Build_rawConfigModule [] [("h.example.com" : gostring)] None 0 [] [] [] [] false]}) false false)
  else Ok demo_config.

#[local] Instance demo_config_env : ConfigEnv := {|
  ReadFile := λ path, Ok path; yaml_Decode := demo_decode;
  knownhosts_New := λ _, Ok (kh_callback demo_hosts); ssh_algorithms := demo_algorithms |}.

Definition forward : MapRange := λ A m, map_to_list m.
Definition backward : MapRange := λ A m, reverse (map_to_list m).
Lemma forward_ok : MapRangeLaws forward.
Proof. by intros A m. Qed.
Lemma backward_ok : MapRangeLaws backward.
Proof. intros A m. apply reverse_Permutation. Qed.

#[local] Existing Instance forward.
#[local] Existing Instance forward_ok.

Definition demo_loaded : Module_ := {|
  mod_Options := {| opt_HostKeyCallback := Some (kh_callback demo_hosts);
    opt_Ciphers := [("aes128-ctr" : gostring)]; opt_KeyExchanges := []; opt_MACs := [];
    opt_HostKeyAlgorithms := []; opt_StripServerIdentificationComments := true |};
  mod_AllowedTargets := match buildTargets [("192.0.2.0/24" : gostring); ("*.example.com" : gostring)] with
                        | Ok ms => ms | Fail _ => [] end;
  mod_AllowedPorts := list_to_set [2222]; mod_TargetPort := 2222 |}.

Definition demo_modules : gmap gostring Module_ := {[DefaultModuleName := demo_loaded]}.

Lemma demo_load : Load "cfg" false = Ok demo_modules.
Proof. vm_compute. reflexivity. Qed.

Lemma demo_lookup : demo_modules !! DefaultModuleName = Some demo_loaded.
Proof. vm_compute. reflexivity. Qed.

(** A file without modules and targets is refused, or opened by the flag. *)
Example demo_bare :
  (is_ok (Load "bare" false), is_ok (Load "bare" true), is_ok (Load [] false)) = (false, true, false).
Proof. vm_compute. reflexivity. Qed.

Lemma Load_modules_valid_witness : demo_modules ≠ ∅.
Proof. exact (proj1 (Load_modules_valid "cfg" false demo_modules demo_load)). Defined.

Lemma Load_allow_all_witness : MAllowAll AllowAllMatcher ∉ demo_loaded.(mod_AllowedTargets).
Proof.
  destruct (Load_allow_all "cfg" false demo_modules demo_load) as (data & cfg & _ & _ & H & _).
  destruct (H DefaultModuleName demo_loaded demo_lookup) as (rm & _ & Hp).
  destruct (Hp (or_introl eq_refl)) as [_ Hf].
  intros [i Hi]%list_elem_of_lookup. destruct (Forall2_lookup_r _ _ _ _ _ Hf Hi) as (pat & _ & _ & Hne).
  exact (Hne eq_refl).
Defined.

(** With the flag, a module without a list matches everything also when another
    module has one. *)
Example allow_all_beside_a_list :
  match Load "mixed" true with
  | Ok modules => (mod_AllowedTargets <$> modules !! ("open" : gostring)) = Some [MAllowAll AllowAllMatcher]
      ∧ (mod_AllowedTargets <$> modules !! ("listed" : gostring)) = Some [MHost (HostMatcher "h.example.com")]
  | Fail _ => False
  end.
Proof. vm_compute. split; reflexivity. Qed.

Lemma Load_refuses_no_targets_witness : is_ok (Load "bare" false) = false.
Proof.
  refine (Load_refuses_no_targets "bare" false "bare" (Build_rawConfig "known_hosts" [] None 0 ∅ false false)
    DefaultModuleName zero_module _ _ _ _ _); vm_compute; reflexivity.
Defined.

Lemma Load_inherits_witness :
  ∃ cb, demo_loaded.(mod_Options).(opt_HostKeyCallback) = Some cb
    ∧ knownhosts_New ("known_hosts" : gostring) = Ok cb.
Proof.
  destruct (Load_inherits "cfg" false demo_modules DefaultModuleName demo_loaded demo_load demo_lookup)
    as (data & cfg & rm & cb & Hd & _ & _ & Hk & _ & _ & _ & Ho).
  exists cb. rewrite Ho. split; [reflexivity|]. exact Hk.
Defined.

Lemma Load_order_independent_witness : @Load caseless demo_config_env backward "cfg" false = Ok demo_modules.
Proof. exact (proj1 (@Load_order_independent caseless demo_config_env forward backward forward_ok backward_ok "cfg" false demo_modules) demo_load). Defined.
End ConfigDemo.
