(* ===== verification/ProbeHttp.v ===== *)
(** * internal/probehttp/probehttp.go: the checks of one probe request

    [ensurePort] takes a target apart, [targetAllowed] asks the allow-list,
    [effectiveTimeout] bounds the probe, [statusRecorder] remembers the status of
    the response; [check] is what the handler does before it starts a probe. *)

From S2P Require Import Prelude GoStrings GoNetip GoNet Normalize GoFloat GoErrors Target HostKey Probe Config.
Open Scope Z_scope.

(** ** Targets *)

Inductive target_err :=
  | EUnparsable (target : gostring)
  | ENotBare (target : gostring)
  | ENoHost (target : gostring)
  | EBadPort (p target : gostring).

Section EnsurePort.
Context {U : UnicodeTables}.

(** The target to dial, its host and its port. *)
Definition ensurePort (target : gostring) (defaultPort : Z) : res target_err (gostring * gostring * Z) :=
  match url_Parse target with
  | None => Fail (EUnparsable target)
  | Some u =>
      if is_some u.(User) || negb (bool_decide (u.(Path) = [])) || negb (bool_decide (u.(RawQuery) = []))
         || negb (bool_decide (u.(Fragment) = [])) || negb (bool_decide (u.(Opaque) = []))
      then Fail (ENotBare target)
      else
        let host := Normalize.Hostname (GoNet.Hostname u) in
        if bool_decide (host = []) then Fail (ENoHost target)
        else
          let p := Port u in
          port ← (if bool_decide (p = []) then Ok defaultPort
                  else match Atoi p with Some n => Ok n | None => Fail (EBadPort p target) end);
          Ok (JoinHostPort host (Itoa port), host, port)
  end.
End EnsurePort.

(** The loop over the matchers of any kind; none admit nothing. *)
Fixpoint targetAllowed {M} `{TargetMatcher M} (host : gostring) (matchers : list M) : bool :=
  match matchers with
  | [] => false
  | m :: matchers => if Match m host then true else targetAllowed host matchers
  end.

Lemma targetAllowed_existsb {M} `{TargetMatcher M} host (ms : list M) :
  targetAllowed host ms = existsb (λ m, Match m host) ms.
Proof. induction ms as [|m ms IH]; cbn; [done|]. by destruct (Match m host). Qed.

(** ** Timeouts *)

(** [header] is the value of X-Prometheus-Scrape-Timeout-Seconds, empty when
    absent; the sum and the difference of durations wrap. *)
Definition effectiveTimeout (header : gostring) (maxTimeout offset : Z) : Z :=
  if bool_decide (header = []) then maxTimeout
  else match ParseFloat header with
       | None | Some NaN => maxTimeout
       | Some (Inf _) => maxTimeout   (* -Inf <= 0, and +Inf >= any bound *)
       | Some (Fin s) =>
           if (s <=? 0) || (Seconds (wrap_i64 (maxTimeout + offset)) <=? s) then maxTimeout
           else
             let scrapeTimeout := wrap_i64 (f64_to_int (f64_mul s (f64_of_int Second)) - offset) in
             if 0 <? scrapeTimeout then scrapeTimeout else maxTimeout
       end.

(** ** Recording the status *)

(** The calls a handler makes on its [http.ResponseWriter]. *)
Inductive writer_call := WriteHeader (code : Z) | Write (b : gostring).

Record statusRecorder := mkRecorder {
  status : Z;
  wroteHeader : bool;
  passed : list writer_call   (* what reached the wrapped writer, in order *)
}.

Definition newStatusRecorder : statusRecorder := mkRecorder 200 false [].

Definition rec_WriteHeader (rec : statusRecorder) (code : Z) : statusRecorder :=
  mkRecorder (if rec.(wroteHeader) then rec.(status) else code) true (rec.(passed) ++ [WriteHeader code]).

Definition rec_Write (rec : statusRecorder) (b : gostring) : statusRecorder :=
  mkRecorder rec.(status) true (rec.(passed) ++ [Write b]).

Definition rec_call (rec : statusRecorder) (c : writer_call) : statusRecorder :=
  match c with WriteHeader code => rec_WriteHeader rec code | Write b => rec_Write rec b end.

(** What net/http sends: the code of the first call when it is [WriteHeader],
    else 200; informational codes other than 101 do not count as the header. *)
Definition informational (code : Z) : bool := (100 <=? code) && (code <=? 199) && negb (code =? 101).

Fixpoint sent_status (calls : list writer_call) : Z :=
  match calls with
  | [] => 200
  | WriteHeader code :: calls => if informational code then sent_status calls else code
  | Write _ :: _ => 200
  end.

Lemma record_calls calls : ∀ rec,
  (fold_left rec_call calls rec).(passed) = rec.(passed) ++ calls.
Proof.
  induction calls as [|c calls IH]; intros rec; cbn [fold_left]; [by rewrite app_nil_r|].
  rewrite IH. by destruct c; cbn; rewrite <- app_assoc.
Qed.

Lemma record_wrote calls : ∀ rec,
  rec.(wroteHeader) = true → (fold_left rec_call calls rec).(status) = rec.(status).
Proof.
  induction calls as [|c calls IH]; intros rec Hw; cbn [fold_left]; [done|].
  rewrite IH; [|by destruct c]. destruct c; cbn; by rewrite ?Hw.
Qed.

(** ** The request and the checks *)

(** The parts of the request the handler looks at; an absent parameter is "". *)
Record Request := {
  q_module : gostring;
  q_target : gostring;
  scrape_timeout : gostring
}.

(** The texts of rejections. *)
Inductive message :=
  | UnknownModule (name : gostring)
  | TargetRequired
  | MalformedTarget (e : target_err)
  | PortNotAllowed (port : Z) (moduleName : gostring)
  | TargetNotAllowed (host moduleName : gostring)
  | LimitReached (limit : Z).

Definition moduleUnresolved : gostring := [].
Definition StatusBadRequest : Z := 400.
Definition StatusForbidden : Z := 403.
Definition StatusServiceUnavailable : Z := 503.

Record rejection := { rej_module : gostring; rej_code : Z; rej_message : message }.
Record admission := {
  adm_module : gostring; adm_config : Module_; adm_target : gostring; adm_host : gostring; adm_port : Z
}.

Section Check.
Context {U : UnicodeTables}.

(** Lines 70-103: every reason to refuse a request before probing, in order. *)
Definition check (modules : gmap gostring Module_) (r : Request) : res rejection admission :=
  let moduleName := if bool_decide (r.(q_module) = []) then DefaultModuleName else r.(q_module) in
  match modules !! moduleName with
  | None => Fail {| rej_module := moduleUnresolved; rej_code := StatusBadRequest;
                    rej_message := UnknownModule moduleName |}
  | Some mod_ =>
      if bool_decide (r.(q_target) = []) then
        Fail {| rej_module := moduleName; rej_code := StatusBadRequest; rej_message := TargetRequired |}
      else match ensurePort r.(q_target) mod_.(mod_TargetPort) with
      | Fail e => Fail {| rej_module := moduleName; rej_code := StatusBadRequest;
                          rej_message := MalformedTarget e |}
      | Ok (target, host, port) =>
          if negb (bool_decide (port ∈ mod_.(mod_AllowedPorts))) then
            Fail {| rej_module := moduleName; rej_code := StatusForbidden;
                    rej_message := PortNotAllowed port moduleName |}
          else if negb (targetAllowed host mod_.(mod_AllowedTargets)) then
            Fail {| rej_module := moduleName; rej_code := StatusForbidden;
                    rej_message := TargetNotAllowed host moduleName |}
          else Ok {| adm_module := moduleName; adm_config := mod_; adm_target := target;
                     adm_host := host; adm_port := port |}
      end
  end.
End Check.

Section examples.
#[local] Existing Instance caseless.
Local Definition tab (t : string) : option (gostring * gostring * Z) :=
  match ensurePort t 22 with Ok x => Some x | Fail _ => None end.
Example ensurePort_table :
  map tab ["example.com"; "Example.COM:2222"; "192.0.2.1:22"; "[2001:db8::1]:2222"; "[2001:db8::1]"]%string
  = [Some ("example.com:22" : gostring, "example.com" : gostring, 22);
     Some ("example.com:2222" : gostring, "example.com" : gostring, 2222);
     Some ("192.0.2.1:22" : gostring, "192.0.2.1" : gostring, 22);
     Some ("[2001:db8::1]:2222" : gostring, "2001:db8::1" : gostring, 2222);
     Some ("[2001:db8::1]:22" : gostring, "2001:db8::1" : gostring, 22)].
Proof. vm_compute. reflexivity. Qed.
Example ensurePort_rejects :
  map tab ["example.com:notaport"; "user@example.com"; "example.com/foo"; "example.com?x=1"; "example.com#frag"]%string
  = replicate 5 None.
Proof. vm_compute. reflexivity. Qed.

Example timeouts :
  map (λ h : string, effectiveTimeout h 10000000000 500000000 / Millisecond)
    ["10.2"; "5"; "10"; "30"; "0.5"; "0.2"; "NaN"; "Inf"; "-Inf"; "1e300"; "1e400"; "-1"; "x"]%string
  = [9700; 4500; 9500; 10000; 10000; 10000; 10000; 10000; 10000; 10000; 10000; 10000; 10000].
Proof. vm_compute. reflexivity. Qed.
End examples.

(** ** What [ensurePort] accepts *)

Lemma decimal_value_nonneg s : ∀ acc, 0 ≤ acc → forallb is_digit s = true → 0 ≤ decimal_value s acc.
Proof.
  unfold decimal_value. induction s as [|c s IH]; intros acc Ha; cbn; [done|].
  intros [Hc Hs]%andb_true_iff. apply IH; [|done]. apply digit_range in Hc. lia.
Qed.

Lemma Atoi_digits_range s n : forallb is_digit s = true → s ≠ [] → Atoi s = Some n → 0 ≤ n ≤ max_int64.
Proof.
  intros Hs Hne Hn. pose proof (Atoi_range s n Hn) as [_ Hmax]. split; [|done].
  destruct s as [|c s]; [done|]. unfold Atoi in Hn. pose proof Hs as [Hc _]%andb_true_iff.
  rewrite (bool_decide_eq_false_2 (c = "-"%char)) in Hn by (intros ->; done).
  rewrite (bool_decide_eq_false_2 (c = "+"%char)) in Hn by (intros ->; done).
  rewrite atoi_loop_digits in Hn by done. inv_ok.
  pose proof (decimal_value_nonneg (c :: s) 0 ltac:(lia) Hs). case_match; [|done]. by inv_ok.
Qed.

Section EnsurePortSpec.
Context {U : UnicodeTables} {UL : UnicodeLaws U}.

Lemma ensurePort_Ok target dp t h p :
  ensurePort target dp = Ok (t, h, p) →
  ∃ u, url_Parse target = Some u ∧ u.(User) = None ∧ u.(Path) = [] ∧ u.(RawQuery) = [] ∧ u.(Fragment) = []
    ∧ h = Normalize.Hostname (GoNet.Hostname u) ∧ h ≠ []
    ∧ (if bool_decide (Port u = []) then p = dp else Atoi (Port u) = Some p)
    ∧ t = JoinHostPort h (Itoa p).
Proof.
  unfold ensurePort. destruct (url_Parse target) as [u|]; [|done].
  destruct (_ || _) eqn:Hbare; [done|]. bool_simpl. case_bool_decide as Hh; [done|].
  intros He. apply bind_Ok in He as (port & Hport & [= <- <- <-]). exists u.
  assert (User u = None) by (by destruct (User u)). split_and!; try done.
  case_bool_decide; [by inv_ok|]. by destruct (Atoi (Port u)); simplify_eq.
Qed.

Lemma normalized_head a host h p :
  parseHost a = Some host → splitHostPort host = (h, p) →
  head (Normalize.Hostname h) ≠ Some "["%char.
Proof.
  intros Ha Hs Hb. unfold Normalize.Hostname in Hb. apply ToLower_head in Hb; [|done..].
  assert (head h = Some "["%char) as Hh.
  { destruct (TrimSuffix_dot h) as [Ht|Ht]; [by rewrite <- Ht|]. rewrite Ht.
    destruct (TrimSuffix h "."); simplify_eq/=. done. }
  destruct (Hostname_cases a host h p Ha Hs) as [(n & z & Hip)|Hno].
  - by apply ParseAddr_head in Hip.
  - destruct h; simplify_eq/=. set_solver.
Qed.

Lemma ensurePort_spec target dp t h p :
  0 ≤ dp ≤ max_int64 → ensurePort target dp = Ok (t, h, p) →
  (∃ a q f, target = a ++ q ++ f ∧ (q = [] ∨ q = ["?"%char]) ∧ (f = [] ∨ f = ["#"%char])
     ∧ ("@"%char ∉ a) ∧ ("/"%char ∉ a) ∧ ("?"%char ∉ a) ∧ ("#"%char ∉ a))
  ∧ h ≠ [] ∧ 0 ≤ p ≤ max_int64 ∧ t = JoinHostPort h (Itoa p)
  ∧ (∀ h' p', SplitHostPort t = Some (h', p') → h' = h ∧ Atoi p' = Some p).
Proof.
  intros Hdp (u & Hu & HU & HP & HQ & HF & Hh & Hne & Hport & ->)%ensurePort_Ok.
  destruct (url_Parse_bare target u Hu HU HP HQ HF) as (a & q & f & ? & ? & ? & ? & ? & ? & ? & Ha).
  unfold GoNet.Hostname, Port in *. destruct (splitHostPort (Host u)) as [h0 p0] eqn:Hs. cbn in Hh, Hport.
  assert (0 ≤ p ≤ max_int64) as Hp.
  { case_bool_decide; [by subst|]. apply splitHostPort_digits in Hs. by eapply Atoi_digits_range. }
  split_and!; try done; try lia; [by exists a, q, f|].
  intros h' p' Hsplit. apply SplitHostPort_JoinHostPort in Hsplit as [-> ->].
  - split; [done|]. by apply Atoi_Itoa.
  - subst h. by eapply normalized_head.
  - apply Itoa_nonneg. unfold max_int64 in Hp. lia.
Qed.

(** C21: a target that is accepted has no user information, path, query text or
    fragment text (one trailing question mark and hash sign aside); its host
    is not empty, its port is in range, and the address that will be dialed
    splits into no other host and port. *)
Theorem ensurePort_sound target dp t h p :
  0 ≤ dp ≤ max_int64 → ensurePort target dp = Ok (t, h, p) →
  (∃ a q f, target = a ++ q ++ f ∧ (q = [] ∨ q = ["?"%char]) ∧ (f = [] ∨ f = ["#"%char])
     ∧ ("@"%char ∉ a) ∧ ("/"%char ∉ a) ∧ ("?"%char ∉ a) ∧ ("#"%char ∉ a))
  ∧ h ≠ [] ∧ 0 ≤ p ≤ max_int64 ∧ t = JoinHostPort h (Itoa p)
  ∧ (∀ h' p', SplitHostPort t = Some (h', p') → h' = h ∧ Atoi p' = Some p).
Proof. apply ensurePort_spec. Qed.

(** ** No probe passes the allow-list by *)

Lemma check_Ok modules r adm :
  check modules r = Ok adm ↔
    modules !! (if bool_decide (r.(q_module) = []) then DefaultModuleName else r.(q_module))
      = Some adm.(adm_config)
    ∧ adm.(adm_module) = (if bool_decide (r.(q_module) = []) then DefaultModuleName else r.(q_module))
    ∧ r.(q_target) ≠ []
    ∧ ensurePort r.(q_target) adm.(adm_config).(mod_TargetPort) = Ok (adm.(adm_target), adm.(adm_host), adm.(adm_port))
    ∧ adm.(adm_port) ∈ adm.(adm_config).(mod_AllowedPorts)
    ∧ targetAllowed adm.(adm_host) adm.(adm_config).(mod_AllowedTargets) = true.
Proof.
  unfold check. set (name := if bool_decide _ then _ else _). split.
  - destruct (modules !! name) as [m|]; [|done]. case_bool_decide as Hq; [done|].
    destruct (ensurePort _ _) as [[[t h] p]|e] eqn:He; [|done].
    destruct (bool_decide (p ∈ _)) eqn:Hp; [|done]. destruct (targetAllowed h _) eqn:Ht; [|done].
    intros [= <-]. by bool_simpl.
  - intros (Hm & Hn & Hq & He & Hp & Ht). rewrite Hm, bool_decide_eq_false_2 by done.
    rewrite He, bool_decide_eq_true_2, Ht by done. destruct adm. cbn in *. by rewrite <- Hn.
Qed.

(** C3: no request starts a probe of a target the configuration does not allow:
    the module exists, its port list contains the port, one of its matchers
    accepts the host, and the address given to the dialer is that very host
    and port. *)
Theorem check_admits_only_allowed modules r adm :
  (∀ name m, modules !! name = Some m → 0 ≤ m.(mod_TargetPort) ≤ max_int64) →
  check modules r = Ok adm →
  ∃ m, modules !! adm.(adm_module) = Some m ∧ m = adm.(adm_config)
    ∧ adm.(adm_port) ∈ m.(mod_AllowedPorts)
    ∧ (∃ t, t ∈ m.(mod_AllowedTargets) ∧ Match t adm.(adm_host) = true)
    ∧ adm.(adm_target) = JoinHostPort adm.(adm_host) (Itoa adm.(adm_port))
    ∧ (∀ h p, SplitHostPort adm.(adm_target) = Some (h, p) → h = adm.(adm_host) ∧ Atoi p = Some adm.(adm_port)).
Proof.
  intros Hports (Hm & Hname & _ & He & Hp & Ht)%check_Ok. rewrite <- Hname in Hm.
  apply ensurePort_spec in He as (_ & _ & _ & Htar & Hsplit); [|by eapply Hports].
  exists (adm_config adm). split_and!; try done.
  rewrite targetAllowed_existsb in Ht. apply existsb_exists in Ht as (t & Hin%list_elem_of_In & Hmt). eauto.
Qed.
End EnsurePortSpec.

(** ** Rejections *)

Section Rejections.
Context {U : UnicodeTables}.

(** C36: each request is classified by the first check it fails: 400 for an
    unknown module (counted without a module), a missing or a malformed target,
    403 for a port and for a host that is not allowed; anything else is
    admitted. *)
Theorem check_classifies modules r :
  let name := if bool_decide (r.(q_module) = []) then DefaultModuleName else r.(q_module) in
  match check modules r with
  | Fail rej =>
      match rej.(rej_message) with
      | UnknownModule n => modules !! name = None ∧ n = name
          ∧ rej.(rej_code) = 400 ∧ rej.(rej_module) = []
      | TargetRequired => is_some (modules !! name) = true ∧ r.(q_target) = []
          ∧ rej.(rej_code) = 400 ∧ rej.(rej_module) = name
      | MalformedTarget e => (∃ m, modules !! name = Some m ∧ ensurePort r.(q_target) m.(mod_TargetPort) = Fail e)
          ∧ rej.(rej_code) = 400 ∧ rej.(rej_module) = name
      | PortNotAllowed p n => (∃ m t h, modules !! name = Some m
            ∧ ensurePort r.(q_target) m.(mod_TargetPort) = Ok (t, h, p) ∧ p ∉ m.(mod_AllowedPorts))
          ∧ n = name ∧ rej.(rej_code) = 403 ∧ rej.(rej_module) = name
      | TargetNotAllowed h n => (∃ m t p, modules !! name = Some m
            ∧ ensurePort r.(q_target) m.(mod_TargetPort) = Ok (t, h, p) ∧ p ∈ m.(mod_AllowedPorts)
            ∧ ∀ tm, tm ∈ m.(mod_AllowedTargets) → Match tm h = false)
          ∧ n = name ∧ rej.(rej_code) = 403 ∧ rej.(rej_module) = name
      | LimitReached _ => False
      end
  | Ok adm => ∃ m, modules !! name = Some m ∧ r.(q_target) ≠ []
      ∧ ensurePort r.(q_target) m.(mod_TargetPort) = Ok (adm.(adm_target), adm.(adm_host), adm.(adm_port))
      ∧ adm.(adm_port) ∈ m.(mod_AllowedPorts)
      ∧ ∃ tm, tm ∈ m.(mod_AllowedTargets) ∧ Match tm adm.(adm_host) = true
  end.
Proof.
  cbv zeta. unfold check. set (name := if bool_decide _ then _ else _).
  destruct (modules !! name) as [m|] eqn:Hm; [|done]. case_bool_decide as Hq; [done|].
  destruct (ensurePort _ _) as [[[t h] p]|e] eqn:He; cbn; [|eauto].
  case_bool_decide as Hp; cbn; [|naive_solver].
  rewrite targetAllowed_existsb. destruct (existsb _ _) eqn:Ht; cbn.
  - exists m. split_and!; try done. apply existsb_exists in Ht as (tm & Hin%list_elem_of_In & Hmt). eauto.
  - split_and!; try done. exists m, t, p. split_and!; try done. intros tm Hin.
    apply not_true_is_false. intros Hmt. apply not_true_iff_false in Ht. apply Ht, existsb_exists.
    exists tm. split; [by apply list_elem_of_In|done].
Qed.
End Rejections.

(** ** The status that is counted *)

Lemma record_status calls :
  (∀ code, WriteHeader code ∈ calls → informational code = false) →
  (fold_left rec_call calls newStatusRecorder).(status) = sent_status calls.
Proof.
  intros Hc. destruct calls as [|[code|b] calls]; cbn [fold_left sent_status]; [done|..].
  - rewrite record_wrote by done. cbn. by rewrite Hc by (by apply list_elem_of_here).
  - by rewrite record_wrote.
Qed.

(** The recorder passes every call on unchanged, and the status it counts is
      the one net/http sends, for handlers that send no informational
      responses. *)
Theorem recorder_transparent calls :
  (∀ code, WriteHeader code ∈ calls → informational code = false) →
  let rec := fold_left rec_call calls newStatusRecorder in
  rec.(passed) = calls ∧ rec.(status) = sent_status calls.
Proof. intros Hc. cbv zeta. rewrite record_calls. split; [done|]. by apply record_status. Qed.

(** ** The bounds of the timeout *)

(** Seconds rounded up to nanoseconds. *)
Definition ceil_ns (x : Z) : Z := - ((- (x * Second)) / unit).

Lemma ceil_ns_spec x : x * Second ≤ ceil_ns x * unit ∧ (∀ n, x * Second ≤ n * unit → ceil_ns x ≤ n).
Proof.
  unfold ceil_ns. pose proof unit_pos. split.
  - pose proof (Z.div_mod (- (x * Second)) unit ltac:(lia)).
    pose proof (Z.mod_pos_bound (- (x * Second)) unit ltac:(lia)). nia.
  - intros n Hn. assert (- n ≤ - (x * Second) / unit); [|lia]. apply Z.div_le_lower_bound; nia.
Qed.

Lemma effectiveTimeout_cases header maxTimeout offset :
  0 < maxTimeout → 0 ≤ offset → maxTimeout + offset < 2 ^ 53 →
  effectiveTimeout header maxTimeout offset = maxTimeout
  ∨ ∃ x, ParseFloat header = Some (Fin x) ∧ 0 < x ∧ repr x ∧ x * Second ≤ (maxTimeout + offset) * unit
      ∧ effectiveTimeout header maxTimeout offset
        = f64_to_int (f64_mul x (f64_of_int Second)) - offset
      ∧ 0 < effectiveTimeout header maxTimeout offset.
Proof.
  intros Hm Ho HT. unfold effectiveTimeout. case_bool_decide; [by left|].
  destruct (ParseFloat header) as [[| |x]|] eqn:Hp; try by left.
  destruct (_ || _) eqn:Hx; [by left|]. bool_simpl.
  rewrite (wrap_i64_id (maxTimeout + offset)) in * by (unfold in_int64, min_int64, max_int64; lia).
  assert (repr x) as Hr by (by eapply ParseFloat_repr).
  assert (x * Second ≤ (maxTimeout + offset) * unit) as Hle by (apply below_Seconds; [lia|done|lia]).
  pose proof (to_nanoseconds_le x (maxTimeout + offset) ltac:(lia) ltac:(lia) Hle) as Hns.
  remember (f64_to_int (f64_mul x (f64_of_int Second))) as n eqn:Hneq.
  rewrite (wrap_i64_id (n - offset)) by (unfold in_int64, min_int64, max_int64; lia).
  destruct (0 <? n - offset) eqn:Hn; bool_simpl; [right|by left].
  exists x. split_and!; done || lia.
Qed.

(** C32: for a bound and an offset whose sum is below 2^53 ns (104 days), the
    timeout of a probe is positive and never above the configured bound,
    whatever the scrape timeout header says; and when the header shortened it,
    the timeout and the offset together end no later than the scrape timeout,
    rounded up to a nanosecond. *)
Theorem effectiveTimeout_bounds header maxTimeout offset :
  0 < maxTimeout → 0 ≤ offset → maxTimeout + offset < 2 ^ 53 →
  let d := effectiveTimeout header maxTimeout offset in
  0 < d ≤ maxTimeout
  ∧ (d ≠ maxTimeout → ∃ x, ParseFloat header = Some (Fin x) ∧ 0 < x ∧ d + offset ≤ ceil_ns x).
Proof.
  intros Hm Ho HT. cbv zeta.
  destruct (effectiveTimeout_cases header maxTimeout offset Hm Ho HT) as [->|(x & Hp & Hx & Hr & Hle & Heq & Hpos)].
  - split; [lia|done].
  - pose proof (to_nanoseconds_le x (maxTimeout + offset) ltac:(lia) ltac:(lia) Hle) as Hns.
    destruct (ceil_ns_spec x) as [Hc1 Hc2]. specialize (Hc2 _ Hle).
    assert (0 ≤ ceil_ns x) by (pose proof unit_pos; unfold Second in *; nia).
    pose proof (to_nanoseconds_le x (ceil_ns x) ltac:(lia) ltac:(lia) Hc1) as Hns2.
    rewrite Heq in *. split; [lia|]. intros _. exists x. split_and!; done || lia.
Qed.

(** ** The allow-list of a configuration file *)

Section Served.
Context {U : UnicodeTables} {UL : UnicodeLaws U} {C : ConfigEnv} `{MapRangeLaws}.

(** The file lets the host and port of a probe through: a pattern of the module,
    or of the file when the module has none, matches the host, and the port is
    one of the module's. *)
Definition pattern_admits (cfg : rawConfig) (adm : admission) : Prop :=
  ∃ rm pat t, declared_modules cfg !! adm.(adm_module) = Some rm
    ∧ pat ∈ inherit nonempty_list rm.(rm_AllowedTargets) cfg.(rc_AllowedTargets)
    ∧ buildTarget pat = Ok t ∧ t ≠ MAllowAll AllowAllMatcher ∧ Match t adm.(adm_host) = true
    ∧ adm.(adm_port) ∈ ports_of (resolved cfg rm).(rm_AllowedPorts)
    ∧ 1 ≤ adm.(adm_port) ≤ 65535.

Lemma admitted_by_a_pattern path modules r adm :
  Load path false = Ok modules → check modules r = Ok adm →
  ∃ data cfg, ReadFile path = Ok data ∧ decode data = Ok cfg ∧ pattern_admits cfg adm.
Proof.
  intros (data & cfg & Hd & Hc & Hall)%Load_Ok (Hm & Hname & _ & _ & Hp & Ht)%check_Ok.
  rewrite <- Hname in Hm. specialize (Hall (adm_module adm)).
  destruct (declared_modules cfg !! adm_module adm) as [rm|] eqn:Hrm; [|congruence].
  destruct Hall as (b & [Hv Hb] & Hl). assert (b = adm_config adm) as -> by congruence.
  apply buildModule_Ok in Hb as (cb & targets & _ & Htargets & Heq). rewrite Heq in Ht, Hp.
  cbn [mod_AllowedTargets mod_AllowedPorts] in Ht, Hp. rewrite targetAllowed_existsb in Ht.
  apply (proj1 (resolve_matches _ _ _ _ Htargets)) in Ht as [[_ Hf]|(pat & t & Hpat & Hbt & Hne & Hmt)]; [by unfold allow_all in Hf|].
  apply elem_of_list_to_set in Hp. destruct Hv as (_ & Hports & _). rewrite list.Forall_forall in Hports.
  exists data, cfg. split_and!; [done..|]. exists rm, pat, t. split_and!; try done; by apply Hports.
Qed.

(** A probe that a loaded configuration admits, without
    --allow-all-targets, goes to a host that a pattern of its module (or of
    the file, when the module has none) matches, on a port of the module. *)
Theorem served_probe_matches_pattern path modules r adm :
  Load path false = Ok modules → check modules r = Ok adm →
  ∃ data cfg, ReadFile path = Ok data ∧ decode data = Ok cfg ∧ pattern_admits cfg adm.
Proof. apply admitted_by_a_pattern. Qed.
End Served.

(** ** Examples, and where the allow-list is wider than it reads *)

Section HttpDemo.
#[local] Existing Instance caseless.
#[local] Existing Instance demo_config_env.
#[local] Existing Instance forward.
#[local] Existing Instance forward_ok.

Definition demo_request (target : gostring) : Request :=
  {| q_module := []; q_target := target; scrape_timeout := "2.5" |}.

Definition demo_admission : admission := {|
  adm_module := DefaultModuleName; adm_config := demo_loaded;
  adm_target := "a.example.com:2222"; adm_host := "a.example.com"; adm_port := 2222 |}.

Lemma demo_check : check demo_modules (demo_request "A.example.com.:2222") = Ok demo_admission.
Proof. vm_compute. reflexivity. Qed.

Lemma demo_ports name m : demo_modules !! name = Some m → 0 ≤ m.(mod_TargetPort) ≤ max_int64.
Proof.
  unfold demo_modules. intros [<- <-]%lookup_singleton_Some. cbn. unfold max_int64. lia.
Qed.

Lemma ensurePort_sound_witness :
  ensurePort "Host.example.com:2222" 22
    = Ok ("host.example.com:2222" : gostring, "host.example.com" : gostring, 2222)
  ∧ (0 ≤ 2222 ≤ max_int64).
Proof.
  split; [vm_compute; reflexivity|].
  destruct (ensurePort_sound "Host.example.com:2222" 22 "host.example.com:2222" "host.example.com" 2222
    ltac:(unfold max_int64; lia) ltac:(vm_compute; reflexivity)) as (_ & _ & H & _). exact H.
Defined.

Lemma check_admits_only_allowed_witness :
  ∃ t, t ∈ demo_loaded.(mod_AllowedTargets) ∧ Match t ("a.example.com" : gostring) = true.
Proof.
  destruct (check_admits_only_allowed demo_modules _ demo_admission demo_ports demo_check)
    as (m & _ & Hm & _ & H & _). rewrite Hm in H. exact H.
Defined.

Lemma recorder_transparent_witness :
  (fold_left rec_call [Write "ok"; WriteHeader 500] newStatusRecorder).(status) = 200.
Proof.
  refine (proj2 (recorder_transparent [Write "ok"; WriteHeader 500] _)).
  intros code. rewrite !elem_of_cons, elem_of_nil. intros [H|[H|[]]]; [discriminate H|].
  injection H as H. rewrite H. reflexivity.
Defined.

Lemma effectiveTimeout_bounds_witness :
  0 < effectiveTimeout "2.5" 10000000000 500000000 ≤ 10000000000.
Proof. exact (proj1 (effectiveTimeout_bounds "2.5" 10000000000 500000000 eq_refl ltac:(lia) ltac:(lia))). Defined.

Lemma served_probe_matches_pattern_witness :
  ∃ pat t, buildTarget pat = Ok t ∧ Match t ("a.example.com" : gostring) = true.
Proof.
  destruct (served_probe_matches_pattern "cfg" demo_modules _ demo_admission demo_load demo_check)
    as (data & cfg & _ & _ & rm & pat & t & _ & _ & H1 & _ & H2 & _). exists pat, t. split; assumption.
Defined.

(** Both matchers for addresses refuse zones, but the wildcard matcher reads a
    zoned IPv6 literal as a host name: with the pattern [*.example.com] alone,
    an address of the requester's choice is admitted and dialed, because its
    zone ends in the parent domain and nothing before that contains a dot. *)
Example zoned_literal_passes_wildcard :
  let target : gostring := "[2001:db8::1%25x.example.com]" in
  let host : gostring := "2001:db8::1%x.example.com" in
  ensurePort target 22 = Ok ("[2001:db8::1%x.example.com]:22" : gostring, host, 22)
  ∧ (match buildTargets [("*.example.com" : gostring)] with
     | Ok ms => targetAllowed host ms | Fail _ => false end) = true
  ∧ (match ParseAddr host with Some (V6 _ z) => Some z | _ => None end) = Some ("x.example.com" : gostring).
Proof. vm_compute. done. Qed.

(** A host pattern that is an address with a trailing dot, and a wildcard with
    numeric labels, match address targets. *)
Example host_patterns_match_addresses :
  (match buildTargets [("192.0.2.1." : gostring)] with
   | Ok ms => targetAllowed "192.0.2.1" ms | Fail _ => false end) = true
  ∧ (match buildTargets [("*.0.2.1" : gostring)] with
     | Ok ms => targetAllowed "192.0.2.1" ms | Fail _ => false end) = true
  ∧ is_some (ParseAddr "192.0.2.1") = true.
Proof. vm_compute. done. Qed.

(** An empty query or fragment is dropped rather than rejected. *)
Example empty_query_accepted :
  ensurePort "example.com?" 22 = ensurePort "example.com" 22
  ∧ ensurePort "example.com#" 22 = ensurePort "example.com" 22
  ∧ is_ok (ensurePort "example.com" 22) = true.
Proof. vm_compute. done. Qed.
End HttpDemo.
