(* ===== verification/TargetForms.v ===== *)
(** * internal/probehttp/probehttp.go: the targets [ensurePort] accepts

    A grammar of targets, without percent signs, queries and fragments, and the
    proof that [ensurePort] accepts exactly these, with the host and the port of
    the grammar; and what follows for the address that is dialed: given back as a
    target it names the same host and port. *)

From S2P Require Import Prelude GoStrings GoNetip GoNet Normalize Target HostKey ProbeHttp.
Open Scope Z_scope.

(** ** The grammar *)

(** A byte of a host name: what a URL host may contain as it is, without the
    colon of the port and the bracket of a literal. *)
Definition host_text_byte (c : ascii) : bool := (128 <=? byte_val c) || host_byte c.
Definition name_char (c : ascii) : bool :=
  host_text_byte c && negb (bool_decide (c = ":"%char)) && negb (bool_decide (c = "["%char)).

(** A host as written, and the host it names. *)
Inductive host_form : gostring → gostring → Prop :=
  | host_name h : forallb name_char h = true → host_form h h
  | host_literal h n : ParseAddr h = Some (V6 n []) → host_form ("["%char :: h ++ ["]"%char]) h.

(** A port as written: none, a bare colon, or decimal digits in int's range. *)
Inductive port_form (defaultPort : Z) : gostring → Z → Prop :=
  | port_none : port_form defaultPort [] defaultPort
  | port_colon : port_form defaultPort [":"%char] defaultPort
  | port_digits ds p :
      ds ≠ [] → forallb is_digit ds = true → Atoi ds = Some p → port_form defaultPort (":"%char :: ds) p.

Section Grammar.
Context {U : UnicodeTables}.

Inductive target_form (defaultPort : Z) : gostring → gostring → Z → Prop :=
  | target_host_port host_text h port_text p :
      host_form host_text h → port_form defaultPort port_text p → Normalize.Hostname h ≠ [] →
      target_form defaultPort (host_text ++ port_text) (Normalize.Hostname h) p.
End Grammar.

(** ** Bytes *)

Lemma host_text_byte_plain c : host_text_byte c = true →
  c ≠ "%"%char ∧ c ≠ "#"%char ∧ c ≠ "?"%char ∧ c ≠ "/"%char ∧ c ≠ "@"%char ∧ is_ctl c = false.
Proof. destruct c as [[] [] [] [] [] [] [] []]; vm_compute; intros ?; split_and!; congruence. Qed.

Lemma digit_host_text c : is_digit c = true → host_text_byte c = true.
Proof. destruct c as [[] [] [] [] [] [] [] []]; vm_compute; intros ?; congruence. Qed.

Lemma addr_char_host_text c : addr_char c = true → host_text_byte c = true ∧ c ≠ "["%char ∧ c ≠ "]"%char.
Proof. destruct c as [[] [] [] [] [] [] [] []]; vm_compute; intros ?; split_and!; congruence. Qed.

Lemma unescape_host_text s : forallb host_text_byte s = true → unescape encodeHost s = Some s.
Proof.
  induction s as [|c s IH]; [done|]. cbn [forallb unescape]. intros [Hc Hs]%andb_true_iff.
  rewrite bool_decide_eq_false_2 by (by apply host_text_byte_plain in Hc as [? _]).
  assert (is_host_mode encodeHost && (byte_val c <? 128) && negb (host_byte c) = false) as ->.
  { unfold host_text_byte in Hc. cbn [is_host_mode andb]. destruct (host_byte c); [apply andb_false_r|].
    rewrite orb_false_r in Hc. rewrite andb_true_r. lia. }
  by rewrite IH.
Qed.

(** Without percent signs nothing is unescaped. *)
Lemma unescape_host_plain s r :
  ("%"%char ∉ s) → unescape encodeHost s = Some r → r = s ∧ forallb host_text_byte s = true.
Proof.
  revert r. induction s as [|c s IH]; intros r Hp; cbn [unescape]; [by intros [= <-]|].
  rewrite bool_decide_eq_false_2 by set_solver. destruct (_ && _) eqn:He; [done|].
  intros H. apply bind_Some in H as (r' & Hr & [= <-]).
  destruct (IH r' ltac:(set_solver) Hr) as [-> Hs]. split; [done|]. cbn [forallb]. rewrite Hs, andb_true_r.
  unfold host_text_byte. cbn [is_host_mode andb] in He. destruct (host_byte c); [apply orb_true_r|].
  rewrite andb_true_r in He. rewrite orb_false_r. lia.
Qed.

Lemma cut_zone_plain s : ("%"%char ∉ s) → cut_zone s = (s, []).
Proof.
  induction s as [|c s IH]; intros Hp; [done|]. cbn [cut_zone].
  destruct (HasPrefix (c :: s) "%25") eqn:Hh.
  - apply HasPrefix_spec in Hh as [r Hr]. injection Hr as -> _. set_solver.
  - rewrite IH by set_solver. done.
Qed.

(** ** Parsing the forms *)

Lemma forallb_elem {A} (P : A → bool) s c : forallb P s = true → c ∈ s → P c = true.
Proof. intros Hs Hc. rewrite forallb_forall in Hs. by apply Hs, list_elem_of_In. Qed.

(** A text of host bytes and one bracket pair is an authority and nothing else. *)
Lemma url_Parse_authority a host :
  forallb host_text_byte a = true → parseHost a = Some host →
  url_Parse a = Some {| User := None; Host := host; Path := []; RawQuery := []; Fragment := []; Opaque := [] |}.
Proof.
  intros Ha Hh.
  assert (Hno : ∀ c, (c = "#"%char ∨ c = "?"%char ∨ c = "/"%char ∨ c = "@"%char) → c ∉ a).
  { intros c Hc Hin. apply forallb_elem with (c := c) in Ha; [|done]. apply host_text_byte_plain in Ha. naive_solver. }
  assert (existsb is_ctl a = false) as Hctl.
  { apply not_true_is_false. intros (c & Hin%list_elem_of_In & Hc)%existsb_exists.
    apply forallb_elem with (c := c) in Ha; [|done]. apply host_text_byte_plain in Ha. naive_solver congruence. }
  unfold url_Parse. rewrite (proj2 (CutByte_None a "#"%char)) by (apply Hno; tauto).
  unfold parse_slashes, cut_query. rewrite Hctl, (proj2 (CutByte_None a "?"%char)) by (apply Hno; tauto).
  assert (∀ B (x y : B), match a with "/"%char :: _ => x | _ => y end = y) as ->.
  { intros B x y. destruct a as [|c a]; [done|]. assert (c ≠ "/"%char) by (intros ->; apply (Hno "/"%char); [tauto|set_solver]).
    by destruct c as [[] [] [] [] [] [] [] []]. }
  rewrite (proj2 (CutByte_None a "/"%char)) by (apply Hno; tauto).
  unfold parseAuthority. rewrite (proj2 (LastCutByte_None a "@"%char)) by (apply Hno; tauto).
  rewrite Hh. reflexivity.
Qed.

Lemma name_char_text h : forallb name_char h = true →
  forallb host_text_byte h = true ∧ (":"%char ∉ h) ∧ ("["%char ∉ h) ∧ ("%"%char ∉ h).
Proof.
  intros Hh. split_and!.
  - rewrite forallb_forall in Hh |- *. intros c Hc. specialize (Hh c Hc). unfold name_char in Hh. by bool_simpl.
  - intros Hin. by apply forallb_elem with (c := ":"%char) in Hh.
  - intros Hin. by apply forallb_elem with (c := "["%char) in Hh.
  - intros Hin. by apply forallb_elem with (c := "%"%char) in Hh.
Qed.

Lemma name_char_of_text h :
  forallb host_text_byte h = true → (":"%char ∉ h) → ("["%char ∉ h) → forallb name_char h = true.
Proof.
  intros Ht Hc Hb. rewrite forallb_forall in Ht |- *. intros c Hin. unfold name_char. rewrite (Ht c Hin).
  apply list_elem_of_In in Hin. rewrite !bool_decide_eq_false_2 by (intros ->; done). done.
Qed.

Lemma port_form_text dp pt p : port_form dp pt p →
  (pt = [] ∨ ∃ ds, pt = ":"%char :: ds ∧ forallb is_digit ds = true)
  ∧ (if bool_decide (drop 1 pt = []) then p = dp else Atoi (drop 1 pt) = Some p).
Proof.
  intros [| |ds p' Hne Hd Ha]; split; try done; [by left|right; by exists []|right; eauto|].
  cbn [drop]. by rewrite bool_decide_eq_false_2.
Qed.

Lemma digits_text ds : forallb is_digit ds = true → forallb host_text_byte ds = true.
Proof.
  intros Hd. rewrite forallb_forall in Hd |- *. intros c Hc. by apply digit_host_text, Hd.
Qed.

(** A port text that may follow a host. *)
Definition port_text (pt : gostring) : Prop := pt = [] ∨ ∃ ds, pt = ":"%char :: ds ∧ forallb is_digit ds = true.

Lemma port_text_ok pt : port_text pt → validOptionalPort pt = true ∧ forallb host_text_byte pt = true
  ∧ ("["%char ∉ pt) ∧ ("]"%char ∉ pt).
Proof.
  intros [->|(ds & -> & Hd)]; [split_and!; [done|done|set_solver|set_solver]|].
  split_and!; cbn [validOptionalPort forallb]; [by rewrite Hd|by rewrite digits_text| |];
    apply not_elem_of_cons; (split; [done|]); by apply digits_no_byte.
Qed.

(** The authority of a name: parsed as written, and split at its colon. *)
Lemma parse_name h pt : forallb name_char h = true → port_text pt →
  parseHost (h ++ pt) = Some (h ++ pt) ∧ splitHostPort (h ++ pt) = (h, drop 1 pt).
Proof.
  intros (Ht & Hc & Hb & _)%name_char_text Hp. pose proof (port_text_ok pt Hp) as (_ & Hpt & Hpb & _).
  assert (unescape encodeHost (h ++ pt) = Some (h ++ pt)) as Hu
    by (apply unescape_host_text; by rewrite forallb_app, Ht, Hpt).
  assert (strip_brackets h = h) as Hs.
  { unfold strip_brackets. destruct (HasPrefix h "[") eqn:E; [|done].
    apply HasPrefix_spec in E as [r ->]. by destruct Hb; apply elem_of_cons; left. }
  unfold parseHost, splitHostPort. rewrite (proj2 (LastCutByte_None (h ++ pt) "["%char)) by set_solver.
  destruct Hp as [->|(ds & -> & Hd)].
  - rewrite app_nil_r in *. rewrite (proj2 (CutByte_None h ":"%char)), (proj2 (LastCutByte_None h ":"%char)) by done.
    rewrite Hs. by split.
  - rewrite (proj2 (CutByte_Some (h ++ ":"%char :: ds) ":"%char h ds)) by done.
    rewrite (proj2 (LastCutByte_Some (h ++ ":"%char :: ds) ":"%char h ds)) by (split; [done|by apply digits_no_byte]).
    cbn [validOptionalPort]. rewrite Hd, Hs. cbn [drop]. by rewrite andb_true_r.
Qed.

Lemma literal_text h n : ParseAddr h = Some (V6 n []) →
  forallb host_text_byte h = true ∧ ("["%char ∉ h) ∧ ("]"%char ∉ h) ∧ ("%"%char ∉ h).
Proof.
  intros Ha. apply ParseAddr_chars in Ha as Hc; [|done]. split_and!.
  - rewrite forallb_forall in Hc |- *. intros c Hin. by apply addr_char_host_text, Hc.
  - intros Hin. apply forallb_elem with (c := "["%char) in Hc; done.
  - intros Hin. apply forallb_elem with (c := "]"%char) in Hc; done.
  - intros Hin. apply forallb_elem with (c := "%"%char) in Hc; done.
Qed.

(** The authority of a literal in brackets. *)
Lemma parse_literal h n pt : ParseAddr h = Some (V6 n []) → port_text pt →
  parseHost ("["%char :: h ++ "]"%char :: pt) = Some ("["%char :: h ++ "]"%char :: pt)
  ∧ splitHostPort ("["%char :: h ++ "]"%char :: pt) = (h, drop 1 pt).
Proof.
  intros Ha Hp. pose proof (port_text_ok pt Hp) as (Hv & _ & Hpb & Hpc).
  destruct (literal_text h n Ha) as (Ht & Hb & Hcl & Hpc').
  split; [|by apply splitHostPort_bracketed]. unfold parseHost.
  rewrite (proj2 (LastCutByte_Some ("["%char :: h ++ "]"%char :: pt) "["%char [] (h ++ "]"%char :: pt)))
    by (split; [done|set_solver]).
  unfold parseIPLiteral.
  rewrite (proj2 (LastCutByte_Some ("["%char :: h ++ "]"%char :: pt) "]"%char ("["%char :: h) pt)) by done.
  cbn [mbind option_bind]. rewrite Hv. cbn [negb drop]. rewrite drop_0, cut_zone_plain by done.
  rewrite (unescape_host_text h Ht). cbn [mbind option_bind unescape]. by rewrite app_nil_r, Ha.
Qed.

(** ** [ensurePort] on the forms *)

Section Forms.
Context {U : UnicodeTables}.

Lemma host_form_parse ht h pt : host_form ht h → port_text pt →
  forallb host_text_byte (ht ++ pt) = true
  ∧ parseHost (ht ++ pt) = Some (ht ++ pt) ∧ splitHostPort (ht ++ pt) = (h, drop 1 pt).
Proof.
  intros Hf Hp. pose proof (port_text_ok pt Hp) as (_ & Ht & _). split; [|destruct Hf as [h Hh|h n Hh]].
  - rewrite forallb_app, Ht, andb_true_r. destruct Hf as [h Hh|h n Hh]; [exact (proj1 (name_char_text h Hh))|].
    apply literal_text in Hh as [Hh _]. cbn [forallb]. by rewrite forallb_app, Hh.
  - by apply parse_name.
  - rewrite <- app_comm_cons, <- app_assoc. by eapply parse_literal.
Qed.

Lemma ensurePort_form dp target h p :
  target_form dp target h p → ensurePort target dp = Ok (JoinHostPort h (Itoa p), h, p).
Proof.
  intros [ht h0 pt p0 Hh Hp Hne]. apply port_form_text in Hp as [Hpt Hport].
  destruct (host_form_parse ht h0 pt Hh Hpt) as (Ht & Ha & Hs).
  unfold ensurePort. rewrite (url_Parse_authority _ _ Ht Ha). cbn [User Path RawQuery Fragment Opaque is_some].
  unfold GoNet.Hostname, Port. cbn [Host]. rewrite Hs. cbn [fst snd].
  rewrite !bool_decide_eq_true_2 by done. cbn [negb orb]. rewrite bool_decide_eq_false_2 by done.
  destruct (bool_decide (drop 1 pt = [])); [by subst|]. by rewrite Hport.
Qed.

(** A bare authority without percent signs is of the grammar. *)
Lemma parseHost_form a host h p0 :
  ("%"%char ∉ a) → parseHost a = Some host → splitHostPort host = (h, p0) →
  ∃ ht pt, a = ht ++ pt ∧ host_form ht h ∧ port_text pt ∧ p0 = drop 1 pt.
Proof.
  intros Hp Ha Hs. unfold parseHost in Ha.
  destruct (LastCutByte a "["%char) as [[[|x b] r]|] eqn:Hl; [|done|].
  - apply LastCutByte_Some in Hl as [-> Hr]. unfold parseIPLiteral in Ha.
    apply bind_Some in Ha as ([before cp] & Hcut & Ha). apply LastCutByte_Some in Hcut as [Heq Hcp].
    destruct (validOptionalPort cp) eqn:Hv; [|done]. cbn [negb] in Ha.
    destruct before as [|y inner]; [done|]. injection Heq as <- ->. cbn [drop] in Ha. rewrite drop_0 in Ha.
    rewrite cut_zone_plain in Ha by set_solver.
    apply bind_Some in Ha as (h' & Hu & Ha). cbn [unescape mbind option_bind] in Ha.
    apply unescape_host_plain in Hu as [-> _]; [|set_solver]. rewrite app_nil_r in Ha.
    destruct (ParseAddr inner) as [[|n z]|] eqn:Hip; [done| |done]. injection Ha as <-.
    rewrite splitHostPort_bracketed in Hs by done. injection Hs as <- <-.
    destruct (decide (z = [])) as [->|Hz]; [|exfalso; apply ParseAddr_zone_percent in Hip; [set_solver|done]].
    exists ("["%char :: inner ++ ["]"%char]), cp. split_and!; [by rewrite <- app_comm_cons, <- app_assoc|by econstructor| |done].
    destruct cp as [|c ds]; [by left|]. cbn [validOptionalPort] in Hv. apply andb_true_iff in Hv as [->%bool_decide_eq_true Hd].
    right. eauto.
  - apply LastCutByte_None in Hl.
    assert (unescape encodeHost a = Some host ∧ ∀ b ds, CutByte a ":"%char = Some (b, ds) → forallb is_digit ds = true) as [Hu Hd].
    { destruct (CutByte a ":"%char) as [[b ds]|]; [|done]. cbn [validOptionalPort] in Ha.
      destruct (forallb is_digit ds) eqn:Hd; [|by rewrite andb_false_r in Ha]. rewrite andb_true_r in Ha.
      rewrite bool_decide_eq_true_2 in Ha by done. split; [done|]. by intros ?? [= <- <-]. }
    apply unescape_host_plain in Hu as [-> Ht]; [|done].
    destruct (CutByte a ":"%char) as [[b ds]|] eqn:Hc.
    + apply CutByte_Some in Hc as [-> Hb]. specialize (Hd b ds eq_refl).
      rewrite forallb_app in Ht. apply andb_true_iff in Ht as [Ht _].
      assert (forallb name_char b = true) as Hn by (apply name_char_of_text; [done..|set_solver]).
      destruct (parse_name b (":"%char :: ds) Hn) as [_ Hs']; [right; eauto|]. rewrite Hs' in Hs. injection Hs as <- <-.
      exists b, (":"%char :: ds). split_and!; [done|by constructor|right; eauto|done].
    + apply CutByte_None in Hc. assert (forallb name_char a = true) as Hn by by apply name_char_of_text.
      destruct (parse_name a [] Hn) as [_ Hs']; [by left|]. rewrite app_nil_r in Hs'. rewrite Hs' in Hs. injection Hs as <- <-.
      exists a, []. split_and!; [by rewrite app_nil_r|by constructor|by left|done].
Qed.

Lemma ensurePort_parsed target dp t h p :
  ensurePort target dp = Ok (t, h, p) → ("%"%char ∉ target) →
  ∃ a q f ht h0 pt, target = a ++ q ++ f ∧ (q = [] ∨ q = ["?"%char]) ∧ (f = [] ∨ f = ["#"%char])
    ∧ a = ht ++ pt ∧ host_form ht h0 ∧ port_form dp pt p
    ∧ h = Normalize.Hostname h0 ∧ h ≠ [] ∧ t = JoinHostPort h (Itoa p).
Proof.
  intros (u & Hu & HU & HP & HQ & HF & Hh & Hne & Hport & ->)%ensurePort_Ok Hpc.
  destruct (url_Parse_bare target u Hu HU HP HQ HF) as (a & q & f & -> & Hq & Hf & _ & _ & _ & _ & Ha).
  unfold GoNet.Hostname, Port in *. destruct (splitHostPort (Host u)) as [h0 p0] eqn:Hs. cbn in Hh, Hport.
  destruct (parseHost_form a (Host u) h0 p0) as (ht & pt & Heq & Hform & Hpt & ->); [set_solver|done..|].
  exists a, q, f, ht, h0, pt. split_and!; try done.
  destruct Hpt as [->|(ds & -> & Hd)]; cbn [drop] in Hport; rewrite ?drop_0 in Hport.
  - rewrite bool_decide_eq_true_2 in Hport by done. subst. constructor.
  - case_bool_decide as Hds; [rewrite Hds, Hport; constructor|by apply port_digits].
Qed.

(** C19: a target without percent sign, query and fragment is accepted exactly
    when it is a host name or an IPv6 literal in brackets, followed by nothing, a
    colon or a colon and decimal digits in range; and then its host is that
    host in canonical form and its port that number, or else the default. *)
Theorem ensurePort_iff_grammar target dp t h p :
  ("%"%char ∉ target) → ("?"%char ∉ target) → ("#"%char ∉ target) →
  ensurePort target dp = Ok (t, h, p) ↔ target_form dp target h p ∧ t = JoinHostPort h (Itoa p).
Proof.
  intros Hp Hq Hf. split.
  - intros (a & q & f & ht & h0 & pt & -> & Hq' & Hf' & -> & Hform & Hport & -> & Hne & ->)%ensurePort_parsed; [|done].
    split; [|done]. destruct Hq' as [-> | ->]; [|exfalso; apply Hq; rewrite !elem_of_app; right; left; apply list_elem_of_here].
    destruct Hf' as [-> | ->]; [|exfalso; apply Hf; rewrite !elem_of_app; right; right; apply list_elem_of_here].
    rewrite !app_nil_r. by econstructor.
  - intros [Hform ->]. by apply ensurePort_form.
Qed.

(** ** Dialing and asking again *)

Context {UL : UnicodeLaws U}.

Lemma canonical_name h0 : forallb name_char h0 = true → forallb name_char (Normalize.Hostname h0) = true.
Proof.
  intros Hn. rewrite forallb_forall. intros c Hin%list_elem_of_In. unfold name_char, host_text_byte.
  destruct (Z.leb_spec 128 (byte_val c)) as [Hc|Hc].
  - rewrite !bool_decide_eq_false_2; [done|intros ->; by vm_compute in Hc..].
  - destruct (is_lower c) eqn:Hl; [by destruct c as [[] [] [] [] [] [] [] []]|].
    apply Hostname_elem_inv in Hin; [|done..]. apply forallb_elem with (c := c) in Hn; [|done].
    unfold name_char, host_text_byte in Hn. by rewrite (proj2 (Z.leb_gt 128 (byte_val c)) Hc) in Hn.
Qed.

Lemma canonical_literal h0 n : ParseAddr h0 = Some (V6 n []) →
  ParseAddr (Normalize.Hostname h0) = Some (V6 n []) ∧ (":"%char ∈ Normalize.Hostname h0).
Proof.
  intros Ha. destruct (literal_text h0 n Ha) as (_ & _ & _ & Hp). pose proof (ParseAddr_chars _ _ Ha eq_refl) as Hc.
  assert (is_ascii h0 = true) as Hascii.
  { unfold is_ascii. rewrite forallb_forall in Hc |- *. intros c Hin. specialize (Hc c Hin).
    by destruct c as [[] [] [] [] [] [] [] []]. }
  assert (Normalize.Hostname h0 = map lower_byte h0) as ->.
  { unfold Normalize.Hostname. destruct (TrimSuffix_dot h0) as [->|Hd]; [by apply ToLower_ascii|].
    rewrite Hd in Ha. by apply ParseAddr_dot in Ha. }
  assert (ParseAddr (map lower_byte h0) = Some (V6 n [])) as Hl by by rewrite ParseAddr_lower.
  split; [done|]. apply ParseAddr_colon in Hl. done.
Qed.

(** C20: of a target without a percent sign, which stands before the zone of an
    address, the address a probe dials, given back as a target, is accepted as the
    same host and port, and dials the same address again, for every host that is
    in canonical form. *)
Theorem ensurePort_roundtrip target dp dp' t h p :
  0 ≤ dp ≤ max_int64 → ("%"%char ∉ target) → Normalize.Hostname h = h →
  ensurePort target dp = Ok (t, h, p) → ensurePort t dp' = Ok (t, h, p).
Proof.
  intros Hdp Hpc Hcanon He. apply ensurePort_spec in He as Hr; [|done]. destruct Hr as (_ & _ & Hp & _).
  apply ensurePort_parsed in He as (a & q & f & ht & h0 & pt & _ & _ & _ & _ & Hform & _ & -> & Hne & ->); [|done].
  destruct (Itoa_nonneg p) as (Hd & Hdne & _); [unfold max_int64 in Hp; lia|].
  assert (port_form dp' (":"%char :: Itoa p) p) as Hport by (constructor; [done..|by apply Atoi_Itoa]).
  assert (∃ ht', host_form ht' (Normalize.Hostname h0)
    ∧ JoinHostPort (Normalize.Hostname h0) (Itoa p) = ht' ++ ":"%char :: Itoa p) as (ht' & Hf' & Heq).
  { unfold JoinHostPort. destruct Hform as [h0 Hn|h0 n Ha].
    - apply canonical_name in Hn. exists (Normalize.Hostname h0). split; [by constructor|].
      apply name_char_text in Hn as (_ & Hc & _). by rewrite (proj2 (ContainsByte_false _ _) Hc).
    - apply canonical_literal in Ha as [Ha Hc]. exists ("["%char :: Normalize.Hostname h0 ++ ["]"%char]).
      split; [by econstructor|]. rewrite (proj2 (ContainsByte_true _ _) Hc). by rewrite <- app_comm_cons, <- app_assoc. }
  assert (target_form dp' (ht' ++ ":"%char :: Itoa p) (Normalize.Hostname (Normalize.Hostname h0)) p) as Hagain
    by (constructor; [done..|by rewrite Hcanon]).
  rewrite Hcanon in Hagain. apply ensurePort_form in Hagain. by rewrite <- Heq in Hagain.
Qed.
End Forms.

(** ** Targets as they are sent *)

Section FormsDemo.
#[local] Existing Instance caseless.

Lemma ensurePort_iff_grammar_witness :
  target_form 22 "[2001:DB8::1]:2222" "2001:db8::1" 2222.
Proof.
  refine (proj1 (proj1 (ensurePort_iff_grammar "[2001:DB8::1]:2222" 22 "[2001:db8::1]:2222" "2001:db8::1" 2222 _ _ _) _));
    [apply (bool_decide_eq_true_1 _); vm_compute; reflexivity..|vm_compute; reflexivity].
Defined.

Lemma ensurePort_roundtrip_witness :
  ensurePort "[2001:db8::1]:22" 2222 = Ok ("[2001:db8::1]:22" : gostring, "2001:db8::1" : gostring, 22).
Proof.
  refine (ensurePort_roundtrip "[2001:DB8::1]" 22 2222 "[2001:db8::1]:22" "2001:db8::1" 22 _ _ _ _);
    [unfold max_int64; lia|apply (bool_decide_eq_true_1 _); vm_compute; reflexivity|vm_compute; reflexivity..].
Defined.

(** The address dialed for a zoned literal is no target: its percent sign would
    have to be escaped again. *)
Example zone_does_not_roundtrip :
  ensurePort "[fe80::1%25eth0]" 22 = Ok ("[fe80::1%eth0]:22" : gostring, "fe80::1%eth0" : gostring, 22)
  ∧ is_ok (ensurePort "[fe80::1%eth0]:22" 22) = false.
Proof. split; vm_compute; reflexivity. Qed.

(** A second trailing dot is only dropped the second time. *)
Example two_dots :
  ensurePort "example.com.." 22 = Ok ("example.com.:22" : gostring, "example.com." : gostring, 22)
  ∧ ensurePort "example.com.:22" 22 = Ok ("example.com:22" : gostring, "example.com" : gostring, 22).
Proof. split; vm_compute; reflexivity. Qed.
End FormsDemo.
