(* ===== verification/ProbeServe.v ===== *)
(** * internal/probehttp/probehttp.go: the /probe handler, concurrently

    net/http runs the handler in a goroutine per request.  A request moves through
    the phases below; the semaphore, the gauge, the counter and the live
    configuration are shared.  Each step is one access to shared state, so every
    interleaving of requests, and of reloads with them, is a path. *)

From S2P Require Import Prelude GoStrings GoFloat GoErrors Target HostKey Identification Probe ProbeRun Collector Config ProbeHttp.
From stdpp Require Import relations.
Open Scope Z_scope.

Abbreviation counters := (gmap (gostring * gostring) Z).

(** [requests.WithLabelValues(module, strconv.Itoa(code)).Inc()] *)
Definition count (requests : counters) (moduleName : gostring) (code : Z) : counters :=
  let key := (moduleName, Itoa code) in <[key := default 0 (requests !! key) + 1]> requests.

Record HandlerOptions := {
  Timeout : Z;
  TimeoutOffset : Z;
  MaxConcurrent : Z
}.

(** The phases of one request; the admitted ones hold what the deferred calls
    give back. *)
Inductive phase :=
  | Received (r : Request)
  | Allowed (r : Request) (adm : admission)      (* checked, before the semaphore *)
  | Acquired (r : Request) (adm : admission)      (* holds a slot *)
  | Running (r : Request) (adm : admission) (timeout : Z)  (* the probe runs *)
  | Served (adm : admission) (code : option Z)    (* counted, or unwinding a panic *)
  | Releasing (adm : admission) (code : option Z) (* after inFlight.Dec *)
  | Done (code : option Z).                       (* [None] after a panic *)

Record world := mkWorld {
  live : gmap gostring Module_;
  sem : Z;                       (* how many slots of the channel are filled *)
  inFlight : Z;
  requests : counters;
  threads : gmap nat phase
}.

(** The [select] on the semaphore: a nil channel means no limit. *)
Definition acquire (max n : Z) : option Z :=
  if max <=? 0 then Some n else if n <? max then Some (n + 1) else None.
Definition release (max n : Z) : Z := if max <=? 0 then n else n - 1.

Definition set_phase (w : world) (i : nat) (p : phase) : gmap nat phase := <[i := p]> w.(threads).

Section Serve.
Context {U : UnicodeTables} (opts : HandlerOptions).
(** What promhttp does with the response writer, having gathered the metrics
    of the probe, and whether it panics. *)
Context (promhttp : admission → Z → list writer_call → bool → Prop).

Inductive step : world → world → Prop :=
  | step_arrive w i r :
      w.(threads) !! i = None →
      step w (mkWorld w.(live) w.(sem) w.(inFlight) w.(requests) (set_phase w i (Received r)))
  | step_reload w modules :
      step w (mkWorld modules w.(sem) w.(inFlight) w.(requests) w.(threads))
  | step_reject w i r rej :
      w.(threads) !! i = Some (Received r) → check w.(live) r = Fail rej →
      step w (mkWorld w.(live) w.(sem) w.(inFlight) (count w.(requests) rej.(rej_module) rej.(rej_code))
                (set_phase w i (Done (Some rej.(rej_code)))))
  | step_admit w i r adm :
      w.(threads) !! i = Some (Received r) → check w.(live) r = Ok adm →
      step w (mkWorld w.(live) w.(sem) w.(inFlight) w.(requests) (set_phase w i (Allowed r adm)))
  | step_busy w i r adm :
      w.(threads) !! i = Some (Allowed r adm) → acquire opts.(MaxConcurrent) w.(sem) = None →
      step w (mkWorld w.(live) w.(sem) w.(inFlight)
                (count w.(requests) adm.(adm_module) StatusServiceUnavailable)
                (set_phase w i (Done (Some StatusServiceUnavailable))))
  | step_acquire w i r adm n :
      w.(threads) !! i = Some (Allowed r adm) → acquire opts.(MaxConcurrent) w.(sem) = Some n →
      step w (mkWorld w.(live) n w.(inFlight) w.(requests) (set_phase w i (Acquired r adm)))
  | step_start w i r adm :
      w.(threads) !! i = Some (Acquired r adm) →
      step w (mkWorld w.(live) w.(sem) (w.(inFlight) + 1) w.(requests)
                (set_phase w i (Running r adm
                   (effectiveTimeout r.(scrape_timeout) opts.(Timeout) opts.(TimeoutOffset)))))
  | step_serve w i r adm timeout calls :
      w.(threads) !! i = Some (Running r adm timeout) → promhttp adm timeout calls false →
      let code := (fold_left rec_call calls newStatusRecorder).(status) in
      step w (mkWorld w.(live) w.(sem) w.(inFlight) (count w.(requests) adm.(adm_module) code)
                (set_phase w i (Served adm (Some code))))
  | step_panic w i r adm timeout calls :
      w.(threads) !! i = Some (Running r adm timeout) → promhttp adm timeout calls true →
      step w (mkWorld w.(live) w.(sem) w.(inFlight) w.(requests) (set_phase w i (Served adm None)))
  | step_dec w i adm code :
      w.(threads) !! i = Some (Served adm code) →
      step w (mkWorld w.(live) w.(sem) (w.(inFlight) - 1) w.(requests) (set_phase w i (Releasing adm code)))
  | step_release w i adm code :
      w.(threads) !! i = Some (Releasing adm code) →
      step w (mkWorld w.(live) (release opts.(MaxConcurrent) w.(sem)) w.(inFlight) w.(requests)
                (set_phase w i (Done code))).

(** The handler as first called, before any request. *)
Definition initial (modules : gmap gostring Module_) : world := mkWorld modules 0 0 ∅ ∅.

Definition reachable (w : world) : Prop := ∃ modules, rtc step (initial modules) w.
End Serve.

(** ** Counting requests by phase *)

Definition holds_slot (p : phase) : bool :=
  match p with Acquired _ _ | Running _ _ _ | Served _ _ | Releasing _ _ => true | _ => false end.
Definition in_probe (p : phase) : bool :=
  match p with Running _ _ _ | Served _ _ => true | _ => false end.
Definition is_counted (p : phase) : bool :=
  match p with Served _ (Some _) | Releasing _ (Some _) | Done (Some _) => true | _ => false end.

Definition tally {K A} `{Countable K} (f : A → Z) (m : gmap K A) : Z := map_fold (λ _ x n, f x + n) 0 m.

Section Tally.
Context {K A : Type} `{Countable K} (f : A → Z).
Implicit Types (m : gmap K A).

Lemma tally_empty : tally f (∅ : gmap K A) = 0.
Proof. apply map_fold_empty. Qed.

Lemma tally_insert_new m k x : m !! k = None → tally f (<[k := x]> m) = f x + tally f m.
Proof. intros Hk. unfold tally. rewrite map_fold_insert_L; [done|intros; lia|done]. Qed.

Lemma tally_insert m k x y : m !! k = Some y → tally f (<[k := x]> m) + f y = f x + tally f m.
Proof.
  intros Hk. rewrite <- (insert_delete_eq m k x), tally_insert_new by apply lookup_delete_eq.
  rewrite <- (insert_delete_id m k y Hk) at 2. rewrite tally_insert_new by apply lookup_delete_eq. lia.
Qed.

Lemma tally_nonneg m : (∀ x, 0 ≤ f x) → 0 ≤ tally f m.
Proof.
  intros Hf. induction m as [|k x m Hk IH] using map_ind; [by rewrite tally_empty|].
  rewrite tally_insert_new by done. specialize (Hf x). lia.
Qed.
End Tally.

Lemma tally_le {K A} `{Countable K} (f g : A → Z) (m : gmap K A) : (∀ x, f x ≤ g x) → tally f m ≤ tally g m.
Proof.
  intros Hf. induction m as [|k x m Hk IH] using map_ind; [by rewrite !tally_empty|].
  rewrite !tally_insert_new by done. specialize (Hf x). lia.
Qed.

Definition how_many (P : phase → bool) (m : gmap nat phase) : Z := tally (λ p, Z.b2z (P p)) m.
Definition total (m : counters) : Z := tally (λ n, n) m.

Lemma total_count m module_ code : total (count m module_ code) = total m + 1.
Proof.
  unfold total, count. destruct (m !! (module_, Itoa code)) as [n|] eqn:Hk; cbn [default from_option id].
  - pose proof (tally_insert (λ n : Z, n) m _ (n + 1) n Hk) as Ht. cbv beta in Ht. cbn. lia.
  - rewrite tally_insert_new by done. cbn. lia.
Qed.

Section Invariant.
Context {U : UnicodeTables} (opts : HandlerOptions)
        (promhttp : admission → Z → list writer_call → bool → Prop).

(** The books of the handler. *)
Definition books (w : world) : Prop :=
  w.(sem) = (if opts.(MaxConcurrent) <=? 0 then 0 else how_many holds_slot w.(threads))
  ∧ (0 < opts.(MaxConcurrent) → w.(sem) ≤ opts.(MaxConcurrent))
  ∧ w.(inFlight) = how_many in_probe w.(threads)
  ∧ total w.(requests) = how_many is_counted w.(threads).

Lemma books_initial modules : books (initial modules).
Proof.
  unfold books, initial, how_many, total. cbn. rewrite !tally_empty. split_and!; try done; [|lia].
  by case_match.
Qed.

Lemma how_many_new P m i p : m !! i = None → how_many P (<[i := p]> m) = Z.b2z (P p) + how_many P m.
Proof. apply (tally_insert_new (λ p, Z.b2z (P p))). Qed.

Lemma how_many_move P m i p q : m !! i = Some q →
  how_many P (<[i := p]> m) = how_many P m + Z.b2z (P p) - Z.b2z (P q).
Proof. intros Hq. pose proof (tally_insert (λ p, Z.b2z (P p)) m i p q Hq) as Ht. cbv beta in Ht. unfold how_many. lia. Qed.

Lemma books_step w w' : books w → step opts promhttp w w' → books w'.
Proof.
  unfold books. intros (Hs & Hmax & Hf & Hc) Hstep.
  inversion Hstep; subst; unfold set_phase; cbn [sem inFlight requests threads live];
    try match goal with H : threads w !! _ = Some _ |- _ => rewrite !(how_many_move _ _ _ _ _ H) end;
    try match goal with H : threads w !! _ = None |- _ => rewrite !how_many_new by done end;
    rewrite ?total_count; cbn [holds_slot in_probe is_counted Z.b2z];
    unfold acquire, release in *;
    destruct (Z.leb_spec (MaxConcurrent opts) 0); simplify_eq;
    try (case_match; bool_simpl; simplify_eq);
    try (match goal with c : option Z |- _ => destruct c end; cbn [is_counted Z.b2z]);
    split_and!; intros; try lia.
Qed.

Lemma reachable_books w : reachable opts promhttp w → books w.
Proof.
  intros (modules & Hr). pose proof (books_initial modules) as Hb.
  induction Hr as [|w1 w2 w3 Hs _ IH]; [done|]. apply IH. by eapply books_step.
Qed.
End Invariant.

(** ** The whole handler, run alone *)

Section Handler.
Context {U : UnicodeTables} (opts : HandlerOptions).
Context (run : admission → Z → list writer_call).

(** Lines 69-127 for one request: the new shared state and the status. *)
Definition Handler (w : world) (r : Request) : world * Z :=
  match check w.(live) r with
  | Fail rej =>
      (mkWorld w.(live) w.(sem) w.(inFlight) (count w.(requests) rej.(rej_module) rej.(rej_code)) w.(threads),
       rej.(rej_code))
  | Ok adm =>
      match acquire opts.(MaxConcurrent) w.(sem) with
      | None =>
          (mkWorld w.(live) w.(sem) w.(inFlight)
             (count w.(requests) adm.(adm_module) StatusServiceUnavailable) w.(threads),
           StatusServiceUnavailable)
      | Some n =>
          let inFlight1 := w.(inFlight) + 1 in
          let timeout := effectiveTimeout r.(scrape_timeout) opts.(Timeout) opts.(TimeoutOffset) in
          let rec := fold_left rec_call (run adm timeout) newStatusRecorder in
          let requests1 := count w.(requests) adm.(adm_module) rec.(status) in
          (mkWorld w.(live) (release opts.(MaxConcurrent) n) (inFlight1 - 1) requests1 w.(threads),
           rec.(status))
      end
  end.

Definition with_thread (w : world) (i : nat) (p : phase) : world :=
  mkWorld w.(live) w.(sem) w.(inFlight) w.(requests) (set_phase w i p).
End Handler.

Lemma set_phase_twice l s f q w i p p' :
  set_phase (mkWorld l s f q (set_phase w i p)) i p' = set_phase w i p'.
Proof. unfold set_phase. cbn. apply insert_insert_eq. Qed.

Lemma lookup_set_phase w i p : set_phase w i p !! i = Some p.
Proof. apply lookup_insert_eq. Qed.

Section ServeProperties.
Context {U : UnicodeTables} (opts : HandlerOptions)
        (promhttp : admission → Z → list writer_call → bool → Prop).

Abbreviation step := (step opts promhttp).
Abbreviation reachable := (reachable opts promhttp).

Definition is_running (p : phase) : bool := match p with Running _ _ _ => true | _ => false end.
Definition is_done (p : phase) : bool := match p with Done _ => true | _ => false end.

Lemma how_many_le (P Q : phase → bool) m : (∀ p, P p = true → Q p = true) → how_many P m ≤ how_many Q m.
Proof.
  intros HPQ. apply tally_le. intros p. specialize (HPQ p). destruct (P p), (Q p); cbn; try lia; naive_solver.
Qed.

Lemma how_many_none (P : phase → bool) m : (∀ i p, m !! i = Some p → P p = false) → how_many P m = 0.
Proof.
  unfold how_many. induction m as [|i p m Hi IH] using map_ind; intros Hall; [apply tally_empty|].
  rewrite tally_insert_new, (Hall i p) by (done || apply lookup_insert_eq). cbn.
  apply IH. intros j q Hj. apply (Hall j). rewrite lookup_insert_ne; [done|]. intros ->. congruence.
Qed.

Lemma running_bounded w :
  reachable w → 0 < opts.(MaxConcurrent) → how_many is_running w.(threads) ≤ opts.(MaxConcurrent).
Proof.
  intros (Hs & Hm & _)%reachable_books Hmax. rewrite (proj2 (Z.leb_gt _ _) Hmax) in Hs.
  assert (how_many is_running w.(threads) ≤ how_many holds_slot w.(threads)) by (apply how_many_le; by intros []).
  specialize (Hm Hmax). lia.
Qed.

(** C9: with a limit configured, at most that many probes run at once, in every
    interleaving of requests, rejections, panics and reloads; the gauge is the
    number of requests between its increment and its decrement, and never
    exceeds the slots taken. *)
Theorem concurrency_bounded w :
  reachable w → 0 < opts.(MaxConcurrent) →
  how_many is_running w.(threads) ≤ w.(inFlight) ≤ w.(sem)
  ∧ w.(sem) ≤ opts.(MaxConcurrent)
  ∧ w.(inFlight) = how_many in_probe w.(threads).
Proof.
  intros (Hs & Hm & Hf & _)%reachable_books Hmax. rewrite (proj2 (Z.leb_gt _ _) Hmax) in Hs.
  rewrite Hs, Hf. split_and!; [| |rewrite <- Hs; by apply Hm|done]; apply how_many_le; by intros [].
Qed.

(** C10: nothing leaks: once every request is done, no slot is taken and the
    gauge is zero, also after probes that panicked; and each request that ended
    with a status was counted exactly once. *)
Theorem quiescent_balanced w :
  reachable w → (∀ i p, w.(threads) !! i = Some p → is_done p = true) →
  w.(sem) = 0 ∧ w.(inFlight) = 0 ∧ total w.(requests) = how_many is_counted w.(threads).
Proof.
  intros (Hs & _ & Hf & Hc)%reachable_books Hdone.
  assert (∀ P : phase → bool, (∀ c, P (Done c) = false) → how_many P w.(threads) = 0) as Hz.
  { intros P HP. apply how_many_none. intros i p Hi. specialize (Hdone i p Hi). by destruct p. }
  split_and!; [rewrite Hs; case_match; [done|by apply Hz]|rewrite Hf; by apply Hz|done].
Qed.

(** The checks a request in or past the probe has passed. *)
Definition passed_checks (w : world) : Prop :=
  ∀ i p, w.(threads) !! i = Some p →
    match p with
    | Allowed r adm | Acquired r adm => ∃ modules, check modules r = Ok adm
    | Running r adm t => (∃ modules, check modules r = Ok adm)
        ∧ t = effectiveTimeout r.(scrape_timeout) opts.(Timeout) opts.(TimeoutOffset)
    | _ => True
    end.

Lemma passed_checks_reachable w : reachable w → passed_checks w.
Proof.
  intros (modules & Hr). assert (passed_checks (initial modules)) as H0 by (intros i p; cbn; by rewrite lookup_empty).
  induction Hr as [|w1 w2 w3 Hs _ IH]; [done|]. apply IH. clear IH.
  inversion Hs; subst; intros j p; cbn [threads]; unfold set_phase; try apply H0;
    (destruct (decide (j = i)) as [->|]; [rewrite lookup_insert_eq; intros [= <-]|rewrite lookup_insert_ne by done; apply H0]);
    try done; eauto;
    match goal with H : threads _ !! _ = Some _ |- _ => specialize (H0 _ _ H); cbn in H0 end; eauto.
Qed.

(** Every probe that runs was admitted by the checks against a configuration
    that was live, and is bounded by the timeout of its request. *)
Theorem running_probes_admitted w i r adm t :
  reachable w → w.(threads) !! i = Some (Running r adm t) →
  (∃ modules, check modules r = Ok adm)
  ∧ t = effectiveTimeout r.(scrape_timeout) opts.(Timeout) opts.(TimeoutOffset).
Proof. intros Hr Hi. exact (passed_checks_reachable w Hr i _ Hi). Qed.

(** The module labels the counter may have: configured names, or none. *)
Definition labels_within (names : gset gostring) (w : world) : Prop :=
  (dom w.(live) ⊆ names)
  ∧ (∀ i p, w.(threads) !! i = Some p → match p with
       | Allowed _ adm | Acquired _ adm | Running _ adm _ => adm.(adm_module) ∈ names | _ => True end)
  ∧ (∀ key n, w.(requests) !! key = Some n →
       key.1 ∈ names ∨ key = (moduleUnresolved, Itoa StatusBadRequest)).

Definition step_within (names : gset gostring) (w w' : world) : Prop :=
  step w w' ∧ dom w'.(live) ⊆ names.

Lemma check_module modules r :
  match check modules r with
  | Ok adm => adm.(adm_module) ∈ dom modules
  | Fail rej => rej.(rej_module) ∈ dom modules ∨ (rej.(rej_module), rej.(rej_code)) = (moduleUnresolved, StatusBadRequest)
  end.
Proof.
  unfold check. set (name := if bool_decide _ then _ else _).
  destruct (modules !! name) as [m|] eqn:Hm; [|by right]. apply elem_of_dom_2 in Hm.
  repeat (case_match; simplify_eq; try by left); done.
Qed.

Lemma count_lookup m name code key n : count m name code !! key = Some n →
  key = (name, Itoa code) ∨ ∃ n', m !! key = Some n'.
Proof. unfold count. intros [[<- _]|[_ H]]%lookup_insert_Some; eauto. Qed.

(** C35: the requests counter has bounded cardinality: whatever requests arrive,
    its module label is a configured module, or empty with status 400. *)
Theorem counter_labels_bounded names modules w :
  dom modules ⊆ names → rtc (step_within names) (initial modules) w →
  ∀ key n, w.(requests) !! key = Some n →
    key.1 ∈ names ∨ key = (moduleUnresolved, Itoa StatusBadRequest).
Proof.
  intros Hn Hr. enough (labels_within names w) as (_ & _ & H) by exact H.
  assert (labels_within names (initial modules)) as H0.
  { split_and!; [done|..]; intros *; cbn; by rewrite lookup_empty. }
  induction Hr as [|w1 w2 w3 [Hs Hd] _ IH]; [done|]. apply IH. clear IH Hn.
  destruct H0 as (Hl & Ht & Hc). split_and!; [done|..].
  - intros j p. inversion Hs; subst; cbn [threads]; unfold set_phase; try apply Ht;
      (destruct (decide (j = i)) as [->|]; [rewrite lookup_insert_eq; intros [= <-]|rewrite lookup_insert_ne by done; apply Ht]);
      try done; try (match goal with H : threads _ !! _ = Some _ |- _ => by specialize (Ht _ _ H) end).
    pose proof (check_module (live w1) r) as Hm. match goal with H : check _ _ = Ok _ |- _ => rewrite H in Hm end.
    set_solver.
  - intros key n. inversion Hs; subst; cbn [requests]; try apply Hc;
      (intros [->|[n' Hn']]%count_lookup; [|by eapply Hc]); cbn [fst].
    + pose proof (check_module (live w1) r) as Hm. match goal with H : check _ _ = Fail _ |- _ => rewrite H in Hm end.
      destruct Hm as [Hm|[= -> ->]]; [left; set_solver|by right].
    + left. match goal with H : threads _ !! _ = Some _ |- _ => by specialize (Ht _ _ H) end.
    + left. match goal with H : threads _ !! _ = Some _ |- _ => by specialize (Ht _ _ H) end.
Qed.

Context (run : admission → Z → list writer_call) (Hrun : ∀ adm t, promhttp adm t (run adm t) false).

(** The counter of a key went up by one, and no other changed. *)
Definition counted_once (m m' : counters) (key : gostring * gostring) : Prop :=
  ∀ k, default 0 (m' !! k) = default 0 (m !! k) + (if bool_decide (k = key) then 1 else 0).

Lemma count_once m moduleName code : counted_once m (count m moduleName code) (moduleName, Itoa code).
Proof.
  intros k. unfold count. case_bool_decide as Hk.
  - subst k. rewrite lookup_insert_eq. done.
  - rewrite lookup_insert_ne by done. lia.
Qed.

(** The module a request is counted under, and the status it is answered with. *)
Definition answer_label (w : world) (r : Request) : gostring :=
  match check w.(live) r with Fail rej => rej.(rej_module) | Ok adm => adm.(adm_module) end.

Definition answer_code (w : world) (r : Request) (code : Z) : Prop :=
  match check w.(live) r with
  | Fail rej => code = rej.(rej_code)
  | Ok adm =>
      if is_some (acquire opts.(MaxConcurrent) w.(sem)) then
        let calls := run adm (effectiveTimeout r.(scrape_timeout) opts.(Timeout) opts.(TimeoutOffset)) in
        (∀ c, WriteHeader c ∈ calls → informational c = false) → code = sent_status calls
      else code = 503
  end.

Lemma Handler_counts w r :
  let '(w', code) := Handler opts run w r in
  counted_once w.(requests) w'.(requests) (answer_label w r, Itoa code) ∧ answer_code w r code.
Proof.
  unfold Handler, answer_label, answer_code. destruct (check (live w) r) as [adm|rej].
  - destruct (acquire _ _) as [n|]; cbn [requests is_some]; split; try apply count_once; [|done].
    intros Hi. by apply record_status.
  - cbn [requests]. split; [apply count_once|done].
Qed.

Lemma Handler_path w i r :
  w.(threads) !! i = None →
  let '(w', code) := Handler opts run w r in
  rtc step w (with_thread w' i (Done (Some code)))
  ∧ w'.(sem) = w.(sem) ∧ w'.(inFlight) = w.(inFlight) ∧ w'.(live) = w.(live)
  ∧ total w'.(requests) = total w.(requests) + 1.
Proof.
  intros Hi. unfold Handler, with_thread.
  assert (∀ p, threads (mkWorld (live w) (sem w) (inFlight w) (requests w) (set_phase w i p)) !! i = Some p) as Hl
    by (intros p; apply lookup_set_phase).
  assert (step w (mkWorld (live w) (sem w) (inFlight w) (requests w) (set_phase w i (Received r)))) as Harr
    by (by apply step_arrive).
  destruct (check (live w) r) as [adm|rej] eqn:Hc.
  - destruct (acquire (MaxConcurrent opts) (sem w)) as [n|] eqn:Ha; cbn [live sem inFlight requests threads].
    + split_and!; [| | | |by rewrite total_count]; [|unfold acquire, release in *; repeat (case_match; simplify_eq); lia|lia|done].
      eapply rtc_l; [exact Harr|].
      eapply rtc_l; [eapply step_admit; [apply Hl|exact Hc]|]. rewrite set_phase_twice. cbn [live sem inFlight requests].
      eapply rtc_l; [eapply step_acquire; [apply lookup_set_phase|exact Ha]|]. rewrite set_phase_twice. cbn [live sem inFlight requests].
      eapply rtc_l; [eapply step_start, lookup_set_phase|]. rewrite set_phase_twice. cbn [live sem inFlight requests].
      eapply rtc_l; [eapply step_serve; [apply lookup_set_phase|apply Hrun]|]. rewrite set_phase_twice. cbn [live sem inFlight requests].
      eapply rtc_l; [eapply step_dec, lookup_set_phase|]. rewrite set_phase_twice. cbn [live sem inFlight requests].
      eapply rtc_l; [eapply step_release, lookup_set_phase|]. rewrite set_phase_twice. apply rtc_refl.
    + split_and!; [|done..|by rewrite total_count].
      eapply rtc_l; [exact Harr|].
      eapply rtc_l; [eapply step_admit; [apply Hl|exact Hc]|]. rewrite set_phase_twice. cbn [live sem inFlight requests].
      eapply rtc_l; [eapply step_busy; [apply lookup_set_phase|exact Ha]|]. rewrite set_phase_twice. apply rtc_refl.
  - cbn [live sem inFlight requests threads]. split_and!; [|done..|by rewrite total_count].
    eapply rtc_l; [exact Harr|].
    eapply rtc_l; [eapply step_reject; [apply Hl|exact Hc]|]. rewrite set_phase_twice. apply rtc_refl.
Qed.

(** C33: the handler run alone is a path of steps: it ends with the status it
    returns, which is that of the check that refused the request, 503 without a
    slot, or the one sent with the metrics; it gives back its slot and leaves the
    gauge as it was, and counts the request once under its module and that status,
    and nothing else. *)
Theorem Handler_is_path w i r :
  w.(threads) !! i = None →
  let '(w', code) := Handler opts run w r in
  rtc step w (with_thread w' i (Done (Some code)))
  ∧ w'.(sem) = w.(sem) ∧ w'.(inFlight) = w.(inFlight) ∧ w'.(live) = w.(live)
  ∧ total w'.(requests) = total w.(requests) + 1
  ∧ counted_once w.(requests) w'.(requests) (answer_label w r, Itoa code)
  ∧ answer_code w r code.
Proof.
  intros Hi. pose proof (Handler_path w i r Hi) as Hp. pose proof (Handler_counts w r) as Hc.
  destruct (Handler opts run w r) as [w' code]. naive_solver.
Qed.

(** A step of one request: the others, and the configuration, stay as they are. *)
Definition step_alone (i : nat) (w w' : world) : Prop :=
  step w w' ∧ w'.(live) = w.(live) ∧ ∀ j, j ≠ i → w'.(threads) !! j = w.(threads) !! j.

(** How many steps a request has left at most. *)
Definition steps_left (p : phase) : nat :=
  match p with
  | Received _ => 6 | Allowed _ _ => 5 | Acquired _ _ => 4 | Running _ _ _ => 3
  | Served _ _ => 2 | Releasing _ _ => 1 | Done _ => 0
  end.

Definition completes (n : nat) (w : world) (i : nat) : Prop :=
  ∃ m w' code, (m ≤ n)%nat ∧ nsteps (step_alone i) m w w' ∧ w'.(threads) !! i = Some (Done code).

Lemma completes_done n w i code : w.(threads) !! i = Some (Done code) → completes n w i.
Proof. intros Hi. exists 0%nat, w, code. split; [lia|]. split; [constructor|done]. Qed.

Lemma completes_step n w s f q i p :
  step w (mkWorld w.(live) s f q (set_phase w i p)) →
  completes n (mkWorld w.(live) s f q (set_phase w i p)) i → completes (S n) w i.
Proof.
  intros Hs (m & w' & code & Hm & Hr & Hi). exists (S m), w', code. split; [lia|]. split; [|done].
  eapply nsteps_l; [|exact Hr]. split_and!; [done..|].
  intros j Hj. cbn [threads]. unfold set_phase. by rewrite lookup_insert_ne.
Qed.

Lemma released_completes w i adm c : w.(threads) !! i = Some (Releasing adm c) → completes 1 w i.
Proof. intros Hi. eapply completes_step; [by eapply step_release|]. by eapply completes_done, lookup_set_phase. Qed.

Lemma served_completes w i adm c : w.(threads) !! i = Some (Served adm c) → completes 2 w i.
Proof. intros Hi. eapply completes_step; [by eapply step_dec|]. by eapply released_completes, lookup_set_phase. Qed.

Lemma running_completes w i r adm t : w.(threads) !! i = Some (Running r adm t) → completes 3 w i.
Proof. intros Hi. eapply completes_step; [by eapply step_serve|]. by eapply served_completes, lookup_set_phase. Qed.

Lemma acquired_completes w i r adm : w.(threads) !! i = Some (Acquired r adm) → completes 4 w i.
Proof. intros Hi. eapply completes_step; [by eapply step_start|]. by eapply running_completes, lookup_set_phase. Qed.

Lemma allowed_completes w i r adm : w.(threads) !! i = Some (Allowed r adm) → completes 5 w i.
Proof.
  intros Hi. destruct (acquire (MaxConcurrent opts) (sem w)) as [n|] eqn:Ha.
  - eapply completes_step; [by eapply step_acquire|]. by eapply acquired_completes, lookup_set_phase.
  - eapply completes_step; [by eapply step_busy|]. by eapply completes_done, lookup_set_phase.
Qed.

Lemma received_completes w i r : w.(threads) !! i = Some (Received r) → completes 6 w i.
Proof.
  intros Hi. destruct (check (live w) r) as [adm|rej] eqn:Hc.
  - eapply completes_step; [by eapply step_admit|]. by eapply allowed_completes, lookup_set_phase.
  - eapply completes_step; [by eapply step_reject|]. by eapply completes_done, lookup_set_phase.
Qed.

(** C34: no request waits for another one: in every state, whatever slots are
    taken, a request in any phase reaches its end by at most six steps of its own,
    during which no other request moves and the configuration is not reloaded,
    provided that its probe, once it runs, comes to an end. *)
Theorem request_completes w i p :
  w.(threads) !! i = Some p → completes (steps_left p) w i.
Proof.
  destruct p; cbn [steps_left]; eauto using received_completes, allowed_completes, acquired_completes,
    running_completes, served_completes, released_completes, completes_done.
Qed.
End ServeProperties.

(** ** A request in flight *)

Section ServeDemo.
#[local] Existing Instance caseless.

Definition demo_handler : HandlerOptions :=
  {| Timeout := 5000000000; TimeoutOffset := 500000000; MaxConcurrent := 1 |}.

Definition any_promhttp : admission → Z → list writer_call → bool → Prop := λ _ _ _ _, True.
Definition demo_run : admission → Z → list writer_call := λ _ _, [Write "metrics"].

Definition req : Request := demo_request "A.example.com.:2222".
Definition w0 : world := initial demo_modules.
Definition w1 : world := with_thread w0 0 (Received req).
Definition w2 : world := with_thread w1 0 (Allowed req demo_admission).
Definition w3 : world := mkWorld demo_modules 1 0 ∅ (set_phase w2 0 (Acquired req demo_admission)).
Definition demo_timeout : Z := effectiveTimeout "2.5" 5000000000 500000000.
Definition w4 : world :=
  mkWorld demo_modules 1 1 ∅ (set_phase w3 0 (Running req demo_admission demo_timeout)).

Lemma w1_path : rtc (step demo_handler any_promhttp) w0 w1.
Proof. apply rtc_once. exact (step_arrive demo_handler any_promhttp w0 0 req eq_refl). Qed.

Lemma w4_path : rtc (step demo_handler any_promhttp) w0 w4.
Proof.
  etransitivity; [apply w1_path|].
  eapply rtc_l; [exact (step_admit demo_handler any_promhttp w1 0 req demo_admission
    (lookup_set_phase _ _ _) demo_check)|].
  eapply rtc_l; [exact (step_acquire demo_handler any_promhttp w2 0 req demo_admission 1
    (lookup_set_phase _ _ _) eq_refl)|].
  apply rtc_once. exact (step_start demo_handler any_promhttp w3 0 req demo_admission (lookup_set_phase _ _ _)).
Qed.

Lemma w4_reachable : reachable demo_handler any_promhttp w4.
Proof. exists demo_modules. apply w4_path. Qed.

Lemma concurrency_bounded_witness :
  how_many is_running w4.(threads) ≤ 1 ∧ how_many is_running w4.(threads) = 1.
Proof.
  split; [|vm_compute; reflexivity].
  destruct (concurrency_bounded demo_handler any_promhttp w4 w4_reachable eq_refl) as ([H1 H2] & H3 & _).
  etransitivity; [exact H1|]. etransitivity; [exact H2|exact H3].
Defined.

Lemma running_probes_admitted_witness : ∃ modules, check modules req = Ok demo_admission.
Proof.
  exact (proj1 (running_probes_admitted demo_handler any_promhttp w4 0 req demo_admission demo_timeout
    w4_reachable (lookup_set_phase _ _ _))).
Defined.

Definition w9 : world := with_thread (Handler demo_handler demo_run w0 req).1 0 (Done (Some 200)).

Lemma demo_serve_ok adm t : any_promhttp adm t (demo_run adm t) false.
Proof. exact I. Qed.

Lemma Handler_is_path_witness : rtc (step demo_handler any_promhttp) w0 w9.
Proof. exact (proj1 (Handler_is_path demo_handler any_promhttp demo_run demo_serve_ok w0 0 req eq_refl)). Defined.

Lemma w9_reachable : reachable demo_handler any_promhttp w9.
Proof.
  exists demo_modules. exact (proj1 (Handler_path demo_handler any_promhttp demo_run demo_serve_ok w0 0 req eq_refl)).
Qed.

Lemma w9_done i p : w9.(threads) !! i = Some p → is_done p = true.
Proof.
  unfold w9, with_thread. cbn [threads]. unfold set_phase.
  destruct (decide (i = 0%nat)) as [->|Hne]; [rewrite lookup_insert_eq; by intros [= <-]|].
  rewrite lookup_insert_ne by done. intros H. vm_compute in H. discriminate H.
Qed.

Lemma quiescent_balanced_witness : w9.(sem) = 0 ∧ total w9.(requests) = 1.
Proof.
  destruct (quiescent_balanced demo_handler any_promhttp w9 w9_reachable w9_done) as (H & _ & Ht).
  split; [exact H|]. rewrite Ht. vm_compute. reflexivity.
Defined.

(** A request for a module that does not exist. *)
Definition bad_req : Request := {| q_module := "nope"; q_target := "h"; scrape_timeout := [] |}.
Definition x1 : world := with_thread w0 1 (Received bad_req).
Definition x2 : world :=
  mkWorld demo_modules 0 0 (count ∅ moduleUnresolved 400) (set_phase x1 1 (Done (Some 400))).

Lemma demo_within : rtc (step_within demo_handler any_promhttp (dom demo_modules)) w0 x2.
Proof.
  eapply rtc_l.
  - split; [exact (step_arrive demo_handler any_promhttp w0 1 bad_req eq_refl)|done].
  - apply rtc_once. split; [|done].
    refine (step_reject demo_handler any_promhttp x1 1 bad_req
      {| rej_module := moduleUnresolved; rej_code := 400; rej_message := UnknownModule "nope" |}
      (lookup_set_phase _ _ _) _). vm_compute. reflexivity.
Qed.

Lemma counter_labels_bounded_witness :
  moduleUnresolved ∈ dom demo_modules
  ∨ (moduleUnresolved, Itoa StatusBadRequest) = (moduleUnresolved, Itoa StatusBadRequest).
Proof.
  refine (counter_labels_bounded demo_handler any_promhttp (dom demo_modules) demo_modules x2
    (reflexivity _) demo_within (moduleUnresolved, Itoa StatusBadRequest) 1 _). vm_compute. reflexivity.
Defined.

Lemma request_completes_witness : completes demo_handler any_promhttp 3 w4 0.
Proof.
  exact (request_completes demo_handler any_promhttp demo_run demo_serve_ok w4 0 _ (lookup_set_phase _ _ _)).
Defined.
End ServeDemo.
