(* ===== verification/Scrape.v ===== *)
(** * A scrape from the request to the response

    The handler of ProbeServe.v registers the collector of Collector.v, whose
    probe is [Run] of Probe.v, in a registry of its own and has promhttp gather
    and serve it.  The registry and promhttp are parameters with their documented
    contract; the theorems put the components together. *)

From S2P Require Import Prelude GoStrings GoErrors HostKey Identification Probe ProbeRun Collector Config ProbeHttp ProbeServe.
From stdpp Require Import relations.
Open Scope Z_scope.

(** ** What a registry accepts *)

(** [utf8.ValidString]: decoding and encoding again gives the string back. *)
Definition ValidString (s : gostring) : bool := bool_decide (concat (map encode_rune (runes s)) = s).

Definition name_start (c : ascii) : bool :=
  let b := byte_val c in in_range 97 122 b || in_range 65 90 b || (b =? 95).
Definition name_byte (c : ascii) : bool := name_start c || in_range 48 57 (byte_val c).

(** A name of letters, digits and underscores that does not start with a digit. *)
Definition valid_name (s : gostring) : bool :=
  match s with [] => false | c :: _ => name_start c && forallb name_byte s end.

(** [MustRegister] of the descriptors does not panic. *)
Definition registrable (descs : list Desc) : Prop :=
  NoDup (map fqName descs)
  ∧ Forall (λ d, valid_name d.(fqName) = true ∧ Forall (λ l, valid_name l = true) d.(variableLabels)
                 ∧ NoDup d.(variableLabels)) descs.

(** [MustNewConstMetric] does not panic and [Gather] reports no error. *)
Definition gatherable (descs : list Desc) (ms : list Metric) : Prop :=
  Forall (λ m, m.(m_desc) ∈ descs ∧ length m.(m_labels) = length m.(m_desc).(variableLabels)
               ∧ Forall (λ l, ValidString l = true) m.(m_labels)) ms
  ∧ NoDup (map metric_id ms).

(** [registry.MustRegister] and [promhttp.HandlerFor(registry, ...).ServeHTTP]:
    the calls on the response writer, and whether it panicked. *)
Class Promhttp := registry_ServeHTTP : list Desc → list Metric → list writer_call → bool → Prop.

(** As documented: a registry without errors is served with status 200. *)
Class PromhttpLaws (P : Promhttp) : Prop := promhttp_serves descs ms calls panics :
  registrable descs → gatherable descs ms → registry_ServeHTTP descs ms calls panics →
  panics = false ∧ sent_status calls = 200 ∧ ∀ code, WriteHeader code ∈ calls → informational code = false.

Lemma runes_ascii s : is_ascii s = true → runes s = map byte_val s.
Proof.
  induction s as [|c s IH]; [done|]. cbn [is_ascii forallb map]. intros [Hc Hs]%andb_true_iff.
  destruct s; cbn [runes]; rewrite Hc; f_equal; by apply IH.
Qed.

Lemma encode_rune_byte c : byte_val c < 128 → encode_rune (byte_val c) = [c].
Proof.
  intros Hc. pose proof (byte_val_range c). unfold encode_rune, valid_rune, in_range.
  destruct (Z.leb_spec 55296 (byte_val c)); [lia|]. cbn [andb orb].
  destruct (Z.ltb_spec 1114111 (byte_val c)); [lia|]. cbv zeta.
  destruct (Z.ltb_spec (byte_val c) 128); [|lia]. by rewrite byte_of_val.
Qed.

Lemma ValidString_ascii s : is_ascii s = true → ValidString s = true.
Proof.
  intros Hs. unfold ValidString. apply bool_decide_eq_true_2. rewrite runes_ascii by done.
  induction s as [|c s IH]; [done|]. cbn [is_ascii forallb] in Hs. apply andb_true_iff in Hs as [Hc Hs].
  cbn [map concat]. rewrite encode_rune_byte by lia. cbn [app]. f_equal. by apply IH.
Qed.

Lemma label_safe_valid s : label_safe s → ValidString s = true.
Proof.
  intros [Hp _]. apply ValidString_ascii. unfold is_ascii. rewrite forallb_forall in Hp |- *.
  intros c Hc. specialize (Hp c Hc). unfold printable in Hp. bool_simpl. lia.
Qed.

(** The names of concrete descriptors are valid. *)
Ltac well_named :=
  repeat (apply list.Forall_cons; split; [split_and!;
    [vm_compute; reflexivity
    |apply list.Forall_forall; intros l Hl; apply list_elem_of_In in Hl; revert l Hl; apply forallb_forall; vm_compute; reflexivity
    |apply (bool_decide_eq_true_1 _); vm_compute; reflexivity]|]);
  apply list.Forall_nil_2.

Section Collector.
Context `{PrometheusLaws} {N : SSHNames}.

Lemma Describe_registrable : registrable Describe.
Proof.
  split; [apply Describe_names|]. unfold Describe. names. well_named.
Qed.

Lemma Collect_gatherable env target opts :
  client_contract [] false (handshakeOf env target opts) → negotiated_safe env target opts →
  gatherable Describe (Collect (probe_collector env target opts)).
Proof.
  intros Hc Hn. pose proof (probe_labels_safe env target opts Hc Hn) as Hs.
  destruct (metrics_consistent (Run env target opts)) as [Hd Hid]. split; [|exact Hid].
  rewrite !list.Forall_forall in Hs, Hd |- *. intros m Hm.
  destruct (Hd m Hm) as [? ?]. split_and!; [done..|].
  specialize (Hs m Hm). rewrite list.Forall_forall in Hs |- *. intros l Hl. by apply label_safe_valid, Hs.
Qed.
End Collector.

(** ** What a probe meets *)

(** The networks, servers and runs of the client of x/crypto/ssh that a probe of a
    target with some options may meet, and the algorithms the client implements. *)
Class Network := {
  meets : gostring → Options → Env → Prop;
  implements : gostring → Prop
}.

(** The client keeps its contract whatever the server does; it only negotiates
    algorithms it implements, or no MAC, and the names of those are printable. *)
Class NetworkLaws `{SSHNames} (W : Network) : Prop := {
  meets_client target opts env : meets target opts env → client_contract [] false (handshakeOf env target opts);
  meets_implemented target opts env now algs :
    meets target opts env → EvReady now algs ∈ events env target opts →
    Forall (λ name, name = [] ∨ implements name)
      [algs.(alg_KeyExchange); algs.(alg_HostKey); algs.(alg_Write_Cipher);
       algs.(alg_Read_Cipher); algs.(alg_Write_MAC); algs.(alg_Read_MAC)];
  implements_printable name : implements name → label_safe name
}.

Lemma meets_safe `{NetworkLaws} target opts env : meets target opts env → negotiated_safe env target opts.
Proof.
  intros Hm now algs Hin. eapply list.Forall_impl; [by eapply meets_implemented|].
  intros name [->|Hn]; [apply label_safe_nil|by apply implements_printable].
Qed.

(** ** The handler with its collector *)

(** The counted status codes: what the checks answer, and a served scrape. *)
Definition served_codes : list gostring := map Itoa [200; StatusBadRequest; StatusForbidden; StatusServiceUnavailable].

Section Scrape.
Context {U : UnicodeTables} `{PrometheusLaws} {N : SSHNames} {PH : Promhttp} {W : Network}.
Context (opts : HandlerOptions).

(** Lines 119-123: the collector of an admitted request is registered, probes what
    it meets, and the result is gathered and served. *)
Definition serve_probe (adm : admission) (timeout : Z) (calls : list writer_call) (panics : bool) : Prop :=
  let target := adm.(adm_target) in
  let options := adm.(adm_config).(mod_Options) in
  ∃ env, meets target options env
    ∧ registry_ServeHTTP Describe (Collect (probe_collector env target options)) calls panics.

Context {PL : PromhttpLaws PH} {WL : NetworkLaws W}.

Lemma serve_probe_ok adm timeout calls panics :
  serve_probe adm timeout calls panics →
  panics = false ∧ (fold_left rec_call calls newStatusRecorder).(status) = 200.
Proof.
  intros (env & Hm & Hs).
  destruct (promhttp_serves _ _ _ _ Describe_registrable
    (Collect_gatherable env _ _ (meets_client _ _ _ Hm) (meets_safe _ _ _ Hm)) Hs) as (-> & Hcode & Hi).
  split; [done|]. rewrite record_status by done. done.
Qed.

(** What holds of every request in flight, and of every request counted. *)
Definition answered (w : world) : Prop :=
  (∀ i p, w.(threads) !! i = Some p →
     match p with
     | Served _ code | Releasing _ code => code = Some 200
     | Done code => ∃ c, code = Some c ∧ Itoa c ∈ served_codes
     | _ => True
     end)
  ∧ ∀ key n, w.(requests) !! key = Some n → key.2 ∈ served_codes.

Lemma rejection_code modules r rej : check modules r = Fail rej → Itoa rej.(rej_code) ∈ served_codes.
Proof.
  unfold check. intros Hc. repeat (case_match; simplify_eq); apply (bool_decide_eq_true_1 _); vm_compute; reflexivity.
Qed.

Lemma answered_step w w' : answered w → step opts serve_probe w w' → answered w'.
Proof.
  assert (Hb : Itoa StatusServiceUnavailable ∈ served_codes) by (apply (bool_decide_eq_true_1 _); reflexivity).
  assert (Ho : Itoa 200 ∈ served_codes) by (apply (bool_decide_eq_true_1 _); reflexivity).
  intros [Ht Hq] Hs. split.
  - intros j p. inversion Hs; subst; cbn [threads]; unfold set_phase; try apply Ht;
      (destruct (decide (j = i)) as [->|]; [rewrite lookup_insert_eq; intros [= <-]|rewrite lookup_insert_ne by done; apply Ht]);
      try done; eauto using rejection_code;
      try (match goal with H : serve_probe _ _ _ _ |- _ => apply serve_probe_ok in H as [? Hst]; try done; by f_equal end);
      match goal with H : threads w !! _ = Some _ |- _ => specialize (Ht _ _ H); cbn in Ht end; subst; eauto.
  - intros key n. inversion Hs; subst; cbn [requests]; try apply Hq;
      (intros [->|[n' Hn]]%count_lookup; [|by eapply Hq]); cbn [snd]; eauto using rejection_code.
    match goal with H : serve_probe _ _ _ _ |- _ => apply serve_probe_ok in H as [_ Hst] end.
    subst code. by rewrite Hst.
Qed.

(** C8: whatever the probed server sends, the exporter answers, given that the
    client of x/crypto/ssh keeps its contract and negotiates algorithms it
    implements, whose names are printable, and that promhttp serves what was
    gathered without error: no admitted probe panics or fails to be gathered, each
    is served with status 200, and the requests counter only ever counts 200, 400,
    403 and 503. *)
Theorem probes_answered w :
  reachable opts serve_probe w →
  (∀ i adm code, w.(threads) !! i = Some (Served adm code) → code = Some 200)
  ∧ (∀ i code, w.(threads) !! i = Some (Done code) → ∃ c, code = Some c ∧ Itoa c ∈ served_codes)
  ∧ (∀ key n, w.(requests) !! key = Some n → key.2 ∈ served_codes).
Proof.
  intros (modules & Hr). assert (answered w) as [Ht Hq].
  { assert (answered (initial modules)) as Hinit
      by (split; intros ??; cbn [initial threads requests]; by rewrite lookup_empty).
    induction Hr as [|w1 w2 w3 Hs _ IH]; [done|]. apply IH. by eapply answered_step. }
  split_and!; [|..|exact Hq].
  - intros i adm code Hi. exact (Ht i _ Hi).
  - intros i code Hi. exact (Ht i _ Hi).
Qed.
End Scrape.

(** ** A scrape served *)

Section ScrapeDemo.
#[local] Existing Instance caseless.
#[local] Existing Instance demo_ssh_names.
#[local] Existing Instance demo_prometheus.
#[local] Existing Instance demo_prometheus_laws.

#[local] Instance demo_promhttp : Promhttp := λ _ _ calls panics, calls = [Write "metrics"] ∧ panics = false.
#[local] Instance demo_promhttp_laws : PromhttpLaws demo_promhttp.
Proof.
  intros descs ms calls panics _ _ [-> ->]. split_and!; [done..|]. intros code. by rewrite list_elem_of_singleton.
Qed.

(** Every probe meets the server of the examples. *)
#[local] Instance demo_network : Network := {|
  meets := λ target _ env, env = demo_env (PlainKey "ca");
  implements := λ name, name ∈ [("curve25519-sha256" : gostring); ("ssh-ed25519" : gostring); ("aes128-gcm@openssh.com" : gostring)] |}.

Lemma demo_events target opts :
  events (demo_env (PlainKey "ca")) target opts = events (demo_env (PlainKey "ca")) "h:22" (demo_opts None).
Proof. reflexivity. Qed.

#[local] Instance demo_network_laws : NetworkLaws demo_network.
Proof.
  split.
  - intros target opts env ->. exact (demo_client (PlainKey "ca") opts).
  - intros target opts env now algs -> Hin. rewrite demo_events in Hin.
    assert (algs = demo_algs) as ->.
    { apply list_elem_of_In in Hin. revert Hin.
      cbn. intros [E|[E|[E|[E|[]]]]]; [discriminate E..|]. injection E as _ <-. done. }
    repeat (apply list.Forall_cons; split; [first [by left|right; cbn [implements demo_network]; apply (bool_decide_eq_true_1 _); vm_compute; reflexivity]|]).
    apply list.Forall_nil_2.
  - intros name. cbn [implements demo_network]. rewrite !elem_of_cons, elem_of_nil.
    intros [->|[->|[->|[]]]]; (split; [done|vm_compute; lia]).
Qed.

Lemma demo_serves adm t : serve_probe adm t (demo_run adm t) false.
Proof. by exists (demo_env (PlainKey "ca")). Qed.

Definition scraped : world := with_thread (Handler demo_handler demo_run w0 req).1 0 (Done (Some 200)).

Lemma scraped_reachable : reachable demo_handler serve_probe scraped.
Proof.
  exists demo_modules. exact (proj1 (Handler_path demo_handler serve_probe demo_run demo_serves w0 0 req eq_refl)).
Qed.

Lemma probes_answered_witness : ∃ c, Some 200 = Some c ∧ Itoa c ∈ served_codes.
Proof.
  exact (proj1 (proj2 (probes_answered demo_handler scraped scraped_reachable)) 0%nat (Some 200)
    (lookup_insert_eq _ _ _)).
Defined.
End ScrapeDemo.
