(* ===== verification/FdLimit.v ===== *)
(** * internal/fdlimit: the file descriptor budget

    [Sufficient] compares the soft limit with what a probe concurrency needs, in
    uint64 arithmetic; reading the limit is a parameter. *)

From S2P Require Import Prelude.
Open Scope Z_scope.

Definition perProbe : Z := 2.
Definition headroom : Z := 64.

(** [softLimit]: Getrlimit on Unix, never available elsewhere. *)
Definition softLimit_unix {E} (getrlimit : res E Z) : res E Z :=
  match getrlimit with
  | Fail err => Fail err
  | Ok Cur => Ok Cur
  end.
Definition errNotSupported : string :=
  "reading the file descriptor limit is not supported on this platform".
Definition softLimit_other : res string Z := Fail errNotSupported.

(** The conversion from int to uint64 wraps, and so do the product and the sum. *)
Definition Sufficient {E} (softLimit : res E Z) (maxConcurrent : Z) : bool * Z * Z :=
  if maxConcurrent <=? 0 then (true, 0, 0)
  else match softLimit with
       | Fail _ => (true, 0, 0)
       | Ok soft =>
           let needed := wrap_u64 (wrap_u64 (wrap_u64 maxConcurrent * perProbe) + headroom) in
           (needed <=? soft, soft, needed)
       end.

(** For every concurrency below 2^63 - 32 the answer is exact: the limit
    suffices when it covers two descriptors per probe and the headroom, and
    always does when the concurrency is unlimited or the limit is unknown. *)
Theorem Sufficient_exact {E} (softLimit : res E Z) maxConcurrent :
  maxConcurrent < 2 ^ 63 - 32 →
  let '(ok, soft, needed) := Sufficient softLimit maxConcurrent in
  (ok = true ↔ maxConcurrent ≤ 0 ∨ match softLimit with
                                   | Ok limit => 2 * maxConcurrent + 64 ≤ limit
                                   | Fail _ => True
                                   end)
  ∧ (0 < maxConcurrent → is_ok softLimit = true → needed = 2 * maxConcurrent + 64).
Proof.
  intros Hmax. unfold Sufficient, perProbe, headroom.
  destruct (Z.leb_spec maxConcurrent 0); [split; [split; [by left|done]|lia]|].
  destruct softLimit as [limit|e]; [|split; [split; [by right|done]|done]].
  rewrite (wrap_u64_id maxConcurrent), (wrap_u64_id (maxConcurrent * 2)),
    (wrap_u64_id (maxConcurrent * 2 + 64)) by lia.
  rewrite Z.leb_le. split; [|lia]. split; [right; lia|intros [?|?]; lia].
Qed.

Lemma Sufficient_exact_witness : (Sufficient (E := ()) (Ok 1064) 500).1.1 = true.
Proof.
  exact (proj2 (proj1 (Sufficient_exact (E := ()) (Ok 1064) 500 ltac:(lia))) (or_intror (Z.le_refl 1064))).
Defined.

(** At the bound the sum wraps to zero, and any limit seems to suffice. *)
Example Sufficient_overflows : Sufficient (E := ()) (Ok 1024) (2 ^ 63 - 32) = (true, 1024, 0).
Proof. vm_compute. reflexivity. Qed.
