(* ===== verification/Flags.v ===== *)
(** * main.go: the command line

    [parseFlags] declares the flags on a kingpin application, parses the command
    line and the environment, validates and converts.  kingpin is a parameter: what
    it resolves a flag to is its documented precedence, and its conversions are
    known on the texts the program writes. *)

From S2P Require Import Prelude GoStrings GoFloat.
Open Scope Z_scope.

(** ** kingpin *)

(** The typed setters called on a flag. *)
Inductive flag_kind := KEnum (options : list gostring) | KString | KBool | KInt | KDuration | KStrings.

Inductive flag_value := VText (s : gostring) | VBool (b : bool) | VInt (n : Z) | VDuration (d : Z) | VTexts (l : list gostring).

Record flag_clause := mkFlag {
  fl_name : gostring;
  fl_default : option gostring;
  fl_envar : option gostring;
  fl_kind : flag_kind
}.

Definition environment : Type := gostring → option gostring.

(** The flags that collect every text they are given. *)
Definition cumulative (k : flag_kind) : bool := match k with KStrings => true | _ => false end.

Class Kingpin := {
  (** [kingpinflag.AddFlags(app, address)] of exporter-toolkit. *)
  AddFlags : gostring → list flag_clause;
  (** The texts given for a flag on the command line, in order. *)
  arguments : list gostring → gostring → list gostring;
  (** The lines of an environment variable, for a flag that collects texts. *)
  split_env : gostring → list gostring;
  (** The setter of a kind, on a text. *)
  convert : flag_kind → gostring → option flag_value;
  (** [app.Parse]: the value of each flag, or an error. *)
  Parse : list flag_clause → list gostring → environment → option (gostring → flag_value)
}.

(** [os.Getenv] of the variable of a flag: empty when it is not set. *)
Definition env_value (c : flag_clause) (env : environment) : gostring :=
  match c.(fl_envar) with Some name => default [] (env name) | None => [] end.

(** The texts of a flag: the command line comes first, then the environment, where
    a variable that is set but empty counts as unset, then the default. *)
Definition flag_texts `{Kingpin} (c : flag_clause) (args : list gostring) (env : environment) : list gostring :=
  match arguments args c.(fl_name), env_value c env with
  | [], [] => option_list c.(fl_default)
  | [], s => if cumulative c.(fl_kind) then split_env s else [s]
  | texts, _ => texts
  end.

(** The text of a flag that takes one: giving it twice is an error. *)
Definition resolve `{Kingpin} (c : flag_clause) (args : list gostring) (env : environment) : option gostring :=
  head (flag_texts c args env).

Class KingpinLaws (K : Kingpin) : Prop := {
  AddFlags_listen address : mkFlag "web.listen-address" (Some address) None KStrings ∈ AddFlags address;
  AddFlags_config address : mkFlag "web.config.file" (Some []) None KString ∈ AddFlags address;
  Parse_resolves clauses args env v c s :
    Parse clauses args env = Some v → c ∈ clauses → cumulative c.(fl_kind) = false → resolve c args env = Some s →
    convert c.(fl_kind) s = Some (v c.(fl_name));
  Parse_collects clauses args env v c :
    Parse clauses args env = Some v → c ∈ clauses → c.(fl_kind) = KStrings →
    v c.(fl_name) = VTexts (flag_texts c args env);
  Parse_unset clauses args env v c :
    Parse clauses args env = Some v → c ∈ clauses → resolve c args env = None → c.(fl_kind) = KBool →
    v c.(fl_name) = VBool false;
  convert_enum options s v : convert (KEnum options) s = Some v → v = VText s ∧ s ∈ options;
  convert_string s v : convert KString s = Some v → v = VText s;
  convert_typed k s v : convert k s = Some v →
    match k with
    | KBool => ∃ b, v = VBool b | KInt => ∃ n, v = VInt n | KDuration => ∃ d, v = VDuration d | _ => True
    end;
  convert_bool b : convert KBool (if b : bool then "true" else "false") = Some (VBool b);
  convert_int n : 0 ≤ n ≤ max_int64 → convert KInt (Itoa n) = Some (VInt n);
  convert_seconds n : 0 ≤ n ≤ 1000000000 → convert KDuration (Itoa n ++ "s") = Some (VDuration (n * Second))
}.

(** ** log/slog *)

Definition LevelDebug : Z := -4.
Definition LevelInfo : Z := 0.
Definition LevelWarn : Z := 4.
Definition LevelError : Z := 8.

(** [strings.ToUpper]; the case table of other letters is data of the Go
    distribution. *)
Definition upper_byte (c : ascii) : ascii := if is_lower c then byte_of (byte_val c - 32) else c.
Class ToUpperTable := ToUpper : gostring → gostring.
Class ToUpperLaws (T : ToUpperTable) : Prop := ToUpper_ascii s : is_ascii s = true → ToUpper s = map upper_byte s.

(** The position of the first sign, where [Level.parse] splits off an offset. *)
Fixpoint cut_sign (s : gostring) : gostring * gostring :=
  match s with
  | [] => ([], [])
  | c :: s' => if bool_decide (c = "+"%char) || bool_decide (c = "-"%char) then ([], s)
               else let '(n, o) := cut_sign s' in (c :: n, o)
  end.

Definition level_named (name : gostring) : option Z :=
  if bool_decide (name = ("DEBUG" : gostring)) then Some LevelDebug
  else if bool_decide (name = ("INFO" : gostring)) then Some LevelInfo
  else if bool_decide (name = ("WARN" : gostring)) then Some LevelWarn
  else if bool_decide (name = ("ERROR" : gostring)) then Some LevelError
  else None.

(** [Level.UnmarshalText]: the level, unless the text names none. *)
Definition UnmarshalText `{ToUpperTable} (s : gostring) : option Z :=
  let '(name, sign) := cut_sign s in
  offset ← (if bool_decide (sign = []) then Some 0 else Atoi sign);
  base ← level_named (ToUpper name);
  Some (wrap_i64 (base + offset)).

(** ** The flags of the exporter *)

Record WebFlags := { WebListenAddresses : list gostring; WebConfigFile : gostring }.

Record flags := {
  Web : WebFlags;
  LogLevel : Z;
  ConfigFile : gostring;
  CheckConfig : bool;
  ProbeTimeout : Z;
  MaxConcurrentProbe : Z;
  AllowAllTargets : bool
}.

Inductive flag_error := EProbeTimeout (d : Z) | EMaxConcurrent (n : Z).

Definition validate (f : flags) : res flag_error () :=
  if f.(ProbeTimeout) <=? 0 then Fail (EProbeTimeout f.(ProbeTimeout))
  else if f.(MaxConcurrentProbe) <? 0 then Fail (EMaxConcurrent f.(MaxConcurrentProbe))
  else Ok ().

Definition envPrefix : gostring := "SSH_TRANSPORT_EXPORTER_".
Definition log_levels : list gostring := ["debug" : gostring; "info" : gostring; "warn" : gostring; "error" : gostring].

Definition log_level_flag := mkFlag "log.level" (Some ("info" : gostring)) (Some (envPrefix ++ "LOG_LEVEL")) (KEnum log_levels).
Definition config_file_flag :=
  mkFlag "config.file" (Some ("ssh_transport_exporter.yaml" : gostring)) (Some (envPrefix ++ "CONFIG_FILE")) KString.
Definition config_check_flag := mkFlag "config.check" None None KBool.
Definition probe_timeout_flag := mkFlag "probe.timeout" (Some ("5s" : gostring)) (Some (envPrefix ++ "PROBE_TIMEOUT")) KDuration.
Definition max_concurrent_flag :=
  mkFlag "probe.max-concurrent" (Some ("500" : gostring)) (Some (envPrefix ++ "PROBE_MAX_CONCURRENT")) KInt.
Definition allow_all_flag :=
  mkFlag "allow-all-targets" (Some ("false" : gostring)) (Some (envPrefix ++ "ALLOW_ALL_TARGETS")) KBool.

(** The two flags of exporter-toolkit, with the variables [parseFlags] gives them. *)
Definition listen_address_flag :=
  mkFlag "web.listen-address" (Some (":10022" : gostring)) (Some (envPrefix ++ "LISTEN_ADDRESS")) KStrings.
Definition web_config_flag :=
  mkFlag "web.config.file" (Some ([] : gostring)) (Some (envPrefix ++ "WEB_CONFIG_FILE")) KString.

(** [app.GetFlag(name).Envar(envar)]: a flag that was not declared is a nil
    pointer, and the call panics. *)
Definition Envar (name envar : gostring) (clauses : list flag_clause) : option (list flag_clause) :=
  if existsb (λ c, bool_decide (c.(fl_name) = name)) clauses
  then Some (map (λ c, if bool_decide (c.(fl_name) = name)
                       then mkFlag c.(fl_name) c.(fl_default) (Some envar) c.(fl_kind) else c) clauses)
  else None.

Definition exporter_flags : list flag_clause :=
  [log_level_flag; config_file_flag; config_check_flag; probe_timeout_flag; max_concurrent_flag; allow_all_flag].

Section ParseFlags.
Context `{Kingpin} `{ToUpperTable}.

(** Everything declared on the application, unless a declaration panics. *)
Definition app_flags : option (list flag_clause) :=
  let app := AddFlags ":10022" in
  app ← Envar "web.listen-address" (envPrefix ++ "LISTEN_ADDRESS") app;
  app ← Envar "web.config.file" (envPrefix ++ "WEB_CONFIG_FILE") app;
  Some (app ++ exporter_flags).

(** The variables kingpin stored the values in. *)
Definition text_of (v : flag_value) : gostring := match v with VText s => s | _ => [] end.
Definition texts_of (v : flag_value) : list gostring := match v with VTexts l => l | _ => [] end.
Definition bool_of (v : flag_value) : bool := match v with VBool b => b | _ => false end.
Definition int_of (v : flag_value) : Z := match v with VInt n => n | _ => 0 end.
Definition duration_of (v : flag_value) : Z := match v with VDuration d => d | _ => 0 end.

(** How [parseFlags] ends other than by returning. *)
Inductive flags_exit := FlagsPanic | FlagsUsage | FlagsInvalid (e : flag_error).

(** The error of [UnmarshalText] is dropped, which leaves the zero level. *)
Definition parseFlags (args : list gostring) (env : environment) : res flags_exit flags :=
  match app_flags with
  | None => Fail FlagsPanic
  | Some clauses =>
      match Parse clauses args env with
      | None => Fail FlagsUsage
      | Some v =>
          let f := {|
            Web := {| WebListenAddresses := texts_of (v "web.listen-address");
                      WebConfigFile := text_of (v "web.config.file") |};
            LogLevel := default LevelInfo (UnmarshalText (text_of (v "log.level")));
            ConfigFile := text_of (v "config.file");
            CheckConfig := bool_of (v "config.check");
            ProbeTimeout := duration_of (v "probe.timeout");
            MaxConcurrentProbe := int_of (v "probe.max-concurrent");
            AllowAllTargets := bool_of (v "allow-all-targets") |} in
          match validate f with Fail e => Fail (FlagsInvalid e) | Ok _ => Ok f end
      end
  end.
End ParseFlags.

(** ** What the flags mean *)

Section FlagsSpec.
Context `{KingpinLaws} `{ToUpperLaws}.

Lemma Envar_sets name envar clauses d k :
  mkFlag name d None k ∈ clauses →
  ∃ clauses', Envar name envar clauses = Some clauses' ∧ mkFlag name d (Some envar) k ∈ clauses'
    ∧ ∀ c, c ∈ clauses → c.(fl_name) ≠ name → c ∈ clauses'.
Proof.
  intros Hc. unfold Envar.
  assert (existsb (λ c, bool_decide (c.(fl_name) = name)) clauses = true) as ->.
  { apply existsb_exists. eexists. split; [by apply list_elem_of_In|]. by apply bool_decide_eq_true_2. }
  eexists. split; [done|]. split.
  - apply list_elem_of_fmap. eexists. split; [|exact Hc]. cbn. by rewrite bool_decide_eq_true_2.
  - intros c Hin Hne. apply list_elem_of_fmap. exists c. split; [|done]. by rewrite bool_decide_eq_false_2.
Qed.

(** The declarations do not panic, and every flag is declared with its variable. *)
Lemma app_flags_declared : ∃ clauses, app_flags = Some clauses
  ∧ ∀ c, c ∈ listen_address_flag :: web_config_flag :: exporter_flags → c ∈ clauses.
Proof.
  unfold app_flags. cbv zeta.
  destruct (Envar_sets "web.listen-address" (envPrefix ++ "LISTEN_ADDRESS") _ _ _ (AddFlags_listen ":10022"))
    as (app1 & -> & Hl & Hk1).
  destruct (Envar_sets "web.config.file" (envPrefix ++ "WEB_CONFIG_FILE") app1 (Some []) KString) as (app2 & Ha2 & Hw & Hk2);
    [apply Hk1; [apply AddFlags_config|done]|].
  cbn [mbind option_bind]. rewrite Ha2. eexists. split; [done|].
  intros c [->|[->|Hc]%elem_of_cons]%elem_of_cons; apply elem_of_app; [left|by left|by right].
  by apply Hk2.
Qed.

Lemma UnmarshalText_plain s :
  cut_sign s = (s, []) → is_ascii s = true →
  UnmarshalText s = (λ l, wrap_i64 (l + 0)) <$> level_named (map upper_byte s).
Proof.
  intros Hc Ha. unfold UnmarshalText. rewrite Hc, bool_decide_eq_true_2 by done. cbn [mbind option_bind].
  rewrite ToUpper_ascii by done. by destruct (level_named _).
Qed.

(** Every level the flag allows is one slog knows: the dropped error is nil. *)
Lemma log_levels_known s : s ∈ log_levels →
  ∃ l, UnmarshalText s = Some l ∧ l ∈ [LevelDebug; LevelInfo; LevelWarn; LevelError].
Proof.
  unfold log_levels. rewrite !elem_of_cons, elem_of_nil.
  intros [->|[->|[->|[->|[]]]]]; rewrite UnmarshalText_plain by done; eexists; (split; [vm_compute; reflexivity|]);
    apply (bool_decide_eq_true_1 _); reflexivity.
Qed.

(** What [parseFlags] returns, from what kingpin resolved. *)
Lemma parseFlags_parsed args env f :
  parseFlags args env = Ok f →
  ∃ clauses v, Parse clauses args env = Some v
    ∧ (∀ c, c ∈ listen_address_flag :: web_config_flag :: exporter_flags → c ∈ clauses) ∧ validate f = Ok ()
    ∧ f.(Web).(WebListenAddresses) = texts_of (v "web.listen-address")
    ∧ f.(Web).(WebConfigFile) = text_of (v "web.config.file")
    ∧ f.(LogLevel) = default LevelInfo (UnmarshalText (text_of (v "log.level")))
    ∧ f.(ConfigFile) = text_of (v "config.file") ∧ f.(CheckConfig) = bool_of (v "config.check")
    ∧ f.(ProbeTimeout) = duration_of (v "probe.timeout")
    ∧ f.(MaxConcurrentProbe) = int_of (v "probe.max-concurrent")
    ∧ f.(AllowAllTargets) = bool_of (v "allow-all-targets").
Proof.
  destruct app_flags_declared as (clauses & Ha & Hc). unfold parseFlags. rewrite Ha.
  destruct (Parse clauses args env) as [v|] eqn:Hp; [|done]. cbv zeta.
  destruct (validate _) as [[]|] eqn:Hv; [|done]. intros [= <-]. exists clauses, v. by split_and!.
Qed.

(** Flag by flag: the text it resolved to, and its conversion. *)
Definition resolved_as (c : flag_clause) (args : list gostring) (env : environment) (v : flag_value) : Prop :=
  match resolve c args env with
  | Some s => convert c.(fl_kind) s = Some v
  | None => c.(fl_kind) = KBool ∧ v = VBool false
  end.

Lemma resolved_value clauses v c args env :
  Parse clauses args env = Some v → c ∈ clauses → cumulative c.(fl_kind) = false →
  c.(fl_default) ≠ None ∨ c.(fl_kind) = KBool →
  resolved_as c args env (v c.(fl_name)).
Proof.
  intros Hp Hc Hcu Hd. unfold resolved_as. destruct (resolve c args env) as [s|] eqn:Hr; [by eapply Parse_resolves|].
  assert (fl_kind c = KBool) as Hk.
  { destruct Hd as [Hd|]; [|done]. unfold resolve, flag_texts in Hr. rewrite Hcu in Hr.
    destruct (arguments args _), (env_value c env); try done. by destruct (fl_default c). }
  split; [done|]. by eapply Parse_unset.
Qed.

(** The variable holds the value, whose type is the flag's. *)
Lemma resolved_typed c args env v : resolved_as c args env v →
  match c.(fl_kind) with
  | KString => v = VText (text_of v) | KBool => v = VBool (bool_of v)
  | KInt => v = VInt (int_of v) | KDuration => v = VDuration (duration_of v)
  | KEnum options => ∃ s, resolve c args env = Some s ∧ v = VText s ∧ s ∈ options
  | KStrings => True
  end.
Proof.
  unfold resolved_as. destruct (resolve c args env) as [s|]; [|intros [-> ->]; done].
  intros Hv. pose proof (convert_typed _ _ _ Hv) as Ht. destruct (fl_kind c) as [options| | | | |]; try (by destruct Ht as [? ->]); [|by apply convert_string in Hv as ->].
  apply convert_enum in Hv as [-> Hs]. by exists s.
Qed.

(** C40: [parseFlags] does not panic; and when it returns, every flag has the value
    of its command-line text, or else of its own environment variable where that is
    not empty, or else of its default; the listen addresses are all that were
    given; the log level is the one named although the error of reading it is
    dropped; and the probe timeout is positive and the limit on probes not
    negative. *)
Theorem parseFlags_resolves args env :
  parseFlags args env ≠ Fail FlagsPanic ∧
  ∀ f, parseFlags args env = Ok f →
    0 < f.(ProbeTimeout) ∧ 0 ≤ f.(MaxConcurrentProbe)
    ∧ (∃ s, resolve log_level_flag args env = Some s ∧ s ∈ log_levels ∧ UnmarshalText s = Some f.(LogLevel))
    ∧ f.(Web).(WebListenAddresses) = flag_texts listen_address_flag args env
    ∧ resolved_as web_config_flag args env (VText f.(Web).(WebConfigFile))
    ∧ resolved_as config_file_flag args env (VText f.(ConfigFile))
    ∧ resolved_as config_check_flag args env (VBool f.(CheckConfig))
    ∧ resolved_as probe_timeout_flag args env (VDuration f.(ProbeTimeout))
    ∧ resolved_as max_concurrent_flag args env (VInt f.(MaxConcurrentProbe))
    ∧ resolved_as allow_all_flag args env (VBool f.(AllowAllTargets)).
Proof.
  split.
  { destruct app_flags_declared as (clauses & Ha & _). unfold parseFlags. rewrite Ha.
    destruct (Parse clauses args env); [|done]. cbv zeta. by destruct (validate _). }
  intros f (clauses & v & Hp & Hin & Hv & Hla & Hwc & Hl & -> & -> & Ht & Hm & ->)%parseFlags_parsed.
  assert (Hr : ∀ c, c ∈ web_config_flag :: exporter_flags → c.(fl_default) ≠ None ∨ c.(fl_kind) = KBool →
    resolved_as c args env (v c.(fl_name))).
  { intros c Hc. apply (resolved_value clauses); [done|apply Hin, elem_of_cons; by right|].
    unfold exporter_flags in Hc. rewrite !elem_of_cons, elem_of_nil in Hc. by destruct_or?; subst. }
  assert (Hty := λ c Hc Hd, resolved_typed c args env _ (Hr c Hc Hd)).
  assert (Hflag : ∀ c w, c ∈ web_config_flag :: exporter_flags → c.(fl_default) ≠ None ∨ c.(fl_kind) = KBool →
    v c.(fl_name) = w → resolved_as c args env w) by (intros c w ??; by intros <-; apply Hr).
  unfold exporter_flags in Hflag, Hty. unfold validate in Hv.
  destruct (Z.leb_spec (ProbeTimeout f) 0); [done|]. destruct (Z.ltb_spec (MaxConcurrentProbe f) 0); [done|].
  do 2 (split; [done|]). split.
  { destruct (Hty log_level_flag) as (s & Hs & Hvs & Hin'); [set_solver|by left|]. change (v "log.level" = VText s) in Hvs.
    exists s. split_and!; [done..|]. rewrite Hl, Hvs. cbn [text_of].
    destruct (log_levels_known s Hin') as (l & -> & _). done. }
  split.
  { pose proof (Parse_collects clauses args env v listen_address_flag Hp (Hin _ (list_elem_of_here _ _)) eq_refl) as Hs.
    change (fl_name listen_address_flag) with ("web.listen-address" : gostring) in Hs. by rewrite Hla, Hs. }
  split; [rewrite Hwc; apply (Hflag web_config_flag), (Hty web_config_flag); by first [set_solver|left]|].
  split_and!.
  - apply (Hflag config_file_flag), (Hty config_file_flag); by first [set_solver|left].
  - apply (Hflag config_check_flag), (Hty config_check_flag); by first [set_solver|right].
  - rewrite Ht. apply (Hflag probe_timeout_flag), (Hty probe_timeout_flag); by first [set_solver|left].
  - rewrite Hm. apply (Hflag max_concurrent_flag), (Hty max_concurrent_flag); by first [set_solver|left].
  - apply (Hflag allow_all_flag), (Hty allow_all_flag); by first [set_solver|left].
Qed.
End FlagsSpec.

(** ** A command line, parsed *)

Section FlagsDemo.
#[local] Instance demo_upper : ToUpperTable := map upper_byte.
#[local] Instance demo_upper_laws : ToUpperLaws demo_upper.
Proof. by intros s _. Qed.

(** [--name=value] among the arguments. *)
Definition demo_arguments (args : list gostring) (name : gostring) : list gostring :=
  omap (λ a, CutPrefix a ("--" ++ name ++ "=")) args.

(** The lines of a text. *)
Fixpoint demo_lines (s : gostring) : list gostring :=
  match s with
  | [] => [[]]
  | c :: s' =>
      if bool_decide (c = "010"%char) then [] :: demo_lines s'
      else match demo_lines s' with l :: ls => (c :: l) :: ls | [] => [[c]] end
  end.

Definition demo_convert (k : flag_kind) (s : gostring) : option flag_value :=
  match k with
  | KEnum options => if bool_decide (s ∈ options) then Some (VText s) else None
  | KString => Some (VText s)
  | KBool => if bool_decide (s = ("true" : gostring)) then Some (VBool true)
             else if bool_decide (s = ("false" : gostring)) then Some (VBool false) else None
  | KInt => VInt <$> Atoi s
  | KDuration => if HasSuffix s "s" then (λ n, VDuration (n * Second)) <$> Atoi (TrimSuffix s "s") else None
  | KStrings => Some (VTexts [s])
  end.

Definition demo_texts (c : flag_clause) (args : list gostring) (env : environment) : list gostring :=
  match demo_arguments args c.(fl_name), env_value c env with
  | [], [] => option_list c.(fl_default)
  | [], s => if cumulative c.(fl_kind) then demo_lines s else [s]
  | texts, _ => texts
  end.

Definition demo_value (c : flag_clause) (args : list gostring) (env : environment) : option flag_value :=
  match c.(fl_kind), demo_texts c args env with
  | KStrings, texts => Some (VTexts texts)
  | k, s :: _ => demo_convert k s
  | KBool, [] => Some (VBool false)
  | _, [] => Some (VText [])
  end.

Definition demo_Parse (clauses : list flag_clause) (args : list gostring) (env : environment)
    : option (gostring → flag_value) :=
  if bool_decide (NoDup (map fl_name clauses))
     && forallb (λ c, match demo_value c args env with Some _ => true | None => false end) clauses
  then Some (λ name, match List.find (λ c, bool_decide (c.(fl_name) = name)) clauses with
                     | Some c => default (VText []) (demo_value c args env)
                     | None => VText []
                     end)
  else None.

#[local] Instance demo_kingpin : Kingpin := {|
  AddFlags := λ address, [mkFlag "web.listen-address" (Some address) None KStrings;
                          mkFlag "web.config.file" (Some ([] : gostring)) None KString];
  arguments := demo_arguments; split_env := demo_lines; convert := demo_convert; Parse := demo_Parse |}.

Lemma demo_Parse_value clauses args env v c :
  demo_Parse clauses args env = Some v → c ∈ clauses → demo_value c args env = Some (v c.(fl_name)).
Proof.
  unfold demo_Parse. destruct (bool_decide (NoDup _)) eqn:Hn; [|done]. apply bool_decide_eq_true in Hn.
  destruct (forallb _ clauses) eqn:Hf; [|done]. intros [= <-] Hc.
  rewrite forallb_forall in Hf. specialize (Hf c (proj1 (list_elem_of_In _ _) Hc)).
  assert (List.find (λ d, bool_decide (fl_name d = fl_name c)) clauses = Some c) as ->.
  { clear Hf. induction clauses as [|d clauses IH]; [by apply elem_of_nil in Hc|]. cbn [List.find map] in Hn |- *.
    apply list.NoDup_cons in Hn as [Hd Hn]. apply elem_of_cons in Hc as [->|Hc]; [by rewrite bool_decide_eq_true_2|].
    rewrite bool_decide_eq_false_2; [by apply IH|]. intros Heq. apply Hd. rewrite Heq. by apply list_elem_of_fmap; exists c. }
  by destruct (demo_value c args env).
Qed.

#[local] Instance demo_kingpin_laws : KingpinLaws demo_kingpin.
Proof.
  split.
  - intros address. apply list_elem_of_here.
  - intros address. apply list_elem_of_further, list_elem_of_here.
  - intros clauses args env v c s Hp Hc Hcu Hr. apply (demo_Parse_value _ _ _ _ c) in Hp; [|done].
    unfold demo_value in Hp. unfold resolve in Hr. change (demo_texts c args env) with (flag_texts c args env) in Hp.
    destruct (flag_texts c args env) as [|t ts]; [done|]. injection Hr as ->. by destruct (fl_kind c).
  - intros clauses args env v c Hp Hc Hk. apply (demo_Parse_value _ _ _ _ c) in Hp; [|done].
    unfold demo_value in Hp. rewrite Hk in Hp. by injection Hp as <-.
  - intros clauses args env v c Hp Hc Hr Hk. apply (demo_Parse_value _ _ _ _ c) in Hp; [|done].
    unfold demo_value in Hp. unfold resolve in Hr. change (demo_texts c args env) with (flag_texts c args env) in Hp.
    rewrite Hk in Hp. destruct (flag_texts c args env); [by injection Hp|done].
  - intros options s v. cbn. case_bool_decide; intros ?; by simplify_eq.
  - intros s v. cbn. by intros [= <-].
  - intros k s v. destruct k; cbn; [by intros|by intros| | | |by intros].
    + repeat case_bool_decide; intros ?; simplify_eq; eauto.
    + destruct (Atoi s); intros ?; simplify_eq/=; eauto.
    + destruct (HasSuffix s _); [|by intros]. destruct (Atoi _); intros ?; simplify_eq/=; eauto.
  - intros []; reflexivity.
  - intros n Hn. cbn. by rewrite Atoi_Itoa.
  - intros n Hn. cbn. rewrite HasSuffix_app, TrimSuffix_app, Atoi_Itoa by (unfold max_int64; lia). done.
Qed.

Definition no_env : environment := λ _, None.

(** The documented defaults. *)
Definition default_flags : flags := {|
  Web := {| WebListenAddresses := [":10022" : gostring]; WebConfigFile := [] |};
  LogLevel := LevelInfo; ConfigFile := "ssh_transport_exporter.yaml"; CheckConfig := false;
  ProbeTimeout := 5 * Second; MaxConcurrentProbe := 500; AllowAllTargets := false |}.

Example flags_default : parseFlags [] no_env = Ok default_flags.
Proof. vm_compute. reflexivity. Qed.

Definition debug_env : environment := λ name,
  if bool_decide (name = ("SSH_TRANSPORT_EXPORTER_LOG_LEVEL" : gostring)) then Some ("debug" : gostring)
  else if bool_decide (name = ("SSH_TRANSPORT_EXPORTER_PROBE_TIMEOUT" : gostring)) then Some ("9s" : gostring) else None.

Example flags_precedence :
  (λ f, (f.(LogLevel), f.(ProbeTimeout), f.(MaxConcurrentProbe)))
    <$> (match parseFlags ["--probe.timeout=3s" : gostring] debug_env with Ok f => Some f | Fail _ => None end)
  = Some (LevelDebug, 3 * Second, 500).
Proof. vm_compute. reflexivity. Qed.

(** A variable that is set but empty does not count, and the listen addresses of
    the environment are its lines. *)
Example flags_environment :
  let env : environment := λ name,
    if bool_decide (name = ("SSH_TRANSPORT_EXPORTER_CONFIG_FILE" : gostring)) then Some []
    else if bool_decide (name = ("SSH_TRANSPORT_EXPORTER_LISTEN_ADDRESS" : gostring))
    then Some (":1" ++ ["010"%char] ++ ":2") else None in
  (λ f, (f.(ConfigFile), f.(Web)))
    <$> (match parseFlags [] env with Ok f => Some f | Fail _ => None end)
  = Some (("ssh_transport_exporter.yaml" : gostring),
          {| WebListenAddresses := [(":1" : gostring); (":2" : gostring)]; WebConfigFile := [] |}).
Proof. vm_compute. reflexivity. Qed.

Example flags_rejected :
  (parseFlags ["--probe.timeout=0s" : gostring] no_env, parseFlags ["--log.level=loud" : gostring] no_env)
  = (Fail (FlagsInvalid (EProbeTimeout 0)), Fail FlagsUsage).
Proof. vm_compute. reflexivity. Qed.

Lemma parseFlags_resolves_witness :
  ∃ s, resolve log_level_flag [] no_env = Some s ∧ s ∈ log_levels ∧ UnmarshalText s = Some LevelInfo.
Proof.
  exact (proj1 (proj2 (proj2 (proj2 (parseFlags_resolves [] no_env) default_flags flags_default)))).
Defined.
End FlagsDemo.
