(* ===== verification/Main.v ===== *)
(** * main.go: reloads and the life of the server

    [main] loads the configuration and decides whether to serve, [reload] swaps
    configurations, [serve] runs the server until a signal ends it.  Reloads and
    the server are step relations, because requests, signals and the listener
    run in goroutines of their own. *)

From S2P Require Import Prelude GoStrings GoFloat GoErrors Target HostKey Config ProbeHttp ProbeServe FdLimit Flags.
From coqutil Require Import Datatypes.RecordSettersUsingExistingGetters.
From stdpp Require Import relations.
Open Scope Z_scope.

(** ** The options of the handler *)

Definition probeTimeoutOffset : Z := 500 * Millisecond.

(** The options main passes to the /probe handler. *)
Definition handler_options (f : flags) : HandlerOptions :=
  {| Timeout := f.(ProbeTimeout); TimeoutOffset := probeTimeoutOffset;
     MaxConcurrent := f.(MaxConcurrentProbe) |}.

(** Flags that pass validation give every probe a timeout that is positive
    and at most --probe.timeout, whatever header a scrape carries, as long as
    --probe.timeout is below 104 days; and without a limit only when it is 0. *)
Theorem validated_timeouts f header :
  validate f = Ok () → f.(ProbeTimeout) < 2 ^ 53 - probeTimeoutOffset →
  let o := handler_options f in
  0 < effectiveTimeout header o.(Timeout) o.(TimeoutOffset) ≤ f.(ProbeTimeout)
  ∧ (0 < o.(MaxConcurrent) ∨ f.(MaxConcurrentProbe) = 0).
Proof.
  unfold validate, probeTimeoutOffset, Millisecond. intros Hv Hmax. cbv zeta. cbn [handler_options Timeout TimeoutOffset MaxConcurrent].
  destruct (Z.leb_spec (ProbeTimeout f) 0); [done|]. destruct (Z.ltb_spec (MaxConcurrentProbe f) 0); [done|].
  split; [|lia]. unfold probeTimeoutOffset, Millisecond.
  destruct (effectiveTimeout_cases header (ProbeTimeout f) (500 * 1000000) ltac:(lia) ltac:(lia) ltac:(lia))
    as [->|(x & _ & Hx & _ & Hle & Heq & Hpos)]; [lia|].
  pose proof (to_nanoseconds_le x (ProbeTimeout f + 500 * 1000000) ltac:(lia) ltac:(lia) Hle). lia.
Qed.

Definition demo_flags : flags := default_flags.

Lemma validated_timeouts_witness :
  0 < effectiveTimeout "2.5" (handler_options demo_flags).(Timeout) (handler_options demo_flags).(TimeoutOffset)
    ≤ demo_flags.(ProbeTimeout).
Proof. exact (proj1 (validated_timeouts demo_flags "2.5" eq_refl eq_refl)). Defined.

(** ** Reloading *)

(** The two gauges; the timestamp is in nanoseconds. *)
Record configReloadMetrics := mkMetrics { successful : Z; timestamp : Z }.

(** [m.successful.Set] and, after a success, [m.timestamp.SetToCurrentTime]. *)
Definition set_successful {E A} (m : configReloadMetrics) (r : res E A) : configReloadMetrics :=
  mkMetrics (if is_ok r then 1 else 0) m.(timestamp).
Definition set_timestamp {E A} (m : configReloadMetrics) (r : res E A) (now : Z) : configReloadMetrics :=
  if is_ok r then mkMetrics m.(successful) now else m.

Definition record_reload {E A} (m : configReloadMetrics) (r : res E A) (now : Z) : configReloadMetrics :=
  set_timestamp (set_successful m r) r now.

Section Reload.
Context {E A : Type}.

(** What a reload works on: the live configuration and the metrics. *)
Record reload_state := mkReload { rl_live : A; rl_metrics : configReloadMetrics }.

Definition reload (s : reload_state) (loaded : res E A) (now : Z) : reload_state * option E :=
  let m := record_reload s.(rl_metrics) loaded now in
  match loaded with
  | Fail err => (mkReload s.(rl_live) m, Some err)
  | Ok modules => (mkReload modules m, None)
  end.

(** [ServeHTTP] of POST /-/reload: the state and the status. *)
Definition reload_ServeHTTP (s : reload_state) (loaded : res E A) (now : Z) : reload_state * Z :=
  let '(s', err) := reload s loaded now in
  (s', match err with Some _ => 500 | None => 200 end).

(** A sequence of reloads. *)
Definition reload_all (s : reload_state) (loads : list (res E A * Z)) : reload_state :=
  fold_left (λ s l, (reload s l.1 l.2).1) loads s.

Definition last_success (loads : list (res E A * Z)) : option (A * Z) :=
  list.last (omap (λ l, match l.1 with Ok a => Some (a, l.2) | Fail _ => None end) loads).

(** After any number of reloads the configuration served is that of the last
    reload that succeeded, or the one the exporter started with, and the
    metrics tell when that was and whether the last reload was it. *)
Theorem reload_keeps_last_good s loads :
  let s' := reload_all s loads in
  s'.(rl_live) = (match last_success loads with Some (a, _) => a | None => s.(rl_live) end)
  ∧ s'.(rl_metrics).(timestamp)
    = (match last_success loads with Some (_, t) => t | None => s.(rl_metrics).(timestamp) end)
  ∧ s'.(rl_metrics).(successful)
    = (match list.last loads with Some (l, _) => if is_ok l then 1 else 0 | None => s.(rl_metrics).(successful) end).
Proof.
  cbv zeta. unfold reload_all, last_success. induction loads as [|[l t] loads IH] using rev_ind; [done|].
  rewrite fold_left_app, omap_app, list.last_snoc. cbn [fold_left fst snd omap list_omap].
  destruct IH as (IH1 & IH2 & _). unfold reload, record_reload. destruct l as [a|e]; cbn [fst rl_live rl_metrics timestamp successful is_ok].
  - by rewrite list.last_snoc.
  - by rewrite app_nil_r.
Qed.
End Reload.

(** *** Reloads of several goroutines

    The SIGHUP goroutine and POST /-/reload may reload at the same time.  The
    files are an edit history: version v is what they held after v edits. *)

Inductive reloader_phase :=
  | RIdle
  | RLocked                     (* holds rl.mu *)
  | RLoaded (version : nat).    (* config.Load returned what that version holds *)

Record reloads := mkReloads {
  disk : nat;                       (* how often the files were edited *)
  live_version : nat;               (* the version being served *)
  mu : option nat;                  (* who holds the mutex *)
  reloaders : gmap nat reloader_phase
}.

Section Serialized.
(** Whether a version is a valid configuration. *)
Context (valid : nat → bool).

Inductive reload_step : reloads → reloads → Prop :=
  | rs_edit s : reload_step s (mkReloads (S s.(disk)) s.(live_version) s.(mu) s.(reloaders))
  | rs_lock s i :
      s.(reloaders) !! i = Some RIdle → s.(mu) = None →
      reload_step s (mkReloads s.(disk) s.(live_version) (Some i) (<[i := RLocked]> s.(reloaders)))
  | rs_load s i :
      s.(reloaders) !! i = Some RLocked →
      reload_step s (mkReloads s.(disk) s.(live_version) s.(mu) (<[i := RLoaded s.(disk)]> s.(reloaders)))
  | rs_finish s i v :
      s.(reloaders) !! i = Some (RLoaded v) →
      reload_step s (mkReloads s.(disk) (if valid v then v else s.(live_version)) None
                       (<[i := RIdle]> s.(reloaders))).

(** Only the holder of the mutex is past it, with a version not yet superseded. *)
Definition serialized (s : reloads) : Prop :=
  (s.(live_version) ≤ s.(disk))%nat
  ∧ ∀ i p, s.(reloaders) !! i = Some p → p ≠ RIdle →
      s.(mu) = Some i ∧ (∀ v, p = RLoaded v → (s.(live_version) ≤ v ≤ s.(disk))%nat).

Lemma serialized_step s s' : serialized s → reload_step s s' →
  serialized s' ∧ (s.(live_version) ≤ s'.(live_version))%nat.
Proof.
  intros [Hle Hs] Hstep. inversion Hstep as [s1|s1 i Hi Hmu|s1 i Hi|s1 i v Hi]; subst; unfold serialized;
    cbn [disk live_version mu reloaders].
  - split; [|lia]. split; [lia|]. intros i p Hp Hne. destruct (Hs i p Hp Hne) as [Hmu Hv].
    split; [done|]. intros v Heq. specialize (Hv v Heq). lia.
  - split; [|lia]. split; [done|]. intros j p [[<- <-]|[Hne Hj]]%lookup_insert_Some Hp; [done|].
    destruct (Hs j p Hj Hp) as [? _]. congruence.
  - split; [|lia]. split; [done|]. destruct (Hs i _ Hi ltac:(done)) as [Hmu _].
    intros j p [[<- <-]|[Hne Hj]]%lookup_insert_Some Hp.
    + split; [done|]. intros v [= <-]. lia.
    + destruct (Hs j p Hj Hp) as [? _]. congruence.
  - destruct (Hs i _ Hi ltac:(done)) as [Hmu Hv]. specialize (Hv v eq_refl).
    split; [|case_match; lia]. split; [case_match; lia|].
    intros j p [[<- <-]|[Hne Hj]]%lookup_insert_Some Hp; [done|].
    destruct (Hs j p Hj Hp) as [? _]. congruence.
Qed.

(** C37: concurrent reloads never go back: whatever the interleaving of edits and
    reloads, an older configuration does not replace a newer one. *)
Theorem reloads_never_go_back n s s' :
  let idle := mkReloads 0 0 None (gset_to_gmap RIdle (set_seq 0 n)) in
  rtc reload_step idle s → rtc reload_step s s' → (s.(live_version) ≤ s'.(live_version) ≤ s'.(disk))%nat.
Proof.
  cbv zeta. intros H1 H2.
  assert (∀ a b, rtc reload_step a b → serialized a → serialized b ∧ (live_version a ≤ live_version b)%nat) as Hinv.
  { induction 1 as [a|a b c Hab _ IH]; intros Ha; [split; [done|lia]|].
    destruct (serialized_step a b Ha Hab) as [Hb ?]. destruct (IH Hb) as [? ?]. split; [done|lia]. }
  apply Hinv in H1 as [Hs _].
  - apply Hinv in H2 as [[Hle _] ?]; [|done]. lia.
  - split; [done|]. cbn. intros i p [_ <-]%lookup_gset_to_gmap_Some. done.
Qed.
End Serialized.

(** An edit between two reloads: the second one serves it. *)
Lemma reloads_never_go_back_witness :
  ∃ s, rtc (reload_step (λ _, true)) (mkReloads 0 0 None (gset_to_gmap RIdle (set_seq 0 2))) s
    ∧ s.(live_version) = 1%nat ∧ (s.(live_version) ≤ s.(live_version) ≤ s.(disk))%nat.
Proof.
  set (m0 := gset_to_gmap RIdle (set_seq 0 2)).
  assert (rtc (reload_step (λ _, true)) (mkReloads 0 0 None m0)
    (mkReloads 1 1 None (<[1%nat := RIdle]> (<[1%nat := RLoaded 1]> (<[1%nat := RLocked]> m0))))) as Hp.
  { eapply rtc_l; [apply rs_edit|]. cbn [disk live_version mu reloaders].
    eapply rtc_l; [apply (rs_lock _ _ 1); vm_compute; reflexivity|]. cbn [disk live_version mu reloaders].
    eapply rtc_l; [apply (rs_load _ _ 1), lookup_insert_eq|]. cbn [disk live_version mu reloaders].
    apply rtc_once.
    exact (rs_finish (λ _, true) (mkReloads 1 0 (Some 1%nat) (<[1%nat := RLoaded 1]> (<[1%nat := RLocked]> m0))) 1 1
      (lookup_insert_eq _ _ _)). }
  eexists. split; [exact Hp|]. split; [reflexivity|].
  exact (reloads_never_go_back (λ _, true) 2 _ _ Hp (rtc_refl _ _)).
Defined.

(** ** Routes *)

Inductive endpoint := LandingPage | Health | ReloadEndpoint | Metrics | Probe_ | NotFound | MethodNotAllowed.

(** The patterns registered on the mux; one with GET also serves HEAD, and [{$}]
    matches the root only.  The path is as the mux matches it: cleaned (net/http
    redirects a path that is not) and its segments unescaped. *)
Definition route (method path : gostring) : endpoint :=
  let get := bool_decide (method = ("GET" : gostring)) || bool_decide (method = ("HEAD" : gostring)) in
  let post := bool_decide (method = ("POST" : gostring)) in
  if bool_decide (path = ("/" : gostring)) then if get then LandingPage else MethodNotAllowed
  else if bool_decide (path = ("/-/healthy" : gostring)) || bool_decide (path = ("/-/ready" : gostring))
  then if get then Health else MethodNotAllowed
  else if bool_decide (path = ("/-/reload" : gostring)) then if post then ReloadEndpoint else MethodNotAllowed
  else if bool_decide (path = ("/metrics" : gostring)) then Metrics
  else if bool_decide (path = ("/probe" : gostring)) then Probe_
  else NotFound.

(** ** Serving until a signal *)

Inductive signal := SIGHUP | SIGINT | SIGTERM.

(** The goroutine that waits for signals. *)
Inductive loop_phase := Waiting | Reloading | ShuttingDown | Exited.

(** [listenAndServe]: running, told to close by Shutdown, or returned. *)
Inductive listener_phase := Listening | Closing | Returned (err : option goerror).

Record server := mkServer {
  sigCh : option signal;        (* the channel of capacity one *)
  notified : bool;              (* signals go to the channel, not to the default action *)
  loop : loop_phase;
  listener : listener_phase;
  stop : bool;                  (* the stop channel is closed *)
  active : nat;                 (* requests being served *)
  drain_timeout : bool;         (* Shutdown gave up after shutdownTimeout *)
  result : option (option goerror);   (* what serve returned *)
  killed : bool                 (* the default action of a signal *)
}.

Definition http_ErrServerClosed : goerror := errors_New "http: Server closed".

Definition start_server : server :=
  mkServer None true Waiting Listening false 0 false None false.

(** The last lines of [serve]. *)
Definition serve_result (err : option goerror) : option goerror :=
  match err with
  | Some e => if errors_Is e http_ErrServerClosed then None else Some e
  | None => None
  end.

(** A signal that finds the channel full is dropped by os/signal. *)
Definition deliver (s : server) (sig : signal) : server :=
  if s.(notified) then match s.(sigCh) with None => s <| sigCh := Some sig |> | Some _ => s end
  else s <| killed := true |>.

(** Requests on connections that are open; when one ends is up to its probe and
    its client. *)
Inductive traffic : server → server → Prop :=
  | tr_request s : s.(listener) = Listening ∨ s.(loop) = ShuttingDown → traffic s (s <| active := S s.(active) |>)
  | tr_request_done s n : s.(active) = S n → traffic s (s <| active := n |>).

(** What comes from outside. *)
Inductive arrival : server → server → Prop :=
  | ar_signal s sig : arrival s (deliver s sig)
  | ar_traffic s s' : traffic s s' → arrival s s'.

(** What [serve] does itself: the signal goroutine, where a reload and Shutdown
    come to an end, the listener, and the lines after [listenAndServe]. *)
Inductive own_event : server → server → Prop :=
  | sv_reload s :
      s.(loop) = Waiting → s.(sigCh) = Some SIGHUP →
      own_event s (s <| sigCh := None |> <| loop := Reloading |>)
  | sv_reloaded s : s.(loop) = Reloading → own_event s (s <| loop := Waiting |>)
  | sv_shutdown s sig :
      s.(loop) = Waiting → s.(sigCh) = Some sig → sig ≠ SIGHUP →
      own_event s (s <| sigCh := None |> <| notified := false |> <| loop := ShuttingDown |>
                      <| listener := match s.(listener) with Listening => Closing | l => l end |>)
  | sv_drained s : s.(loop) = ShuttingDown → s.(active) = 0%nat → own_event s (s <| loop := Exited |>)
  | sv_drain_timeout s :
      s.(loop) = ShuttingDown → own_event s (s <| drain_timeout := true |> <| loop := Exited |>)
  | sv_stopped s : s.(loop) = Waiting → s.(stop) = true → own_event s (s <| loop := Exited |>)
  | sv_listen_error s err : s.(listener) = Listening → own_event s (s <| listener := Returned err |>)
  | sv_listen_closed s :
      s.(listener) = Closing → own_event s (s <| listener := Returned (Some http_ErrServerClosed) |>)
  | sv_close_stop s err : s.(listener) = Returned err → s.(stop) = false → own_event s (s <| stop := true |>)
  | sv_return s err :
      s.(listener) = Returned err → s.(stop) = true → s.(loop) = Exited → s.(result) = None →
      own_event s (s <| result := Some (serve_result err) |>).

(** A process that a signal has killed does nothing any more. *)
Definition serve_step (s s' : server) : Prop := s.(killed) = false ∧ (arrival s s' ∨ own_event s s').
Definition own_step (s s' : server) : Prop := s.(killed) = false ∧ own_event s s'.

Lemma step_arrival s s' : s.(killed) = false → arrival s s' → serve_step s s'.
Proof. by split; [|left]. Qed.
Lemma step_own s s' : s.(killed) = false → own_event s s' → serve_step s s'.
Proof. by split; [|right]. Qed.

Definition returned_as (l : listener_phase) (r : option goerror) : Prop :=
  match l with Returned err => r = serve_result err | _ => False end.

Record serve_invariant (s : server) : Prop := {
  si_closing : s.(notified) = false → s.(listener) ≠ Listening;
  si_waiting : s.(loop) = Waiting ∨ s.(loop) = Reloading → s.(notified) = true;
  si_shutdown : s.(loop) = ShuttingDown → s.(notified) = false;
  si_drained : s.(loop) = Exited → s.(notified) = false → s.(drain_timeout) = false → s.(active) = 0%nat;
  si_stopped : s.(loop) = Exited → s.(notified) = true → s.(stop) = true;
  si_returned : s.(stop) = true → s.(listener) ≠ Listening ∧ s.(listener) ≠ Closing;
  si_result : match s.(result) with
              | None => True
              | Some r => s.(loop) = Exited ∧ s.(stop) = true ∧ returned_as s.(listener) r
              end
}.

Lemma serve_invariant_start : serve_invariant start_server.
Proof. split; cbn; intros; try done; naive_solver. Qed.

Tactic Notation "serve_cases" ident(H2) ident(H3) ident(H4) ident(H6) ident(re) ident(li) :=
  split; cbn; unfold RecordSettersUsingExistingGetters.const in *; intros; subst;
  try done; try tauto; try congruence;
  try (destruct re; [|done]; cbn in *; destruct_and?; subst; try done; try congruence; tauto);
  try (destruct (H6 eq_refl), li; split; done);
  try (destruct li; done);
  try (pose proof (H2 (or_introl eq_refl)); congruence);
  try (pose proof (H2 (or_intror eq_refl)); congruence);
  try (pose proof (H3 eq_refl); congruence);
  try (match goal with H : _ ∨ _ |- _ => destruct H; congruence end);
  try (exfalso; discriminate (H4 ltac:(done) ltac:(done) ltac:(done))).

Lemma serve_invariant_arrival s s' : serve_invariant s → arrival s s' → serve_invariant s'.
Proof.
  intros [H1 H2 H3 H4 H5 H6 H7] Hs. destruct s as [ch no lo li st ac dt re ki]. cbn in H1, H2, H3, H4, H5, H6, H7.
  inversion Hs as [? sig|? ? Ht]; clear Hs; subst; cbn in *; subst.
  - unfold deliver; cbn; destruct no; [destruct ch|]; serve_cases H2 H3 H4 H6 re li.
  - inversion Ht as [? Hrq|? n Hn]; clear Ht; subst; cbn in *; subst; [destruct Hrq; subst|];
      serve_cases H2 H3 H4 H6 re li.
Qed.

Lemma serve_invariant_own s s' : serve_invariant s → own_event s s' → serve_invariant s'.
Proof.
  intros [H1 H2 H3 H4 H5 H6 H7] Hs. destruct s as [ch no lo li st ac dt re ki]. cbn in H1, H2, H3, H4, H5, H6, H7.
  inversion Hs; clear Hs; subst; cbn in *; subst; serve_cases H2 H3 H4 H6 re li.
Qed.

Lemma serve_invariant_reachable s : rtc serve_step start_server s → serve_invariant s.
Proof.
  intros Hr. pose proof serve_invariant_start as H0.
  induction Hr as [|s1 s2 s3 [_ [Hs|Hs]] _ IH]; [done|..]; apply IH;
    [by eapply serve_invariant_arrival|by eapply serve_invariant_own].
Qed.

(** C38: when [serve] returns, the listener has returned and the signal goroutine
    has ended; it returns nil exactly when the listener closed without an error
    of its own; and if a signal ended it, every request had drained, unless the
    drain ran into its timeout. *)
Theorem serve_returns_after_drain s r :
  rtc serve_step start_server s → s.(result) = Some r →
  s.(loop) = Exited ∧ (∃ err, s.(listener) = Returned err ∧ r = serve_result err)
  ∧ (s.(notified) = false → s.(drain_timeout) = false → s.(active) = 0%nat).
Proof.
  intros [_ _ _ H4 _ _ H7]%serve_invariant_reachable Hr. rewrite Hr in H7.
  destruct H7 as (Hl & _ & Hret). split_and!; [done| |by apply H4].
  unfold returned_as in Hret. destruct (listener s); [done..|eauto].
Qed.

(** What is left to do: every own step takes some of it away. *)
Definition todo (s : server) : nat :=
  (match s.(sigCh) with Some _ => 4 | None => 0 end
   + match s.(loop) with Waiting => 2 | Reloading => 3 | ShuttingDown => 1 | Exited => 0 end
   + match s.(listener) with Listening => 2 | Closing => 1 | Returned _ => 0 end
   + (if s.(stop) then 0 else 1) + (if s.(result) then 0 else 1))%nat.

Lemma todo_own s s' : own_event s s' → (todo s' < todo s)%nat.
Proof.
  destruct s as [ch no lo li st ac dt re ki]. intros Hs. inversion Hs; subst; cbn in *; subst;
    unfold todo, RecordSettersUsingExistingGetters.const; cbn; repeat case_match; simplify_eq; lia.
Qed.

Lemma todo_traffic s s' : traffic s s' → todo s' = todo s.
Proof. by inversion 1. Qed.

Lemma todo_deliver s sig : (todo (deliver s sig) ≤ todo s + (if s.(notified) then 4 else 0))%nat.
Proof.
  destruct s as [ch no lo li st ac dt re ki]. unfold deliver. cbn [notified sigCh].
  destruct no; [destruct ch|]; unfold todo; cbn; lia.
Qed.

(** A server that is ending: told to shut down, or without a listener. *)
Definition ending (s : server) : Prop := s.(notified) = false ∨ ∃ err, s.(listener) = Returned err.

Lemma ending_step s s' : ending s → serve_step s s' → ending s'.
Proof.
  unfold ending. destruct s as [ch no lo li st ac dt re ki]. intros He [_ [Hs|Hs]].
  - inversion Hs as [? sig|? ? Ht]; subst; [|by inversion Ht; subst].
    unfold deliver. cbn in *. destruct no; [destruct ch|]; cbn; naive_solver.
  - destruct He as [He|[err He]]; cbn in He; subst; inversion Hs; subst; cbn in *; simplify_eq; eauto.
Qed.

Lemma notified_step s s' : s.(notified) = false → serve_step s s' → s'.(notified) = false.
Proof.
  destruct s as [ch no lo li st ac dt re ki]. cbn. intros -> [_ [Hs|Hs]].
  - inversion Hs as [? sig|? ? Ht]; subst; [done|by inversion Ht; subst].
  - by inversion Hs; subst.
Qed.

(** A run, with the number of [serve]'s own steps and the number of signals. *)
Inductive run : nat → nat → server → server → Prop :=
  | run_nil s : run 0 0 s s
  | run_own n k s s1 s2 : own_step s s1 → run n k s1 s2 → run (S n) k s s2
  | run_traffic n k s s1 s2 : s.(killed) = false → traffic s s1 → run n k s1 s2 → run n k s s2
  | run_signal n k s sig s2 : s.(killed) = false → run n k (deliver s sig) s2 → run n (S k) s s2.

Lemma run_steps n k s s' : run n k s s' → rtc serve_step s s'.
Proof.
  induction 1 as [s|n k s s1 s2 [Hk Hs] _ IH|n k s s1 s2 Hk Ht _ IH|n k s sig s2 Hk _ IH]; [done|..];
    (eapply rtc_l; [|exact IH]).
  - by apply step_own.
  - apply step_arrival; [done|]. by apply ar_traffic.
  - apply step_arrival; [done|]. apply ar_signal.
Qed.

Lemma todo_run n k s s' : run n k s s' →
  (n + todo s' ≤ todo s + 4 * k)%nat ∧ (s.(notified) = false → n + todo s' ≤ todo s)%nat.
Proof.
  induction 1 as [s|n k s s1 s2 [Hk Hs] _ [IH IHn]|n k s s1 s2 Hk Ht _ [IH IHn]|n k s sig s2 Hk _ [IH IHn]]; [lia|..].
  - pose proof (notified_step s s1). apply todo_own in Hs as Hlt. split; [lia|]. intros Hn.
    assert (notified s1 = false) as Hn1 by (by apply (notified_step s); [|apply step_own]). specialize (IHn Hn1). lia.
  - pose proof (todo_traffic _ _ Ht). split; [lia|]. intros Hn.
    assert (notified s1 = false) as Hn1 by (by inversion Ht; subst). specialize (IHn Hn1). lia.
  - pose proof (todo_deliver s sig) as Hd. split; [destruct (notified s); lia|]. intros Hn. rewrite Hn in Hd.
    assert (notified (deliver s sig) = false) as Hn1 by (unfold deliver; by rewrite Hn). specialize (IHn Hn1). lia.
Qed.

(** An ending server that cannot do anything has returned. *)
Lemma ending_stuck s :
  serve_invariant s → ending s → s.(killed) = false → (∀ s', ¬ own_step s s') →
  ∃ err, s.(listener) = Returned err ∧ s.(result) = Some (serve_result err).
Proof.
  intros [H1 H2 H3 H4 H5 H6 H7] He Hk Hstuck.
  assert (∀ s', own_event s s' → False) as Hno by (intros s' Hs; by apply (Hstuck s')). clear Hstuck.
  assert (∃ err, s.(listener) = Returned err) as [err Hl].
  { destruct He as [Hn|He]; [|done]. apply H1 in Hn. destruct (listener s) as [| |err] eqn:Hl; [done| |by exists err].
    exfalso. eapply Hno, sv_listen_closed, Hl. }
  exists err. split; [done|].
  destruct (stop s) eqn:Hst; [|exfalso; by eapply Hno, sv_close_stop].
  destruct (loop s) eqn:Hlo; [exfalso; by eapply Hno, sv_stopped|exfalso; by eapply Hno, sv_reloaded
    |exfalso; by eapply Hno, sv_drain_timeout|].
  destruct (result s) as [r|] eqn:Hr; [|exfalso; by eapply Hno, sv_return].
  destruct H7 as (_ & _ & H7). unfold returned_as in H7. rewrite Hl in H7. by rewrite H7.
Qed.

(** C39: [serve] cannot hang, though a request may never end: once it was told to
    stop, or its listener has returned, it takes at most [todo s] steps of its own,
    and four more per signal that is still caught, in whatever order goroutines,
    requests and signals are scheduled; and as long as no second signal has
    killed the process, it has such a step to take until it has returned.  That a
    reload ends, and Shutdown by its timeout, is assumed. *)
Theorem serve_terminates s n k s' :
  rtc serve_step start_server s → ending s → run n k s s' →
  (n ≤ todo s + 4 * k)%nat ∧ (s.(notified) = false → n ≤ todo s)%nat
  ∧ (s'.(killed) = false → (∀ s'', ¬ own_step s' s'') →
     ∃ err, s'.(listener) = Returned err ∧ s'.(result) = Some (serve_result err)).
Proof.
  intros Hr He Hn. pose proof (run_steps n k s s' Hn) as Hss. destruct (todo_run n k s s' Hn) as [Hle Hle'].
  split; [lia|]. split; [intros Hnot; specialize (Hle' Hnot); lia|].
  apply ending_stuck; [apply serve_invariant_reachable; by etransitivity|].
  clear Hr Hn Hle Hle'. induction Hss as [s|s s1 s2 Hs _ IH]; [done|]. apply IH. by eapply ending_step.
Qed.

(** A server that is told to stop while it serves one request. *)
Definition demo_path : list server :=
  let s1 := start_server <| active := 1%nat |> in
  let s2 := deliver s1 SIGTERM in
  let s3 := s2 <| sigCh := None |> <| notified := false |> <| loop := ShuttingDown |> <| listener := Closing |> in
  let s4 := s3 <| active := 0%nat |> in
  let s5 := s4 <| loop := Exited |> in
  let s6 := s5 <| listener := Returned (Some http_ErrServerClosed) |> in
  let s7 := s6 <| stop := true |> in
  [s1; s2; s3; s4; s5; s6; s7; s7 <| result := Some None |>].

Definition nth_state (n : nat) : server := default start_server (demo_path !! n).

Lemma demo_stopping : rtc serve_step start_server (nth_state 2).
Proof.
  eapply rtc_l; [apply step_arrival; [done|]; apply ar_traffic, tr_request; by left|].
  eapply rtc_l; [apply step_arrival; [done|]; apply (ar_signal _ SIGTERM)|].
  apply rtc_once, step_own; [done|]. exact (sv_shutdown (nth_state 1) SIGTERM eq_refl eq_refl ltac:(done)).
Qed.

Lemma demo_drains : run 4 0 (nth_state 2) (nth_state 7).
Proof.
  eapply run_traffic; [done|exact (tr_request_done (nth_state 2) 0 eq_refl)|].
  eapply run_own; [split; [done|exact (sv_drained (nth_state 3) eq_refl eq_refl)]|].
  eapply run_own; [split; [done|by apply (sv_listen_closed (nth_state 4))]|].
  eapply run_own; [split; [done|by eapply sv_close_stop]|].
  eapply run_own; [split; [done|exact (sv_return (nth_state 6) (Some http_ErrServerClosed) eq_refl eq_refl eq_refl eq_refl)]|].
  apply run_nil.
Qed.

Lemma demo_stops : rtc serve_step start_server (nth_state 7).
Proof. etransitivity; [exact demo_stopping|]. eapply run_steps, demo_drains. Qed.

Lemma serve_returns_after_drain_witness : (nth_state 7).(active) = 0%nat.
Proof.
  exact (proj2 (proj2 (serve_returns_after_drain (nth_state 7) None demo_stops eq_refl)) eq_refl eq_refl).
Defined.

Lemma serve_terminates_witness : (4 ≤ todo (nth_state 2) + 4 * 0)%nat.
Proof.
  exact (proj1 (serve_terminates (nth_state 2) 4 0 (nth_state 7) demo_stopping (or_introl eq_refl) demo_drains)).
Defined.

(** The channel holds one signal for all three: while a reload runs and another
    SIGHUP waits, a termination signal is dropped, and leaves no trace. *)
Example termination_signal_lost :
  let busy := start_server <| loop := Reloading |> <| sigCh := Some SIGHUP |> in
  rtc serve_step start_server busy ∧ deliver busy SIGTERM = busy.
Proof.
  cbv zeta. split; [|reflexivity].
  eapply rtc_l; [apply step_arrival; [done|]; apply (ar_signal _ SIGHUP)|].
  eapply rtc_l; [apply step_own; [done|]; by apply sv_reload|].
  apply rtc_once, step_arrival; [done|]. exact (ar_signal (start_server <| loop := Reloading |>) SIGHUP).
Qed.

(** ** Start-up

    [main] between parsing its flags and opening the listener. *)

(** One call of [config.Load]: the files it met, the order in which it ranged
    over maps, and the time. *)
Record loading := {
  ld_env : ConfigEnv;
  ld_range : MapRange;
  ld_laws : MapRangeLaws ld_range;
  ld_now : Z
}.

Inductive outcome :=
  | ExitFlags (e : flags_exit)
  | ExitLoad (e : config_error)
  | ExitWebConfig (e : goerror)
  | ConfigOK (module_count : nat)
  | Serving (s : reload_state (A := gmap gostring Module_)) (opts : HandlerOptions) (fd_warning : bool).

Section Startup.
Context {U : UnicodeTables}.
(** [web.Validate] of a web configuration file, and the soft limit. *)
Context {E : Type} (web_Validate : gostring → option goerror) (softLimit : res E Z).

Definition config_Load (f : flags) (l : loading) : res config_error (gmap gostring Module_) :=
  @Load U l.(ld_env) l.(ld_range) f.(ConfigFile) f.(AllowAllTargets).

(** [checkConfig] *)
Definition checkConfig (f : flags) (module_count : nat) : outcome :=
  match web_Validate f.(Web).(WebConfigFile) with Some e => ExitWebConfig e | None => ConfigOK module_count end.

(** [main] once the flags are parsed. *)
Definition start (f : flags) (l : loading) : outcome :=
  let loaded := config_Load f l in
  let reloadMetrics := record_reload (mkMetrics 0 0) loaded l.(ld_now) in
  match loaded with
  | Fail e => ExitLoad e
  | Ok modules =>
      if f.(CheckConfig) then checkConfig f (size modules)
      else
        let '(ok, soft, needed) := Sufficient softLimit f.(MaxConcurrentProbe) in
        Serving (mkReload modules reloadMetrics) (handler_options f) (negb ok)
  end.

Context {KP : Kingpin} {UT : ToUpperTable}.

Definition main (args : list gostring) (env : environment) (l : loading) : outcome :=
  match parseFlags args env with Fail e => ExitFlags e | Ok f => start f l end.

(** [main] serves exactly when the command line parses, the file loads and
    --config.check was not given. *)
Lemma main_Serving args env l s opts warning :
  main args env l = Serving s opts warning ↔
  ∃ f, parseFlags args env = Ok f ∧ config_Load f l = Ok s.(rl_live) ∧ f.(CheckConfig) = false
  ∧ s.(rl_metrics) = mkMetrics 1 l.(ld_now) ∧ opts = handler_options f
  ∧ warning = negb (Sufficient softLimit f.(MaxConcurrentProbe)).1.1.
Proof.
  unfold main, start, checkConfig. destruct (parseFlags args env) as [f|e].
  2: { split; [discriminate|]. by intros (f' & ? & _). }
  destruct (config_Load f l) as [modules|e] eqn:Hl.
  2: { split; [discriminate|]. intros (f' & [= <-] & ? & _). congruence. }
  destruct (CheckConfig f) eqn:Hcc.
  { split; [by destruct (web_Validate _)|]. intros (f' & [= <-] & _ & ? & _). congruence. }
  destruct (Sufficient softLimit (MaxConcurrentProbe f)) as [[ok soft] needed] eqn:Hok. cbn [record_reload fst].
  destruct s as [live metrics]. cbn [rl_live rl_metrics]. split.
  - intros [= <- <- <- <-]. exists f. by rewrite Hok.
  - intros (f' & [= <-] & Hm & _ & Hme & -> & ->). rewrite Hok. cbn. congruence.
Qed.

(** Flags that are returned were validated. *)
Lemma parseFlags_valid args env f : parseFlags args env = Ok f → validate f = Ok ().
Proof.
  unfold parseFlags. destruct app_flags as [clauses|]; [|done]. destruct (Parse clauses args env) as [v|]; [|done].
  cbv zeta. destruct (validate _) as [[]|] eqn:Hv; [|done]. by intros [= <-].
Qed.

(** The configuration served after some reloads. *)
Definition served (f : flags) (s : reload_state) (reloads : list loading) : gmap gostring Module_ :=
  (reload_all s (map (λ l, (config_Load f l, l.(ld_now))) reloads)).(rl_live).

Definition loads_fine (f : flags) (l : loading) : Prop := is_ok (config_Load f l) = true.
#[export] Instance loads_fine_dec f l : Decision (loads_fine f l).
Proof. unfold loads_fine. apply _. Defined.

(** The configuration served is that of the last load that succeeded. *)
Lemma served_last f s l0 reloads :
  config_Load f l0 = Ok s.(rl_live) →
  ∃ l, list.last (filter (loads_fine f) (l0 :: reloads)) = Some l ∧ config_Load f l = Ok (served f s reloads).
Proof.
  intros H0. unfold served, reload_all. induction reloads as [|l reloads IH] using rev_ind.
  - exists l0. rewrite filter_cons_True by (unfold loads_fine; by rewrite H0). done.
  - rewrite map_app, fold_left_app, app_comm_cons, list.filter_app. cbn [map fold_left fst snd].
    unfold reload at 1. destruct (config_Load f l) as [modules|e] eqn:Hl; cbn [fst rl_live].
    + exists l. rewrite (filter_cons_True _ l []) by (unfold loads_fine; by rewrite Hl).
      cbn [filter list_filter]. by rewrite list.last_snoc.
    + rewrite (filter_cons_False _ l []) by (unfold loads_fine; by rewrite Hl).
      cbn [filter list_filter]. rewrite app_nil_r. exact IH.
Qed.

(** An exporter that was started without --allow-all-targets and
    reloaded any number of times, successfully or not, only starts probes that
    a pattern and a port of its configuration file let through, as the file was
    at the last load that succeeded; with the limits its flags set. *)
Lemma served_from_loaded_file args env f l0 s opts warning reloads r adm :
  parseFlags args env = Ok f → f.(AllowAllTargets) = false → main args env l0 = Serving s opts warning →
  check (served f s reloads) r = Ok adm →
  (∃ l data cfg, list.last (filter (loads_fine f) (l0 :: reloads)) = Some l
    ∧ l.(ld_env).(ReadFile) f.(ConfigFile) = Ok data ∧ @decode l.(ld_env) data = Ok cfg
    ∧ pattern_admits cfg adm)
  ∧ 0 < opts.(Timeout) ∧ 0 ≤ opts.(MaxConcurrent).
Proof.
  intros Hf Hno (f' & Hf' & H0' & _ & _ & -> & _)%main_Serving Hc.
  assert (f' = f) as -> by congruence. apply parseFlags_valid in Hf as Hv. split.
  - destruct (served_last f s l0 reloads H0') as (l & Hlast & Hl).
    unfold config_Load in Hl. rewrite Hno in Hl. pose proof l.(ld_laws).
    destruct (admitted_by_a_pattern _ _ _ _ Hl Hc) as (data & cfg & Hd & Hcfg & Hp).
    by exists l, data, cfg.
  - unfold validate in Hv. cbn [handler_options Timeout MaxConcurrent].
    destruct (Z.leb_spec f.(ProbeTimeout) 0); [done|].
    by destruct (Z.ltb_spec f.(MaxConcurrentProbe) 0).
Qed.
End Startup.

Section StartupDemo.
#[local] Existing Instance caseless.

Definition demo_loading (now : Z) : loading := {|
  ld_env := demo_config_env; ld_range := forward; ld_laws := forward_ok; ld_now := now
|}.
#[local] Existing Instance demo_kingpin.
#[local] Existing Instance demo_upper.

Definition start_args : list gostring := ["--config.file=cfg" : gostring].
Definition start_flags : flags :=
  {| Web := {| WebListenAddresses := [":10022" : gostring]; WebConfigFile := [] |}; LogLevel := LevelInfo;
     ConfigFile := "cfg"; CheckConfig := false; ProbeTimeout := 5 * Second;
     MaxConcurrentProbe := 500; AllowAllTargets := false |}.
Lemma start_parsed : parseFlags start_args no_env = Ok start_flags.
Proof. vm_compute. reflexivity. Qed.
Definition started : reload_state := mkReload demo_modules (mkMetrics 1 7).

(** Started, and reloaded once. *)
Lemma served_from_loaded_file_witness :
  ∃ cfg, pattern_admits cfg demo_admission.
Proof.
  destruct (served_from_loaded_file (λ _, None) (Ok 4096 : res string Z) start_args no_env start_flags
    (demo_loading 7) started (handler_options start_flags) false [demo_loading 8]
    (demo_request "A.example.com.:2222") demo_admission) as [(l & data & cfg & _ & _ & _ & H) _].
  - exact start_parsed.
  - reflexivity.
  - apply main_Serving. exists start_flags.
    split_and!; first [exact start_parsed | exact demo_load | reflexivity].
  - transitivity (check demo_modules (demo_request "A.example.com.:2222")); [|exact demo_check].
    f_equal.
  - exists cfg. exact H.
Defined.
End StartupDemo.
