(* ===== verification/Exporter.v ===== *)
(** * main.go: the running exporter

    The state [main] shares between its goroutines, put together: the handler of
    ProbeServe.v with its collectors, the live configuration it reads, and the
    reloads that replace it, each a sequence of steps under the reloader's mutex.
    Then the pages the mux serves besides probes, and the names registered with
    the default registry. *)

From S2P Require Import Prelude GoStrings GoFloat GoErrors HostKey Identification Probe ProbeRun Collector Config ProbeHttp ProbeServe Scrape FdLimit Flags Main.
From stdpp Require Import relations.
Open Scope Z_scope.

(** ** Requests and reloads together *)

(** How far the reload that holds the mutex has come. *)
Inductive reload_progress :=
  | Unlocked
  | Locked
  | LoadReturned (l : loading)     (* config.Load has returned *)
  | Recording (l : loading)        (* the gauge of the success is set *)
  | Recorded (l : loading).        (* so is the timestamp *)

Record exporter := mkExporter {
  ex_world : world;                (* the handler, with the live configuration *)
  ex_metrics : configReloadMetrics;
  ex_reload : reload_progress;
  ex_loads : list loading          (* the reloads that have finished, for the proofs *)
}.

Definition with_live (w : world) (modules : gmap gostring Module_) : world :=
  mkWorld modules w.(sem) w.(inFlight) w.(requests) w.(threads).

Section Exporter.
Context {U : UnicodeTables} {PN : PrometheusNames} {N : SSHNames} {PH : Promhttp} {W : Network}.
Context (f : flags).

Abbreviation handler_step := (step (handler_options f) serve_probe).

(** Requests interleave with the steps of reloads, whether a SIGHUP or a POST to
    /-/reload started them. *)
Inductive exporter_step : exporter → exporter → Prop :=
  | ex_request w w' m p ls :
      handler_step w w' → w'.(live) = w.(live) →
      exporter_step (mkExporter w m p ls) (mkExporter w' m p ls)
  | ex_lock w m ls : exporter_step (mkExporter w m Unlocked ls) (mkExporter w m Locked ls)
  | ex_load w m ls l : exporter_step (mkExporter w m Locked ls) (mkExporter w m (LoadReturned l) ls)
  | ex_successful w m ls l :
      exporter_step (mkExporter w m (LoadReturned l) ls)
        (mkExporter w (set_successful m (config_Load f l)) (Recording l) ls)
  | ex_timestamp w m ls l :
      exporter_step (mkExporter w m (Recording l) ls)
        (mkExporter w (set_timestamp m (config_Load f l) l.(ld_now)) (Recorded l) ls)
  | ex_store w m ls l :
      let live' := match config_Load f l with Ok modules => modules | Fail _ => w.(live) end in
      exporter_step (mkExporter w m (Recorded l) ls) (mkExporter (with_live w live') m Unlocked (ls ++ [l])).

(** What [main] starts with. *)
Definition boot (s : reload_state (A := gmap gostring Module_)) : exporter :=
  mkExporter (initial s.(rl_live)) s.(rl_metrics) Unlocked [].

Definition running_exporter (s : reload_state) (ex : exporter) : Prop := rtc exporter_step (boot s) ex.

Lemma running_step s ex ex' : running_exporter s ex → exporter_step ex ex' → running_exporter s ex'.
Proof. intros Hr Hs. by eapply rtc_r. Qed.

(** What holds at the start and is kept by every step of a running exporter. *)
Lemma running_ind (P : exporter → Prop) s :
  P (boot s) → (∀ ex ex', running_exporter s ex → P ex → exporter_step ex ex' → P ex') →
  ∀ ex, running_exporter s ex → P ex.
Proof. intros H0 Hstep. apply rtc_ind_r; [done|]. intros ex ex' Hr Hs IH. by eapply Hstep. Qed.

(** The handler is in one of its own reachable states. *)
Lemma exporter_handler s ex :
  running_exporter s ex → reachable (handler_options f) serve_probe ex.(ex_world).
Proof.
  intros Hr. exists s.(rl_live). revert ex Hr. apply running_ind; [done|].
  intros ex ex' _ IH Hs. inversion Hs; subst; cbn [ex_world] in *; try done; (eapply rtc_r; [exact IH|]);
    [done|by apply step_reload].
Qed.

(** *** Reloads *)

(** The reloads that finished, one after the other. *)
Definition reloaded (s : reload_state) (ls : list loading) : reload_state :=
  reload_all s (map (λ l, (config_Load f l, l.(ld_now))) ls).

Lemma reloaded_snoc s ls l :
  reloaded s (ls ++ [l]) = (reload (reloaded s ls) (config_Load f l) l.(ld_now)).1.
Proof. unfold reloaded, reload_all. by rewrite map_app, fold_left_app. Qed.

(** The live configuration and the gauges are those of the reloads that finished,
    up to the gauges of the reload in progress. *)
Definition reloads_atomic (s : reload_state) (ex : exporter) : Prop :=
  let done := reloaded s ex.(ex_loads) in
  ex.(ex_world).(live) = done.(rl_live)
  ∧ ex.(ex_metrics) = match ex.(ex_reload) with
                      | Recording l => set_successful done.(rl_metrics) (config_Load f l)
                      | Recorded l => record_reload done.(rl_metrics) (config_Load f l) l.(ld_now)
                      | _ => done.(rl_metrics)
                      end.

Lemma running_atomic s : ∀ ex, running_exporter s ex → reloads_atomic s ex.
Proof.
  apply running_ind; [done|]. intros ex ex' _ [Hl Hm] Hs. unfold reloads_atomic in *. cbv zeta in *.
  inversion Hs as [w w' m p ls Hw Hlive|w m ls|w m ls l|w m ls l|w m ls l|w m ls l live']; subst ex ex';
    cbn [ex_world ex_metrics ex_reload ex_loads] in *; subst m; try done.
  - split; [congruence|done].
  - rewrite reloaded_snoc. unfold reload, live', with_live. cbn [live]. by destruct (config_Load f l).
Qed.

(** The reload that holds the mutex, if one does, has not touched the gauges. *)
Definition gauges_settled (p : reload_progress) : Prop :=
  match p with Recording _ | Recorded _ => False | _ => True end.

(** C11: reloads look atomic, although a reload sets two gauges and swaps the
    configuration in separate steps that requests and scrapes can see between: the
    configuration served is always that of the finished reloads run one after the
    other, and so are the gauges whenever no reload is between setting them and
    finishing. *)
Theorem reloads_refine_sequence s ex :
  running_exporter s ex →
  ex.(ex_world).(live) = (reloaded s ex.(ex_loads)).(rl_live)
  ∧ (gauges_settled ex.(ex_reload) →
     mkReload ex.(ex_world).(live) ex.(ex_metrics) = reloaded s ex.(ex_loads)).
Proof.
  intros [Hl Hm]%running_atomic. split; [done|]. intros Hno. rewrite Hl, Hm.
  destruct (ex_reload ex); try done; by destruct (reloaded _ _).
Qed.

(** *** Requests *)

(** The request was checked, and passed, at a moment of the run that led here:
    against the configuration that was live just then. *)
Record checked_live (s : reload_state) (ex : exporter) (i : nat) (r : Request) (adm : admission)
    (before after : exporter) : Prop := {
  cl_before : running_exporter s before;
  cl_step : exporter_step before after;
  cl_after : rtc exporter_step after ex;
  cl_received : before.(ex_world).(threads) !! i = Some (Received r);
  cl_allowed : after.(ex_world).(threads) !! i = Some (Allowed r adm);
  cl_check : check before.(ex_world).(live) r = Ok adm
}.

Definition was_checked (s : reload_state) (ex : exporter) (i : nat) (r : Request) (adm : admission) : Prop :=
  ∃ before after, checked_live s ex i r adm before after.

Definition requests_checked (s : reload_state) (ex : exporter) : Prop :=
  ∀ i p, ex.(ex_world).(threads) !! i = Some p →
    match p with
    | Allowed r adm | Acquired r adm => was_checked s ex i r adm
    | Running r adm t => was_checked s ex i r adm
        ∧ t = effectiveTimeout r.(scrape_timeout) f.(ProbeTimeout) probeTimeoutOffset
    | _ => True
    end.

Lemma was_checked_step s ex ex' i r adm :
  was_checked s ex i r adm → exporter_step ex ex' → was_checked s ex' i r adm.
Proof.
  intros (before & after & [H1 H2 H3 H4 H5 H6]) Hs. exists before, after. split; try done. by eapply rtc_r.
Qed.

Lemma requests_checked_later s ex ex' :
  requests_checked s ex → exporter_step ex ex' → ex'.(ex_world).(threads) = ex.(ex_world).(threads) →
  requests_checked s ex'.
Proof.
  intros Hc Hs Ht i p Hi. rewrite Ht in Hi. specialize (Hc i p Hi).
  destruct p; try done; [by eapply was_checked_step..|]. destruct Hc. split; [by eapply was_checked_step|done].
Qed.

Lemma running_checked s : ∀ ex, running_exporter s ex → requests_checked s ex.
Proof.
  apply running_ind; [intros i p; cbn; by rewrite lookup_empty|]. intros ex ex' Hr Hc Hstep.
  inversion Hstep as [w w' m p ls Hs Hlive| | | | |]; subst; try (by eapply requests_checked_later).
  assert (Hk : ∀ j q, threads w !! j = Some q → match q with
    | Allowed r adm | Acquired r adm => was_checked s (mkExporter w' m p ls) j r adm
    | Running r adm t => was_checked s (mkExporter w' m p ls) j r adm
        ∧ t = effectiveTimeout r.(scrape_timeout) f.(ProbeTimeout) probeTimeoutOffset
    | _ => True end).
  { intros j q Hj. specialize (Hc j q Hj). destruct q; try done; [by eapply was_checked_step..|].
    destruct Hc. split; [by eapply was_checked_step|done]. }
  intros j q. cbn [ex_world] in Hk |- *.
  inversion Hs; subst; cbn [threads]; unfold set_phase; try apply Hk;
    (destruct (decide (j = i)) as [->|]; [rewrite lookup_insert_eq; intros [= <-]|rewrite lookup_insert_ne by done; apply Hk]);
    try done;
    try (match goal with H : threads _ !! _ = Some _ |- _ => specialize (Hk _ _ H); cbn in Hk end; done).
  eexists _, _. split; [exact Hr|exact Hstep|apply rtc_refl|done|apply lookup_insert_eq|done].
Qed.
End Exporter.

(** ** From the command line to a probe *)

Section EndToEnd.
Context {U : UnicodeTables} {PN : PrometheusNames} {N : SSHNames} {PH : Promhttp} {W : Network}.
Context {KP : Kingpin} {UT : ToUpperTable}.
Context {E : Type} (web_Validate : gostring → option goerror) (softLimit : res E Z).

(** C2: end to end: in an exporter started without --allow-all-targets, whatever
    requests, reloads, failed reloads and edits of the file interleave, a probe
    that runs passed the checks at a moment of the run, and was let through by a
    pattern and a port of the configuration file as the file was at the last load
    that had succeeded by then; its timeout is that of its request, and positive
    and at most --probe.timeout when that is below 2^53 ns (104 days); and no more
    than --probe.max-concurrent probes run. *)
Theorem exporter_probes_allowed args env f l0 s opts warning ex i r adm t :
  parseFlags args env = Ok f → f.(AllowAllTargets) = false →
  main web_Validate softLimit args env l0 = Serving s opts warning →
  running_exporter f s ex → ex.(ex_world).(threads) !! i = Some (Running r adm t) →
  (∃ before after l data cfg, checked_live f s ex i r adm before after
    ∧ list.last (filter (loads_fine f) (l0 :: before.(ex_loads))) = Some l
    ∧ l.(ld_env).(ReadFile) f.(ConfigFile) = Ok data ∧ @decode l.(ld_env) data = Ok cfg
    ∧ pattern_admits cfg adm)
  ∧ t = effectiveTimeout r.(scrape_timeout) f.(ProbeTimeout) probeTimeoutOffset
  ∧ (f.(ProbeTimeout) < 2 ^ 53 - probeTimeoutOffset → 0 < t ≤ f.(ProbeTimeout))
  ∧ (0 < f.(MaxConcurrentProbe) → how_many is_running ex.(ex_world).(threads) ≤ f.(MaxConcurrentProbe)).
Proof.
  intros Hf Hno Hmain Hr Hi. pose proof (running_checked f s ex Hr i _ Hi) as [(before & after & Hb) ->].
  pose proof (cl_check _ _ _ _ _ _ _ _ Hb) as Hcheck.
  destruct (running_atomic f s before (cl_before _ _ _ _ _ _ _ _ Hb)) as [Hl _]. rewrite Hl in Hcheck.
  destruct (served_from_loaded_file _ _ _ _ _ _ _ _ _ (ex_loads before) r adm Hf Hno Hmain Hcheck) as [(l & data & cfg & ?) _].
  split_and!; [by exists before, after, l, data, cfg|done|..].
  - intros Hmax. apply (validated_timeouts f (scrape_timeout r) (parseFlags_valid _ _ _ Hf) Hmax).
  - intros Hmax. apply exporter_handler in Hr. by apply (running_bounded (handler_options f) serve_probe).
Qed.
End EndToEnd.

(** ** An exporter that reloads, and probes *)

Section ExporterDemo.
#[local] Existing Instance caseless.
#[local] Existing Instance demo_ssh_names.
#[local] Existing Instance demo_prometheus.
#[local] Existing Instance demo_prometheus_laws.
#[local] Existing Instance demo_promhttp.
#[local] Existing Instance demo_network.
#[local] Existing Instance demo_kingpin.
#[local] Existing Instance demo_upper.

Abbreviation reaches := (rtc (exporter_step start_flags)).

Definition reloaded_once : exporter := mkExporter w0 (mkMetrics 1 8) Unlocked [demo_loading 8].

Lemma demo_config_load now : config_Load start_flags (demo_loading now) = Ok demo_modules.
Proof. exact demo_load. Qed.

Lemma demo_recorded : reaches (boot started) (mkExporter w0 (mkMetrics 1 8) (Recorded (demo_loading 8)) []).
Proof.
  eapply rtc_l; [apply ex_lock|]. eapply rtc_l; [apply (ex_load _ _ _ _ (demo_loading 8))|].
  eapply rtc_l; [apply ex_successful|]. apply rtc_once.
  pose proof (ex_timestamp start_flags w0 (mkMetrics 1 7) [] (demo_loading 8)) as Hs.
  by rewrite demo_config_load in Hs |- *.
Qed.

Lemma demo_reload : reaches (boot started) reloaded_once.
Proof.
  etransitivity; [exact demo_recorded|]. apply rtc_once.
  pose proof (ex_store start_flags w0 (mkMetrics 1 8) [] (demo_loading 8)) as Hs. cbv zeta in Hs.
  by rewrite demo_config_load in Hs.
Qed.

Lemma reloads_refine_sequence_witness :
  mkReload demo_modules (mkMetrics 1 8) = reloaded start_flags started [demo_loading 8].
Proof. exact (proj2 (reloads_refine_sequence start_flags started reloaded_once demo_reload) I). Defined.

(** The probe of a request that came after the reload. *)
Definition probing : exporter := mkExporter w4 (mkMetrics 1 8) Unlocked [demo_loading 8].

Lemma probing_reached : reaches (boot started) probing.
Proof.
  etransitivity; [exact demo_reload|].
  eapply rtc_l; [apply ex_request; [exact (step_arrive _ _ w0 0 req eq_refl)|done]|].
  eapply rtc_l; [apply ex_request; [exact (step_admit _ _ w1 0 req demo_admission (lookup_set_phase _ _ _) demo_check)|done]|].
  eapply rtc_l; [apply ex_request; [exact (step_acquire (handler_options start_flags) serve_probe w2 0 req demo_admission 1 (lookup_set_phase _ _ _) eq_refl)|done]|].
  apply rtc_once. apply ex_request; [|done].
  exact (step_start (handler_options start_flags) serve_probe w3 0 req demo_admission (lookup_set_phase _ _ _)).
Qed.

Lemma exporter_probes_allowed_witness : 0 < demo_timeout ≤ 5000000000.
Proof.
  refine (proj1 (proj2 (proj2 (exporter_probes_allowed (λ _, None) (Ok 4096 : res string Z) start_args no_env start_flags
    (demo_loading 7) started (handler_options start_flags) false probing 0 req demo_admission demo_timeout
    start_parsed eq_refl _ probing_reached (lookup_set_phase _ _ _)))) _); [|reflexivity].
  apply main_Serving. exists start_flags.
  split_and!; first [exact start_parsed | exact demo_load | reflexivity].
Defined.
End ExporterDemo.
