(* ===== verification/Pages.v ===== *)
(** * main.go and internal/buildinfo: the pages and the registered names

    What the mux answers besides probes and the exporter's own metrics: the landing
    page with the version of the build, the health checks and the reload endpoint;
    and the names [main] registers with the default registry. *)

From S2P Require Import Prelude GoStrings GoErrors Collector Config ProbeHttp ProbeServe Scrape Main.
Open Scope Z_scope.

(** ** Build information *)

(** The variables of the package, which the linker may have overridden. *)
Record build := mkBuild { Version : gostring; Revision : gostring; Branch : gostring; BuildDate : gostring }.

Definition snapshot : build := mkBuild "snapshot" "unknown" "unknown" "unknown".

(** The variables of prometheus/common/version, which its collector reports; the
    [init] of buildinfo sets four of them. *)
Record version_vars := mkVersion {
  v_Version : gostring; v_Revision : gostring; v_Branch : gostring; v_BuildDate : gostring; v_BuildUser : gostring
}.
Definition buildinfo_init (b : build) (v : version_vars) : version_vars :=
  mkVersion b.(Version) b.(Revision) b.(Branch) b.(BuildDate) v.(v_BuildUser).

(** ** html.EscapeString *)

Definition escape_byte (c : ascii) : gostring :=
  if bool_decide (c = "&"%char) then "&amp;"
  else if bool_decide (c = "'"%char) then "&#39;"
  else if bool_decide (c = "<"%char) then "&lt;"
  else if bool_decide (c = ">"%char) then "&gt;"
  else if bool_decide (c = "034"%char) then "&#34;"
  else [c].
Definition EscapeString (s : gostring) : gostring := concat (map escape_byte s).

(** The bytes that could end the text of an element or an attribute. *)
Definition markup (c : ascii) : bool :=
  bool_decide (c = "'"%char) || bool_decide (c = "<"%char) || bool_decide (c = ">"%char)
  || bool_decide (c = "034"%char).

Lemma escape_byte_safe b : forallb (λ c, negb (markup c)) (escape_byte b) = true.
Proof. destruct b as [[] [] [] [] [] [] [] []]; vm_compute; reflexivity. Qed.

Lemma EscapeString_no_markup s c : c ∈ EscapeString s → markup c = false.
Proof.
  unfold EscapeString. intros Hc. apply list_elem_of_In in Hc.
  apply (proj1 (in_concat _ _)) in Hc as (l & Hl & Hc). apply (proj1 (in_map_iff _ _ _)) in Hl as (b & <- & _).
  apply negb_true_iff. exact (proj1 (forallb_forall _ _) (escape_byte_safe b) c Hc).
Qed.

(** What a browser reads back: the reference at the front, if there is one. *)
Definition references : list (gostring * ascii) :=
  [(("&amp;" : gostring), "&"%char); (("&#39;" : gostring), "'"%char); (("&lt;" : gostring), "<"%char);
   (("&gt;" : gostring), ">"%char); (("&#34;" : gostring), "034"%char)].

Inductive reads_as : gostring → gostring → Prop :=
  | reads_nil : reads_as [] []
  | reads_plain c t s : c ≠ "&"%char → reads_as t s → reads_as (c :: t) (c :: s)
  | reads_reference r c t s : (r, c) ∈ references → reads_as t s → reads_as (r ++ t) (c :: s).

Lemma EscapeString_reads s : reads_as (EscapeString s) s.
Proof.
  induction s as [|c s IH]; [constructor|]. unfold EscapeString. cbn [map concat]. fold (EscapeString s).
  unfold escape_byte.
  repeat (case_bool_decide; [subst; apply reads_reference; [|done]; apply list_elem_of_In; cbn; tauto|]).
  by apply reads_plain.
Qed.

(** ** The pages *)

Record response := mkResponse { code : Z; content_type : gostring; body : gostring }.

Definition newline : gostring := ["010"%char].
Definition text_plain : gostring := "text/plain; charset=utf-8".
Definition text_html : gostring := "text/html; charset=utf-8".

(** [http.Error] *)
Definition http_Error (message : gostring) (status : Z) : response := mkResponse status text_plain (message ++ newline).

Definition quote : gostring := ["034"%char].
Definition link (address : gostring) : gostring := "<a href=" ++ quote ++ address ++ quote ++ ">".

(** The lines of the page before the version and after it. *)
Definition page_head : list gostring :=
  [("<html>" : gostring); ("<head><title>SSH Transport Exporter</title></head>" : gostring); ("<body>" : gostring);
   ("<h1>SSH Transport Exporter</h1>" : gostring)].
Definition page_tail : list gostring :=
  [link "/metrics" ++ "<code>/metrics</code></a> exposes the exporter's own metrics.</p>";
   ("<p><code>/probe?target=&lt;host&gt;&amp;module=&lt;module&gt;</code> runs a probe and returns its result.</p>" : gostring);
   ("</body>" : gostring); ("</html>" : gostring)].
Definition page_lines (l : list gostring) : gostring := concat (map (λ s, s ++ newline) l).

Definition landingPage (b : build) : gostring :=
  page_lines page_head
  ++ "<p>Version <code>" ++ EscapeString b.(Version) ++ "</code>, "
  ++ link "https://github.com/raphaelthomas/ssh_transport_exporter" ++ "source and documentation</a>.</p>" ++ newline
  ++ "<p>" ++ page_lines page_tail.

Definition landingPageHandler (b : build) : response := mkResponse 200 text_html (landingPage b).
Definition healthHandler : response := mkResponse 200 text_plain ("OK" ++ newline).

Section Pages.
Context {E A : Type} (b : build).

(** [reloader.ServeHTTP], with the body it writes. *)
Definition reload_response (s : reload_state (A := A)) (loaded : res E A) (now : Z) : reload_state * response :=
  let '(s', err) := reload s loaded now in
  (s', match err with
       | Some _ => http_Error "config reload failed, keeping previous config" 500
       | None => mkResponse 200 text_plain ("OK" ++ newline)
       end).

(** The handler the mux picks, as far as it is the exporter's own; /metrics and
    /probe answer through promhttp. *)
Definition serve_page (s : reload_state) (loaded : res E A) (now : Z) (method path : gostring) : reload_state * option response :=
  match route method path with
  | LandingPage => (s, Some (landingPageHandler b))
  | Health => (s, Some healthHandler)
  | ReloadEndpoint => let '(s', r) := reload_response s loaded now in (s', Some r)
  | Metrics | Probe_ => (s, None)
  | NotFound => (s, Some (http_Error "404 page not found" 404))
  | MethodNotAllowed => (s, Some (http_Error "Method Not Allowed" 405))
  end.

Lemma reload_route method path :
  route method path = ReloadEndpoint ↔ method = ("POST" : gostring) ∧ path = ("/-/reload" : gostring).
Proof.
  unfold route. split.
  - intros H. repeat (case_bool_decide; cbn [orb] in H; try (discriminate || done)).
  - by intros [-> ->].
Qed.

(** The mux keeps reloading apart: only a POST to /-/reload reloads, and its
    answer tells what happened, 200 when the configuration served is the one just
    loaded, 500 when the previous one is kept and the gauge says so; every other
    request leaves the configuration and the gauges as they are. *)
Theorem only_post_reloads s loaded now method path :
  let '(s', r) := serve_page s loaded now method path in
  if bool_decide (method = ("POST" : gostring) ∧ path = ("/-/reload" : gostring)) then
    (code <$> r = Some 200 ↔ loaded = Ok s'.(rl_live)) ∧ (code <$> r = Some 500 ↔ is_ok loaded = false)
    ∧ s'.(rl_metrics).(successful) = (if is_ok loaded then 1 else 0)
    ∧ (is_ok loaded = false → s'.(rl_live) = s.(rl_live) ∧ s'.(rl_metrics).(timestamp) = s.(rl_metrics).(timestamp))
  else s' = s.
Proof.
  pose proof (reload_route method path) as Hr. unfold serve_page. case_bool_decide as Hp.
  - rewrite (proj2 Hr Hp). unfold reload_response, reload. destruct loaded; cbn; naive_solver.
  - destruct (route method path); try done. by destruct (Hp (proj1 Hr eq_refl)).
Qed.

(** The health checks answer 200 to GET and HEAD, and nothing else does so there. *)
Lemma health_checks s loaded now method path :
  path = ("/-/healthy" : gostring) ∨ path = ("/-/ready" : gostring) →
  (serve_page s loaded now method path).2
  = Some (if bool_decide (method = ("GET" : gostring)) || bool_decide (method = ("HEAD" : gostring))
          then healthHandler else http_Error "Method Not Allowed" 405).
Proof. unfold serve_page, route. intros [->| ->]; cbn; by repeat case_bool_decide. Qed.
End Pages.

(** ** The default registry *)

Section Registry.
Context `{PrometheusLaws}.

Definition exporter_namespace : gostring := "ssh_transport_exporter".

(** [newConfigReloadMetrics], [probe_requests_total] and [probes_in_flight], in the
    order [main] registers them; the collector of version information is a
    library's. *)
Definition config_reload_descs : list Desc :=
  [NewDesc (BuildFQName exporter_namespace [] "config_last_reload_successful") [];
   NewDesc (BuildFQName exporter_namespace [] "config_last_reload_success_timestamp_seconds") []].
Definition probe_requests_desc : Desc :=
  NewDesc (BuildFQName exporter_namespace [] "probe_requests_total") [("module" : gostring); ("code" : gostring)].
Definition probes_in_flight_desc : Desc := NewDesc (BuildFQName exporter_namespace [] "probes_in_flight") [].
Definition registered : list Desc := config_reload_descs ++ [probe_requests_desc; probes_in_flight_desc].

(** [MustRegister] does not panic at start-up, and no name is one that a probe
    reports. *)
Lemma registered_registrable : registrable (registered ++ Describe).
Proof.
  split.
  - unfold registered, config_reload_descs, probe_requests_desc, probes_in_flight_desc, Describe.
    cbn [app map]. names. apply (bool_decide_eq_true_1 _). vm_compute. reflexivity.
  - apply list.Forall_app. split; [|apply Describe_registrable].
    unfold registered, config_reload_descs, probe_requests_desc, probes_in_flight_desc. cbn [app].
    rewrite !BuildFQName_no_subsystem by done. well_named.
Qed.
End Registry.
