(* ===== verification/SshTest.v ===== *)
(** * internal/sshtest/sshtest.go: the servers the probe is tested against

    Each helper listens on a port of 127.0.0.1 and runs an accept loop; what differs
    is what it does with a connection.  The loops and the handlers are lists of
    the calls they make; TCP and the server of x/crypto/ssh are parameters.  The
    theorems close the loop with [Run]: no probe ever authenticates, and the
    helpers provoke the failures they are written for. *)

From S2P Require Import Prelude GoStrings GoNetip GoNet GoFloat GoErrors HostKey Identification Probe ProbeRun ProbeFailure.
Open Scope Z_scope.

(** ** Listening *)

Definition loopback : gostring := "127.0.0.1".

(** [ln.Addr().String()] of a listener on 127.0.0.1 with a port. *)
Definition listen_addr (port : Z) : gostring := JoinHostPort loopback (Itoa port).

(** [t.Fatalf] ends the test. *)
Definition fatal : Type := string * goerror.

(** The goroutine of a listener: a handler for each connection, until Accept
    fails, which it does once cleanup has closed the listener. *)
Fixpoint accept_loop {C A} (handle : C → A) (accepts : list (res goerror C)) : list A :=
  match accepts with
  | Ok conn :: accepts => handle conn :: accept_loop handle accepts
  | _ => []
  end.

Lemma accept_loop_all {C A} (handle : C → A) conns e accepts :
  accept_loop handle (map Ok conns ++ Fail e :: accepts) = map handle conns.
Proof. induction conns as [|c conns IH]; [done|]. cbn. by rewrite IH. Qed.

(** Calls on an accepted connection. *)
Inductive conn_call :=
  | SetReadDeadline (after : Z)
  | ReadString (delim : ascii)
  | SetLinger (sec : Z)
  | RejectChannel
  | CloseSSH
  | Close.

(** ** The servers that misbehave *)

(** [ClosedPort]: the address of a listener that was closed again. *)
Definition ClosedPort (ln : res goerror Z) (close_err : option goerror) : res fatal gostring :=
  match ln, close_err with
  | Fail e, _ => Fail ("listen"%string, e)
  | Ok _, Some e => Fail ("close"%string, e)
  | Ok port, None => Ok (listen_addr port)
  end.

(** What [HangupServer] does with a connection. *)
Definition hangup_conn (reset is_tcp : bool) : list conn_call :=
  [SetReadDeadline (5 * Second); ReadString "010"] ++ (if is_tcp && reset then [SetLinger 0] else []) ++ [Close].

Definition HangupServer (ln : res goerror Z) (reset : bool) (accepts : list (res goerror bool))
    : res fatal (gostring * list (list conn_call)) :=
  match ln with
  | Fail e => Fail ("listen"%string, e)
  | Ok port => Ok (listen_addr port, accept_loop (hangup_conn reset) accepts)
  end.

(** [SilentServer] keeps its connections for the cleanup. *)
Definition silent_conn : list conn_call := [].

Definition SilentServer (ln : res goerror Z) (accepts : list (res goerror bool))
    : res fatal (gostring * list (list conn_call)) :=
  match ln with
  | Fail e => Fail ("listen"%string, e)
  | Ok port => Ok (listen_addr port, accept_loop (λ _, silent_conn) accepts)
  end.

(** ** The server that answers *)

(** [Options] of the package. *)
Record ServerOptions := {
  so_ServerVersion : gostring; so_Ciphers : list gostring;
  so_KeyExchanges : list gostring; so_MACs : list gostring
}.

Record Server := mkTestServer { Addr : gostring; srv_HostKey : PublicKey; authReached : bool }.

Definition AuthReached (s : Server) : bool := s.(authReached).

(** [ssh.ServerConfig]; the callback answers nil and marks the server. *)
Record ServerConfig := {
  NoClientAuth : bool;
  NoClientAuthCallback : Server → Server;
  cfg_ServerVersion : gostring; cfg_Ciphers : list gostring;
  cfg_KeyExchanges : list gostring; cfg_MACs : list gostring;
  hostKeys : list PublicKey
}.

Definition markAuthReached (s : Server) : Server := mkTestServer s.(Addr) s.(srv_HostKey) true.

(** [NewServer] up to its goroutine: the key pair, the signer, the listener. *)
Definition NewServer (generated : option goerror) (signer : res goerror PublicKey) (ln : res goerror Z)
    (opts : ServerOptions) : res fatal (Server * ServerConfig) :=
  match generated with
  | Some e => Fail ("generating host key"%string, e)
  | None =>
      match signer with
      | Fail e => Fail ("NewSignerFromKey"%string, e)
      | Ok key =>
          match ln with
          | Fail e => Fail ("listen"%string, e)
          | Ok port =>
              Ok (mkTestServer (listen_addr port) key false,
                  {| NoClientAuth := true; NoClientAuthCallback := markAuthReached;
                     cfg_ServerVersion := opts.(so_ServerVersion); cfg_Ciphers := opts.(so_Ciphers);
                     cfg_KeyExchanges := opts.(so_KeyExchanges); cfg_MACs := opts.(so_MACs);
                     hostKeys := [key] |})
          end
      end
  end.

Definition Port (s : Server) : option gostring := snd <$> SplitHostPort s.(Addr).

(** What [ssh.NewServerConn] makes of a client: whether the client asked for
    authentication, which calls the callback, and the error or the number of
    channels the client opens. *)
Record server_session := mkSession { asked : bool; established : res goerror nat }.

Definition serve_conn (cfg : ServerConfig) (s : Server) (c : server_session) : Server * list conn_call :=
  (if c.(asked) then cfg.(NoClientAuthCallback) s else s,
   match c.(established) with
   | Fail _ => [Close]
   | Ok channels => repeat RejectChannel channels ++ [CloseSSH; Close]
   end).

(** The connections share the server; their goroutines only ever set its flag, so
    any order gives the same one. *)
Definition serve_conns (cfg : ServerConfig) (s : Server) (cs : list server_session) : Server :=
  fold_left (λ s c, (serve_conn cfg s c).1) cs s.

Lemma SplitHostPort_listen port : 0 ≤ port ≤ 65535 → SplitHostPort (listen_addr port) = Some (loopback, Itoa port).
Proof.
  intros Hp. apply SplitHostPort_JoinHostPort_ok; [..|apply Itoa_nonneg; lia];
    apply (bool_decide_eq_true_1 _); vm_compute; reflexivity.
Qed.

(** The port of a server that was started can be dialed again. *)
Lemma NewServer_Port generated signer port opts s cfg :
  0 ≤ port ≤ 65535 → NewServer generated signer (Ok port) opts = Ok (s, cfg) →
  Port s = Some (Itoa port) ∧ Atoi (Itoa port) = Some port.
Proof.
  intros Hp. unfold NewServer. destruct generated, signer; try done. intros [= <- _].
  unfold Port. cbn [Addr]. rewrite SplitHostPort_listen by done. split; [done|]. apply Atoi_Itoa. unfold max_int64. lia.
Qed.

(** ** No probe authenticates *)

Section Auth.
Context {N : SSHNames}.

(** The client goes on to user authentication when its transport callback
    answers nil. *)
Fixpoint requests_auth (cb : HostKeyCallback) (h : handshake) (st : hs_state) : bool :=
  match h with
  | HsReturn _ => false
  | HsRead chunk now k =>
      requests_auth cb k {| conn := Read st.(conn) chunk now; hostKeyResultCh := st.(hostKeyResultCh); result := st.(result) |}
  | HsHostKey hostname remote key k =>
      let '(st, e) := hostKeyCallback cb hostname remote key st in requests_auth cb (k e) st
  | HsReady now algs k =>
      match transportReady now algs st with
      | (_, None) => true
      | (st, Some e) => requests_auth cb (k (Some e)) st
      end
  end.

Lemma requests_auth_never cb h st : requests_auth cb h st = false.
Proof. revert st. induction h as [err|chunk now k IH|ho re key k IH|now algs k IH]; intros st; cbn; [done|..]; apply IH. Qed.

(** A session of the server with a probe. *)
Definition probe_session (env : Env) (target : gostring) (opts : Options) (c : server_session) : Prop :=
  c.(asked) = match reportDial env target with
              | Ok r => requests_auth (configuredCallback opts) (handshakeOf env target opts) (mkState new_watcher None r)
              | Fail _ => false
              end.

Lemma probe_session_unasked env target opts c : probe_session env target opts c → c.(asked) = false.
Proof. unfold probe_session. intros ->. destruct (reportDial env target); [apply requests_auth_never|done]. Qed.

Lemma serve_conns_unasked cfg s sessions :
  Forall (λ c, c.(asked) = false) sessions → serve_conns cfg s sessions = s.
Proof. unfold serve_conns, serve_conn. induction 1 as [|c cs Hc _ IH]; [done|]. cbn. by rewrite Hc. Qed.

(** C4: the exporter never authenticates: whatever a server offers and whatever
    key it shows, the transport callback of a probe never lets the SSH client go on
    to authentication, so a test server that any number of probes reach never
    records a request for it. *)
Theorem probes_never_authenticate generated signer ln sopts s cfg sessions :
  NewServer generated signer ln sopts = Ok (s, cfg) →
  Forall (λ c, ∃ env target opts, probe_session env target opts c) sessions →
  AuthReached (serve_conns cfg s sessions) = false.
Proof.
  unfold NewServer. destruct generated, signer, ln; try done. intros [= <- <-] Hall.
  rewrite serve_conns_unasked; [done|]. eapply list.Forall_impl; [exact Hall|].
  intros c (env & target & opts & Hc). by eapply probe_session_unasked.
Qed.
End Auth.

(** ** What the helpers provoke *)

(** What a client of a peer that has written nothing reads, as TCP has it. *)
Class TcpPeer := client_reads : list conn_call → goerror → Prop.

Definition op_error (e : errno) : goerror := Err (NetError false) [Err (Other "os.SyscallError") [errno_error e]].

Class TcpPeerLaws (T : TcpPeer) : Prop := {
  reads_eof calls e :
    client_reads (calls ++ [Close]) e → ReadString "010" ∈ calls → SetLinger 0 ∉ calls → e = io_EOF;
  reads_reset calls e : client_reads (calls ++ [SetLinger 0; Close]) e → e = op_error ECONNRESET
}.

(** The client of x/crypto/ssh whose peer sends nothing before its reads fail:
    the version exchange fails, and its error is wrapped. *)
Inductive no_identification (read_err : goerror) : handshake → Prop :=
  | ni_read now k : no_identification read_err k → no_identification read_err (HsRead [] now k)
  | ni_return : no_identification read_err (HsReturn (Some (Errorf "ssh: handshake failed" [read_err]))).

Section Provoke.
Context {N : SSHNames} (env : Env) (target : gostring) (opts : Options).

Lemma no_identification_contract e h :
  errors_Is e errAbort = false → no_identification e h → client_contract [] false h.
Proof.
  intros He. induction 1 as [now k _ IH|]; [by apply cc_read|]. apply cc_return. by rewrite errors_Is_wrap by discriminate.
Qed.

Lemma no_identification_trace e h :
  no_identification e h →
  stream (chunks (trace h).1) = [] ∧ first_key (trace h).1 = None
  ∧ (trace h).2 = Some (Errorf "ssh: handshake failed" [e]).
Proof. induction 1 as [now k _ IH|]; [|done]. cbn. by destruct (trace k). Qed.

(** A peer that sends nothing: the phase, and the class of what ended the reads. *)
Lemma unidentified c e :
  env.(DialContext) target = Ok c → errors_Is e errAbort = false → no_identification e (handshakeOf env target opts) →
  (Run env target opts).(ErrorPhase) = ErrPhaseVersionExchange
  ∧ (Run env target opts).(ErrorReason) = classifyKexError env.(ctx_Err_kex) (Errorf "ssh: handshake failed" [e]).
Proof.
  intros Hd He Hn. pose proof (no_identification_contract _ _ He Hn) as Hc.
  destruct (no_identification_trace _ _ Hn) as (Hs & Hk & Herr).
  assert (first_key (events env target opts) = None) as Hk' by done.
  destruct (Run_failure env target opts Hc) as [-> ->].
  - apply not_true_iff_false. rewrite Run_ok by done. intros (_ & _ & h & r & k & Hf & _). congruence.
  - unfold key_refused, key_outcome. by rewrite Hd, Hk'.
  - unfold stopped_in, cause_reason, events, handshakeErr. by rewrite Hd, Hs, Herr.
Qed.
End Provoke.

Section Provoked.
Context {N : SSHNames} `{TcpPeerLaws}.

Lemma isHostname_listen port : 0 ≤ port ≤ 65535 → isHostname (listen_addr port) = false.
Proof. intros Hp. unfold isHostname. rewrite SplitHostPort_listen by done. vm_compute. reflexivity. Qed.

(** The servers of the tests provoke the failures they stand for: a closed
    port a refused connection, a peer that hangs up, with or without a reset,
    before it identifies itself a connection reset in the version exchange, and a
    silent peer the end of the probe's own context there. *)
Theorem test_servers_provoke env opts port :
  0 ≤ port ≤ 65535 →
  let target := listen_addr port in
  let res := Run env target opts in
  (env.(DialContext) target = Fail (op_error ECONNREFUSED) → env.(ctx_Err_dial) = None →
     res.(ErrorPhase) = ErrPhaseTCPConnect ∧ res.(ErrorReason) = ErrReasonConnectionRefused)
  ∧ (∀ c reset e, env.(DialContext) target = Ok c → env.(ctx_Err_kex) = None →
     client_reads (hangup_conn reset true) e → no_identification e (handshakeOf env target opts) →
     res.(ErrorPhase) = ErrPhaseVersionExchange ∧ res.(ErrorReason) = ErrReasonConnectionReset)
  ∧ (∀ c stopped, env.(DialContext) target = Ok c → env.(ctx_Err_kex) = Some stopped →
     classifyContextError (Some stopped) ≠ [] →
     no_identification net_ErrClosed (handshakeOf env target opts) →
     res.(ErrorPhase) = ErrPhaseVersionExchange ∧ res.(ErrorReason) = classifyContextError (Some stopped)).
Proof.
  intros Hp. cbv zeta. split_and!.
  - intros Hd Hctx. destruct (Run_dial_failed env (listen_addr port) opts _ Hd) as (r & Hr & ->).
    destruct (reportDial_Fail env (listen_addr port) r _ Hr Hd) as (_&_&_&_&_&_&_&He&Hre&_). cbn.
    rewrite He, Hre, isHostname_listen, Hctx by done. split; [done|]. vm_compute. reflexivity.
  - intros c reset e Hd Hctx Hread Hn.
    assert (e = io_EOF ∨ e = op_error ECONNRESET) as He.
    { destruct reset; [right; by apply (reads_reset [SetReadDeadline (5 * Second); ReadString "010"])|left].
      apply (reads_eof [SetReadDeadline (5 * Second); ReadString "010"]); [done|..].
      - apply elem_of_cons. right. apply list_elem_of_here.
      - rewrite !elem_of_cons, elem_of_nil. by intros [?|[?|[]]]. }
    destruct (unidentified env (listen_addr port) opts c e Hd) as [-> ->]; [by destruct He; subst|done|].
    rewrite Hctx. split; [done|]. destruct He; subst; vm_compute; reflexivity.
  - intros c stopped Hd Hctx Hst Hn.
    destruct (unidentified env (listen_addr port) opts c net_ErrClosed Hd) as [-> ->]; [done..|].
    split; [done|]. rewrite Hctx. unfold classifyKexError. by rewrite bool_decide_eq_false_2.
Qed.
End Provoked.

(** ** Probes of the servers *)

Section SshTestDemo.
#[local] Existing Instance demo_ssh_names.

(** A TCP that does just that. *)
#[local] Instance demo_tcp : TcpPeer := λ calls e,
  (∃ pre, calls = pre ++ [SetLinger 0; Close] ∧ e = op_error ECONNRESET)
  ∨ (∃ pre, calls = pre ++ [Close] ∧ SetLinger 0 ∉ pre ∧ e = io_EOF).
#[local] Instance demo_tcp_laws : TcpPeerLaws demo_tcp.
Proof.
  assert (∀ pre : list conn_call, pre ++ [SetLinger 0; Close] = (pre ++ [SetLinger 0]) ++ [Close]) as Hassoc
    by (intros pre; by rewrite <- app_assoc).
  split.
  - intros calls e [(pre & Heq & _)|(pre & _ & _ & ->)] _ Hno; [|done]. rewrite Hassoc in Heq.
    apply app_inj_tail in Heq as [-> _]. destruct Hno. apply elem_of_app. right. apply list_elem_of_here.
  - intros calls e [(pre & _ & ->)|(pre & Heq & Hno & _)]; [done|]. rewrite Hassoc in Heq.
    apply app_inj_tail in Heq as [<- _]. destruct Hno. apply elem_of_app. right. apply list_elem_of_here.
Qed.

Definition hangup_env : Env := {|
  start := 0; dialStart := 1; attempts := [2]; DialContext := λ _, Ok (Some (Ok 1448)); dialEnd := 3;
  ctx_Err_dial := None; versionExchangeStart := 4;
  ssh_NewClientConn := λ _ _, HsRead [] 5 (HsReturn (Some (Errorf "ssh: handshake failed" [op_error ECONNRESET])));
  ctx_Err_kex := None; finish := 100 |}.

Lemma test_servers_provoke_witness :
  (Run hangup_env (listen_addr 2222) (demo_opts known)).(ErrorReason) = ErrReasonConnectionReset.
Proof.
  refine (proj2 (proj1 (proj2 (test_servers_provoke hangup_env (demo_opts known) 2222 _)) (Some (Ok 1448)) true
    (op_error ECONNRESET) eq_refl eq_refl _ _)).
  - lia.
  - left. by exists [SetReadDeadline (5 * Second); ReadString "010"].
  - apply ni_read, ni_return.
Defined.

(** A server that a probe reached, and that was never asked. *)
Definition any_server : ServerOptions :=
  {| so_ServerVersion := "SSH-2.0-TestServer_1.0"; so_Ciphers := []; so_KeyExchanges := []; so_MACs := [] |}.
Definition test_server : Server := mkTestServer (listen_addr 2222) (PlainKey "ca") false.

Lemma probes_never_authenticate_witness : ∃ cfg, AuthReached
  (serve_conns cfg test_server [mkSession false (Fail io_EOF)]) = false.
Proof.
  eexists. refine (probes_never_authenticate None (Ok (PlainKey "ca")) (Ok 2222) any_server test_server _ _ eq_refl _).
  apply list.Forall_cons. split; [|apply list.Forall_nil_2].
  exists (demo_env (PlainKey "ca")), "h:22", (demo_opts known). vm_compute. reflexivity.
Defined.

(** The connection of a server that hangs up is always closed, whatever else. *)
Example hangup_calls :
  HangupServer (Ok 2222) true [Ok true; Ok false; Fail io_EOF; Ok true]
  = Ok (listen_addr 2222, [[SetReadDeadline (5 * Second); ReadString "010"; SetLinger 0; Close];
                           [SetReadDeadline (5 * Second); ReadString "010"; Close]]).
Proof. reflexivity. Qed.
End SshTestDemo.
